(* ===== verification/_CoqProject ===== *)
-Q . S2P
Prelude.v
Update.v
Arena.v
Crypto.v
Err.v
Slice.v
Posix.v
Double.v
Json.v
Schema.v
Jwt.v
Session.v
Http.v
Wire.v
HttpRequest.v
Middleware.v
Ws.v
Router.v
Inflight.v
Gzip.v
Multipart.v
Sdk.v
HttpsClient.v
Pem.v
ServerState.v
ServerConn.v
ServerRelay.v
ServerInv.v
Tls.v
ServerSafe.v
ServerRelaySafe.v
ServerEvents.v
ServerForward.v
ServerCtrlSafe.v
ServerProps.v
Keeps.v
Builtin.v
Registry.v
App.v
Mcp.v
Services.v
Control.v
Oauth.v
Admin.v
Dispatch.v
DispatchTotal.v
DispatchSafe.v
RequestSafe.v
RequestProps.v
Events.v
EventsSafe.v
LoopSafe.v
Liveness.v
ControlClient.v
Cli.v
CliProps.v
Setup.v
SetupProps.v
Poller.v
Controllers.v
Process.v
LoopProps.v
Lifetime.v
