(* ===== verification/Prelude.v ===== *)
(** * naitron-c: a verification development

    naitron-c is a web application server in C: a gateway process (src/src/core/) that speaks
    HTTP, TLS and WebSocket to clients and hands requests over a binary wire to controller
    processes it starts and supervises, a library shared by both sides (src/src/common/), and
    the command line [ntc].  This development models the C code function by function and
    proves what the parts promise each other.

    ** How code becomes definitions

    Every definition that models code carries a doc comment with the file and lines it
    translates; names are those of the source.  Bytes are integers, a buffer, a slice's
    contents and a C string's contents are lists of them; machine words wrap where the source
    lets them ([u8], [u16], [u32], [u64]).  [None] is undefined behaviour (an access outside a
    buffer, to freed memory, a NULL call, a signed overflow) or a loop that outlived its fuel,
    so a theorem that a function is [Some] says that the C code neither faults nor hangs.
    Stateful code runs in the monad [St] of Update.v, state passing with the same failure.
    What the operating system, the allocator, SQLite, BearSSL and miniz answer is an argument,
    a script in the state, or a class with its laws; theorems hold for all answers.

    ** The parts

    - Prelude, Update, Posix, Err, Slice, Double: words, buffers, formatting, the monad with
      its weakest preconditions, scripted descriptors, err.c, slice.c, IEEE doubles.
    - Arena (arena.c), Crypto (crypto.c), Json (json.c), Schema (schema.c), Jwt (jwt.c),
      Session (session.c), Http (http.c), HttpRequest (http_request.c), Wire (wire.c),
      Ws (ws.c), Router (router.c), Gzip (gzip.c), Registry (registry.c, session_store.c),
      Middleware (middleware.c), Builtin (builtin.c), Mcp (mcp.c): one component each.
    - HttpsClient, Pem, Tls (https_client.c, tls.c): the HTTPS client, the loading of
      certificates, the TLS engine over BearSSL's; Tls.v gives an instance of the class
      [TlsEngine] that the gateway is proved against.
    - Sdk, Multipart, Controllers (controller_sdk.c, controllers/): the other end of the wire.
      Streaming handlers and WebSocket callbacks are programs of SDK calls.
    - Poller (poller_epoll.c, poller_kqueue.c): both backends refine one contract.
    - The gateway (server.c): Inflight (the slot table), ServerState (the state record
      [gateway], a heap of connections and controllers), ServerConn and ServerRelay
      (connections, controllers, relaying), App (the rest of the state), Services, Control,
      Oauth, Admin, Dispatch (from received bytes to the answer), Events (the loop), Setup
      (what [ntc_server_run] does before and after the loop).
    - ControlClient, Cli (control_client.c, color.c, main.c): the command line.
    - Process (log.c, signal.c): the log line, the signal handlers.

    They interact as in the source: Events calls Dispatch, ServerRelay, Services and Control;
    Dispatch parses with HttpRequest, asks Middleware (which verifies with Jwt), routes with
    Router, validates with Schema over Json, answers with ServerConn or forwards with
    ServerRelay over Wire; the reply of a controller comes back through [ctrl_frames].

    ** The theorems

    - Lifetime.v, LoopProps.v: [lifetime_safe] puts set-up, loop and tear-down together:
      whatever the system answers, the set-up fails cleanly or makes a well-formed world, no
      world the loop reaches faults, and the tear-down releases every resource once.
      [gateway_safe] is the loop's part from any well-formed world; the invariant [gw_wf]
      (ServerInv.v) ties the slot table, the connections, the controllers and the services
      together, and [app_ok] (DispatchSafe.v) the rest.
    - RequestProps.v: [request_checked]: a request that reaches a controller was parsed, let
      through, routed and validated, and is what the controller is sent.
    - ServerProps.v: what answering, streaming, forwarding, upgrading, reading frames and the
      death of a controller do on every branch.  Liveness.v: supervision makes progress.
    - Codecs: round trips or exact characterisations of the wire format, WebSocket frames,
      HTTP requests, JSON, base64url, multipart, gzip and chunked bodies; totality of every
      reader on every input.
    - Security: the middleware's gate, key-set and HS256 verification, HMAC and SHA-256
      against their definitions over the whole message, generations of request ids.
    - Refinements: the router (first match, 404 and 405), the session store (a map with expiry
      and eviction), the pollers (a map of registrations), the serve loop of the SDK (one
      answer per frame, in order).
    - CliProps.v: a command reaches the core whole or not at all; [ntc start] runs the server
      once, with the ports asked for, only after no running core was found.

    The invariants and frame lemmas the properties rest on are in the files named ...Inv,
    ...Safe and in Keeps.v; the properties apply them.  Each property with hypotheses has a
    witness that applies it to a concrete input.  Behaviours that differ from a comment or
    from what the code means to do are examples that evaluate the model, such as
    [slashes_bypass_gate], [ws_only_request_faults] and [tls_port_of_env].

    ** Bounds and fuel

    Loops are structural where they can be.  The others have fuel that is shown to be enough:
    two units per byte for the JSON reader, 32 levels for the schema validator (the reader
    builds no more), one more than the bytes left for scanners, for the serve loop and for the
    TLS pump, 32 doublings for the poller's array below 2^30.  Where the fuel bounds what a
    peer may send (the bytes [tls_discard] drops) the theorems hold for every amount.

    ** Not modelled, and why

    - Third-party code: miniz, BearSSL, SQLite and the kernel are parameters; the two socket
      callbacks handed to BearSSL and the seeding of its generator only pass bytes on.
    - Client connections that are still open when the loop ends: the source leaves them to
      the system, and so does the tear-down.  [strdup] failing while the registry is loaded.
    - The control plane is modelled (Control.v), but removing or scaling down a service frees
      controllers that clients still wait for (see [drop_slot]), so its events are not among
      the steps of [gateway_safe] and [lifetime_safe].
    - Unit tests and the integration tests. *)
From Stdlib Require Export ZArith Lia.
From Stdlib Require Import Ascii String.
From stdpp Require Export base tactics option list list_numbers numbers.
Export String.StringSyntax.

Declare Scope c_scope.
Delimit Scope c_scope with c.

(** ** Bytes, buffers and machine words *)

(** A byte is a [Z]; a buffer, a slice's contents and a C string's contents are
    lists of them.  [bytes_ok] says that every element is in range. *)
Abbreviation bytes := (list Z).

Definition is_byte (z : Z) : Prop := (0 <= z < 256)%Z.
Abbreviation bytes_ok := (Forall is_byte).

#[export] Instance is_byte_dec z : Decision (is_byte z).
Proof. unfold is_byte. apply _. Defined.

(** Wrap-around of the unsigned widths the source uses. *)
Definition u8 (z : Z) : Z := (z mod 2 ^ 8)%Z.
Definition u16 (z : Z) : Z := (z mod 2 ^ 16)%Z.
Definition u32 (z : Z) : Z := (z mod 2 ^ 32)%Z.
Definition u64 (z : Z) : Z := (z mod 2 ^ 64)%Z.
Definition SIZE_MAX : Z := (2 ^ 64 - 1)%Z.

(** String literals.  [bs] is the bytes of a literal; [qs] is the same with every
    apostrophe standing for a double quote, for the JSON literals of the source. *)
Definition bs (s : string) : bytes :=
  (fun a => Z.of_N (N_of_ascii a)) <$> list_ascii_of_string s.
Arguments bs _%_string_scope.
Definition qs (s : string) : bytes :=
  (fun c => if (c =? 39)%Z then 34%Z else c) <$> bs s.
Arguments qs _%_string_scope.
Definition crlf : bytes := [13; 10]%Z.

(** ** Memory accesses

    [option] is the monad of C code over a buffer: [None] is an access outside the
    buffer (undefined behaviour), or a loop that outlived its fuel.  A safety theorem
    shows that an operation never returns it. *)

(** The [n] bytes at [off]: what a [memcpy] or [memcmp] reads. *)
Definition mem_range (b : bytes) (off n : nat) : option bytes :=
  if decide (off + n <= List.length b) then Some (take n (drop off b)) else None.

(** Writing [d] at [off]: what a [memcpy] into the buffer does. *)
Definition mem_write (b : bytes) (off : nat) (d : bytes) : option bytes :=
  if decide (off + List.length d <= List.length b)
  then Some (take off b ++ d ++ drop (off + List.length d) b) else None.

(** [memchr] and [memmem]: the first index of a byte, of a substring. *)
Fixpoint memchr (c : Z) (s : bytes) : option nat :=
  match s with
  | [] => None
  | x :: s' => if (x =? c)%Z then Some 0 else S <$> memchr c s'
  end.

Fixpoint memmem (needle hay : bytes) : option nat :=
  if decide (take (List.length needle) hay = needle) then Some 0
  else match hay with
       | [] => None
       | _ :: hay' => S <$> memmem needle hay'
       end.

(** [memcmp(a, b, n) == 0] on the two regions read. *)
Definition memeq (a b : bytes) : bool := bool_decide (a = b).

(** ** C strings and [snprintf] *)

(** The contents of a NUL-terminated string that starts at the head of the list. *)
Fixpoint cstr (s : bytes) : bytes :=
  match s with
  | [] => []
  | c :: s' => if (c =? 0)%Z then [] else c :: cstr s'
  end.

(** What [snprintf(dst, cap, ...)] leaves in [dst] for the formatted text [s]. *)
Definition snprintf (cap : nat) (s : bytes) : bytes := take (cap - 1) s.

(** A slice in a C buffer of [cap] bytes: [snprintf(dst, cap, "%.*s", len, ptr)]. *)
Definition to_cstr (cap : nat) (s : bytes) : bytes := snprintf cap (cstr s).

(** ** Numbers as text *)

Definition digit_char (d : Z) : Z := if (d <? 10)%Z then (48 + d)%Z else (87 + d)%Z.

Fixpoint digits_fuel (fuel : nat) (base z : Z) : bytes :=
  match fuel with
  | O => []
  | S f => (if (z <? base)%Z then [] else digits_fuel f base (z / base)%Z)
           ++ [digit_char (z mod base)]
  end.

(** The digits of a non-negative number; [Z.log2 z + 1] bounds their count. *)
Definition digits (base z : Z) : bytes := digits_fuel (S (Z.to_nat (Z.log2 z))) base z.

(** [%zu]/[%llu], [%zx], [%d]/[%ld], [%02x]. *)
Definition fmt_u (z : Z) : bytes := digits 10 z.
Definition fmt_x (z : Z) : bytes := digits 16 z.
Definition fmt_d (z : Z) : bytes := if (z <? 0)%Z then 45%Z :: digits 10 (- z) else digits 10 z.
Definition fmt_02x (z : Z) : bytes := [digit_char (z / 16); digit_char (z mod 16)].

(** The pieces of [s] between occurrences of [c]. *)
Fixpoint split_on (c : Z) (s : bytes) : list bytes :=
  match s with
  | [] => [[]]
  | x :: s =>
      if (x =? c)%Z then [] :: split_on c s
      else match split_on c s with [] => [[x]] | l :: ls => (x :: l) :: ls end
  end.

(** ** Automation *)

Create HintDb naitron.

(** Step through the [option] binds of the model, keeping the equations. *)
Ltac opt_inv :=
  repeat match goal with
  | H : (_ ≫= _) = Some _ |- _ => apply bind_Some in H as (? & ? & H)
  | H : (_ <$> _) = Some _ |- _ => apply fmap_Some in H as (? & ? & H)
  | H : Some _ = Some _ |- _ => injection H as H; try subst
  | H : None = Some _ |- _ => discriminate H
  end.

(** Invert one bind of a hypothesis. *)
Tactic Notation "binv" ident(H) "as" simple_intropattern(p) simple_intropattern(Hx) :=
  apply bind_Some in H as (p & Hx & H).

(** Reduce the binds whose first argument is known, and nothing else. *)
Ltac bind := cbn [mbind option_bind fmap option_fmap option_map mret option_ret].

(** Case analysis on the conditions of the goal's or a hypothesis' [if]s and matches. *)
Ltac cases := repeat (case_decide || case_match); simplify_eq/=.

(** ** Generic lemmas *)

Lemma u8_range z : is_byte (u8 z).
Proof. unfold is_byte, u8. pose proof (Z.mod_pos_bound z (2 ^ 8)). lia. Qed.

Lemma u8_id z : is_byte z -> u8 z = z.
Proof. unfold is_byte, u8. intros. apply Z.mod_small. lia. Qed.

Lemma u16_id z : (0 <= z < 2 ^ 16)%Z -> u16 z = z.
Proof. apply Z.mod_small. Qed.

Lemma u32_id z : (0 <= z < 2 ^ 32)%Z -> u32 z = z.
Proof. apply Z.mod_small. Qed.

#[export] Hint Resolve u8_range : naitron.

Lemma mem_range_Some b off n :
  off + n <= length b -> mem_range b off n = Some (take n (drop off b)).
Proof. intros. unfold mem_range. by rewrite decide_True. Qed.

Lemma mem_range_inv b off n r :
  mem_range b off n = Some r ->
  off + n <= length b /\ r = take n (drop off b) /\ length r = n.
Proof.
  unfold mem_range. intros H. cases. split_and!; [lia|done|].
  rewrite length_take, length_drop. lia.
Qed.

Lemma mem_write_Some b off d :
  off + length d <= length b ->
  mem_write b off d = Some (take off b ++ d ++ drop (off + length d) b).
Proof. intros. unfold mem_write. by rewrite decide_True. Qed.

Lemma memchr_Some c s i :
  memchr c s = Some i -> s = (take i s ++ (c :: drop (S i) s)) /\ (c ∉ take i s) /\ i < length s.
Proof.
  revert i. induction s as [|x s IH]; intros i H; simpl in H; [done|].
  case_match eqn:E.
  - simplify_eq. apply Z.eqb_eq in E as ->. simpl.
    split_and!; [done|apply not_elem_of_nil|lia].
  - apply fmap_Some in H as (j & Hj & ->). destruct (IH _ Hj) as (Hs & Hn & Hl). simpl.
    split_and!; [by f_equal| |lia].
    apply not_elem_of_cons. split; [|done]. intros ->. by rewrite Z.eqb_refl in E.
Qed.

Lemma memchr_None c s : memchr c s = None <-> c ∉ s.
Proof.
  induction s as [|x s IH]; simpl.
  - split; [intros _; apply not_elem_of_nil|done].
  - destruct (x =? c)%Z eqn:E.
    + apply Z.eqb_eq in E as ->. split; [done|]. intros H. exfalso. apply H. left.
    + rewrite fmap_None, IH, not_elem_of_cons. apply Z.eqb_neq in E.
      split; [intros Hn; split; [congruence|done]|by intros [_ Hn]].
Qed.

Lemma memchr_app c pre post : c ∉ pre -> memchr c (pre ++ (c :: post)) = Some (length pre).
Proof.
  induction pre as [|x pre IH]; simpl; intros H; [by rewrite Z.eqb_refl|].
  apply not_elem_of_cons in H as [Hx Hn].
  rewrite (proj2 (Z.eqb_neq x c)) by congruence. by rewrite IH.
Qed.

Lemma memeq_true a b : memeq a b = true <-> a = b.
Proof. apply bool_decide_eq_true. Qed.

Lemma cstr_id s : 0%Z ∉ s -> cstr s = s.
Proof.
  induction s as [|x s IH]; simpl; [done|]. intros H.
  apply not_elem_of_cons in H as [Hx Hn].
  rewrite (proj2 (Z.eqb_neq x 0)) by congruence. by rewrite IH.
Qed.

Lemma cstr_no_nul s : 0%Z ∉ cstr s.
Proof.
  induction s as [|x s IH]; simpl; [apply not_elem_of_nil|].
  case_match; [apply not_elem_of_nil|]. apply not_elem_of_cons. split; [|done].
  intros <-. done.
Qed.

Lemma length_cstr s : length (cstr s) <= length s.
Proof. induction s as [|x s IH]; simpl; [done|]. case_match; simpl; lia. Qed.

Lemma snprintf_fits cap s : length s < cap -> snprintf cap s = s.
Proof. intros. unfold snprintf. apply take_ge. lia. Qed.

(** Joining two bit fields: [|] of disjoint fields is addition. *)
Lemma lor_shiftl_add a b n :
  (0 <= n)%Z -> (0 <= b < 2 ^ n)%Z -> Z.lor (a ≪ n) b = (a * 2 ^ n + b)%Z.
Proof.
  intros Hn Hb. assert (Z.land (a ≪ n) b = 0)%Z as Hl.
  { apply Z.bits_inj'. intros i Hi. rewrite Z.land_spec, Z.bits_0.
    destruct (Z.lt_ge_cases i n) as [Hin|Hin].
    - by rewrite Z.shiftl_spec_low.
    - replace b with (b mod 2 ^ n)%Z by (apply Z.mod_small; lia).
      rewrite Z.mod_pow2_bits_high by lia. apply andb_false_r. }
  rewrite <- Z.lxor_lor by done. rewrite <- Z.add_nocarry_lxor by done.
  by rewrite Z.shiftl_mul_pow2.
Qed.

(** Big-endian digits recombine: the arithmetic behind every [put_u16]/[get_u16] pair. *)
Lemma div_mod_pow2_split v n m :
  (0 <= n)%Z -> (0 <= m)%Z -> ((v / 2 ^ n) mod 2 ^ m * 2 ^ n + v mod 2 ^ n = v mod 2 ^ (n + m))%Z.
Proof.
  intros. rewrite Z.pow_add_r by done. rewrite Z.rem_mul_r by lia. lia.
Qed.

(** [memmem]: the first occurrence. *)
Definition no_match_before (n s : bytes) (i : nat) : Prop :=
  forall j, j < i -> take (length n) (drop j s) <> n.

Lemma memmem_Some n s i :
  memmem n s = Some i <->
  (exists a b, s = a ++ n ++ b /\ length a = i) /\ no_match_before n s i.
Proof.
  unfold no_match_before. revert i. induction s as [|x s IH]; intros i; cbn [memmem]; case_decide as Hd.
  - split; [intros [= <-]|].
    + split; [|lia]. exists [], []. rewrite take_nil in Hd. by subst.
    + intros [(a & b & He & <-) _]. symmetry in He. apply app_nil in He as [-> _]. done.
  - split; [done|]. intros [(a & b & He & <-) _]. symmetry in He.
    apply app_nil in He as [_ He]. apply app_nil in He as [-> _]. done.
  - split; [intros [= <-]|].
    + split; [|lia]. exists [], (drop (length n) (x :: s)). split; [|done]. simpl.
      by rewrite <- Hd at 1; rewrite take_drop.
    + intros [_ Hn]. destruct i; [done|]. exfalso. apply (Hn 0); [lia|done].
  - split.
    + intros H. apply fmap_Some in H as (k & Hk & ->).
      apply IH in Hk as [(a & b & -> & <-) Hn]. split; [by exists (x :: a), b|].
      intros [|j] Hj; [done|]. apply Hn. lia.
    + intros [(a & b & He & <-) Hn]. destruct a as [|y a]; simpl in *.
      * exfalso. apply Hd. rewrite He. by rewrite take_app_length.
      * simplify_eq. apply fmap_Some. exists (length a). split; [|done]. apply IH.
        split; [by exists a, b|]. intros j Hj. apply (Hn (S j)). lia.
Qed.

Lemma memmem_None n s : memmem n s = None <-> forall j, take (length n) (drop j s) <> n.
Proof.
  induction s as [|x s IH]; cbn [memmem]; case_decide as Hd.
  - split; [done|]. intros H. by destruct (H 0).
  - split; [|done]. intros _ j. by rewrite drop_nil.
  - split; [done|]. intros H. by destruct (H 0).
  - rewrite fmap_None, IH. split.
    + intros H [|j]; [done|apply H].
    + intros H j. apply (H (S j)).
Qed.

Lemma memmem_split n s i :
  memmem n s = Some i -> s = take i s ++ n ++ drop (i + length n) s /\ i + length n <= length s.
Proof.
  intros H. apply memmem_Some in H as [(a & b & -> & <-) _].
  rewrite take_app_length, <- drop_drop, !drop_app_length, !length_app. split; [done|lia].
Qed.

(** A separator that starts with a byte the prefix does not have. *)
Lemma memmem_app c n a b : (c ∉ a) -> memmem (c :: n) (a ++ (c :: n) ++ b) = Some (length a).
Proof.
  intros Hc. apply memmem_Some. split; [by exists a, b|]. intros j Hj E.
  apply Hc. rewrite drop_app_le in E by lia.
  destruct (drop j a) as [|y l] eqn:El.
  { apply (f_equal length) in El. rewrite length_drop in El. simpl in El. lia. }
  simpl in E. injection E as -> _. rewrite <- (take_drop j a), El.
  apply elem_of_app. right. left.
Qed.

Lemma split_on_none c s : (c ∉ s) -> split_on c s = [s].
Proof.
  induction s as [|x s IH]; cbn [split_on]; [done|]. intros H.
  apply not_elem_of_cons in H as [Hx Hn]. rewrite (proj2 (Z.eqb_neq x c)) by congruence.
  by rewrite IH.
Qed.

Lemma split_on_app c s t : (c ∉ s) -> split_on c (s ++ c :: t) = s :: split_on c t.
Proof.
  induction s as [|x s IH]; cbn [split_on app]; [by rewrite Z.eqb_refl|]. intros H.
  apply not_elem_of_cons in H as [Hx Hn]. rewrite (proj2 (Z.eqb_neq x c)) by congruence.
  by rewrite IH.
Qed.

(** A fact about every byte, by checking all of them. *)
Lemma all_bytes (P : Z -> bool) : forallb P (seqZ 0 256) = true -> forall x, is_byte x -> P x = true.
Proof.
  intros H x Hx. rewrite forallb_forall in H. apply H. apply list_elem_of_In, elem_of_seqZ.
  unfold is_byte in Hx. lia.
Qed.

Lemma mem_range_mid pre x post : mem_range (pre ++ x ++ post) (length pre) (length x) = Some x.
Proof.
  rewrite mem_range_Some by (rewrite !length_app; lia).
  by rewrite drop_app_length, take_app_length.
Qed.

Lemma mem_write_mid pre old new post :
  length old = length new ->
  mem_write (pre ++ old ++ post) (length pre) new = Some (pre ++ new ++ post).
Proof.
  intros H. rewrite mem_write_Some by (rewrite !length_app; lia).
  rewrite take_app_length, <- H, <- drop_drop, !drop_app_length. done.
Qed.
