(* ===== verification/Update.v ===== *)
(** * Record update and the state-and-failure monad

    [r <| field := v |>] is [r] with one field replaced; the setter of a field is found
    from the record's declared eta-expansion.  The monad threads a state through code that
    can fault: [None] is an access to freed or foreign memory. *)
From S2P Require Import Prelude.

(** The eta-expansion of a record type, from which setters are abstracted. *)
Class Settable (R : Type) := eta_record : R -> R.

Class Setter {R A : Type} (field : R -> A) := update : (A -> A) -> R -> R.
Arguments update {R A} field {_} _ _.

Ltac find_setter field :=
  lazymatch type of field with
  | ?R -> _ =>
      let e := eval unfold eta_record in (@eta_record R _) in
      let e := (eval cbv delta [eta_record] in e) in
      let e := eval hnf in e in
      let abs := eval pattern field in e in
      lazymatch abs with
      | ?s field => exact (fun f => s (fun r => f (field r)))
      end
  end.
#[export] Hint Extern 1 (Setter ?field) => find_setter field : typeclass_instances.

Declare Scope update_scope.
Delimit Scope update_scope with upd.
Notation "r <| field := v |>" := (update field (fun _ => v) r)
  (at level 1, left associativity, format "r  <| field  :=  v |>") : update_scope.
Open Scope update_scope.

(** ** The monad *)

Section monad.
  Context {S : Type}.

Definition St (A : Type) : Type := S -> option (A * S).
Definition ret {A} (a : A) : St A := fun s => Some (a, s).
Definition bnd {A B} (m : St A) (k : A -> St B) : St B :=
  fun s => match m s with Some (a, s') => k a s' | None => None end.
Definition fault {A} : St A := fun _ => None.
Definition gets {A} (f : S -> A) : St A := fun s => Some (f s, s).
Definition modify (f : S -> S) : St unit := fun s => Some (tt, f s).
(** A read that faults when there is nothing at the address. *)
Definition load {A} (f : S -> option A) : St A :=
  fun s => match f s with Some a => Some (a, s) | None => None end.
Definition store (f : S -> option S) : St unit :=
  fun s => match f s with Some s' => Some (tt, s') | None => None end.
End monad.
Arguments St : clear implicits.

Declare Scope st_scope.
Delimit Scope st_scope with st.
Notation "'let*' x ':=' m 'in' k" := (bnd m (fun x => k))
  (at level 10, x pattern, m at level 100, k at level 200) : st_scope.
Notation "m ;;; k" := (bnd m (fun _ => k)) (at level 100, right associativity) : st_scope.
Open Scope st_scope.

(** Continue only if a bounds condition holds. *)
Definition ensure {S} (b : bool) : St S unit := if b then ret tt else fault.

(** ** Weakest preconditions: [wp m Q s] says [m] does not fault from [s] and its result
    and final state satisfy [Q]. *)
Section wp.
  Context {S : Type}.

Definition wp {A} (m : St S A) (Q : A -> S -> Prop) (s : S) : Prop :=
  exists a s', m s = Some (a, s') /\ Q a s'.

Lemma wp_ret {A} (a : A) Q s : Q a s -> wp (ret a) Q s.
Proof. intros H. by exists a, s. Qed.

Lemma wp_bnd {A B} (m : St S A) (k : A -> St S B) Q s :
  wp m (fun a s' => wp (k a) Q s') s -> wp (bnd m k) Q s.
Proof.
  intros (a & s' & E & b & s'' & E' & HQ). exists b, s''. unfold bnd. by rewrite E.
Qed.

Lemma wp_gets {A} (f : S -> A) Q s : Q (f s) s -> wp (gets f) Q s.
Proof. intros H. by exists (f s), s. Qed.

Lemma wp_modify (f : S -> S) Q s : Q tt (f s) -> wp (modify f) Q s.
Proof. intros H. by exists tt, (f s). Qed.

Lemma wp_load {A} (f : S -> option A) (a : A) Q s : f s = Some a -> Q a s -> wp (load f) Q s.
Proof. intros E H. exists a, s. unfold load. by rewrite E. Qed.

Lemma wp_store (f : S -> option S) s' Q s : f s = Some s' -> Q tt s' -> wp (store f) Q s.
Proof. intros E H. exists tt, s'. unfold store. by rewrite E. Qed.

Lemma wp_mono {A} (m : St S A) (Q Q' : A -> S -> Prop) s :
  wp m Q s -> (forall a s', Q a s' -> Q' a s') -> wp m Q' s.
Proof. intros (a & s' & E & HQ) H. exists a, s'. eauto. Qed.
End wp.

Record demo := Demo { d_a : nat; d_b : bool }.
#[export] Instance demo_settable : Settable demo := fun r => Demo (d_a r) (d_b r).
Example update_demo : (Demo 1 true) <| d_a := 2 |> = Demo 2 true.
Proof. reflexivity. Qed.

Lemma wp_ensure {S} b (Q : unit -> S -> Prop) s : b = true -> Q tt s -> wp (ensure b) Q s.
Proof. intros -> H. by apply wp_ret. Qed.
