(* ===== verification/Arena.v ===== *)
(** * The per-request arena (src/common/arena.c)

    A bump allocator over a chain of blocks.  Addresses are integers; [malloc] is an
    argument that answers an address or NULL, of which only that what it gives is fresh
    memory of the user address space is assumed. *)
From S2P Require Import Prelude.
Open Scope Z_scope.

(** arena.c:7-7 [NTC_ARENA_ALIGN] *)
Definition NTC_ARENA_ALIGN : Z := 16.
(** arena.h:21-21 [NTC_ARENA_DEFAULT_BLOCK] *)
Definition NTC_ARENA_DEFAULT_BLOCK : Z := 16 * 1024.

(** arena.c:9-15 [ntc_arena_block]. [b_data] is the address of [data]. *)
Record block := Block { b_data : Z; b_cap : Z; b_off : Z }.
Definition BLOCK_HEADER : Z := 32.

(** arena.h:15-19 [ntc_arena]. The chain from [first] in the order of the [next] links, and
    the position of [cur] in it; an arena that was never set up has neither. *)
Record ntc_arena := Arena { a_blocks : list block; a_cur : nat; a_block_size : Z }.

(** arena.c:17-26 [block_new]. What [malloc] answers to a request. *)
Definition block_new (malloc : Z -> option Z) (cap : Z) : option block :=
  if SIZE_MAX - BLOCK_HEADER <? cap then None else
  p ← malloc (BLOCK_HEADER + cap);
  Some (Block (p + BLOCK_HEADER) cap 0).

(** arena.c:28-30 [align_up] *)
Definition align_up (n a : Z) : Z := Z.land (u64 (n + (a - 1))) (u64 (Z.lnot (a - 1))).

(** arena.c:32-41 [ntc_arena_init]. [None] is NTC_ERR_OOM. *)
Definition ntc_arena_init (malloc : Z -> option Z) (block_size : Z) : option ntc_arena :=
  let block_size := if block_size =? 0 then NTC_ARENA_DEFAULT_BLOCK else block_size in
  b ← block_new malloc block_size;
  Some (Arena [b] 0 block_size).

(** arena.c:43-70 [ntc_arena_alloc]. The address, [None] for NULL, and the arena. *)
Definition ntc_arena_alloc (malloc : Z -> option Z) (a : ntc_arena) (size : Z) : option Z * ntc_arena :=
  match a_blocks a !! a_cur a with
  | None => (None, a)
  | Some b =>
      let size := if size =? 0 then 1 else size in
      if SIZE_MAX - (NTC_ARENA_ALIGN - 1) <? size then (None, a) else
      let base := b_data b in
      let aligned := align_up (base + b_off b) NTC_ARENA_ALIGN in
      let new_off := u64 (aligned - base) in
      if (b_cap b <? new_off) || (b_cap b - new_off <? size) then
        let need := size + (NTC_ARENA_ALIGN - 1) in
        let cap := if a_block_size a <? need then need else a_block_size a in
        match block_new malloc cap with
        | None => (None, a)
        | Some nb =>
            let base := b_data nb in
            let aligned := align_up base NTC_ARENA_ALIGN in
            let new_off := u64 (aligned - base) in
            (Some aligned,
             Arena (take (S (a_cur a)) (a_blocks a) ++ [Block base (b_cap nb) (new_off + size)])
               (S (a_cur a)) (a_block_size a))
        end
      else
        (Some aligned,
         Arena (<[a_cur a := Block base (b_cap b) (new_off + size)]> (a_blocks a)) (a_cur a) (a_block_size a))
  end.

(** arena.c:72-76 [ntc_arena_calloc]. The range that is set to zero. *)
Definition ntc_arena_calloc (malloc : Z -> option Z) (a : ntc_arena) (size : Z)
    : option (Z * Z) * ntc_arena :=
  let '(p, a) := ntc_arena_alloc malloc a size in
  ((fun p => (p, if size =? 0 then 1 else size)) <$> p, a).

(** arena.c:78-89 [ntc_arena_reset]. All blocks but the first are freed. *)
Definition ntc_arena_reset (a : ntc_arena) : ntc_arena :=
  match a_blocks a with
  | [] => a
  | b :: _ => Arena [Block (b_data b) (b_cap b) 0] 0 (a_block_size a)
  end.

(** arena.c:91-102 [ntc_arena_destroy] *)
Definition ntc_arena_destroy (a : ntc_arena) : ntc_arena := Arena [] 0 0.

(** arena.c:104-109 [ntc_arena_used] *)
Fixpoint used_loop (bs : list block) (total : Z) : Z :=
  match bs with [] => total | b :: bs => used_loop bs (u64 (total + b_off b)) end.
Definition ntc_arena_used (a : ntc_arena) : Z := used_loop (a_blocks a) 0.

(** ** The invariant

    Blocks are disjoint regions of the address space, and [cur] is the last of them; every
    allocation that is live is an aligned range of the used part of a block, and no two of
    them overlap. *)

Definition ADDR_MAX : Z := 2 ^ 47.

Definition disjoint (p n q m : Z) : Prop := p + n <= q \/ q + m <= p.

Record block_ok (b : block) : Prop := BlockOk {
  bk_addr : 0 < b_data b /\ b_data b + b_cap b <= ADDR_MAX;
  bk_off : 0 <= b_off b <= b_cap b }.

(** What is asked of [malloc]: fresh memory. *)
Definition malloc_ok (malloc : Z -> option Z) (a : ntc_arena) : Prop :=
  forall n p, malloc n = Some p -> 0 <= p /\ p + n <= ADDR_MAX /\
    forall i b, a_blocks a !! i = Some b -> disjoint (b_data b) (b_cap b) p n.

Definition within (b : block) (r : Z * Z) : Prop :=
  b_data b <= r.1 /\ r.1 + r.2 <= b_data b + b_off b.

Record arena_ok (a : ntc_arena) (live : list (Z * Z)) : Prop := ArenaOk {
  ar_cur : S (a_cur a) = length (a_blocks a);
  ar_size : 0 < a_block_size a;
  ar_blocks : Forall block_ok (a_blocks a);
  ar_disjoint : forall i j b c, i <> j -> a_blocks a !! i = Some b -> a_blocks a !! j = Some c ->
    disjoint (b_data b) (b_cap b) (b_data c) (b_cap c);
  ar_live : Forall (fun r => 0 < r.2 /\ r.1 mod NTC_ARENA_ALIGN = 0 /\
                             exists i b, a_blocks a !! i = Some b /\ within b r) live;
  ar_apart : forall i j r s, i <> j -> live !! i = Some r -> live !! j = Some s ->
    disjoint r.1 r.2 s.1 s.2 }.

(** ** Lemmas *)

Lemma align_up_16 n :
  0 <= n < 2 ^ 64 - 16 -> n <= align_up n 16 <= n + 15 /\ align_up n 16 mod 16 = 0.
Proof.
  intros Hn. unfold align_up. change (16 - 1) with 15. unfold u64.
  rewrite (Z.mod_small (n + 15)) by lia.
  assert (Z.land (n + 15) (Z.lnot 15 mod 2 ^ 64) = (n + 15) / 16 * 16) as ->.
  { change 16 with (2 ^ 4) at 2. rewrite <- Z.shiftl_mul_pow2 by lia.
    change 16 with (2 ^ 4). rewrite <- Z.shiftr_div_pow2 by lia.
    apply Z.bits_inj'. intros k Hk. rewrite Z.land_spec, Z.shiftl_spec by done.
    change 15 with (Z.ones 4) at 2.
    destruct (Z.ltb_spec k 4).
    - rewrite (Z.testbit_neg_r _ (k - 4)) by lia. rewrite Z.mod_pow2_bits_low, Z.lnot_spec by lia.
      rewrite Z.ones_spec_low by lia. by rewrite andb_false_r.
    - rewrite Z.shiftr_spec by lia. replace (k - 4 + 4) with k by lia.
      destruct (Z.ltb_spec k 64).
      + rewrite Z.mod_pow2_bits_low, Z.lnot_spec, Z.ones_spec_high by lia. by rewrite andb_true_r.
      + rewrite Z.mod_pow2_bits_high by lia. rewrite andb_false_r.
        rewrite <- (Z.mod_small (n + 15) (2 ^ 64)) by lia. by rewrite Z.mod_pow2_bits_high by lia. }
  pose proof (Z.div_mod (n + 15) 16). pose proof (Z.mod_pos_bound (n + 15) 16). split; [lia|].
  by apply Z.mod_mul.
Qed.

(** Growing the used part of one block keeps what was live in place. *)
Lemma live_grown (blocks : list block) (i : nat) b b' live :
  blocks !! i = Some b -> b_data b' = b_data b -> b_off b <= b_off b' ->
  Forall (fun r => 0 < r.2 /\ r.1 mod NTC_ARENA_ALIGN = 0 /\
            exists j c, blocks !! j = Some c /\ within c r) live ->
  Forall (fun r => 0 < r.2 /\ r.1 mod NTC_ARENA_ALIGN = 0 /\
            exists j c, <[i := b']> blocks !! j = Some c /\ within c r) live.
Proof.
  intros Hi Hd Ho Hl. eapply list.Forall_impl; [exact Hl|]. intros r (H1 & H2 & j & c & Hj & Hw). split_and!; [done..|].
  destruct (decide (j = i)) as [->|Hne].
  - exists i, b'. rewrite list_lookup_insert_eq by (by apply lookup_lt_Some in Hi). split; [done|].
    assert (c = b) as -> by congruence. unfold within in *. rewrite Hd. lia.
  - exists j, c. by rewrite list_lookup_insert_ne.
Qed.

(** A new range is apart from the live ones when it is apart from each. *)
Lemma apart_cons (live : list (Z * Z)) r :
  (forall s, s ∈ live -> disjoint r.1 r.2 s.1 s.2) ->
  (forall i j s t, i <> j -> live !! i = Some s -> live !! j = Some t -> disjoint s.1 s.2 t.1 t.2) ->
  forall i j s t, i <> j -> (r :: live) !! i = Some s -> (r :: live) !! j = Some t ->
    disjoint s.1 s.2 t.1 t.2.
Proof.
  intros Hr Hl [|i] [|j] s t Hne Hs Ht; cbn in *; simplify_eq.
  - apply Hr. by eapply list_elem_of_lookup_2.
  - destruct (Hr s); [by eapply list_elem_of_lookup_2|by right|by left].
  - eapply Hl; [|done|done]. lia.
Qed.

(** A range of one block's unused part is apart from all that is live. *)
Lemma fresh_apart a live i b p n s :
  arena_ok a live -> a_blocks a !! i = Some b -> b_data b + b_off b <= p -> p + n <= b_data b + b_cap b ->
  0 < n -> s ∈ live -> disjoint p n s.1 s.2.
Proof.
  intros [_ _ Hb Hd Hl _] Hi Hp Hn Hpos Hs. rewrite list.Forall_forall in Hl.
  destruct (Hl s Hs) as (H1 & _ & j & c & Hj & Hw). unfold within in Hw.
  pose proof (Forall_lookup_1 _ _ _ _ Hb Hj) as [_ Hco]. pose proof (Forall_lookup_1 _ _ _ _ Hb Hi) as [_ Hbo].
  destruct (decide (j = i)) as [->|Hne].
  - assert (c = b) as -> by congruence. right. lia.
  - destruct (Hd i j b c) as [H|H]; [done..| |]; unfold disjoint; lia.
Qed.

(** ** The property *)

(** The allocation of [n] bytes at [p], with the empty request rounded to one byte. *)
Definition request (size : Z) : Z := if size =? 0 then 1 else size.

Lemma alloc_in_block a live b malloc size :
  arena_ok a live -> a_blocks a !! a_cur a = Some b -> 0 <= size < 2 ^ 64 ->
  forall p a', ntc_arena_alloc malloc a size = (Some p, a') -> malloc_ok malloc a ->
  arena_ok a' ((p, request size) :: live).
Proof.
  intros Hok Hb Hs p a' E Hm. unfold ntc_arena_alloc in E. rewrite Hb in E. fold (request size) in E.
  assert (0 < request size) as Hr by (unfold request; destruct (Z.eqb_spec size 0); lia).
  set (n := request size) in *. unfold SIZE_MAX, NTC_ARENA_ALIGN in E.
  destruct (Z.ltb_spec (2 ^ 64 - 1 - (16 - 1)) n); [done|].
  pose proof Hok as [Hc Hz Hbl Hd Hl Ha]. pose proof (Forall_lookup_1 _ _ _ _ Hbl Hb) as [Hba Hbo].
  unfold ADDR_MAX in *.
  destruct (align_up_16 (b_data b + b_off b)) as [Hal Hmod]; [lia|].
  set (al := align_up (b_data b + b_off b) 16) in *.
  assert (u64 (al - b_data b) = al - b_data b) as Eoff by (unfold u64; rewrite Z.mod_small; lia).
  rewrite Eoff in E. destruct (_ || _) eqn:Efit.
  - set (need := n + (16 - 1)) in *. set (cap := if a_block_size a <? need then need else a_block_size a) in *.
    assert (need <= cap) as Hcap by (unfold cap; destruct (Z.ltb_spec (a_block_size a) need); lia).
    unfold block_new in E. destruct (SIZE_MAX - BLOCK_HEADER <? cap); [done|].
    destruct (malloc (BLOCK_HEADER + cap)) as [q|] eqn:Eq; cbn in E; [|done].
    destruct (Hm _ _ Eq) as (Hq & Hqm & Hfresh). unfold BLOCK_HEADER in *. unfold ADDR_MAX in Hqm.
    destruct (align_up_16 (q + 32)) as [Hal2 Hmod2]; [lia|]. set (al2 := align_up (q + 32) 16) in *.
    assert (u64 (al2 - (q + 32)) = al2 - (q + 32)) as Eoff2 by (unfold u64; rewrite Z.mod_small; lia).
    rewrite Eoff2 in E. injection E as <- <-.
    rewrite Hc, take_ge by lia.
    set (nb := Block (q + 32) cap (al2 - (q + 32) + n)).
    assert (forall i c, (a_blocks a ++ [nb]) !! i = Some c ->
      a_blocks a !! i = Some c \/ i = length (a_blocks a) /\ c = nb) as Happ.
    { intros i c [H'|[H1 H2]]%lookup_app_Some; [by left|right].
      apply list_lookup_singleton_Some in H2 as [H2 ->]. split; [lia|done]. }
    assert ((a_blocks a ++ [nb]) !! length (a_blocks a) = Some nb) as Hlast
      by (by rewrite lookup_app_r, Nat.sub_diag by lia).
    assert (forall i c, a_blocks a !! i = Some c -> (a_blocks a ++ [nb]) !! i = Some c) as Hold
      by (intros i c Hi; by apply lookup_app_l_Some).
    split; cbn [a_cur a_blocks a_block_size].
    + rewrite length_app. cbn. lia.
    + done.
    + apply Forall_app. split; [done|]. constructor; [|constructor]. split; cbn; unfold ADDR_MAX; lia.
    + intros i j c1 c2 Hne H1 H2. apply Happ in H1 as [H1|[-> ->]]; apply Happ in H2 as [H2|[-> ->]]; [by eapply Hd| | |done].
      * destruct (Hfresh i c1 H1); unfold disjoint; cbn; lia.
      * destruct (Hfresh j c2 H2); unfold disjoint; cbn; lia.
    + constructor.
      * cbn. split_and!; [done|done|]. exists (length (a_blocks a)), nb. split; [done|]. unfold within; cbn. lia.
      * eapply list.Forall_impl; [exact Hl|]. intros r (R1 & R2 & i & c & Hi & Hw). split_and!; [done..|].
        exists i, c. auto.
    + apply apart_cons; [|done]. intros s Hs'. rewrite list.Forall_forall in Hl.
      destruct (Hl s Hs') as (S1 & _ & i & c & Hi & Hw). unfold within in Hw.
      pose proof (Forall_lookup_1 _ _ _ _ Hbl Hi) as [_ Hco].
      destruct (Hfresh i c Hi); unfold disjoint; cbn; lia.
  - apply orb_false_iff in Efit as [H1%Z.ltb_ge H2%Z.ltb_ge]. injection E as <- <-.
    set (b' := Block (b_data b) (b_cap b) (al - b_data b + n)).
    pose proof (lookup_lt_Some _ _ _ Hb) as Hlt.
    split; cbn [a_cur a_blocks a_block_size]; rewrite ?length_insert; try done.
    + apply Forall_insert; [done|]. split; cbn; unfold ADDR_MAX; lia.
    + intros i j c1 c2 Hne L1 L2.
      apply list_lookup_insert_Some in L1 as [(Ei & <- & _)|[? L1]];
        apply list_lookup_insert_Some in L2 as [(Ej & <- & _)|[? L2]]; [congruence|..|exact (Hd i j c1 c2 Hne L1 L2)].
      * apply (Hd i j b c2 Hne); [congruence|done].
      * apply (Hd i j c1 b Hne); [done|congruence].
    + constructor.
      * cbn. split_and!; [done|done|]. exists (a_cur a), b'. rewrite list_lookup_insert_eq by done.
        split; [done|]. unfold within; cbn. lia.
      * apply (live_grown _ _ b); try done. cbn. lia.
    + apply apart_cons; [|done]. intros s Hs'. cbn [fst snd]. apply (fresh_apart a live (a_cur a) b); done || lia.
Qed.

Lemma alloc_failed malloc a size a' : ntc_arena_alloc malloc a size = (None, a') -> a' = a.
Proof. unfold ntc_arena_alloc. intros E. repeat case_match; by simplify_eq. Qed.

(** C32. The arena hands out memory: it starts with nothing live; an allocation that succeeds
    is a 16-byte-aligned range inside the used part of one of its blocks, apart from
    everything that is live, whatever [malloc] answers and however large the request; one
    that fails changes nothing; a reset leaves nothing live and one rewound block. *)
Theorem arena_correct malloc :
  (forall size a, ntc_arena_init malloc size = Some a -> malloc_ok malloc (Arena [] 0 0) ->
     0 <= size < 2 ^ 64 -> arena_ok a []) /\
  (forall a live size, arena_ok a live -> malloc_ok malloc a -> 0 <= size < 2 ^ 64 ->
     match ntc_arena_alloc malloc a size with
     | (Some p, a') => arena_ok a' ((p, request size) :: live)
     | (None, a') => a' = a
     end) /\
  (forall a live, arena_ok a live -> arena_ok (ntc_arena_reset a) [] /\
     ntc_arena_used (ntc_arena_reset a) = 0).
Proof.
  split_and!.
  - intros size a E Hm Hs. unfold ntc_arena_init, block_new in E.
    set (sz := if size =? 0 then _ else size) in *.
    assert (0 < sz) by (unfold sz, NTC_ARENA_DEFAULT_BLOCK; destruct (Z.eqb_spec size 0); lia).
    destruct (_ <? _); [done|]. destruct (malloc _) as [p|] eqn:Ep; cbn in E; [|done]. injection E as <-.
    destruct (Hm _ _ Ep) as (Hp & Hpm & _). unfold BLOCK_HEADER in *. split; cbn.
    + done.
    + done.
    + constructor; [|constructor]. split; cbn; lia.
    + intros [|i] [|j]; done.
    + constructor.
    + done.
  - intros a live size Hok Hm Hs. destruct (ntc_arena_alloc malloc a size) as [[p|] a'] eqn:E.
    + destruct (lookup_lt_is_Some_2 (a_blocks a) (a_cur a)) as [b Hb]; [destruct Hok; lia|].
      by eapply alloc_in_block.
    + by eapply alloc_failed.
  - intros a live [Hc Hz Hb _ _ _]. unfold ntc_arena_reset. destruct (a_blocks a) as [|b bl]; [done|].
    apply Forall_cons_1 in Hb as [[H1 H2] _]. split; [|reflexivity]. split; cbn; try done.
    + constructor; [|constructor]. split; cbn; lia.
    + intros [|i] [|j]; done.
Qed.

(** A heap that gives one region, for the witness. *)
Definition demo_malloc (n : Z) : option Z := if n <=? 4096 then Some 65536 else None.
Definition demo_arena : ntc_arena := Arena [Block 4000 64 40] 0 64.

Example arena_grows : ntc_arena_alloc demo_malloc demo_arena 40 =
  (Some 65568, Arena [Block 4000 64 40; Block 65568 64 40] 1 64).
Proof. vm_compute. reflexivity. Qed.

Lemma arena_correct_witness :
  exists p a', ntc_arena_alloc demo_malloc demo_arena 40 = (Some p, a') /\ arena_ok a' [(p, 40)].
Proof.
  exists 65568, (Arena [Block 4000 64 40; Block 65568 64 40] 1 64). split; [reflexivity|].
  refine (proj1 (proj2 (arena_correct demo_malloc)) demo_arena [] 40 _ _ _).
  - split; cbn; try done; try lia.
    + constructor; [|constructor]. split; cbn; unfold ADDR_MAX; lia.
    + intros [|i] [|j]; done.
  - intros n p H. unfold demo_malloc in H. destruct (Z.leb_spec n 4096); [|done]. injection H as <-.
    unfold ADDR_MAX. split_and!; [lia|lia|]. intros [|i] b Hb; [|done]. injection Hb as <-.
    left. cbn. lia.
  - lia.
Defined.
