(* ===== verification/Crypto.v ===== *)
(** * SHA-256, HMAC and base64url (src/common/crypto.c)

    The streaming hash as it is written, against the padded-message definition of FIPS
    180-4; base64url against itself. *)
From Stdlib Require Import ZifyNat.
From S2P Require Import Prelude.
Open Scope Z_scope.

(** The eight 32-bit words of a row of the table, written as one number. *)
Definition row_words (r : Z) : list Z := map (fun i => u32 (r ≫ (32 * i))) [7; 6; 5; 4; 3; 2; 1; 0].

(** crypto.c:6-15 [K]. One number per row of the source. *)
Definition K : list Z := Eval vm_compute in concat (map row_words
  [ 0x428a2f9871374491b5c0fbcfe9b5dba53956c25b59f111f1923f82a4ab1c5ed5;
    0xd807aa9812835b01243185be550c7dc372be5d7480deb1fe9bdc06a7c19bf174;
    0xe49b69c1efbe47860fc19dc6240ca1cc2de92c6f4a7484aa5cb0a9dc76f988da;
    0x983e5152a831c66db00327c8bf597fc7c6e00bf3d5a7914706ca635114292967;
    0x27b70a852e1b21384d2c6dfc53380d13650a7354766a0abb81c2c92e92722c85;
    0xa2bfe8a1a81a664bc24b8b70c76c51a3d192e819d6990624f40e3585106aa070;
    0x19a4c1161e376c082748774c34b0bcb5391c0cb34ed8aa4a5b9cca4f682e6ff3;
    0x748f82ee78a5636f84c878148cc7020890befffaa4506cebbef9a3f7c67178f2 ]).

(** crypto.c:17-17 [sha_ctx]. [s_buf] is the first [n] bytes of the array. *)
Record sha_ctx := ShaCtx { s_h : list Z; s_total : Z; s_buf : bytes }.

(** crypto.c:19-19 [rotr] *)
Definition rotr (x n : Z) : Z := Z.lor (x ≫ n) (u32 (x ≪ (32 - n))).

Definition iv : list Z :=
  [0x6a09e667; 0xbb67ae85; 0x3c6ef372; 0xa54ff53a; 0x510e527f; 0x9b05688c; 0x1f83d9ab; 0x5be0cd19].
(** crypto.c:21-27 [sha_init] *)
Definition sha_init : sha_ctx := ShaCtx iv 0 [].

(** An element of an array the code indexes within its bounds. *)
Definition at_ (l : list Z) (i : nat) : Z := nth i l 0.

(** crypto.c:31-33 [sha_block, words] *)
Definition sha_word (p : bytes) (i : nat) : Z :=
  Z.lor (Z.lor (Z.lor (u32 (at_ p (i * 4) ≪ 24)) (u32 (at_ p (i * 4 + 1) ≪ 16)))
           (u32 (at_ p (i * 4 + 2) ≪ 8))) (at_ p (i * 4 + 3)).

(** crypto.c:34-38 [sha_block, schedule]. [w] holds the words so far. *)
Fixpoint sha_schedule (k : nat) (w : list Z) : list Z :=
  match k with
  | O => w
  | S k =>
      let i := length w in
      let w15 := at_ w (i - 15) in let w2 := at_ w (i - 2) in
      let s0 := Z.lxor (Z.lxor (rotr w15 7) (rotr w15 18)) (w15 ≫ 3) in
      let s1 := Z.lxor (Z.lxor (rotr w2 17) (rotr w2 19)) (w2 ≫ 10) in
      sha_schedule k (w ++ [u32 (at_ w (i - 16) + s0 + at_ w (i - 7) + s1)])
  end.

(** crypto.c:41-49 [sha_block, round] *)
Definition sha_round (w : list Z) (v : list Z) (i : nat) : list Z :=
  match v with
  | [a; b; cc; d; e; f; g; h] =>
      let S1 := Z.lxor (Z.lxor (rotr e 6) (rotr e 11)) (rotr e 25) in
      let ch := Z.lxor (Z.land e f) (Z.land (u32 (Z.lnot e)) g) in
      let t1 := u32 (h + S1 + ch + at_ K i + at_ w i) in
      let S0 := Z.lxor (Z.lxor (rotr a 2) (rotr a 13)) (rotr a 22) in
      let maj := Z.lxor (Z.lxor (Z.land a b) (Z.land a cc)) (Z.land b cc) in
      let t2 := u32 (S0 + maj) in
      [u32 (t1 + t2); a; b; cc; u32 (d + t1); e; f; g]
  | _ => v
  end.

(** crypto.c:29-52 [sha_block]. The chaining value after one block. *)
Definition sha_block (h : list Z) (p : bytes) : list Z :=
  let w := sha_schedule 48 (sha_word p <$> seq 0 16) in
  zip_with (fun x y => u32 (x + y)) h (foldl (sha_round w) h (seq 0 64)).

(** crypto.c:56-62 [sha_update, loop] *)
Fixpoint sha_update_loop (fuel : nat) (c : sha_ctx) (p : bytes) : option sha_ctx :=
  match p with
  | [] => Some c
  | _ =>
      match fuel with
      | O => None
      | S f =>
          let n := length (s_buf c) in
          let tk := if (length p <? 64 - n)%nat then length p else (64 - n)%nat in
          let buf := s_buf c ++ take tk p in
          sha_update_loop f
            (if (length buf =? 64)%nat then ShaCtx (sha_block (s_h c) buf) (s_total c) []
             else ShaCtx (s_h c) (s_total c) buf) (drop tk p)
      end
  end.

(** crypto.c:54-63 [sha_update] *)
Definition sha_update (c : sha_ctx) (p : bytes) : option sha_ctx :=
  sha_update_loop (length p) (ShaCtx (s_h c) (u64 (s_total c + Z.of_nat (length p))) (s_buf c)) p.

(** crypto.c:70-70 [sha_final, padding loop] *)
Fixpoint sha_pad (fuel : nat) (c : sha_ctx) : option sha_ctx :=
  if (length (s_buf c) =? 56)%nat then Some c else
  match fuel with O => None | S f => c ← sha_update c [0]; sha_pad f c end.

(** crypto.c:74-79 [sha_final, output] *)
Definition sha_out (h : list Z) : bytes :=
  concat ((fun x => [u8 (x ≫ 24); u8 (x ≫ 16); u8 (x ≫ 8); u8 x]) <$> h).

(** crypto.c:72-72 [sha_final, lenb] *)
Definition be64 (z : Z) : bytes := (fun i => u8 (z ≫ (56 - 8 * i))) <$> [0; 1; 2; 3; 4; 5; 6; 7].

(** crypto.c:65-80 [sha_final]. The padding loop adds at most 63 bytes. *)
Definition sha_final (c : sha_ctx) : option bytes :=
  let bits := u64 (s_total c * 8) in
  c ← sha_update c [0x80];
  c ← sha_pad 64 c;
  c ← sha_update c (be64 bits);
  Some (sha_out (s_h c)).

(** crypto.c:82-84 [ntc_sha256] *)
Definition ntc_sha256 (data : bytes) : option bytes :=
  c ← sha_update sha_init data; sha_final c.

(** crypto.c:86-100 [ntc_hmac_sha256] *)
Definition ntc_hmac_sha256 (key msg : bytes) : option bytes :=
  k ← (if (64 <? length key)%nat then h ← ntc_sha256 key; Some (h ++ replicate 32 0)
       else Some (key ++ replicate (64 - length key) 0));
  c ← sha_update sha_init ((fun x => Z.lxor x 0x36) <$> k);
  c ← sha_update c msg;
  inner ← sha_final c;
  c ← sha_update sha_init ((fun x => Z.lxor x 0x5c) <$> k);
  c ← sha_update c inner;
  sha_final c.

(** ** base64url *)

(** crypto.c:103-103 [B64U] *)
Definition B64U : bytes := bs "ABCDEFGHIJKLMNOPQRSTUVWXYZabcdefghijklmnopqrstuvwxyz0123456789-_".

(** The conversion of a [size_t] to [int]. *)
Definition to_int (z : Z) : Z := let w := u32 z in if w <? 2 ^ 31 then w else w - 2 ^ 32.

(** crypto.c:113-116 [ntc_base64url_encode, digits]. [None] is the -1 result. *)
Fixpoint b64u_put (ds : list Z) (out : bytes) (cap : nat) : option bytes :=
  match ds with
  | [] => Some out
  | d :: ds => if (cap <=? length out + 1)%nat then None else b64u_put ds (out ++ [at_ B64U (Z.to_nat d)]) cap
  end.

(** crypto.c:108-114 [ntc_base64url_encode, group]. The digits of the bytes from [i]. *)
Definition b64u_group (inp : bytes) (i : nat) : list Z :=
  let rem := to_int (Z.of_nat (length inp) - Z.of_nat i) in
  let n := u32 (at_ inp i ≪ 16) in
  let n := if 1 <? rem then Z.lor n (at_ inp (i + 1) ≪ 8) else n in
  let n := if 2 <? rem then Z.lor n (at_ inp (i + 2)) else n in
  let chars := if 3 <=? rem then 4 else rem + 1 in
  (fun j => Z.land (n ≫ (18 - 6 * j)) 0x3f) <$> seqZ 0 chars.

(** crypto.c:107-117 [ntc_base64url_encode, loop] *)
Fixpoint b64u_loop (fuel : nat) (inp : bytes) (i : nat) (out : bytes) (cap : nat) : option bytes :=
  match fuel with
  | O => None
  | S f =>
      if negb (i <? length inp)%nat then Some out else
      out ← b64u_put (b64u_group inp i) out cap;
      b64u_loop f inp (i + 3) out cap
  end.

(** crypto.c:105-121 [ntc_base64url_encode]. The string, or [None] for -1. *)
Definition ntc_base64url_encode (inp : bytes) (cap : nat) : option bytes :=
  out ← b64u_loop (S (length inp)) inp 0 [] cap;
  if (cap <=? length out)%nat then None else Some out.

(** crypto.c:123-130 [b64val] *)
Definition b64val (c : Z) : Z :=
  if (65 <=? c) && (c <=? 90) then c - 65 else
  if (97 <=? c) && (c <=? 122) then c - 97 + 26 else
  if (48 <=? c) && (c <=? 57) then c - 48 + 52 else
  if c =? 45 then 62 else if c =? 95 then 63 else -1.

(** crypto.c:135-145 [ntc_base64url_decode, loop] *)
Fixpoint b64u_decode_loop (inp : bytes) (acc bits : Z) (out : bytes) (cap : nat) : option bytes :=
  match inp with
  | [] => Some out
  | c :: inp =>
      let v := b64val c in
      if v <? 0 then None else
      let acc := Z.lor (u32 (acc ≪ 6)) v in
      let bits := bits + 6 in
      if 8 <=? bits then
        let bits := bits - 8 in
        if (cap <=? length out)%nat then None else
        b64u_decode_loop inp acc bits (out ++ [Z.land (acc ≫ bits) 0xff]) cap
      else b64u_decode_loop inp acc bits out cap
  end.

(** crypto.c:132-147 [ntc_base64url_decode] *)
Definition ntc_base64url_decode (inp : bytes) (cap : nat) : option bytes :=
  b64u_decode_loop inp 0 0 [] cap.

(** crypto.c:149-153 [ntc_ct_eq] *)
Fixpoint ct_loop (a b : bytes) (d : Z) : Z :=
  match a, b with
  | x :: a, y :: b => ct_loop a b (u8 (Z.lor d (Z.lxor x y)))
  | _, _ => d
  end.
Definition ntc_ct_eq (a b : bytes) : bool := ct_loop a b 0 =? 0.

(** ** What FIPS 180-4 and RFC 2104 promise *)

(** The chaining value after the first [n] 64-byte blocks of [m]. *)
Fixpoint sha_blocks (n : nat) (h : list Z) (m : bytes) : list Z :=
  match n with O => h | S n => sha_blocks n (sha_block h (take 64 m)) (drop 64 m) end.

(** The padded message: a one bit, zeros up to 56 modulo 64, the length in bits. *)
Definition sha_padded (m : bytes) : bytes :=
  m ++ [0x80] ++ replicate (Z.to_nat ((55 - Z.of_nat (length m)) mod 64)) 0
    ++ be64 (u64 (8 * Z.of_nat (length m))).

Definition SHA256 (m : bytes) : bytes :=
  sha_out (sha_blocks (length (sha_padded m) / 64) iv (sha_padded m)).

Definition xor_with (b : Z) (k : bytes) : bytes := (fun x => Z.lxor x b) <$> k.

Definition hmac_key (key : bytes) : bytes :=
  let k := if (64 <? length key)%nat then SHA256 key else key in k ++ replicate (64 - length k) 0.

Definition HMAC (key msg : bytes) : bytes :=
  SHA256 (xor_with 0x5c (hmac_key key) ++ SHA256 (xor_with 0x36 (hmac_key key) ++ msg)).

(** The six-bit digits of a byte string (RFC 4648), and its text. *)
Fixpoint b64_digits (x : bytes) : list Z :=
  match x with
  | a :: b :: c :: x =>
      a / 4 :: a mod 4 * 16 + b / 16 :: b mod 16 * 4 + c / 64 :: c mod 64 :: b64_digits x
  | [a; b] => [a / 4; a mod 4 * 16 + b / 16; b mod 16 * 4]
  | [a] => [a / 4; a mod 4 * 16]
  | [] => []
  end.

Definition b64_char (d : Z) : Z := at_ B64U (Z.to_nat d).

Definition b64_text (x : bytes) : bytes := b64_char <$> b64_digits x.

(** The context after the bytes [m]: every full block is folded in, the rest is buffered. *)
Definition absorbed (h : list Z) (b m : bytes) : Prop :=
  h = sha_blocks (length m / 64) iv m /\ b = drop (64 * (length m / 64)) m.

Definition represents (c : sha_ctx) (m : bytes) : Prop :=
  absorbed (s_h c) (s_buf c) m /\ s_total c = u64 (Z.of_nat (length m)).

Definition hex (d : bytes) : bytes := concat (fmt_02x <$> d).

Example sha256_abc : hex <$> ntc_sha256 (bs "abc") =
  Some (bs "ba7816bf8f01cfea414140de5dae2223b00361a396177a9cb410ff61f20015ad").
Proof. vm_compute. reflexivity. Qed.
Example sha256_empty : hex <$> ntc_sha256 [] =
  Some (bs "e3b0c44298fc1c149afbf4c8996fb92427ae41e4649b934ca495991b7852b855").
Proof. vm_compute. reflexivity. Qed.
Example hmac_rfc4231_2 : hex <$> ntc_hmac_sha256 (bs "Jefe") (bs "what do ya want for nothing?") =
  Some (bs "5bdcc146bf60754e6a042426089575c75a003f089d2739839dec58b964ec3843").
Proof. vm_compute. reflexivity. Qed.
Example b64u_hello : ntc_base64url_encode (bs "hello world!?~") 64 = Some (bs "aGVsbG8gd29ybGQhP34").
Proof. vm_compute. reflexivity. Qed.

(** ** The hash *)

#[local] Ltac Zify.zify_post_hook ::= Z.to_euclidean_division_equations.

Lemma sha_blocks_snoc n h m :
  sha_blocks (S n) h m = sha_block (sha_blocks n h m) (take 64 (drop (64 * n) m)).
Proof.
  revert h m. induction n as [|n IH]; intros h m; [done|].
  cbn [sha_blocks] in *. rewrite IH, drop_drop. do 3 f_equal. lia.
Qed.

Lemma sha_blocks_app n h m p : (64 * n <= length m)%nat -> sha_blocks n h (m ++ p) = sha_blocks n h m.
Proof.
  revert h m. induction n as [|n IH]; intros h m Hl; cbn [sha_blocks]; [done|].
  rewrite take_app_le, drop_app_le by lia. apply IH. rewrite length_drop. lia.
Qed.

Lemma absorbed_length h b m : absorbed h b m -> length b = (length m mod 64)%nat.
Proof. intros [_ ->]. rewrite length_drop. lia. Qed.

(** One turn of the update loop. *)
Lemma absorbed_step h b m q :
  absorbed h b m -> (length b + length q <= 64)%nat ->
  let b' := b ++ q in
  if (length b' =? 64)%nat then absorbed (sha_block h b') [] (m ++ q) else absorbed h b' (m ++ q).
Proof.
  intros Ha Hq b'. pose proof (absorbed_length _ _ _ Ha) as Hl. destruct Ha as [-> Hb].
  assert (length m = 64 * (length m / 64) + length m mod 64)%nat as Hm by lia.
  assert (length m mod 64 < 64)%nat by lia.
  assert (b' = drop (64 * (length m / 64)) (m ++ q)) as Hb'.
  { unfold b'. rewrite drop_app_le by lia. by rewrite Hb. }
  unfold absorbed. rewrite length_app in *. unfold b' in *. rewrite length_app.
  destruct (Nat.eqb_spec (length b + length q) 64) as [E|E].
  - replace ((length m + length q) / 64)%nat with (S (length m / 64)) by lia. split.
    + rewrite sha_blocks_snoc, sha_blocks_app, <- Hb' by lia. f_equal.
      rewrite take_ge; [done|]. rewrite length_app. lia.
    + symmetry. apply drop_ge. rewrite length_app. lia.
  - replace ((length m + length q) / 64)%nat with (length m / 64)%nat by lia. split; [|done].
    by rewrite sha_blocks_app by lia.
Qed.

Lemma sha_update_loop_spec fuel c m p :
  (length p <= fuel)%nat -> absorbed (s_h c) (s_buf c) m ->
  exists c', sha_update_loop fuel c p = Some c' /\ absorbed (s_h c') (s_buf c') (m ++ p) /\
    s_total c' = s_total c.
Proof.
  revert c m p. induction fuel as [|f IH]; intros c m p Hf Ha.
  { destruct p; [|simpl in Hf; lia]. exists c. by rewrite app_nil_r. }
  destruct p as [|x p]; [exists c; by rewrite app_nil_r|]. cbn [sha_update_loop].
  set (q := x :: p) in *. set (tk := if (length q <? 64 - _)%nat then _ else _).
  pose proof (absorbed_length _ _ _ Ha) as Hl. assert (length m mod 64 < 64)%nat by lia.
  assert (0 < tk <= length q /\ length (s_buf c) + tk <= 64)%nat as [Ht Hb].
  { unfold tk. destruct (Nat.ltb_spec (length q) (64 - length (s_buf c))); unfold q in *; simpl in *; lia. }
  assert (length (take tk q) = tk) as Htk by (rewrite length_take; lia).
  pose proof (absorbed_step _ _ _ (take tk q) Ha ltac:(lia)) as Hs. cbn zeta in Hs.
  destruct (IH (if (length (s_buf c ++ take tk q) =? 64)%nat
     then ShaCtx (sha_block (s_h c) (s_buf c ++ take tk q)) (s_total c) []
     else ShaCtx (s_h c) (s_total c) (s_buf c ++ take tk q)) (m ++ take tk q) (drop tk q))
    as (c' & E & Ha' & Hto).
  - rewrite length_drop. lia.
  - by case_match.
  - exists c'. split; [exact E|]. split; [by rewrite <- app_assoc, take_drop in Ha'|].
    rewrite Hto. by case_match.
Qed.

Lemma sha_init_represents : represents sha_init [].
Proof. by repeat split. Qed.

Lemma sha_update_spec c m p :
  represents c m -> exists c', sha_update c p = Some c' /\ represents c' (m ++ p).
Proof.
  intros [Ha Ht]. unfold sha_update.
  destruct (sha_update_loop_spec (length p)
    (ShaCtx (s_h c) (u64 (s_total c + Z.of_nat (length p))) (s_buf c)) m p) as (c' & E & Ha' & E'); [done..|].
  exists c'. split; [done|]. split; [done|]. rewrite E', Ht. cbn [s_total].
  unfold u64. rewrite Zplus_mod_idemp_l. f_equal. rewrite length_app. lia.
Qed.

Lemma sha_update_absorbed c m p :
  absorbed (s_h c) (s_buf c) m ->
  exists c', sha_update c p = Some c' /\ absorbed (s_h c') (s_buf c') (m ++ p).
Proof.
  intros Ha. edestruct (sha_update_loop_spec (length p)
    (ShaCtx (s_h c) (u64 (s_total c + Z.of_nat (length p))) (s_buf c)) m p) as (c' & E & H & _);
    [done|done|]. by exists c'.
Qed.

Lemma sha_pad_spec fuel c m :
  let z := Z.to_nat ((56 - Z.of_nat (length m)) mod 64) in
  (z <= fuel)%nat -> represents c m ->
  exists c', sha_pad fuel c = Some c' /\ absorbed (s_h c') (s_buf c') (m ++ replicate z 0).
Proof.
  revert c m. induction fuel as [|f IH]; intros c m z Hz Hr;
    pose proof (absorbed_length _ _ _ (proj1 Hr)) as Hl; cbn [sha_pad].
  - assert (z = 0)%nat as Hz0 by lia. rewrite (proj2 (Nat.eqb_eq _ _)) by lia.
    exists c. split; [done|]. rewrite Hz0. cbn. rewrite app_nil_r. apply Hr.
  - destruct (Nat.eqb_spec (length (s_buf c)) 56) as [E|E].
    + assert (z = 0)%nat as -> by lia. exists c. split; [done|]. cbn. rewrite app_nil_r. apply Hr.
    + destruct (sha_update_spec c m [0] Hr) as (c' & -> & Hr'). bind.
      destruct (IH c' (m ++ [0])) as (c'' & Ec & Ha); [|done|].
      * rewrite length_app. simpl length. lia.
      * exists c''. split; [done|].
        replace z with (S (Z.to_nat ((56 - Z.of_nat (length (m ++ [0]%Z))) mod 64)))
          by (rewrite length_app; simpl length; lia).
        cbn [replicate]. by rewrite <- app_assoc in Ha.
Qed.

Lemma length_sha_padded m : (length (sha_padded m) mod 64 = 0)%nat.
Proof. unfold sha_padded. rewrite !length_app, length_replicate. cbn [length be64 fmap list_fmap]. lia. Qed.

Lemma absorbed_padded h b m : absorbed h b (sha_padded m) -> sha_out h = SHA256 m.
Proof. by intros [-> _]. Qed.

Lemma sha_padded_pieces m bits :
  bits = u64 (8 * Z.of_nat (length m)) ->
  ((m ++ [0x80]) ++ replicate (Z.to_nat ((56 - Z.of_nat (length (m ++ [0x80]))) mod 64)) 0)
    ++ be64 bits = sha_padded m.
Proof.
  intros ->. unfold sha_padded. rewrite <- !app_assoc, length_app. do 3 f_equal. simpl length.
  do 3 f_equal. lia.
Qed.

Lemma bind_eq {A B} (o : option A) (f : A -> option B) x r : o = Some x -> f x = r -> (o ≫= f) = r.
Proof. by intros ->. Qed.

Lemma sha_final_spec c m : represents c m -> sha_final c = Some (SHA256 m).
Proof.
  intros Hr. unfold sha_final. cbv zeta.
  destruct (sha_update_spec c m [0x80] Hr) as (c1 & E1 & H1).
  destruct (sha_pad_spec 64 c1 (m ++ [0x80])) as (c2 & E2 & H2); [lia|done|].
  destruct (sha_update_absorbed _ _ (be64 (u64 (s_total c * 8))) H2) as (c3 & E3 & H3).
  eapply bind_eq; [exact E1|]. eapply bind_eq; [exact E2|]. eapply bind_eq; [exact E3|].
  rewrite sha_padded_pieces in H3; [by rewrite (absorbed_padded _ _ _ H3)|].
  destruct Hr as [_ ->]. unfold u64. rewrite Zmult_mod_idemp_l. f_equal. lia.
Qed.

Lemma ntc_sha256_spec m : ntc_sha256 m = Some (SHA256 m).
Proof.
  unfold ntc_sha256. destruct (sha_update_spec sha_init [] m sha_init_represents) as (c & -> & Hc).
  bind. by apply sha_final_spec.
Qed.

Lemma length_sha_blocks n m : length (sha_blocks n iv m) = 8%nat.
Proof.
  assert (forall i h p, length h = 8%nat -> length (foldl (sha_round p) h i) = 8%nat) as Hr.
  { induction i as [|i l IH]; intros h p Hh; [done|]. cbn [foldl]. apply IH.
    do 8 (destruct h as [|? h]; [done|]). by destruct h. }
  assert (forall h, length h = 8%nat -> length (sha_blocks n h m) = 8%nat) as H; [|by apply H].
  revert m. induction n as [|n IH]; intros m h Hh; [done|]. cbn [sha_blocks]. apply IH.
  unfold sha_block. rewrite length_zip_with, Hr by done. lia.
Qed.

Lemma length_SHA256 m : length (SHA256 m) = 32%nat.
Proof.
  unfold SHA256. pose proof (length_sha_blocks (length (sha_padded m) / 64) (sha_padded m)) as H.
  revert H. generalize (sha_blocks (length (sha_padded m) / 64) iv (sha_padded m)). intros h Hh.
  do 8 (destruct h as [|? h]; [done|]). by destruct h.
Qed.

Lemma ntc_hmac_sha256_spec key msg : ntc_hmac_sha256 key msg = Some (HMAC key msg).
Proof.
  unfold ntc_hmac_sha256.
  assert ((if (64 <? length key)%nat then h ← ntc_sha256 key; Some (h ++ replicate 32 0)
    else Some (key ++ replicate (64 - length key) 0)) = Some (hmac_key key)) as ->.
  { unfold hmac_key. case_match; [|done]. by rewrite ntc_sha256_spec, length_SHA256. }
  bind. unfold HMAC, xor_with.
  destruct (sha_update_spec _ _ ((fun x => Z.lxor x 0x36) <$> hmac_key key) sha_init_represents)
    as (c1 & -> & H1). bind.
  destruct (sha_update_spec _ _ msg H1) as (c2 & -> & H2). bind.
  rewrite (sha_final_spec _ _ H2). bind.
  destruct (sha_update_spec _ _ ((fun x => Z.lxor x 0x5c) <$> hmac_key key) sha_init_represents)
    as (c3 & -> & H3). bind.
  edestruct (sha_update_spec c3 _ (SHA256 (([] ++ ((fun x => Z.lxor x 0x36) <$> hmac_key key)) ++ msg)) H3)
    as (c4 & -> & H4). bind. by rewrite (sha_final_spec _ _ H4).
Qed.

(** C31. Hashing and authentication.  [ntc_sha256] always produces the FIPS 180-4 digest
    of its input (the blocks of the padded message, folded), and [ntc_hmac_sha256] the
    RFC 2104 code of key and message, for keys of any length. *)
Theorem hmac_sha256_correct key msg :
  ntc_sha256 msg = Some (SHA256 msg) /\ ntc_hmac_sha256 key msg = Some (HMAC key msg).
Proof. split; [apply ntc_sha256_spec|apply ntc_hmac_sha256_spec]. Qed.

(** ** base64url *)

(** Three bytes at a time. *)
Lemma bytes_ind3 (P : bytes -> Prop) :
  P [] -> (forall a, P [a]) -> (forall a b, P [a; b]) ->
  (forall a b c x, P x -> P (a :: b :: c :: x)) -> forall x, P x.
Proof.
  intros H0 H1 H2 H3. fix F 1. intros [|a [|b [|c x]]]; [done|apply H1|apply H2|].
  apply H3, F.
Qed.

Lemma b64u_put_spec ds out cap :
  b64u_put ds out cap =
  if decide (ds = [] \/ length out + length ds < cap)%nat then Some (out ++ (b64_char <$> ds)) else None.
Proof.
  revert out. induction ds as [|d ds IH]; intros out; cbn [b64u_put].
  { rewrite decide_True by auto. cbn. by rewrite app_nil_r. }
  destruct (Nat.leb_spec cap (length out + 1)) as [E|E].
  { rewrite decide_False; [done|]. intros [?|?]; [done|]. simpl in *. lia. }
  rewrite IH, length_app. cbn [length fmap list_fmap].
  destruct (decide (d :: ds = [] \/ (length out + S (length ds) < cap)%nat)) as [[?|H]|H]; [done| |].
  - rewrite decide_True by (right; lia). rewrite <- app_assoc. done.
  - rewrite decide_False; [done|]. intros [->|?]; [|apply H; right; lia].
    apply H. right. simpl. lia.
Qed.

(** The 24-bit group, digit by digit. *)
Lemma b64_group a b c :
  is_byte a -> is_byte b -> is_byte c ->
  let n := Z.lor (Z.lor (u32 (a ≪ 16)) (b ≪ 8)) c in
  (fun j => Z.land (n ≫ (18 - 6 * j)) 0x3f) <$> [0; 1; 2; 3] =
  [a / 4; a mod 4 * 16 + b / 16; b mod 16 * 4 + c / 64; c mod 64].
Proof.
  intros Ha Hb Hc n. unfold is_byte in *.
  assert (n = a * 65536 + b * 256 + c) as ->.
  { unfold n. rewrite u32_id by (rewrite Z.shiftl_mul_pow2; lia).
    rewrite (lor_shiftl_add a (b ≪ 8) 16) by (rewrite ?Z.shiftl_mul_pow2; lia).
    replace (a * 2 ^ 16 + b ≪ 8) with ((a * 256 + b) ≪ 8) by (rewrite !Z.shiftl_mul_pow2 by lia; lia).
    rewrite lor_shiftl_add by lia. lia. }
  change 0x3f with (Z.ones 6). cbn [fmap list_fmap].
  rewrite !Z.land_ones, !Z.shiftr_div_pow2 by lia.
  change (2 ^ (18 - 6 * 0)) with 262144. change (2 ^ (18 - 6 * 1)) with 4096.
  change (2 ^ (18 - 6 * 2)) with 64. change (2 ^ (18 - 6 * 3)) with 1. change (2 ^ 6) with 64.
  do 3 (f_equal; [lia|]). f_equal. lia.
Qed.

Lemma at_drop x i k : at_ x (i + k) = at_ (drop i x) k.
Proof.
  unfold at_. revert x. induction i as [|i IH]; intros [|y x]; try done; cbn [drop Nat.add nth].
  - by destruct k.
  - apply IH.
Qed.

(** A short group is the full group's first digits, with zero bytes. *)
Lemma b64_short a b c k :
  is_byte a -> is_byte b -> is_byte c ->
  let n := Z.lor (Z.lor (u32 (a ≪ 16)) (b ≪ 8)) c in
  (0 <= k <= 4)%nat ->
  (fun j => Z.land (n ≫ (18 - 6 * j)) 0x3f) <$> seqZ 0 (Z.of_nat k) =
  take k [a / 4; a mod 4 * 16 + b / 16; b mod 16 * 4 + c / 64; c mod 64].
Proof.
  intros Ha Hb Hc n Hk. rewrite <- (b64_group a b c Ha Hb Hc). fold n.
  change [0; 1; 2; 3] with (seqZ 0 4).
  replace 4 with (Z.of_nat k + Z.of_nat (4 - k)) by lia. rewrite seqZ_app by lia.
  rewrite fmap_app, take_app_length'; [done|]. rewrite length_fmap, length_seqZ. lia.
Qed.

Lemma b64u_group_spec inp i :
  bytes_ok inp -> Z.of_nat (length inp) < 2 ^ 31 -> (i < length inp)%nat ->
  b64u_group inp i = b64_digits (take 3 (drop i inp)).
Proof.
  intros Hok Hl Hi. unfold b64u_group.
  assert (to_int (Z.of_nat (length inp) - Z.of_nat i) = Z.of_nat (length (drop i inp))) as ->.
  { rewrite length_drop. unfold to_int. rewrite u32_id by lia. case_match eqn:E; lia. }
  assert (at_ inp i = at_ (drop i inp) 0) as -> by (by rewrite <- at_drop, Nat.add_0_r).
  rewrite !at_drop. assert (bytes_ok (drop i inp)) as Hd by (by apply Forall_drop).
  assert (length (drop i inp) <> 0)%nat as Hne by (rewrite length_drop; lia).
  assert (is_byte 0) as Hz by (unfold is_byte; lia).
  destruct (drop i inp) as [|a [|b [|c x]]]; [done|..];
    repeat (apply Forall_cons_1 in Hd as [? Hd]).
  - pose proof (b64_short a 0 0 2 ltac:(done) Hz Hz ltac:(lia)) as Hg. cbv zeta in Hg.
    rewrite Z.shiftl_0_l, !Z.lor_0_r in Hg. etrans; [exact Hg|]. cbn [take b64_digits].
    f_equal. f_equal. lia.
  - pose proof (b64_short a b 0 3 ltac:(done) ltac:(done) Hz ltac:(lia)) as Hg. cbv zeta in Hg.
    rewrite Z.lor_0_r in Hg. etrans; [exact Hg|]. cbn [take b64_digits].
    f_equal. f_equal. f_equal. lia.
  - cbn [length]. rewrite !Nat2Z.inj_succ.
    rewrite (proj2 (Z.ltb_lt 1 _)), (proj2 (Z.ltb_lt 2 _)), (proj2 (Z.leb_le 3 _)) by lia.
    exact (b64_short a b c 4 ltac:(done) ltac:(done) ltac:(done) ltac:(lia)).
Qed.

Lemma b64_digits_group x : b64_digits x = b64_digits (take 3 x) ++ b64_digits (drop 3 x).
Proof. by destruct x as [|a [|b [|c x]]]. Qed.

Lemma b64_digits_nil x : b64_digits x = [] <-> x = [].
Proof. by destruct x as [|a [|b [|c x]]]. Qed.

Lemma b64u_loop_spec fuel inp i out cap :
  bytes_ok inp -> Z.of_nat (length inp) < 2 ^ 31 ->
  (length inp < i + fuel)%nat -> (0 < fuel)%nat ->
  b64u_loop fuel inp i out cap =
  let ds := b64_digits (drop i inp) in
  if decide (ds = [] \/ length out + length ds < cap)%nat then Some (out ++ (b64_char <$> ds)) else None.
Proof.
  intros Hok Hl. revert i out. induction fuel as [|f IH]; intros i out Hf H0; [lia|].
  cbn [b64u_loop].
  destruct (Nat.ltb_spec i (length inp)) as [Hlt|Hge]; cbn [negb].
  2: { rewrite drop_ge by lia. cbn. by rewrite app_nil_r. }
  rewrite b64u_put_spec, b64u_group_spec by done.
  cbv zeta. rewrite (b64_digits_group (drop i inp)), drop_drop.
  replace (3 + i)%nat with (i + 3)%nat by lia. set (d1 := b64_digits (take 3 _)).
  assert (d1 <> []) as H1.
  { intros H. apply (proj1 (b64_digits_nil _)) in H. apply (f_equal length) in H.
    rewrite length_take, length_drop in H. cbn [length] in H. lia. }
  set (d2 := b64_digits (drop _ _)). rewrite length_app.
  destruct (decide (d1 = [] \/ _)) as [[?|Hd]|Hd]; [done|..]; bind.
  - rewrite IH by lia. fold d2. rewrite length_app, length_fmap. cbv zeta.
    rewrite fmap_app, app_assoc. destruct d2 as [|x d2]; [rewrite !decide_True; [done|right; simpl; lia|by left]|].
    destruct (decide (_ \/ _)) as [[?|?]|Hn]; [done|..].
    + rewrite decide_True; [done|right; lia].
    + rewrite decide_False; [done|]. intros [[? _]%app_nil|?]; [done|]. apply Hn. right. lia.
  - rewrite decide_False; [done|]. intros [[? _]%app_nil|?]; [done|]. apply Hd. right. lia.
Qed.

(** ** Decoding *)

Lemma b64val_char d : 0 <= d < 64 -> b64val (b64_char d) = d.
Proof.
  intros Hd. assert (forallb (fun d => b64val (b64_char d) =? d) (seqZ 0 64) = true) as H by reflexivity.
  rewrite forallb_forall in H. apply Z.eqb_eq, H, list_elem_of_In, elem_of_seqZ. lia.
Qed.

(** Appending a digit to the accumulator. *)
Lemma b64_acc acc v : 0 <= v < 64 -> Z.lor (u32 (acc ≪ 6)) v = (acc * 64 + v) mod 2 ^ 32.
Proof.
  intros Hv. unfold u32. rewrite Z.shiftl_mul_pow2 by lia.
  replace ((acc * 2 ^ 6) mod 2 ^ 32) with ((acc mod 2 ^ 26) ≪ 6) by (rewrite Z.shiftl_mul_pow2; lia).
  rewrite lor_shiftl_add by lia. lia.
Qed.

Lemma b64_out acc v k :
  0 <= v < 64 -> 0 <= k -> k <= 4 ->
  Z.land (Z.lor (u32 (acc ≪ 6)) v ≫ k) 0xff = (acc * 64 + v) / 2 ^ k mod 256.
Proof.
  intros Hv Hk Hk4. rewrite b64_acc by done. change 0xff with (Z.ones 8).
  rewrite Z.land_ones, Z.shiftr_div_pow2 by lia.
  assert (k = 0 \/ k = 1 \/ k = 2 \/ k = 3 \/ k = 4) as [-> |[-> |[-> |[-> | ->]]]] by lia; lia.
Qed.

(** The first digit of a group fills the accumulator; each other one gives a byte. *)
Lemma b64u_decode_first d acc out cap inp :
  0 <= d < 64 ->
  exists acc', b64u_decode_loop (b64_char d :: inp) acc 0 out cap = b64u_decode_loop inp acc' 6 out cap /\
    acc' mod 2 ^ 6 = d.
Proof.
  intros Hd. exists ((acc * 64 + d) mod 2 ^ 32). split; [|lia].
  cbn [b64u_decode_loop]. rewrite b64val_char, (proj2 (Z.ltb_ge d 0)) by lia. by rewrite b64_acc.
Qed.

Lemma b64u_decode_next k d r acc out cap inp :
  0 <= d < 64 -> (k = 2 \/ k = 4 \/ k = 6) -> acc mod 2 ^ k = r -> (length out < cap)%nat ->
  exists acc', b64u_decode_loop (b64_char d :: inp) acc k out cap =
      b64u_decode_loop inp acc' (k - 2) (out ++ [r * 2 ^ (8 - k) + d / 2 ^ (k - 2)]) cap /\
    acc' mod 2 ^ (k - 2) = d mod 2 ^ (k - 2).
Proof.
  intros Hd Hk Hr Hc. exists ((acc * 64 + d) mod 2 ^ 32).
  split; [|destruct Hk as [-> | [-> | ->]]; cbn -[Z.modulo]; lia].
  cbn [b64u_decode_loop]. rewrite b64val_char, (proj2 (Z.ltb_ge d 0)) by lia.
  rewrite (proj2 (Z.leb_le 8 (k + 6))), (proj2 (Nat.leb_gt cap _)) by lia.
  rewrite b64_out, b64_acc by lia. replace (k + 6 - 8) with (k - 2) by lia. subst r. do 3 f_equal.
  destruct Hk as [-> | [-> | ->]]; cbn -[Z.modulo Z.div Z.mul]; lia.
Qed.

Lemma b64u_decode_spec x acc out cap :
  bytes_ok x -> (length out + length x <= cap)%nat ->
  b64u_decode_loop (b64_text x) acc 0 out cap = Some (out ++ x).
Proof.
  unfold b64_text. revert acc out.
  induction x as [|a|a b|a b c x IH] using bytes_ind3; intros acc out Hx Hc;
    repeat (apply Forall_cons_1 in Hx as [? Hx]); unfold is_byte in *;
    cbn [b64_digits fmap list_fmap length] in *; [cbn; by rewrite app_nil_r|..].
  - edestruct (b64u_decode_first (a / 4)) as (c1 & -> & E1); [lia|].
    edestruct (b64u_decode_next 6 (a mod 4 * 16)) as (c2 & -> & E2); [lia|lia|exact E1|lia|].
    cbn [b64u_decode_loop]. do 3 f_equal. cbn -[Z.div Z.mul Z.modulo]. lia.
  - edestruct (b64u_decode_first (a / 4)) as (c1 & -> & E1); [lia|].
    edestruct (b64u_decode_next 6 (a mod 4 * 16 + b / 16)) as (c2 & -> & E2); [lia|lia|exact E1|lia|].
    edestruct (b64u_decode_next 4 (b mod 16 * 4)) as (c3 & -> & E3);
      [lia|lia|exact E2|rewrite length_app; simpl; lia|].
    cbn [b64u_decode_loop]. rewrite <- app_assoc. do 2 f_equal. cbn -[Z.div Z.mul Z.modulo].
    f_equal; [lia|f_equal; lia].
  - edestruct (b64u_decode_first (a / 4)) as (c1 & -> & E1); [lia|].
    edestruct (b64u_decode_next 6 (a mod 4 * 16 + b / 16)) as (c2 & -> & E2); [lia|lia|exact E1|lia|].
    edestruct (b64u_decode_next 4 (b mod 16 * 4 + c / 64)) as (c3 & -> & E3);
      [lia|lia|exact E2|rewrite length_app; simpl; lia|].
    edestruct (b64u_decode_next 2 (c mod 64)) as (c4 & -> & E4);
      [lia|lia|exact E3|rewrite !length_app; simpl; lia|].
    change (2 - 2) with 0. rewrite IH; [|done|rewrite !length_app; simpl; lia].
    rewrite <- !app_assoc. do 2 f_equal. cbn -[Z.div Z.mul Z.modulo].
    f_equal; [lia|f_equal; [lia|f_equal; lia]].
Qed.

Lemma length_b64_text x : length (b64_text x) = ((4 * length x + 2) / 3)%nat.
Proof.
  unfold b64_text. rewrite length_fmap.
  induction x as [|a|a b|a b c x IH] using bytes_ind3; [done..|].
  cbn [b64_digits length]. rewrite IH. lia.
Qed.

(** base64url, both ways.  Encoding gives the RFC 4648 text (unpadded,
    4n/3 characters rounded up) exactly when the buffer has room for it and its NUL,
    and -1 otherwise; decoding that text into a buffer that holds the input gives the
    input back. *)
Theorem base64url_roundtrip x cap cap' :
  bytes_ok x -> Z.of_nat (length x) < 2 ^ 31 -> (length x <= cap')%nat ->
  length (b64_text x) = ((4 * length x + 2) / 3)%nat /\
  ntc_base64url_encode x cap = (if decide (length (b64_text x) < cap)%nat then Some (b64_text x) else None) /\
  ntc_base64url_decode (b64_text x) cap' = Some x.
Proof.
  intros Hx Hl Hc. split; [apply length_b64_text|]. split; [|by apply b64u_decode_spec].
  unfold ntc_base64url_encode. rewrite b64u_loop_spec by (done || lia). cbv zeta. rewrite drop_0, app_nil_l. cbn [length Nat.add].
  replace (length (b64_digits x)) with (length (b64_text x)) by apply length_fmap. fold (b64_text x).
  destruct (decide (_ \/ _)) as [Hd|Hd]; bind.
  - destruct (Nat.leb_spec cap (length (b64_text x))); [by rewrite decide_False by lia|].
    by rewrite decide_True by lia.
  - rewrite decide_False; [done|]. intros ?. apply Hd. right. lia.
Qed.

Theorem base64url_roundtrip_witness :
  ntc_base64url_decode (b64_text [0; 255; 128; 7]) 4 = Some [0; 255; 128; 7].
Proof.
  apply (base64url_roundtrip [0; 255; 128; 7] 7 4); [|simpl; lia|simpl; lia].
  repeat constructor; lia.
Defined.

(** The constant-time comparison decides equality of buffers of equal length. *)
Lemma ntc_ct_eq_spec a b :
  length a = length b -> bytes_ok a -> bytes_ok b -> ntc_ct_eq a b = bool_decide (a = b).
Proof.
  intros Hl Ha Hb. unfold ntc_ct_eq.
  assert (forall d, is_byte d -> (ct_loop a b d =? 0) = bool_decide (d = 0 /\ a = b)) as H.
  { revert b Hl Hb. induction Ha as [|x a Hx Ha IH]; intros [|y b] Hl Hb d Hd; try done; cbn [ct_loop].
    { destruct (Z.eqb_spec d 0); [by rewrite bool_decide_true|]. rewrite bool_decide_false; [done|]. by intros [? _]. }
    apply Forall_cons_1 in Hb as [Hy Hb].
    rewrite IH; [|simpl in Hl; lia|done|apply u8_range]. apply bool_decide_ext.
    assert (u8 (Z.lor d (Z.lxor x y)) = Z.lor d (Z.lxor x y)) as ->.
    { apply u8_id. unfold is_byte in *.
      assert (forall p q, 0 <= p < 256 -> 0 <= q < 256 -> 0 <= Z.lxor p q < 256) as Hxor.
      { intros p q Hp Hq. assert (Z.lxor p q = Z.lxor p q mod 2 ^ 8) as ->; [|apply Z.mod_pos_bound; lia].
        rewrite <- Z.land_ones by lia. rewrite <- (Z.mod_small p (2 ^ 8)), <- (Z.mod_small q (2 ^ 8)) by lia.
        rewrite <- !Z.land_ones by lia. apply Z.bits_inj'. intros i Hi.
        rewrite !Z.land_spec, !Z.lxor_spec, !Z.land_spec. by destruct (Z.testbit (Z.ones 8) i), (Z.testbit p i), (Z.testbit q i). }
      pose proof (Hxor x y Hx Hy) as Hz. set (z := Z.lxor x y) in *.
      assert (Z.lor d z = Z.lor d z mod 2 ^ 8) as ->; [|apply Z.mod_pos_bound; lia].
      rewrite <- Z.land_ones by lia. rewrite <- (Z.mod_small d (2 ^ 8)), <- (Z.mod_small z (2 ^ 8)) by lia.
      rewrite <- !Z.land_ones by lia. apply Z.bits_inj'. intros i Hi.
      rewrite !Z.land_spec, !Z.lor_spec, !Z.land_spec. by destruct (Z.testbit (Z.ones 8) i), (Z.testbit d i), (Z.testbit z i). }
    rewrite Z.lor_eq_0_iff, Z.lxor_eq_0_iff. naive_solver. }
  rewrite H by (unfold is_byte; lia). apply bool_decide_ext. naive_solver.
Qed.
