(* ===== verification/Err.v ===== *)
(** * Errors and overflow-checked sizes (src/common/err.c, include/ntc/err.h)

    The error enumeration every fallible function returns, its symbolic names and the
    HTTP status each maps to, and the two overflow-checked size operations that guard
    every length computed from untrusted input. *)
From S2P Require Import Prelude.
Open Scope Z_scope.

(** err.h:24-36 [ntc_err] *)
Inductive ntc_err :=
  | NTC_OK | NTC_ERR_OOM | NTC_ERR_IO | NTC_ERR_PARSE | NTC_ERR_INVALID
  | NTC_ERR_OVERFLOW | NTC_ERR_NOT_FOUND | NTC_ERR_TIMEOUT | NTC_ERR_AGAIN
  | NTC_ERR_INTERNAL | NTC_ERR__COUNT.

#[export] Instance ntc_err_eq_dec : EqDecision ntc_err.
Proof. solve_decision. Defined.

(** err.c:6-21 [ntc_err_str] *)
Definition ntc_err_str (e : ntc_err) : bytes :=
  match e with
  | NTC_OK => bs "NTC_OK"
  | NTC_ERR_OOM => bs "NTC_ERR_OOM"
  | NTC_ERR_IO => bs "NTC_ERR_IO"
  | NTC_ERR_PARSE => bs "NTC_ERR_PARSE"
  | NTC_ERR_INVALID => bs "NTC_ERR_INVALID"
  | NTC_ERR_OVERFLOW => bs "NTC_ERR_OVERFLOW"
  | NTC_ERR_NOT_FOUND => bs "NTC_ERR_NOT_FOUND"
  | NTC_ERR_TIMEOUT => bs "NTC_ERR_TIMEOUT"
  | NTC_ERR_AGAIN => bs "NTC_ERR_AGAIN"
  | NTC_ERR_INTERNAL => bs "NTC_ERR_INTERNAL"
  | NTC_ERR__COUNT => bs "NTC_ERR_UNKNOWN"
  end.

(** err.c:23-38 [ntc_err_http_status] *)
Definition ntc_err_http_status (e : ntc_err) : Z :=
  match e with
  | NTC_OK => 200
  | NTC_ERR_PARSE => 400
  | NTC_ERR_INVALID => 400
  | NTC_ERR_OVERFLOW => 400
  | NTC_ERR_NOT_FOUND => 404
  | NTC_ERR_TIMEOUT => 504
  | NTC_ERR_OOM => 503
  | NTC_ERR_AGAIN => 503
  | NTC_ERR_IO => 502
  | NTC_ERR_INTERNAL => 500
  | NTC_ERR__COUNT => 500
  end.

(** err.h:57-60 [ntc_size_mul]. The result and the value stored through [out], which is
    the wrapped product whether or not it overflowed. *)
Definition ntc_size_mul (a b : Z) : ntc_err * Z :=
  (if a * b <=? SIZE_MAX then NTC_OK else NTC_ERR_OVERFLOW, u64 (a * b)).

(** err.h:61-64 [ntc_size_add] *)
Definition ntc_size_add (a b : Z) : ntc_err * Z :=
  (if a + b <=? SIZE_MAX then NTC_OK else NTC_ERR_OVERFLOW, u64 (a + b)).

Lemma ntc_size_mul_ok a b z :
  0 <= a -> 0 <= b -> ntc_size_mul a b = (NTC_OK, z) <-> z = a * b /\ a * b <= SIZE_MAX.
Proof.
  intros Ha Hb. unfold ntc_size_mul, u64, SIZE_MAX.
  destruct (Z.leb_spec (a * b) (2 ^ 64 - 1)).
  - rewrite Z.mod_small by lia. split; [intros [= <-]; auto|by intros [-> _]].
  - split; [done|lia].
Qed.

Lemma ntc_size_add_ok a b z :
  0 <= a -> 0 <= b -> ntc_size_add a b = (NTC_OK, z) <-> z = a + b /\ a + b <= SIZE_MAX.
Proof.
  intros Ha Hb. unfold ntc_size_add, u64, SIZE_MAX.
  destruct (Z.leb_spec (a + b) (2 ^ 64 - 1)).
  - rewrite Z.mod_small by lia. split; [intros [= <-]; auto|by intros [-> _]].
  - split; [done|lia].
Qed.
