(* ===== verification/Slice.v ===== *)
(** * Slices (src/common/slice.c)

    A slice is a view [(ptr, len)] of a buffer; the model carries the bytes it views.
    [ntc_slice_trim] keeps the source's two index loops. *)
From S2P Require Import Prelude.

Abbreviation ntc_slice := bytes.

(** slice.c:5-7 [ntc_slice_cstr] *)
Definition ntc_slice_cstr (s : bytes) : ntc_slice := cstr s.

(** slice.c:13-17 [ntc_slice_eq] *)
Definition ntc_slice_eq (a b : ntc_slice) : bool :=
  if negb (length a =? length b)%nat then false
  else if (length a =? 0)%nat then true
  else memeq a b.

(** slice.c:19-21 [ntc_slice_eq_cstr] *)
Definition ntc_slice_eq_cstr (a : ntc_slice) (s : bytes) : bool := ntc_slice_eq a (ntc_slice_cstr s).

(** slice.c:23-27 [ntc_slice_starts_with] *)
Definition ntc_slice_starts_with (a prefix : ntc_slice) : bool :=
  if (length a <? length prefix)%nat then false
  else if (length prefix =? 0)%nat then true
  else memeq (take (length prefix) a) prefix.

(** slice.c:29-31 [is_space] *)
Definition is_space (c : Z) : bool :=
  ((c =? 32) || (c =? 9) || (c =? 13) || (c =? 10) || (c =? 12) || (c =? 11))%Z.

(** slice.c:35 [ntc_slice_trim, first loop] *)
Fixpoint trim_start (fuel : nat) (s : ntc_slice) (start stop : nat) : option nat :=
  match fuel with
  | O => None
  | S f =>
      if (start <? stop)%nat then
        c ← s !! start;
        if is_space c then trim_start f s (S start) stop else Some start
      else Some start
  end.

(** slice.c:36 [ntc_slice_trim, second loop] *)
Fixpoint trim_end (fuel : nat) (s : ntc_slice) (start stop : nat) : option nat :=
  match fuel with
  | O => None
  | S f =>
      if (start <? stop)%nat then
        c ← s !! (stop - 1);
        if is_space c then trim_end f s start (stop - 1) else Some stop
      else Some stop
  end.

(** slice.c:33-38 [ntc_slice_trim] *)
Definition ntc_slice_trim (s : ntc_slice) : option ntc_slice :=
  start ← trim_start (S (length s)) s 0 (length s);
  stop ← trim_end (S (length s)) s start (length s);
  mem_range s start (stop - start).

(** ** Lemmas *)

Lemma ntc_slice_eq_true a b : ntc_slice_eq a b = true <-> a = b.
Proof.
  unfold ntc_slice_eq.
  destruct (Nat.eqb_spec (length a) (length b)) as [E|E]; simpl.
  - destruct (Nat.eqb_spec (length a) 0) as [E0|E0]; [|apply memeq_true].
    rewrite E0 in E. apply nil_length_inv in E0. symmetry in E. apply nil_length_inv in E.
    by subst.
  - split; [done|]. by intros ->.
Qed.

Lemma ntc_slice_eqP a b : reflect (a = b) (ntc_slice_eq a b).
Proof. apply iff_reflect. symmetry. apply ntc_slice_eq_true. Qed.

Lemma ntc_slice_eq_refl a : ntc_slice_eq a a = true.
Proof. by apply ntc_slice_eq_true. Qed.

Lemma ntc_slice_starts_with_true a p :
  ntc_slice_starts_with a p = true <-> exists rest, a = p ++ rest.
Proof.
  unfold ntc_slice_starts_with. destruct (Nat.ltb_spec (length a) (length p)).
  - split; [done|]. intros [r ->]. rewrite length_app in *. lia.
  - destruct (Nat.eqb_spec (length p) 0) as [E|E].
    + apply nil_length_inv in E as ->. split; [by exists a|done].
    + rewrite memeq_true. split.
      * intros E2. exists (drop (length p) a). by rewrite <- E2 at 1; rewrite take_drop.
      * intros [r ->]. by rewrite take_app_length.
Qed.

(** The loops: everything skipped is white space, and they stop at a byte that is not. *)
Lemma trim_start_spec fuel s start stop :
  stop <= length s -> stop - start < fuel -> start <= stop ->
  exists k, trim_start fuel s start stop = Some k /\ start <= k <= stop /\
    Forall is_space (take (k - start) (drop start s)) /\
    (k < stop -> exists c, s !! k = Some c /\ is_space c = false).
Proof.
  revert start. induction fuel as [|f IH]; intros start Hl Hf Hle; [lia|]. simpl.
  destruct (Nat.ltb_spec start stop) as [Hlt|Hge].
  - destruct (lookup_lt_is_Some_2 s start) as [c Hc]; [lia|]. rewrite Hc. simpl.
    destruct (is_space c) eqn:Es.
    + destruct (IH (S start)) as (k & -> & Hk & Hsp & Hns); [lia..|].
      exists k. split_and!; [done|lia|lia| |done].
      rewrite (drop_S _ c) by done. replace (k - start) with (S (k - S start)) by lia. simpl.
      constructor; [by rewrite Es|done].
    + exists start. rewrite Nat.sub_diag. simpl. split_and!; [done|lia|lia|constructor|].
      intros _. by exists c.
  - exists start. rewrite Nat.sub_diag. simpl. split_and!; [done|lia|lia|constructor|lia].
Qed.

Lemma trim_end_spec fuel s start stop :
  stop <= length s -> stop - start < fuel -> start <= stop ->
  exists k, trim_end fuel s start stop = Some k /\ start <= k <= stop /\
    Forall is_space (take (stop - k) (drop k s)) /\
    (start < k -> exists c, s !! (k - 1) = Some c /\ is_space c = false).
Proof.
  revert stop. induction fuel as [|f IH]; intros stop Hl Hf Hle; [lia|]. simpl.
  destruct (Nat.ltb_spec start stop) as [Hlt|Hge].
  - destruct (lookup_lt_is_Some_2 s (stop - 1)) as [c Hc]; [lia|]. rewrite Hc. simpl.
    destruct (is_space c) eqn:Es.
    + destruct (IH (stop - 1)) as (k & -> & Hk & Hsp & Hns); [lia..|].
      exists k. split_and!; [done|lia|lia| |done].
      replace (stop - k) with (S (stop - 1 - k)) by lia.
      rewrite (take_S_r _ _ c).
      * apply Forall_app_2; [done|]. by constructor; [rewrite Es|constructor].
      * rewrite lookup_drop, <- Hc. f_equal. lia.
    + exists stop. rewrite Nat.sub_diag. simpl. split_and!; [done|lia|lia|constructor|].
      intros _. by exists c.
  - exists stop. rewrite Nat.sub_diag. simpl. split_and!; [done|lia|lia|constructor|lia].
Qed.

(** A trimmed slice: total, and the input is the result between two runs of white space;
    the result neither starts nor ends with one. *)
Lemma ntc_slice_trim_spec s :
  exists r, ntc_slice_trim s = Some r /\
    (exists pre post, s = pre ++ r ++ post /\ Forall is_space pre /\ Forall is_space post) /\
    (forall c, r !! 0 = Some c -> is_space c = false) /\
    (forall c, r !! (length r - 1) = Some c -> is_space c = false).
Proof.
  unfold ntc_slice_trim.
  destruct (trim_start_spec (S (length s)) s 0 (length s)) as (i & -> & Hi & Hpre & Hi'); [lia..|].
  destruct (trim_end_spec (S (length s)) s i (length s)) as (j & Hj & Hij & Hpost & Hj'); [lia..|].
  bind. rewrite Hj. bind. rewrite mem_range_Some by lia.
  eexists; split; [done|]. split_and!.
  - exists (take i s), (drop j s). split_and!.
    + rewrite <- (take_drop i s) at 1. f_equal.
      rewrite <- (take_drop (j - i) (drop i s)) at 1. f_equal.
      rewrite drop_drop. f_equal. lia.
    + rewrite drop_0, Nat.sub_0_r in Hpre. done.
    + rewrite take_ge in Hpost; [done|]. rewrite length_drop. lia.
  - intros c Hc. apply lookup_take_Some in Hc as [Hc Hlt]. rewrite lookup_drop in Hc.
    destruct Hi' as (c' & Hc' & Hs); [lia|]. rewrite Nat.add_0_r in Hc. by simplify_eq.
  - intros c Hc. apply lookup_take_Some in Hc as [Hc Hlt]. rewrite lookup_drop in Hc.
    rewrite length_take, length_drop in *.
    destruct Hj' as (c' & Hc' & Hs); [lia|].
    replace (i + _) with (j - 1) in Hc by lia. by simplify_eq.
Qed.
