(* ===== verification/Posix.v ===== *)
(** * The C library and the kernel, as the blocking clients see them

    The controller SDK and the HTTPS client sit on a blocking descriptor.  A [read] gives any
    non-empty part of what has arrived, is interrupted, or fails; a [write] takes any part of
    what it is offered.  A script says what the calls answer, so that a statement about every
    script is one about every way a stream can be cut. *)
From S2P Require Import Prelude Slice.
Open Scope Z_scope.

(** [atol] and [atoi]: white space, a sign, decimal digits; the value of a [long], and that
    converted to [int]. *)
Fixpoint digits_value (s : bytes) (acc : Z) : Z :=
  match s with c :: s => if (48 <=? c) && (c <=? 57) then digits_value s (acc * 10 + (c - 48)) else acc | [] => acc end.
Fixpoint skip_white (s : bytes) : bytes :=
  match s with c :: s' => if is_space c then skip_white s' else s | [] => [] end.
Definition int_of (z : Z) : Z := let w := u32 z in if w <? 2 ^ 31 then w else w - 2 ^ 32.
Definition atol (s : bytes) : Z :=
  let v := match skip_white s with
           | c :: s' => if c =? 45 then - digits_value s' 0 else if c =? 43 then digits_value s' 0
                        else digits_value (c :: s') 0
           | [] => 0
           end in
  Z.max (- 2 ^ 63) (Z.min (2 ^ 63 - 1) v).
Definition atoi (s : bytes) : Z := int_of (atol s).

(** A scan of memory: the functions above on what is readable from an address on. [None] is a
    scan that runs off the end of it. *)
Definition atoi_ends (s : bytes) : bool :=
  let digits_end := fix go (s : bytes) : bool :=
    match s with c :: s => if (48 <=? c) && (c <=? 57) then go s else true | [] => false end in
  match skip_white s with
  | [] => false
  | c :: s' => if (c =? 45) || (c =? 43) then digits_end s' else digits_end (c :: s')
  end.
Definition atoi_at (s : bytes) : option Z := if atoi_ends s then Some (atoi s) else None.

Definition hex_value (c : Z) : option Z :=
  if (48 <=? c) && (c <=? 57) then Some (c - 48)
  else if (97 <=? c) && (c <=? 102) then Some (c - 87)
  else if (65 <=? c) && (c <=? 70) then Some (c - 55) else None.
Fixpoint hex_at (s : bytes) (acc : Z) : option Z :=
  match s with
  | [] => None
  | c :: s => match hex_value c with Some v => hex_at s (acc * 16 + v) | None => Some acc end
  end.

(** [strtol(p, NULL, 16)]: white space, a sign, an optional [0x] that a digit follows, and
    digits; what does not fit is the nearest [long]. *)
Definition strtol16_at (s : bytes) : option Z :=
  let number := fun s =>
    match s with
    | z :: x :: d :: s' =>
        if (z =? 48) && ((x =? 120) || (x =? 88)) && bool_decide (is_Some (hex_value d))
        then hex_at (d :: s') 0 else hex_at s 0
    | _ => hex_at s 0
    end in
  v ← match skip_white s with
      | [] => None
      | c :: s' => if c =? 45 then Z.opp <$> number s' else if c =? 43 then number s' else number (c :: s')
      end;
  Some (Z.max (- 2 ^ 63) (Z.min (2 ^ 63 - 1) v)).

Definition to_lower (c : Z) : Z := if (65 <=? c) && (c <=? 90) then c + 32 else c.

(** ** Reading a descriptor

    What [read] finds: bytes, an interruption, or an error; the end of the script is the end
    of the stream. *)
Inductive rd_event := RdData (d : bytes) | RdIntr | RdFail.

(** ** Writing a descriptor

    How many bytes a [write] takes, an interruption, or an error; past the end of the script
    it takes all it is offered. *)
Inductive wr_event := WrTakes (n : nat) | WrIntr | WrFail.

(** A connection that only cuts the stream up: no errors, no early end. *)
Definition rd_calm (e : rd_event) : bool :=
  match e with RdData d => bool_decide (d <> []) | RdIntr => true | RdFail => false end.
Definition wr_calm (e : wr_event) : bool :=
  match e with WrTakes n => (0 <? n)%nat | WrIntr => true | WrFail => false end.

(** The bytes of a stream, however they arrive. *)
Fixpoint rd_bytes (ins : list rd_event) : bytes :=
  match ins with
  | [] => []
  | RdData d :: ins => d ++ rd_bytes ins
  | _ :: ins => rd_bytes ins
  end.

(** A blocking descriptor: what it will answer, and what has been sent through it. *)
Record stream_fd := StreamFd { fd_in : list rd_event; fd_wr : list wr_event; fd_sent : bytes }.

Definition fd_calm (s : stream_fd) : Prop := Forall rd_calm (fd_in s) /\ Forall wr_calm (fd_wr s).
