(* ===== verification/Double.v ===== *)
(** * Double-precision numbers, as the C library reads, compares and prints them

    [double] is IEEE 754 binary64 ([SpecFloat] at precision 53); [strtod], [floor],
    [fabs] and the [%lld] and [%g] conversions are those of the C standard library, on
    the arguments the source gives them. *)
From Stdlib Require Import SpecFloat.
From S2P Require Import Prelude.
Open Scope Z_scope.

Abbreviation double := spec_float.
Abbreviation d_zero := (S754_zero false).

#[export] Instance double_eq_dec : EqDecision double.
Proof. intros x y. unfold Decision. repeat decide equality. Defined.

(** The double nearest to an integer, and to a decimal [m * 10 ^ e]. *)
Definition d_of_Z (z : Z) : double := binary_normalize 53 1024 z 0 false.

Definition d_of_decimal (neg : bool) (m : Z) (e : Z) : double :=
  match m with
  | Zpos p =>
      if 0 <=? e then binary_round 53 1024 neg (Z.to_pos (m * 10 ^ e)) 0
      else let '(mz, ez, lz) := SFdiv_core_binary 53 1024 m 0 (10 ^ (- e)) 0 in
           binary_round_aux 53 1024 neg mz ez lz
  | _ => S754_zero neg
  end.

Definition is_digit (c : Z) : bool := (48 <=? c) && (c <=? 57).

Fixpoint span_digits (s : bytes) : bytes * bytes :=
  match s with
  | c :: r => if is_digit c then let '(d, r) := span_digits r in (c :: d, r) else ([], s)
  | [] => ([], [])
  end.

Definition dec_value (ds : bytes) : Z := foldl (fun z c => z * 10 + (c - 48)) 0 ds.

(** An optional sign. *)
Definition opt_sign (s : bytes) : bool * bytes :=
  match s with
  | c :: r => if c =? 45 then (true, r) else if c =? 43 then (false, r) else (false, s)
  | [] => (false, [])
  end.

(** The decimal exponent: an [e] that no digit follows is not one. *)
Definition dec_exponent (s : bytes) : Z :=
  match s with
  | c :: r =>
      if (c =? 101) || (c =? 69) then
        let '(neg, r) := opt_sign r in
        match span_digits r with
        | ([], _) => 0
        | (ds, _) => if neg then - dec_value ds else dec_value ds
        end
      else 0
  | [] => 0
  end.

(** [strtod] of a decimal: the longest prefix that is a number, rounded to nearest; 0 if
    there is none.  The exponent is clamped, which changes nothing: a shorter text than
    200 characters has a mantissa below 10^200, so both ends are already 0 or infinite. *)
Definition strtod (s : bytes) : double :=
  let '(neg, s) := opt_sign s in
  let '(ip, s) := span_digits s in
  let '(fp, s) := match s with c :: r => if c =? 46 then span_digits r else ([], s) | [] => ([], []) end in
  match ip ++ fp with
  | [] => d_zero
  | ds => d_of_decimal neg (dec_value ds)
            (Z.max (-1000) (Z.min 1000 (dec_exponent s - Z.of_nat (length fp))))
  end.

(** [v == floor(v)] *)
Definition d_integral (v : double) : bool :=
  match v with
  | S754_finite _ m e => (0 <=? e) || (Zpos m mod 2 ^ (- e) =? 0)
  | S754_nan => false
  | _ => true
  end.

(** The integer part: [(long long) v] where it is in range. *)
Definition d_trunc (v : double) : Z :=
  match v with
  | S754_finite s m e => let n := if 0 <=? e then Zpos m * 2 ^ e else Zpos m / 2 ^ (- e) in
                         if s then - n else n
  | _ => 0
  end.

(** [fabs(v) < n] for an integer [n]. *)
Definition d_abs_lt (v : double) (n : Z) : bool :=
  match v with
  | S754_finite _ m e => if 0 <=? e then Zpos m * 2 ^ e <? n else Zpos m <? n * 2 ^ (- e)
  | S754_zero _ => 0 <? n
  | _ => false
  end.

Definition d_eq (a b : double) : bool := SFeqb a b.
Definition d_lt (a b : double) : bool := SFltb a b.

Definition d_le (a b : double) : bool := SFleb a b.
Definition d_add : double -> double -> double := SFadd 53 1024.
Definition d_sub : double -> double -> double := SFsub 53 1024.
Definition d_mul : double -> double -> double := SFmul 53 1024.
Definition d_div : double -> double -> double := SFdiv 53 1024.

(** The conversion to [size_t] of a value in its range. *)
Definition d_size (v : double) : Z := u64 (d_trunc v).

(** The conversion to [long]: out of its range, what the x86 instruction gives. *)
Definition d_long (d : double) : Z :=
  let in_range := match d with S754_infinity _ | S754_nan => false | _ => true end in
  let z := d_trunc d in
  if in_range && (- 2 ^ 63 <=? z) && (z <? 2 ^ 63) then z else - 2 ^ 63.

(** ** [%g]: six significant digits, trailing zeros removed *)

(** Round half to even. *)
Definition div_rne (a b : Z) : Z :=
  let q := a / b in let r := a mod b in
  if (2 * r <? b) || ((2 * r =? b) && Z.even q) then q else q + 1.

Definition scale10 (num den k : Z) : Z * Z :=
  if 0 <=? k then (num * 10 ^ k, den) else (num, den * 10 ^ (- k)).

(** The exponent of the leading decimal digit of [num / den]. *)
Fixpoint dec_exp (fuel : nat) (num den x : Z) : Z :=
  match fuel with
  | O => x
  | S f => let '(a, b) := scale10 num den (- x) in
           if a <? b then dec_exp f num den (x - 1) else x
  end.

Fixpoint strip_zeros (s : bytes) : bytes :=
  match s with 48 :: s => strip_zeros s | _ => s end.

(** A fraction's digits after the point, without trailing zeros. *)
Definition fraction (ds : bytes) : bytes :=
  match rev (strip_zeros (rev ds)) with [] => [] | ds => 46 :: ds end.

Definition pad2 (z : Z) : bytes := if z <? 10 then 48 :: fmt_u z else fmt_u z.

Definition g_digits (num den : Z) : bytes :=
  let x := dec_exp 640 num den 310 in
  let '(a, b) := scale10 num den (5 - x) in
  let n := div_rne a b in
  let '(n, x) := if n =? 10 ^ 6 then (10 ^ 5, x + 1) else (n, x) in
  let ds := fmt_u n in
  if (-4 <=? x) && (x <? 6) then
    if 0 <=? x then take (Z.to_nat (x + 1)) ds ++ fraction (drop (Z.to_nat (x + 1)) ds)
    else 48 :: fraction (replicate (Z.to_nat (- x - 1)) 48 ++ ds)
  else take 1 ds ++ fraction (drop 1 ds) ++ 101 :: (if x <? 0 then 45 else 43) :: pad2 (Z.abs x).

Definition fmt_g (v : double) : bytes :=
  match v with
  | S754_zero s => if s then bs "-0" else bs "0"
  | S754_infinity s => if s then bs "-inf" else bs "inf"
  | S754_nan => bs "nan"
  | S754_finite s m e =>
      (if s then [45] else []) ++
      (if 0 <=? e then g_digits (Zpos m * 2 ^ e) 1 else g_digits (Zpos m) (2 ^ (- e)))
  end.

Example g_1 : fmt_g (strtod (bs "3.14159265")) = bs "3.14159". Proof. reflexivity. Qed.
Example g_2 : fmt_g (strtod (bs "1e300")) = bs "1e+300". Proof. vm_compute. reflexivity. Qed.
Example g_3 : fmt_g (strtod (bs "-0.00012")) = bs "-0.00012". Proof. vm_compute. reflexivity. Qed.
Example g_4 : fmt_g (strtod (bs "1.5e-7")) = bs "1.5e-07". Proof. vm_compute. reflexivity. Qed.
Example g_5 : fmt_g (strtod (bs "999999.7")) = bs "1e+06". Proof. vm_compute. reflexivity. Qed.
Example g_6 : fmt_g (strtod (bs "0.5")) = bs "0.5". Proof. vm_compute. reflexivity. Qed.
Example strtod_1 : strtod (bs "0.1") = S754_finite false 7205759403792794 (-56).
Proof. vm_compute. reflexivity. Qed.
Example strtod_2 : strtod (bs "1e400") = S754_infinity false. Proof. vm_compute. reflexivity. Qed.
Example strtod_3 : strtod (bs "-12e") = S754_finite true 6755399441055744 (-49).
Proof. vm_compute. reflexivity. Qed.

(** ** Integers below 2^53 are exact *)

Lemma digits2_log2 m : Zpos (digits2_pos m) = Z.log2 (Zpos m) + 1.
Proof.
  induction m as [m IH|m IH|]; cbn [digits2_pos]; [..|done]; rewrite Pos2Z.inj_succ, IH.
  - change (Zpos (xI m)) with (2 * Zpos m + 1). rewrite Z.log2_succ_double by lia. lia.
  - change (Zpos (xO m)) with (2 * Zpos m). rewrite Z.log2_double by lia. lia.
Qed.

Lemma iter_xO m k : Zpos (Pos.iter xO m k) = Zpos m * 2 ^ Zpos k.
Proof.
  induction k as [|k IH] using Pos.peano_ind; [cbn; lia|].
  rewrite Pos.iter_succ, Pos2Z.inj_succ, Z.pow_succ_r by lia.
  change (Zpos (xO (Pos.iter xO m k))) with (2 * Zpos (Pos.iter xO m k)). lia.
Qed.

(** A mantissa of 53 digits rounds to itself. *)
Lemma round_exact s m e :
  Z.log2 (Zpos m) = 52 -> -1074 <= e <= 971 -> binary_round_aux 53 1024 s (Zpos m) e loc_Exact = S754_finite s m e.
Proof.
  intros Hm He. unfold binary_round_aux.
  assert (shr_fexp 53 1024 (Zpos m) e loc_Exact = (Build_shr_record (Zpos m) false false, e)) as Hs.
  { unfold shr_fexp. cbn [Zdigits2]. rewrite digits2_log2, Hm. unfold fexp, emin.
    replace (_ - e) with 0 by lia. done. }
  rewrite Hs. cbn [shr_m loc_of_shr_record round_nearest_even]. rewrite Hs. cbn [shr_m].
  by rewrite (proj2 (Z.leb_le e (1024 - 53))) by lia.
Qed.

Lemma binary_round_int s m :
  Zpos m < 2 ^ 53 ->
  exists k p, binary_round 53 1024 s m 0 = S754_finite s p (- k) /\ (0 <= k <= 52 /\ k = 52 - Z.log2 (Zpos m)) /\
    Zpos p = Zpos m * 2 ^ k.
Proof.
  intros Hm. assert (0 <= Z.log2 (Zpos m) <= 52) as Hl.
  { split; [apply Z.log2_nonneg|]. apply Z.log2_lt_pow2 in Hm; lia. }
  set (k := 52 - Z.log2 (Zpos m)). unfold binary_round. rewrite digits2_log2.
  replace (fexp 53 1024 (Z.log2 (Zpos m) + 1 + 0)) with (- k) by (unfold fexp, emin, k; lia).
  unfold shl_align. replace (- k - 0) with (- k) by lia.
  destruct (Z.eq_dec k 0) as [Hk|Hk].
  - rewrite Hk. exists 0, m. change (- 0) with 0. cbv iota beta. rewrite round_exact by lia.
    split; [done|]. lia.
  - destruct (- k) as [|q|q] eqn:E; [lia|lia|]. exists (Zpos q), (Pos.iter xO m q).
    split; [|split; [lia|apply iter_xO]]. change (- Zpos q) with (Zneg q). apply round_exact; [|lia].
    rewrite iter_xO. replace (Zpos q) with k by lia. rewrite Z.log2_mul_pow2 by lia. lia.
Qed.

(** What the printer asks of a finite double. *)
Lemma exact_int s p k m :
  0 <= k -> Zpos p = Zpos m * 2 ^ k ->
  d_integral (S754_finite s p (- k)) = true /\
  d_trunc (S754_finite s p (- k)) = (if s then - Zpos m else Zpos m) /\
  forall n, d_abs_lt (S754_finite s p (- k)) n = (Zpos m <? n).
Proof.
  intros Hk Hp. pose proof (Z.pow_pos_nonneg 2 k ltac:(lia) Hk).
  cbn [d_integral d_trunc d_abs_lt]. rewrite Z.opp_involutive, Hp.
  destruct (Z.leb_spec 0 (- k)) as [H0|H0].
  - assert (k = 0) as -> by lia. cbn [Z.opp]. rewrite Z.pow_0_r, !Z.mul_1_r. done.
  - rewrite Z.mod_mul, Z.div_mul by lia. split; [done|]. split; [done|]. intros n.
    destruct (Z.ltb_spec (Zpos m) n); [apply Z.ltb_lt|apply Z.ltb_ge]; nia.
Qed.

Lemma d_of_Z_exact z :
  Z.abs z < 2 ^ 53 ->
  d_integral (d_of_Z z) = true /\ d_trunc (d_of_Z z) = z /\ forall n, d_abs_lt (d_of_Z z) n = (Z.abs z <? n).
Proof.
  intros Hz. unfold d_of_Z, binary_normalize. destruct z as [|m|m]; [done|..].
  - destruct (binary_round_int false m ltac:(lia)) as (k & p & -> & Hk & Hp). exact (exact_int false p k m ltac:(lia) Hp).
  - destruct (binary_round_int true m ltac:(lia)) as (k & p & -> & Hk & Hp). exact (exact_int true p k m ltac:(lia) Hp).
Qed.

(** ** Reading back a printed integer *)

Lemma dec_value_snoc ds c : dec_value (ds ++ [c]) = dec_value ds * 10 + (c - 48).
Proof. unfold dec_value. by rewrite foldl_app. Qed.

Lemma digits_fuel_dec fuel z :
  0 <= z -> z < 10 ^ Z.of_nat fuel -> (0 < fuel)%nat ->
  dec_value (digits_fuel fuel 10 z) = z /\ Forall (fun c => is_digit c = true) (digits_fuel fuel 10 z) /\
  digits_fuel fuel 10 z <> [].
Proof.
  revert z. induction fuel as [|f IH]; intros z H0 Hz Hf; [lia|]. cbn [digits_fuel].
  pose proof (Z.mod_pos_bound z 10 ltac:(lia)) as Hm.
  assert (digit_char (z mod 10) = 48 + z mod 10) as -> by (unfold digit_char; case_match; lia).
  assert (is_digit (48 + z mod 10) = true) as Hd.
  { unfold is_digit. rewrite andb_true_iff, !Z.leb_le. lia. }
  destruct (Z.ltb_spec z 10) as [E|E].
  - cbn [app]. split_and!; [|by repeat constructor|done]. cbn. rewrite Z.mod_small by lia. lia.
  - assert (f <> 0%nat) by (intros ->; simpl in Hz; lia).
    destruct (IH (z / 10)) as (Hv & Hds & _); [apply Z.div_pos; lia| |lia|].
    { apply Z.div_lt_upper_bound; [lia|]. rewrite <- Z.pow_succ_r by lia.
      by replace (Z.succ (Z.of_nat f)) with (Z.of_nat (S f)) by lia. }
    split_and!; [|by apply Forall_app; auto|by destruct (digits_fuel _ _ _)].
    rewrite dec_value_snoc, Hv. pose proof (Z.div_mod z 10). lia.
Qed.

Lemma digits_dec z :
  0 <= z -> dec_value (digits 10 z) = z /\ Forall (fun c => is_digit c = true) (digits 10 z) /\ digits 10 z <> [].
Proof.
  intros Hz. apply digits_fuel_dec; [done| |lia].
  destruct (Z.eq_dec z 0) as [->|]; [done|]. pose proof (Z.log2_spec z ltac:(lia)) as [_ H].
  eapply Z.lt_le_trans; [exact H|].
  replace (Z.of_nat (S (Z.to_nat (Z.log2 z)))) with (Z.succ (Z.log2 z))
    by (pose proof (Z.log2_nonneg z); lia).
  apply Z.pow_le_mono_l. lia.
Qed.

Lemma span_digits_app ds r :
  Forall (fun c => is_digit c = true) ds -> (forall c, head r = Some c -> is_digit c = false) ->
  span_digits (ds ++ r) = (ds, r).
Proof.
  intros Hd Hr. induction Hd as [|c ds Hc Hd IH]; cbn [app].
  - destruct r as [|c r]; [done|]. cbn [span_digits]. by rewrite (Hr c eq_refl).
  - cbn [span_digits]. by rewrite Hc, IH.
Qed.

Lemma binary_round_small s m : d_of_decimal s (Zpos m) 0 = binary_round 53 1024 s m 0.
Proof. cbn [d_of_decimal Z.leb Z.compare]. by rewrite Z.pow_0_r, Z.mul_1_r. Qed.

Lemma strtod_fmt_d z : strtod (fmt_d z) = d_of_Z z.
Proof.
  unfold fmt_d. destruct (Z.ltb_spec z 0) as [Hn|Hp].
  - destruct (digits_dec (- z) ltac:(lia)) as (Hv & Hd & Hne). unfold strtod. cbn [opt_sign Z.eqb Pos.eqb].
    rewrite <- (app_nil_r (digits 10 (- z))) at 1. rewrite span_digits_app by done.
    rewrite app_nil_r. destruct (digits 10 (- z)) as [|d ds] eqn:E; [done|]. rewrite Hv.
    change (Z.max (-1000) (Z.min 1000 (dec_exponent [] - Z.of_nat (length (@nil Z))))) with 0.
    destruct z as [|m|m]; [lia|lia|]. change (- Zneg m) with (Zpos m). by rewrite binary_round_small.
  - destruct (digits_dec z Hp) as (Hv & Hd & Hne). unfold strtod.
    assert (opt_sign (digits 10 z) = (false, digits 10 z)) as ->.
    { destruct (digits 10 z) as [|c ds]; [done|]. apply Forall_cons_1 in Hd as [Hc _]. cbn [opt_sign].
      unfold is_digit in Hc. rewrite andb_true_iff, !Z.leb_le in Hc.
      rewrite (proj2 (Z.eqb_neq c 45)), (proj2 (Z.eqb_neq c 43)) by lia. done. }
    rewrite <- (app_nil_r (digits 10 z)) at 1. rewrite span_digits_app by done.
    rewrite app_nil_r. destruct (digits 10 z) as [|d ds] eqn:E; [done|]. rewrite Hv.
    change (Z.max (-1000) (Z.min 1000 (dec_exponent [] - Z.of_nat (length (@nil Z))))) with 0.
    destruct z as [|m|m]; [done| |lia]. by rewrite binary_round_small.
Qed.

(** ** Subtracting one from an integer is exact *)

Lemma iter_shr (p : positive) M : 0 < M ->
  SpecFloat.iter_pos shr_1 p (Build_shr_record (M * 2 ^ Zpos p) false false) = Build_shr_record M false false.
Proof.
  assert (forall M, 0 < M -> shr_1 (Build_shr_record (M * 2) false false) = Build_shr_record M false false) as H1.
  { intros [|m|m] Hm; [lia| |lia]. by rewrite Z.mul_comm. }
  revert M. induction p as [p IH|p IH|]; intros M HM; cbn [SpecFloat.iter_pos].
  - replace (M * 2 ^ Zpos (xI p)) with ((M * 2 ^ Zpos p) * 2 ^ Zpos p * 2).
    + rewrite H1 by (pose proof (Z.pow_pos_nonneg 2 (Zpos p)); nia).
      rewrite IH by (pose proof (Z.pow_pos_nonneg 2 (Zpos p)); nia). by apply IH.
    + replace (Zpos (xI p)) with (Zpos p + Zpos p + 1) by lia. rewrite !Z.pow_add_r by lia. lia.
  - replace (M * 2 ^ Zpos (xO p)) with ((M * 2 ^ Zpos p) * 2 ^ Zpos p).
    + rewrite IH by (pose proof (Z.pow_pos_nonneg 2 (Zpos p)); nia). by apply IH.
    + replace (Zpos (xO p)) with (Zpos p + Zpos p) by lia. rewrite !Z.pow_add_r by lia. lia.
  - by apply H1.
Qed.

(** An integer scaled by 2^52 normalizes to the integer. *)
Lemma normalize_shifted z :
  0 <= z < 2 ^ 53 -> binary_normalize 53 1024 (z * 2 ^ 52) (-52) false = d_of_Z z.
Proof.
  intros Hz. unfold d_of_Z. destruct z as [|m|m]; [done| |lia].
  assert (0 <= Z.log2 (Zpos m) <= 52) as Hl.
  { split; [apply Z.log2_nonneg|]. apply Z.lt_succ_r, Z.log2_lt_pow2; lia. }
  set (l := Z.log2 (Zpos m)) in *.
  destruct (binary_round_int false m ltac:(lia)) as (k & p & E & Hk & Hp).
  assert (binary_normalize 53 1024 (Zpos m) 0 false = S754_finite false p (- k)) as -> by exact E.
  destruct Hk as [Hk0 Hk]. fold l in Hk.
  assert (exists q, Zpos m * 2 ^ 52 = Zpos q) as [q Hq] by (by eexists).
  rewrite Hq. cbn [binary_normalize]. unfold binary_round.
  rewrite digits2_log2, <- Hq, Z.log2_mul_pow2 by lia. fold l.
  replace (fexp 53 1024 (52 + l + 1 + -52)) with (l - 52) by (unfold fexp, emin; lia).
  unfold shl_align. destruct (l - 52 - -52) as [|d|d] eqn:Ed; [..|lia].
  - rewrite round_exact; [|rewrite <- Hq, Z.log2_mul_pow2 by lia; lia|lia].
    f_equal; [|lia]. apply Pos2Z.inj. rewrite <- Hq, Hp. do 2 f_equal. lia.
  - assert (Zpos q = Zpos p * 2 ^ Zpos d) as Hqp.
    { rewrite <- Hq, Hp, <- Z.mul_assoc, <- Z.pow_add_r by lia. do 2 f_equal. lia. }
    unfold binary_round_aux, shr_fexp at 1. cbn [Zdigits2].
    rewrite digits2_log2, <- Hq, Z.log2_mul_pow2 by lia. fold l.
    replace (fexp 53 1024 (52 + l + 1 + -52) - -52) with (Zpos d) by (unfold fexp, emin; lia).
    cbn [shr shr_record_of_loc]. rewrite Hq, Hqp, iter_shr by lia.
    cbn [shr_m loc_of_shr_record round_nearest_even].
    pose proof (round_exact false p (-52 + Zpos d)) as Hr. unfold binary_round_aux in Hr.
    assert (Z.log2 (Zpos p) = 52) as Hlp by (rewrite Hp, Z.log2_mul_pow2 by lia; fold l; lia).
    specialize (Hr Hlp ltac:(lia)).
    assert (shr_fexp 53 1024 (Zpos p) (-52 + Zpos d) loc_Exact = (Build_shr_record (Zpos p) false false, -52 + Zpos d)) as Hs.
    { unfold shr_fexp. cbn [Zdigits2]. rewrite digits2_log2, Hlp. unfold fexp, emin.
      by replace (Z.max (52 + 1 + (-52 + Zpos d) - 53) (3 - 1024 - 53) - (-52 + Zpos d)) with 0 by lia. }
    rewrite Hs in *. cbn [shr_m loc_of_shr_record round_nearest_even] in *. rewrite Hs in *. cbn [shr_m] in *.
    rewrite Hr. f_equal. lia.
Qed.

(** ** One less, one more *)

Lemma d_sub_one z : 1 <= z < 2 ^ 53 -> d_sub (d_of_Z z) (d_of_Z 1) = d_of_Z (z - 1).
Proof.
  intros Hz. rewrite <- (normalize_shifted (z - 1)) by lia. unfold d_of_Z.
  destruct z as [|m|m]; [lia| |lia].
  destruct (binary_round_int false m ltac:(lia)) as (k & p & E & (Hk & Hkl) & Hp).
  assert (binary_normalize 53 1024 (Zpos m) 0 false = S754_finite false p (- k)) as -> by exact E.
  assert (binary_normalize 53 1024 1 0 false = S754_finite false (2 ^ 52) (-52)) as -> by reflexivity.
  unfold d_sub, SFsub. replace (Z.min (- k) (-52)) with (-52) by lia.
  assert (Zpos (fst (shl_align p (- k) (-52))) = Zpos m * 2 ^ 52) as Hs.
  { unfold shl_align. destruct (-52 - - k) as [|d|d] eqn:Ed; [| lia|]; cbn [fst].
    - rewrite Hp. do 2 f_equal. lia.
    - rewrite iter_xO, Hp, <- Z.mul_assoc, <- Z.pow_add_r by lia. do 2 f_equal. lia. }
  unfold cond_Zopp. rewrite Hs.
  change (Zpos (fst (shl_align (2 ^ 52) (-52) (-52)))) with (1 * 2 ^ 52). f_equal. lia.
Qed.

Lemma d_le_one z : 0 <= z < 2 ^ 53 -> d_le (d_of_Z 1) (d_of_Z z) = (1 <=? z).
Proof.
  intros Hz. unfold d_of_Z. destruct z as [|m|m]; [done| |lia].
  destruct (binary_round_int false m ltac:(lia)) as (k & p & E & (Hk & Hkl) & Hp).
  assert (binary_normalize 53 1024 (Zpos m) 0 false = S754_finite false p (- k)) as -> by exact E.
  assert (binary_normalize 53 1024 1 0 false = S754_finite false (2 ^ 52) (-52)) as -> by reflexivity.
  rewrite (proj2 (Z.leb_le 1 (Zpos m))) by lia. unfold d_le, SFleb, SFcompare.
  destruct (Z.compare_spec (-52) (- k)); [|done|lia].
  assert (k = 52) as -> by lia. change (Pos.compare_cont Eq (2 ^ 52) p) with (Zpos (2 ^ 52) ?= Zpos p).
  destruct (Z.compare_spec (Zpos (2 ^ 52)) (Zpos p)) as [| |Hgt]; [done|done|]. lia.
Qed.
