(* ===== verification/Json.v ===== *)
(** * JSON (src/common/json.c)

    The arena-based reader, the escaper and the writer.  The memory a node or a string takes
    comes from the request arena; the outcome of each allocation is an argument. *)
From S2P Require Import Prelude Double Slice.
Open Scope Z_scope.

(** json.c:8-8 [NTC_JSON_MAX_MEMBERS] *)
Definition NTC_JSON_MAX_MEMBERS : nat := 64.
(** json.c:9-9 [NTC_JSON_MAX_DEPTH] *)
Definition NTC_JSON_MAX_DEPTH : Z := 32.

(** json.h:15-30 [ntc_json]. The node of each [type] with the fields it uses. *)
Inductive ntc_json :=
  | JNull
  | JBool (b : bool)
  | JNum (num : double)
  | JStr (str : bytes)
  | JArr (items : list ntc_json)
  | JObj (members : list (bytes * ntc_json)).

(** json.c:11-11 [P]. [rest] is the text from [p] to [end]; [mem] is whether each next
    allocation succeeds (all do after its end). *)
Record P := MkP { rest : bytes; mem : list bool; err : bool; depth : Z }.

Definition set_rest (r : bytes) (s : P) : P := MkP r (mem s) (err s) (depth s).
Definition mark_err (s : P) : P := MkP (rest s) (mem s) true (depth s).
Definition enter (s : P) : P := MkP (rest s) (mem s) (err s) (depth s + 1).
Definition leave (s : P) : P := MkP (rest s) (mem s) (err s) (depth s - 1).
Definition advance (s : P) : P := set_rest (tail (rest s)) s.

(** The outcome of an allocation. *)
Definition alloc (s : P) : bool * P :=
  match mem s with
  | [] => (true, s)
  | b :: m => (b, MkP (rest s) m (err s) (depth s))
  end.

(** [s->p < s->end && *s->p == c] *)
Definition head_is (c : Z) (s : P) : bool :=
  match rest s with x :: _ => x =? c | [] => false end.

Definition is_ws (c : Z) : bool := (c =? 32) || (c =? 9) || (c =? 10) || (c =? 13).

(** json.c:13-16 [skip_ws] *)
Fixpoint drop_ws (r : bytes) : bytes :=
  match r with c :: r' => if is_ws c then drop_ws r' else r | [] => [] end.
Definition skip_ws (s : P) : P := set_rest (drop_ws (rest s)) s.

(** json.c:18-23 [new_val]. Whether there is a node. *)
Definition new_val (s : P) : bool * P :=
  let '(ok, s) := alloc s in if ok then (true, s) else (false, mark_err s).

(** One write of the unescaped string: [None] is a write past the allocation. *)
Definition put (cap : nat) (buf : bytes) (c : Z) : option bytes :=
  if (length buf <? cap)%nat then Some (buf ++ [c]) else None.

Definition puts (cap : nat) (buf : bytes) (cs : bytes) : option bytes :=
  foldl (fun b c => b ← b; put cap b c) (Some buf) cs.

(** json.c:46-54 [parse_string, hex digits]. The code point, whether a character was not a
    digit, and the text after the last character read. *)
Fixpoint hex4 (k : nat) (cp : Z) (r : bytes) : Z * bool * bytes :=
  match k, r with
  | S k, h :: r =>
      let cp := u32 (cp ≪ 4) in
      if (48 <=? h) && (h <=? 57) then hex4 k (Z.lor cp (h - 48)) r else
      if (97 <=? h) && (h <=? 102) then hex4 k (Z.lor cp (h - 97 + 10)) r else
      if (65 <=? h) && (h <=? 70) then hex4 k (Z.lor cp (h - 65 + 10)) r else
      (cp, true, r)
  | _, _ => (cp, false, r)
  end.

(** json.c:55-57 [parse_string, UTF-8] *)
Definition utf8 (cp : Z) : bytes :=
  if cp <? 0x80 then [u8 cp] else
  if cp <? 0x800 then [u8 (Z.lor 0xC0 (cp ≫ 6)); u8 (Z.lor 0x80 (Z.land cp 0x3F))] else
  [u8 (Z.lor 0xE0 (cp ≫ 12)); u8 (Z.lor 0x80 (Z.land (cp ≫ 6) 0x3F)); u8 (Z.lor 0x80 (Z.land cp 0x3F))].

(** json.c:36-43 [parse_string, simple escapes] *)
Definition escape_char (e : Z) : option Z :=
  if e =? 34 then Some 34 else if e =? 92 then Some 92 else if e =? 47 then Some 47 else
  if e =? 98 then Some 8 else if e =? 102 then Some 12 else if e =? 110 then Some 10 else
  if e =? 114 then Some 13 else if e =? 116 then Some 9 else None.

(** json.c:30-62 [parse_string, loop]. The string, the text left, and whether an error was
    seen. *)
Fixpoint string_loop (fuel cap : nat) (r buf : bytes) (e : bool) : option (bytes * bytes * bool) :=
  match r with
  | [] => Some (buf, [], e)
  | c :: r' =>
      if c =? 34 then Some (buf, r, e) else
      match fuel with
      | O => None
      | S f =>
          if negb (c =? 92) then buf ← put cap buf c; string_loop f cap r' buf e else
          match r' with
          | [] => Some (buf, [], true)
          | x :: r =>
              if x =? 117 then
                if (length r <? 4)%nat then string_loop f cap r buf true else
                let '(cp, bad, r) := hex4 4 0 r in
                buf ← puts cap buf (utf8 cp);
                string_loop f cap r buf (e || bad)
              else
                match escape_char x with
                | Some y => buf ← put cap buf y; string_loop f cap r buf e
                | None => string_loop f cap r buf true
                end
          end
      end
  end.

(** json.c:25-65 [parse_string]. The slice; empty when there is no memory for it. *)
Definition parse_string (s : P) : option (bytes * P) :=
  let s := advance s in
  let '(ok, s) := alloc s in
  if negb ok then Some ([], mark_err s) else
  '(buf, r, e) ← string_loop (length (rest s)) (S (length (rest s))) (rest s) [] false;
  let s := set_rest r (if e : bool then mark_err s else s) in
  if head_is 34 s then Some (buf, advance s) else Some (buf, mark_err s).

(** json.c:141-142 [parse_value, number run] *)
Definition is_num_char (c : Z) : bool :=
  (c =? 45) || (c =? 43) || (c =? 46) || (c =? 101) || (c =? 69) || ((48 <=? c) && (c <=? 57)).
Fixpoint span_num (r : bytes) : bytes * bytes :=
  match r with
  | c :: r' => if is_num_char c then let '(a, b) := span_num r' in (c :: a, b) else ([], r)
  | [] => ([], [])
  end.

(** json.c:139-149 [parse_value, number]. [tmp] holds 63 characters. *)
Definition parse_number (s : P) : bool * ntc_json * P :=
  let '(st, r) := span_num (rest s) in
  let s := set_rest r s in
  let len := if (64 <=? length st)%nat then 63%nat else length st in
  let '(ok, s) := new_val s in
  (ok, JNum (strtod (take len st)), s).

(** json.c:130-138 [parse_value, literals] *)
Definition parse_literal (w : bytes) (v : ntc_json) (s : P) : bool * ntc_json * P :=
  if (length w <=? length (rest s))%nat && memeq (take (length w) (rest s)) w then
    let s := set_rest (drop (length w) (rest s)) s in
    let '(ok, s) := new_val s in (ok, v, s)
  else (false, v, mark_err s).

(** The arrays of a finished object or array: [k] allocations, all tried. *)
Fixpoint alloc_n (k : nat) (s : P) : P :=
  match k with
  | O => s
  | S k => let '(ok, s) := alloc s in let s := alloc_n k s in if ok then s else mark_err s
  end.

(** json.c:98-104 [parse_value, object arrays] and the same for an array. *)
Definition finish (k : nat) (ok : bool) (s : P) : P :=
  if ok && negb (err s) then alloc_n k s else s.

(** json.c:153-154 [parse_value, exit] *)
Definition result (ok : bool) (v : ntc_json) (s : P) : option ntc_json * P :=
  let s := leave s in (if err s || negb ok then None else Some v, s).

(** json.c:67-155 [parse_value]. The loops over members and items are the two functions
    after it; every one takes a unit of fuel per call. *)
Fixpoint parse_value (fuel : nat) (s : P) : option (option ntc_json * P) :=
  match fuel with
  | O => None
  | S f =>
      if err s then Some (None, s) else
      let s := enter s in
      if NTC_JSON_MAX_DEPTH <? depth s then Some (None, leave (mark_err s)) else
      let s := skip_ws s in
      match rest s with
      | [] => Some (None, leave (mark_err s))
      | c :: _ =>
          if c =? 123 then
            let '(ok, s) := new_val (advance s) in
            let s := skip_ws s in
            '(ms, s) ← (if head_is 125 s then Some ([], advance s) else members_loop f s []);
            Some (result ok (JObj ms) (finish 2 ok s))
          else if c =? 91 then
            let '(ok, s) := new_val (advance s) in
            let s := skip_ws s in
            '(its, s) ← (if head_is 93 s then Some ([], advance s) else items_loop f s []);
            Some (result ok (JArr its) (finish 1 ok s))
          else if c =? 34 then
            let '(ok, s) := new_val s in
            if ok then '(str, s) ← parse_string s; Some (result true (JStr str) s)
            else Some (result false JNull s)
          else if c =? 116 then let '(ok, v, s) := parse_literal (bs "true") (JBool true) s in Some (result ok v s)
          else if c =? 102 then let '(ok, v, s) := parse_literal (bs "false") (JBool false) s in Some (result ok v s)
          else if c =? 110 then let '(ok, v, s) := parse_literal (bs "null") JNull s in Some (result ok v s)
          else if (c =? 45) || ((48 <=? c) && (c <=? 57)) then
            let '(ok, v, s) := parse_number s in Some (result ok v s)
          else Some (result false JNull (mark_err s))
      end
  end
(** json.c:83-97 [parse_value, members]. [None] when a member has no node: what the reader of
    the object would dereference. *)
with members_loop (fuel : nat) (s : P) (ms : list (bytes * ntc_json)) : option (list (bytes * ntc_json) * P) :=
  match fuel with
  | O => None
  | S f =>
      let s := skip_ws s in
      if negb (head_is 34 s) then Some (ms, mark_err s) else
      '(k, s) ← parse_string s;
      let s := skip_ws s in
      if negb (head_is 58 s) then Some (ms, mark_err s) else
      '(val, s) ← parse_value f (advance s);
      if err s then Some (ms, s) else
      val ← val;
      let ms := if (length ms <? NTC_JSON_MAX_MEMBERS)%nat then ms ++ [(k, val)] else ms in
      let s := skip_ws s in
      if head_is 44 s then members_loop f (advance s) ms else
      if head_is 125 s then Some (ms, advance s) else
      Some (ms, mark_err s)
  end
(** json.c:112-120 [parse_value, items] *)
with items_loop (fuel : nat) (s : P) (its : list ntc_json) : option (list ntc_json * P) :=
  match fuel with
  | O => None
  | S f =>
      '(it, s) ← parse_value f s;
      if err s then Some (its, s) else
      it ← it;
      let its := if (length its <? NTC_JSON_MAX_MEMBERS)%nat then its ++ [it] else its in
      let s := skip_ws s in
      if head_is 44 s then items_loop f (advance s) its else
      if head_is 93 s then Some (its, advance s) else
      Some (its, mark_err s)
  end.

(** json.c:157-162 [ntc_json_parse]. Every call but the innermost consumes input, so two
    units of fuel per character are enough. *)
Definition ntc_json_parse (m : list bool) (buf : bytes) : option (option ntc_json) :=
  '(v, s) ← parse_value (2 * length buf + 2) (MkP buf m false 0);
  Some (if err s then None else v).

(** json.c:167-168 [ntc_json_get, loop] *)
Fixpoint find_member (key : bytes) (ms : list (bytes * ntc_json)) : option ntc_json :=
  match ms with
  | [] => None
  | (k, v) :: ms => if ntc_slice_eq k key then Some v else find_member key ms
  end.

(** json.c:164-170 [ntc_json_get]. The key is a C string. *)
Definition ntc_json_get (o : option ntc_json) (key : bytes) : option ntc_json :=
  match o with Some (JObj ms) => find_member (ntc_slice_cstr key) ms | _ => None end.

(** json.c:172-174 [ntc_json_str] *)
Definition ntc_json_str (v : option ntc_json) : bytes :=
  match v with Some (JStr s) => s | _ => [] end.

(** json.c:176-178 [ntc_json_num] *)
Definition ntc_json_num (v : option ntc_json) : double :=
  match v with Some (JNum d) => d | _ => d_zero end.

(** ** Writing *)

(** json.c:208-209 [APP, APC], and [PUT] of json.c:182: an append that leaves room for the
    NUL; [None] is the -1 result. *)
Definition app_out (cap : nat) (out s : bytes) : option bytes :=
  if (cap <=? length out + length s)%nat then None else Some (out ++ s).

Definition fmt_04x (c : Z) : bytes :=
  let d := fmt_x c in replicate (4 - length d) 48 ++ d.

(** json.c:184-199 [ntc_json_escape, one character] *)
Definition escape_one (c : Z) : bytes :=
  if c =? 34 then [92; 34] else if c =? 92 then [92; 92] else
  if c =? 10 then [92; 110] else if c =? 13 then [92; 114] else if c =? 9 then [92; 116] else
  if c =? 8 then [92; 98] else if c =? 12 then [92; 102] else
  if c <? 0x20 then [92; 117] ++ fmt_04x c else [c].

(** json.c:183-200 [ntc_json_escape, loop]. One [PUT] per character. *)
Fixpoint escape_loop (cap : nat) (src out : bytes) : option bytes :=
  match src with
  | [] => Some out
  | c :: src =>
      out ← foldl (fun o x => o ← o; app_out cap o [x]) (Some out) (escape_one c);
      escape_loop cap src out
  end.

(** json.c:180-205 [ntc_json_escape] *)
Definition ntc_json_escape (cap : nat) (src : bytes) : option bytes :=
  out ← escape_loop cap src [];
  if (cap <=? length out)%nat then None else Some out.

(** json.c:213-221 [emit_rec, number] *)
Definition fmt_num (v : double) : bytes :=
  if d_integral v && d_abs_lt v (10 ^ 15) then fmt_d (d_trunc v) else fmt_g v.

(** json.c:222-229 [emit_rec, string] *)
Definition emit_str (cap : nat) (out s : bytes) : option bytes :=
  out ← app_out cap out [34];
  e ← ntc_json_escape (cap - length out) s;
  app_out cap (out ++ e) [34].

(** The separated elements of an array or object. *)
Definition emit_seq {A} (cap : nat) (f : bytes -> A -> option bytes) : bool -> list A -> bytes -> option bytes :=
  fix go first l out :=
    match l with
    | [] => Some out
    | x :: l =>
        out ← (if first : bool then Some out else app_out cap out [44]);
        out ← f out x;
        go false l out
    end.

(** json.c:207-255 [emit_rec]. The text so far, extended; [None] is the -1 result. *)
Fixpoint emit_rec (cap : nat) (v : ntc_json) (out : bytes) {struct v} : option bytes :=
  match v with
  | JNull => app_out cap out (bs "null")
  | JBool b => if b then app_out cap out (bs "true") else app_out cap out (bs "false")
  | JNum d => app_out cap out (fmt_num d)
  | JStr s => emit_str cap out s
  | JArr its =>
      out ← app_out cap out [91];
      out ← emit_seq cap (fun out it => emit_rec cap it out) true its out;
      app_out cap out [93]
  | JObj ms =>
      out ← app_out cap out [123];
      out ← emit_seq cap (fun out m => out ← emit_str cap out (fst m); out ← app_out cap out [58];
                                       emit_rec cap (snd m) out) true ms out;
      app_out cap out [125]
  end.

(** json.c:257-263 [ntc_json_emit] *)
Definition ntc_json_emit (v : option ntc_json) (cap : nat) : option bytes :=
  match v with
  | None => None
  | Some v =>
      if (cap =? 0)%nat then None else
      out ← emit_rec cap v [];
      if (cap <=? length out)%nat then None else Some out
  end.

(** ** Values and their texts *)

(** Separated by commas. *)
Fixpoint commas (ts : list bytes) : bytes :=
  match ts with [] => [] | [t] => t | t :: ts => t ++ 44 :: commas ts end.

Definition str_text (s : bytes) : bytes := [34] ++ concat (escape_one <$> s) ++ [34].

Fixpoint json_text (v : ntc_json) : bytes :=
  match v with
  | JNull => bs "null"
  | JBool b => if b then bs "true" else bs "false"
  | JNum d => fmt_num d
  | JStr s => str_text s
  | JArr its => [91] ++ commas (json_text <$> its) ++ [93]
  | JObj ms => [123] ++ commas ((fun m => str_text (fst m) ++ 58 :: json_text (snd m)) <$> ms) ++ [125]
  end.

(** At most [d] levels of nesting, and no more members than a node holds. *)
Fixpoint shaped (d : nat) (v : ntc_json) : Prop :=
  match d with
  | O => False
  | S d =>
      match v with
      | JArr its => (length its <= NTC_JSON_MAX_MEMBERS)%nat /\ Forall (shaped d) its
      | JObj ms => (length ms <= NTC_JSON_MAX_MEMBERS)%nat /\ Forall (fun m => shaped d (snd m)) ms
      | _ => True
      end
  end.

(** What survives being written: bytes in strings, numbers that are printed in full. *)
Fixpoint exact (v : ntc_json) : Prop :=
  match v with
  | JNum d => exists z, Z.abs z < 10 ^ 15 /\ d = d_of_Z z
  | JStr s => bytes_ok s
  | JArr its => Forall id (exact <$> its)
  | JObj ms => Forall id ((fun m => bytes_ok (fst m) /\ exact (snd m)) <$> ms)
  | _ => True
  end.

Example parse_1 : ntc_json_parse [] (qs "{'method':'tools/call','id':7,'ok':true}") =
  Some (Some (JObj [(bs "method", JStr (bs "tools/call")); (bs "id", JNum (d_of_Z 7)); (bs "ok", JBool true)])).
Proof. vm_compute. reflexivity. Qed.
Example parse_2 : ntc_json_parse [] (qs "[1, 'a\n\u00e9', null, [], {} ]  x") =
  Some (Some (JArr [JNum (d_of_Z 1); JStr [97; 10; 195; 169]; JNull; JArr []; JObj []])).
Proof. vm_compute. reflexivity. Qed.
Example parse_3 : ntc_json_parse [] (qs "{'a':'\uZZ'}") = Some None.
Proof. vm_compute. reflexivity. Qed.
Example emit_1 : ntc_json_emit (Some (JObj [(bs "a", JNum (d_of_Z (-7))); (bs "b", JArr [JStr [1; 34]; JNull])])) 64 =
  Some (qs "{'a':-7,'b':['\u0001\'',null]}").
Proof. vm_compute. reflexivity. Qed.

(** ** Induction over nested nodes *)

Section json_ind.
Variable Q : ntc_json -> Prop.
Hypothesis Hnull : Q JNull.
Hypothesis Hbool : forall b, Q (JBool b).
Hypothesis Hnum : forall d, Q (JNum d).
Hypothesis Hstr : forall s, Q (JStr s).
Hypothesis Harr : forall its, Forall Q its -> Q (JArr its).
Hypothesis Hobj : forall ms, Forall (fun m => Q (snd m)) ms -> Q (JObj ms).

Fixpoint json_nested_ind (v : ntc_json) : Q v :=
  match v with
  | JNull => Hnull
  | JBool b => Hbool b
  | JNum d => Hnum d
  | JStr s => Hstr s
  | JArr its =>
      Harr its ((fix go l : Forall Q l :=
        match l with [] => Forall_nil_2 _ | x :: l => Forall_cons_2 _ _ _ (json_nested_ind x) (go l) end) its)
  | JObj ms =>
      Hobj ms ((fix go l : Forall (fun m => Q (snd m)) l :=
        match l with
        | [] => Forall_nil_2 _
        | x :: l => Forall_cons_2 _ _ _ (json_nested_ind (snd x)) (go l)
        end) ms)
  end.
End json_ind.

(** ** The writer *)

Section writer.
Context (cap : nat).

(** A piece of the writer appends its text, if it fits with the NUL. *)
Definition emits (f : bytes -> option bytes) (t : bytes) : Prop :=
  forall out, (length out < cap)%nat -> f out = app_out cap out t.

Lemma app_out_Some out t o : app_out cap out t = Some o -> o = out ++ t /\ (length o < cap)%nat.
Proof.
  unfold app_out. destruct (Nat.leb_spec cap (length out + length t)); intros [= <-].
  split; [done|]. rewrite length_app. lia.
Qed.

Lemma emits_bind f g a b : emits f a -> emits g b -> emits (fun out => o ← f out; g o) (a ++ b).
Proof.
  intros Hf Hg out Ho. rewrite (Hf out Ho). unfold app_out at 1 2.
  destruct (Nat.leb_spec cap (length out + length a)).
  - bind. destruct (Nat.leb_spec cap (length out + length (a ++ b))); [done|]. rewrite length_app in *. lia.
  - bind. rewrite Hg by (rewrite length_app; lia). unfold app_out.
    rewrite !length_app, Nat.add_assoc, <- app_assoc. done.
Qed.

Lemma emits_app t : emits (fun out => app_out cap out t) t.
Proof. by intros out Ho. Qed.

Lemma emits_skip : emits Some [].
Proof.
  intros out Ho. unfold app_out. simpl. rewrite app_nil_r.
  by rewrite (proj2 (Nat.leb_gt cap (length out + 0))) by lia.
Qed.

Lemma emits_ext f g t : (forall out, f out = g out) -> emits f t -> emits g t.
Proof. intros E H out Ho. rewrite <- E. by apply H. Qed.
End writer.

Lemma escape_one_loop cap c out :
  (length out < cap)%nat ->
  foldl (fun o x => o ← o; app_out cap o [x]) (Some out) (escape_one c) = app_out cap out (escape_one c).
Proof.
  generalize (escape_one c) as cs. intros cs. revert out.
  induction cs as [|x cs IH]; intros out Ho; cbn [foldl]; [by rewrite emits_skip|]. bind.
  change (x :: cs) with ([x] ++ cs).
  rewrite <- (emits_bind cap _ _ [x] cs (emits_app cap [x]) (emits_app cap cs) out Ho).
  destruct (app_out cap out [x]) as [o|] eqn:E; bind.
  - apply app_out_Some in E as [_ ?]. by apply IH.
  - clear. by induction cs.
Qed.

Lemma escape_loop_spec cap src : emits cap (escape_loop cap src) (concat (escape_one <$> src)).
Proof.
  induction src as [|c src IH]; cbn [escape_loop concat fmap list_fmap]; [apply emits_skip|].
  apply (emits_bind cap (fun out => foldl (fun o x => o ← o; app_out cap o [x]) (Some out) (escape_one c))
    (escape_loop cap src)); [|done]. intros out Ho. by apply escape_one_loop.
Qed.

Lemma ntc_json_escape_spec cap src :
  ntc_json_escape cap src =
  let t := concat (escape_one <$> src) in if decide (length t < cap)%nat then Some t else None.
Proof.
  unfold ntc_json_escape. cbv zeta. destruct (decide (cap = 0%nat)) as [->|Hc].
  - rewrite decide_False by lia. by destruct (escape_loop 0 src []).
  - rewrite escape_loop_spec by (simpl; lia). unfold app_out. simpl length. rewrite Nat.add_0_l.
    destruct (Nat.leb_spec cap (length (concat (escape_one <$> src)))); bind.
    + by rewrite decide_False by lia.
    + rewrite decide_True by lia. rewrite app_nil_l. by rewrite (proj2 (Nat.leb_gt cap _)).
Qed.

Lemma emits_str cap s : emits cap (fun out => emit_str cap out s) (str_text s).
Proof.
  unfold emit_str, str_text.
  apply (emits_bind cap _ (fun out => e ← ntc_json_escape (cap - length out) s; app_out cap (out ++ e) [34]));
    [apply emits_app|].
  apply (emits_ext _ (fun out => o ← (e ← ntc_json_escape (cap - length out) s; Some (out ++ e)); app_out cap o [34])).
  { intros out. by destruct (ntc_json_escape _ _). }
  apply emits_bind; [|apply emits_app]. intros out Ho. rewrite ntc_json_escape_spec. cbv zeta.
  unfold app_out. destruct (decide _); destruct (Nat.leb_spec cap (length out + length (concat (escape_one <$> s))));
    bind; done || lia.
Qed.

(** The separators: the first element has none. *)
Lemma emits_seq {A} cap (f : bytes -> A -> option bytes) (t : A -> bytes) l first :
  Forall (fun x => emits cap (fun out => f out x) (t x)) l ->
  emits cap (emit_seq cap f first l)
    (match l with [] => [] | _ => (if first : bool then [] else [44]) ++ commas (t <$> l) end).
Proof.
  intros Hl. revert first. induction Hl as [|x l Hx Hl IH]; intros first; cbn [emit_seq]; [apply emits_skip|].
  apply (emits_bind cap (fun out => if first then Some out else app_out cap out [44])
    (fun out => out ← f out x; emit_seq cap f false l out)).
  { destruct first; [apply emits_skip|apply emits_app]. }
  specialize (IH false). destruct l as [|y l]; cbn [fmap list_fmap commas] in *.
  - rewrite <- (app_nil_r (t x)). by apply emits_bind.
  - by apply emits_bind.
Qed.

Lemma emit_rec_spec cap v : emits cap (emit_rec cap v) (json_text v).
Proof.
  induction v as [|b|d|s|its IH|ms IH] using json_nested_ind.
  - apply emits_app.
  - destruct b; apply emits_app.
  - apply emits_app.
  - apply emits_str.
  - cbn [emit_rec json_text]. apply (emits_bind cap (fun out => app_out cap out [91])); [apply emits_app|].
    apply emits_bind; [|apply emits_app].
    pose proof (emits_seq cap (fun out it => emit_rec cap it out) json_text its true IH) as H.
    by destruct its.
  - cbn [emit_rec json_text]. apply (emits_bind cap (fun out => app_out cap out [123])); [apply emits_app|].
    apply emits_bind; [|apply emits_app].
    match goal with |- emits _ (emit_seq _ ?f _ _) _ =>
      pose proof (emits_seq cap f (fun m => str_text (fst m) ++ 58 :: json_text (snd m)) ms true) as H end.
    destruct ms as [|m ms]; [apply H; constructor|]. apply H. clear H.
    eapply list.Forall_impl; [exact IH|]. intros [k w] Hw. cbn [fst snd] in *.
    apply (emits_bind cap (fun out => emit_str cap out k)); [apply emits_str|].
    by apply (emits_bind cap (fun out => app_out cap out [58]) (emit_rec cap w) [58]); [apply emits_app|].
Qed.

(** ** The reader: it always ends, within its buffers *)

Lemma length_drop_ws r : (length (drop_ws r) <= length r)%nat.
Proof. induction r as [|c r IH]; cbn [drop_ws]; [done|]. case_match; simpl; lia. Qed.

Lemma put_fits cap buf c : (length buf < cap)%nat -> put cap buf c = Some (buf ++ [c]).
Proof. intros H. unfold put. by rewrite (proj2 (Nat.ltb_lt _ _) H). Qed.

Lemma puts_fit cap buf cs : (length buf + length cs <= cap)%nat -> puts cap buf cs = Some (buf ++ cs).
Proof.
  unfold puts. revert buf. induction cs as [|c cs IH]; intros buf H; cbn [foldl]; [by rewrite app_nil_r|].
  bind. simpl in H. rewrite put_fits by lia. rewrite IH by (rewrite length_app; simpl; lia).
  by rewrite <- app_assoc.
Qed.

Lemma length_utf8 cp : (length (utf8 cp) <= 3)%nat.
Proof. unfold utf8. repeat case_match; simpl; lia. Qed.

(** The digits use up at least one character, and no more than four. *)
Lemma hex4_length k cp r cp' bad r' :
  hex4 k cp r = (cp', bad, r') -> (length r' <= length r)%nat /\ ((0 < k)%nat -> r <> [] -> (length r' < length r)%nat).
Proof.
  revert cp r. induction k as [|k IH]; intros cp r H; cbn [hex4] in H; [injection H as <- <- <-; split; [done|lia]|].
  destruct r as [|h r]; [injection H as <- <- <-; done|]. cbv zeta in H.
  repeat case_match; first [injection H as <- <- <-; simpl; lia | apply IH in H as [? _]; simpl; lia].
Qed.

(** Three bytes at most for the three or more characters of an escape. *)
Lemma string_loop_total fuel cap r buf e :
  (length r <= fuel)%nat -> (length buf + length r < cap)%nat ->
  exists buf' r' e', string_loop fuel cap r buf e = Some (buf', r', e') /\
    (length r' <= length r)%nat /\ (e = true -> e' = true).
Proof.
  revert r buf e. induction fuel as [|f IH]; intros r buf e Hf Hc.
  { destruct r; [|simpl in Hf; lia]. cbn. eauto 6. }
  destruct r as [|c r]; cbn [string_loop]; [by eexists _, _, _|]. simpl in Hf, Hc.
  destruct (c =? 34); [by eexists _, _, _|]. destruct (c =? 92); cbn [negb].
  2: { rewrite put_fits by lia. bind.
       destruct (IH r (buf ++ [c]) e) as (b' & r' & e' & -> & ? & ?); [lia|rewrite length_app; simpl; lia|].
       exists b', r', e'. simpl. auto with lia. }
  destruct r as [|x r]; [exists buf, [], true; simpl; auto with lia|]. simpl in Hf, Hc.
  assert (forall buf' e1, (length buf' <= length buf + 1)%nat -> (e = true -> e1 = true) ->
    exists b' r' e', string_loop f cap r buf' e1 = Some (b', r', e') /\
      (length r' <= length (c :: x :: r))%nat /\ (e = true -> e' = true)) as Hstep.
  { intros buf' e1 Hb He. destruct (IH r buf' e1) as (b' & r' & e' & -> & ? & ?); [lia|lia|].
    exists b', r', e'. simpl. split; [done|]. split; [lia|auto]. }
  destruct (x =? 117).
  - destruct (Nat.ltb_spec (length r) 4) as [H4|H4]; [by apply Hstep; [lia|]|].
    destruct (hex4 4 0 r) as [[cp bad] r1] eqn:Eh.
    assert (r <> []) as Hn by (intros ->; simpl in H4; lia).
    apply hex4_length in Eh as [_ Hr1]. specialize (Hr1 ltac:(lia) Hn).
    pose proof (length_utf8 cp). rewrite puts_fit by lia. bind.
    destruct (IH r1 (buf ++ utf8 cp) (e || bad)) as (b' & r' & e' & -> & ? & He'); [lia|rewrite length_app; lia|].
    exists b', r', e'. simpl. split; [done|]. split; [lia|]. intros ->. by apply He'.
  - destruct (escape_char x); [|by apply Hstep; [lia|]].
    rewrite put_fits by lia. bind. apply Hstep; [rewrite length_app; simpl; lia|done].
Qed.

(** The text is never read twice, the depth is kept, an error stays. *)
Record steps (s s' : P) : Prop := Steps {
  st_rest : (length (rest s') <= length (rest s))%nat;
  st_depth : depth s' = depth s;
  st_err : err s = true -> err s' = true }.

#[export] Instance steps_preorder : PreOrder steps.
Proof.
  split; [by intros s|]. intros a b c [A1 A2 A3] [B1 B2 B3]. split; [lia|congruence|auto].
Qed.

Lemma steps_alloc s ok s' : alloc s = (ok, s') -> steps s s' /\ rest s' = rest s /\ err s' = err s.
Proof. unfold alloc. destruct (mem s); intros [= <- <-]; done. Qed.

Lemma steps_set_err s : steps s (mark_err s).
Proof. by split. Qed.

Lemma steps_ws s : steps s (skip_ws s).
Proof. split; [apply length_drop_ws|done..]. Qed.

Lemma steps_advance s : steps s (advance s).
Proof. split; [cbn; destruct (rest s); simpl; lia|done..]. Qed.

Lemma advance_shorter c s : head_is c s = true -> (length (rest (advance s)) < length (rest s))%nat.
Proof. unfold head_is. cbn. destruct (rest s); simpl; [done|lia]. Qed.

Lemma steps_new_val s ok s' :
  new_val s = (ok, s') -> steps s s' /\ rest s' = rest s /\ (err s' = false -> ok = true).
Proof.
  unfold new_val. destruct (alloc s) as [b s1] eqn:E. apply steps_alloc in E as (H1 & H2 & H3).
  destruct b; intros [= <- <-]; [done|]. split; [|done]. by etrans; [|apply steps_set_err].
Qed.

Lemma steps_alloc_n k s : steps s (alloc_n k s).
Proof.
  revert s. induction k as [|k IH]; intros s; cbn [alloc_n]; [done|].
  destruct (alloc s) as [ok s1] eqn:E. apply steps_alloc in E as (H & _ & _).
  destruct ok; etrans; try exact H; [apply IH|]. etrans; [apply IH|apply steps_set_err].
Qed.

Lemma steps_finish k ok s : steps s (finish k ok s).
Proof. unfold finish. case_match; [apply steps_alloc_n|done]. Qed.

Lemma parse_string_total s :
  exists str s', parse_string s = Some (str, s') /\ steps (advance s) s'.
Proof.
  unfold parse_string. destruct (alloc (advance s)) as [ok s1] eqn:E.
  apply steps_alloc in E as (Hs & _ & _). destruct ok; cbn [negb].
  2: { eexists _, _. split; [done|]. etrans; [exact Hs|apply steps_set_err]. }
  destruct (string_loop_total (length (rest s1)) (S (length (rest s1))) (rest s1) [] false)
    as (buf & r & e & -> & Hr & _); [done|simpl; lia|]. bind.
  set (s2 := set_rest r (if e then mark_err s1 else s1)).
  assert (steps (advance s) s2) as H2.
  { etrans; [exact Hs|]. split; unfold s2; by destruct e. }
  clearbody s2. destruct (head_is 34 s2); eexists _, _; (split; [done|]); (etrans; [exact H2|]).
  - apply steps_advance.
  - apply steps_set_err.
Qed.

(** The fuel of a call: two units per character. *)
Definition value_done (s : P) (o : option ntc_json) (s' : P) : Prop :=
  steps s s' /\ (err s' = false -> exists v, o = Some v /\
    (length (rest s') < length (rest s))%nat /\ forall d, depth s + Z.of_nat d = NTC_JSON_MAX_DEPTH -> shaped d v).

Definition value_total (fuel : nat) : Prop :=
  forall s, (2 * length (rest s) + 1 <= fuel)%nat ->
  exists o s', parse_value fuel s = Some (o, s') /\ value_done s o s'.

(** A loop keeps its elements within bounds. *)
Definition loop_total {A} (shape : nat -> A -> Prop) (loop : nat -> P -> list A -> option (list A * P))
    (fuel : nat) : Prop :=
  forall s l, (2 * length (rest s) + 2 <= fuel)%nat -> (length l <= NTC_JSON_MAX_MEMBERS)%nat ->
  exists l' s', loop fuel s l = Some (l', s') /\ steps s s' /\ (length l' <= NTC_JSON_MAX_MEMBERS)%nat /\
    (err s' = false -> forall d, depth s + Z.of_nat d = NTC_JSON_MAX_DEPTH ->
      Forall (shape d) l -> Forall (shape d) l').

Definition shaped_member (d : nat) (m : bytes * ntc_json) : Prop := shaped d (snd m).

Lemma result_done s0 s ok v :
  steps (enter s0) s -> err s0 = false ->
  (err s = false -> ok = true /\ (length (rest s) < length (rest s0))%nat /\
    forall d, depth s0 + Z.of_nat d = NTC_JSON_MAX_DEPTH -> shaped d v) ->
  value_done s0 (fst (result ok v s)) (snd (result ok v s)).
Proof.
  intros [Hr Hd He] H0 H. unfold result. cbn [fst snd]. cbn in Hr, Hd. split.
  - split; cbn; [done|lia|congruence].
  - cbn [leave err rest]. intros E. destruct (H E) as (-> & Hl & Hs). rewrite E. cbn. eauto.
Qed.

Lemma some_result ok v s s0 :
  value_done s0 (fst (result ok v s)) (snd (result ok v s)) ->
  exists o s', Some (result ok v s) = Some (o, s') /\ value_done s0 o s'.
Proof. intros H. eexists _, _. split; [|exact H]. by rewrite <- surjective_pairing. Qed.

Lemma failed_done s0 s : steps s0 s -> value_done s0 None (mark_err s).
Proof. intros H. split; [etrans; [exact H|apply steps_set_err]|done]. Qed.

Lemma parse_literal_done w v s ok v' s' :
  w <> [] -> parse_literal w v s = (ok, v', s') ->
  steps s s' /\ v' = v /\ (err s' = false -> ok = true /\ (length (rest s') < length (rest s))%nat).
Proof.
  intros Hw. unfold parse_literal. destruct (_ && _) eqn:E.
  2: { intros [= <- <- <-]. split; [apply steps_set_err|]. done. }
  apply andb_true_iff in E as [El _]. apply Nat.leb_le in El.
  destruct (new_val _) as [ok1 s1] eqn:En. intros [= <- <- <-].
  apply steps_new_val in En as (Hs & Hr & Hok). cbn in Hr.
  assert (length w <> 0%nat) by (by destruct w).
  split; [etrans; [|exact Hs]; split; cbn; [rewrite length_drop; lia|done..]|]. split; [done|].
  intros He. split; [by apply Hok|]. rewrite Hr, length_drop. lia.
Qed.

Lemma span_num_app r a b : span_num r = (a, b) -> r = a ++ b.
Proof.
  revert a b. induction r as [|c r IH]; intros a b; cbn [span_num]; [by intros [= <- <-]|].
  case_match; [|by intros [= <- <-]]. destruct (span_num r) as [a' b'].
  intros [= <- <-]. cbn [app]. f_equal. by apply IH.
Qed.

Lemma parse_number_done c r s ok v s' :
  rest s = c :: r -> is_num_char c = true -> parse_number s = (ok, v, s') ->
  steps s s' /\ (exists d, v = JNum d) /\ (err s' = false -> ok = true /\ (length (rest s') < length (rest s))%nat).
Proof.
  intros Hr Hc. unfold parse_number. rewrite Hr. cbn [span_num]. rewrite Hc.
  destruct (span_num r) as [a b] eqn:Es. apply span_num_app in Es as ->.
  destruct (new_val _) as [ok1 s1] eqn:En. intros [= <- <- <-].
  apply steps_new_val in En as (Hs & Hr1 & Hok). cbn in Hr1.
  split; [etrans; [|exact Hs]; split; cbn; [rewrite Hr; simpl; rewrite length_app; lia|done..]|].
  split; [by eexists|]. intros He. split; [by apply Hok|]. rewrite Hr1. simpl. rewrite length_app. lia.
Qed.

Lemma finish_ok k ok s : err (finish k ok s) = false -> err s = false.
Proof. intros H. destruct (err s) eqn:E; [|done]. by rewrite (st_err _ _ (steps_finish k ok s) E) in H. Qed.

(** An object or an array, after its opening character. *)
Lemma compound_total {A} shape (loop : nat -> P -> list A -> option (list A * P)) (node : list A -> ntc_json)
    (close : Z) (k : nat) f s0 s :
  loop_total shape loop f ->
  (forall l d, (length l <= NTC_JSON_MAX_MEMBERS)%nat -> Forall (shape d) l -> shaped (S d) (node l)) ->
  err s0 = false -> depth s0 < NTC_JSON_MAX_DEPTH -> (2 * length (rest s0) <= f)%nat ->
  steps (enter s0) s -> rest s <> [] ->
  exists o s', (let '(ok, s) := new_val (advance s) in
    let s := skip_ws s in
    '(l, s) ← (if head_is close s then Some ([], advance s) else loop f s []);
    Some (result ok (node l) (finish k ok s))) = Some (o, s') /\ value_done s0 o s'.
Proof.
  intros Hloop Hnode He Hd Hf Hs Hne. destruct (new_val (advance s)) as [ok s1] eqn:En.
  apply steps_new_val in En as (H1 & Hr1 & Hok). cbv zeta.
  assert (steps s (skip_ws s1)) as H2.
  { etrans; [apply steps_advance|]. etrans; [exact H1|apply steps_ws]. }
  assert (length (rest (skip_ws s1)) < length (rest s0))%nat as Hlt.
  { pose proof (st_rest _ _ (steps_ws s1)). pose proof (st_rest _ _ Hs) as Hs'. cbn in Hs'.
    rewrite Hr1 in *. cbn [advance set_rest rest] in *. destruct (rest s); [done|]. simpl in *. lia. }
  assert (exists l s2, (if head_is close (skip_ws s1) then Some ([], advance (skip_ws s1)) else loop f (skip_ws s1) [])
     = Some (l, s2) /\ steps (skip_ws s1) s2 /\ (length l <= NTC_JSON_MAX_MEMBERS)%nat /\
     (err s2 = false -> forall d, depth (skip_ws s1) + Z.of_nat d = NTC_JSON_MAX_DEPTH -> Forall (shape d) l))
    as (l & s2 & -> & H3 & Hl & Hsh).
  { destruct (head_is _ _).
    - eexists [], _. split; [done|]. split; [apply steps_advance|]. split; [simpl; lia|]. intros; constructor.
    - destruct (Hloop (skip_ws s1) []) as (l & s2 & -> & ? & ? & Hsh); [lia|simpl; lia|].
      eexists _, _. split; [done|]. split; [done|]. split; [done|]. intros. by apply Hsh. }
  bind. apply some_result. pose proof (steps_finish k ok s2) as H4.
  apply result_done; [|done|].
  - etrans; [exact Hs|]. etrans; [exact H2|]. by etrans.
  - intros E. pose proof (finish_ok _ _ _ E) as E2. split; [|split].
    + apply Hok. destruct (err s1) eqn:E1; [|done]. by rewrite (st_err _ _ H3 E1) in E2.
    + pose proof (st_rest _ _ H3). pose proof (st_rest _ _ H4). lia.
    + intros d Hd'. destruct d as [|d]; [lia|]. apply Hnode; [done|]. apply Hsh; [done|].
      rewrite (st_depth _ _ H2), (st_depth _ _ Hs). cbn. lia.
Qed.

Lemma value_step f :
  loop_total shaped_member members_loop f -> loop_total shaped items_loop f -> value_total (S f).
Proof.
  intros Hm Hi s0 Hf. cbn [parse_value]. destruct (err s0) eqn:He.
  { eexists _, _. split; [done|]. split; [done|]. by rewrite He. }
  cbv zeta. destruct (Z.ltb_spec NTC_JSON_MAX_DEPTH (depth (enter s0))) as [Hd|Hd].
  { eexists _, _. split; [done|]. split; [|done]. split; cbn; [done|lia|done]. }
  cbn in Hd. set (s := skip_ws (enter s0)). assert (steps (enter s0) s) as Hs by apply steps_ws.
  clearbody s.
  destruct (rest s) as [|c r] eqn:Er.
  { eexists _, _. split; [done|]. split; [|done]. split; cbn; [apply (st_rest _ _ Hs)|rewrite (st_depth _ _ Hs); cbn; lia|done]. }
  assert (length (rest s0) <> 0)%nat as Hn.
  { pose proof (st_rest _ _ Hs) as H. rewrite Er in H. simpl in H. lia. }
  assert (rest s <> []) as Hne by (by rewrite Er).
  assert (forall v ok s', steps s s' -> (forall d, shaped (S d) v) ->
    (err s' = false -> ok = true /\ (length (rest s') < length (rest s))%nat) ->
    exists o s'', Some (result ok v s') = Some (o, s'') /\ value_done s0 o s'') as Hscalar.
  { intros v ok s' H1 Hv Hok. apply some_result, result_done; [by etrans|done|].
    intros E. destruct (Hok E) as [-> Hl]. split; [done|]. split.
    - pose proof (st_rest _ _ Hs) as H. cbn in H. lia.
    - intros [|d] Hd'; [lia|]. apply Hv. }
  destruct (c =? 123).
  { refine (compound_total shaped_member members_loop JObj 125 2 f s0 s Hm _ He _ _ Hs Hne); [by split|lia|lia]. }
  destruct (c =? 91).
  { refine (compound_total shaped items_loop JArr 93 1 f s0 s Hi _ He _ _ Hs Hne); [by split|lia|lia]. }
  destruct (c =? 34).
  { destruct (new_val s) as [ok s1] eqn:En. apply steps_new_val in En as (H1 & Hr1 & Hok).
    destruct ok; [|apply Hscalar; [done|done|by intros ?%Hok]].
    destruct (parse_string_total s1) as (str & s2 & -> & H2). bind.
    apply Hscalar; [|done|intros _; split; [done|]].
    - etrans; [exact H1|]. etrans; [apply steps_advance|exact H2].
    - pose proof (st_rest _ _ H2) as H. cbn in H. rewrite Hr1, Er in H. rewrite Er. simpl in *. lia. }
  destruct (c =? 116); [|destruct (c =? 102); [|destruct (c =? 110)]];
    try (destruct (parse_literal _ _ s) as [[ok v] s'] eqn:E; apply parse_literal_done in E as (? & -> & ?);
         [by apply Hscalar|done]).
  destruct (_ || _) eqn:Ec.
  - destruct (parse_number s) as [[ok v] s'] eqn:E.
    apply (parse_number_done c r) in E as (? & [d ->] & ?); [by apply Hscalar|done|].
    unfold is_num_char. apply orb_true_iff in Ec as [-> | ->]; [done|apply orb_true_r].
  - apply Hscalar; [apply steps_set_err|done|done].
Qed.

(** What a loop ends with, from [s0] with the elements [l]. *)
Definition loop_done {A} (shape : nat -> A -> Prop) (s0 : P) (l : list A) (r : option (list A * P)) : Prop :=
  exists l' s', r = Some (l', s') /\ steps s0 s' /\ (length l' <= NTC_JSON_MAX_MEMBERS)%nat /\
    (err s' = false -> forall d, depth s0 + Z.of_nat d = NTC_JSON_MAX_DEPTH ->
      Forall (shape d) l -> Forall (shape d) l').

Lemma loop_failed {A} (shape : nat -> A -> Prop) s0 l s :
  steps s0 s -> (length l <= NTC_JSON_MAX_MEMBERS)%nat -> loop_done shape s0 l (Some (l, mark_err s)).
Proof.
  intros H Hl. eexists _, _. split; [done|]. split; [|done]. etrans; [exact H|apply steps_set_err].
Qed.

(** After an element: another one, the closing character, or an error. *)
Lemma loop_next {A} shape (loop : nat -> P -> list A -> option (list A * P)) close f s0 s l x :
  loop_total shape loop f -> (2 * length (rest s0) <= S f)%nat -> (length l <= NTC_JSON_MAX_MEMBERS)%nat ->
  steps s0 s -> (length (rest s) < length (rest s0))%nat ->
  (forall d, depth s0 + Z.of_nat d = NTC_JSON_MAX_DEPTH -> shape d x) ->
  loop_done shape s0 l
    (let l := if (length l <? NTC_JSON_MAX_MEMBERS)%nat then l ++ [x] else l in
     let s := skip_ws s in
     if head_is 44 s then loop f (advance s) l else
     if head_is close s then Some (l, advance s) else Some (l, mark_err s)).
Proof.
  intros IH Hf Hl Hs Hlt Hx. cbv zeta. set (l1 := if (length l <? _)%nat then _ else _).
  assert (length l1 <= NTC_JSON_MAX_MEMBERS)%nat as Hl1.
  { unfold l1. destruct (Nat.ltb_spec (length l) NTC_JSON_MAX_MEMBERS); [rewrite length_app; simpl; lia|done]. }
  assert (forall d, depth s0 + Z.of_nat d = NTC_JSON_MAX_DEPTH -> Forall (shape d) l -> Forall (shape d) l1) as Hsl.
  { intros d Hd Hall. unfold l1. case_match; [|done]. apply Forall_app. split; [done|].
    constructor; [by apply Hx|constructor]. }
  pose proof (steps_ws s) as Hw. pose proof (st_rest _ _ Hw) as Lw.
  destruct (head_is 44 (skip_ws s)) eqn:E44; [|destruct (head_is close (skip_ws s))].
  - pose proof (advance_shorter _ _ E44) as L44.
    destruct (IH (advance (skip_ws s)) l1) as (l' & s3 & -> & H6 & Hl' & Hs'); [lia|done|].
    eexists _, _. split; [done|]. split; [|split; [done|]].
    + etrans; [exact Hs|]. etrans; [exact Hw|]. etrans; [apply steps_advance|exact H6].
    + intros E d Hd Hall. apply Hs'; [done| |by apply Hsl].
      cbn [advance set_rest depth skip_ws]. by rewrite (st_depth _ _ Hs).
  - eexists _, _. split; [done|]. split; [|by auto].
    etrans; [exact Hs|]. etrans; [exact Hw|apply steps_advance].
  - eexists _, _. split; [done|]. split; [|by auto].
    etrans; [exact Hs|]. etrans; [exact Hw|apply steps_set_err].
Qed.

Lemma members_step f :
  value_total f -> loop_total shaped_member members_loop f -> loop_total shaped_member members_loop (S f).
Proof.
  intros Hv IH s0 l Hf Hl. change (loop_done shaped_member s0 l (members_loop (S f) s0 l)).
  cbn [members_loop]. cbv zeta. pose proof (steps_ws s0) as H0. set (s := skip_ws s0) in *. clearbody s.
  destruct (head_is 34 s) eqn:E34; cbn [negb]; [|by apply loop_failed].
  destruct (parse_string_total s) as (k & s1 & -> & H1). bind.
  assert (steps s (skip_ws s1)) as H2.
  { etrans; [apply steps_advance|]. etrans; [exact H1|apply steps_ws]. }
  destruct (head_is 58 (skip_ws s1)) eqn:E58; cbn [negb]; [|apply loop_failed; [by etrans|done]].
  pose proof (advance_shorter _ _ E58) as L58. pose proof (st_rest _ _ H2) as L2. pose proof (st_rest _ _ H0) as L0.
  destruct (Hv (advance (skip_ws s1))) as (o & s2 & -> & H3 & Ho); [lia|]. bind.
  assert (steps s0 s2) as H4.
  { etrans; [exact H0|]. etrans; [exact H2|]. etrans; [apply steps_advance|exact H3]. }
  destruct (err s2) eqn:Ee.
  { eexists _, _. split; [done|]. split; [done|]. split; [done|]. by rewrite Ee. }
  destruct (Ho eq_refl) as (v & -> & L3 & Hsh). bind.
  apply (loop_next shaped_member members_loop 125 f); [done|lia|done|done|lia|].
  intros d Hd. apply Hsh. cbn [advance set_rest depth]. by rewrite (st_depth _ _ H2), (st_depth _ _ H0).
Qed.

Lemma items_step f :
  value_total f -> loop_total shaped items_loop f -> loop_total shaped items_loop (S f).
Proof.
  intros Hv IH s0 l Hf Hl. change (loop_done shaped s0 l (items_loop (S f) s0 l)).
  cbn [items_loop]. destruct (Hv s0) as (o & s2 & -> & H3 & Ho); [lia|]. bind.
  destruct (err s2) eqn:Ee.
  { eexists _, _. split; [done|]. split; [done|]. split; [done|]. by rewrite Ee. }
  destruct (Ho eq_refl) as (v & -> & L3 & Hsh). bind.
  by apply (loop_next shaped items_loop 93 f); [done|lia|done|done|lia|].
Qed.

Lemma parse_total fuel :
  value_total fuel /\ loop_total shaped_member members_loop fuel /\ loop_total shaped items_loop fuel.
Proof.
  induction fuel as [|f (Hv & Hm & Hi)]; [split_and!; intros s; intros; lia|].
  split_and!; [by apply value_step|by apply members_step|by apply items_step].
Qed.

Lemma json_parse_shaped m buf :
  exists r, ntc_json_parse m buf = Some r /\ forall v, r = Some v -> shaped 32 v.
Proof.
  destruct (parse_total (2 * length buf + 2)) as [Hv _].
  destruct (Hv (MkP buf m false 0)) as (o & s & E & _ & Ho); [cbn; lia|].
  unfold ntc_json_parse. rewrite E. bind. eexists. split; [done|].
  intros v Hr. destruct (err s) eqn:Ee; [done|]. destruct (Ho eq_refl) as (v' & -> & _ & Hs).
  injection Hr as ->. by apply Hs.
Qed.

(** C29. The reader is total and safe.  On any bytes, whatever allocations fail,
    [ntc_json_parse] ends, never writes past the buffer of a string, and never leaves a NULL
    item in an array or an object; what it returns nests at most 32 levels with at most 64
    members each. *)
Theorem json_parse_total m buf :
  exists r, ntc_json_parse m buf = Some r /\ forall v, r = Some v -> shaped 32 v.
Proof. apply json_parse_shaped. Qed.

(** ** Reading back what was written *)

Lemma string_loop_one f cap c r buf :
  is_byte c -> (length buf < cap)%nat ->
  string_loop (S f) cap (escape_one c ++ r) buf false = string_loop f cap r (buf ++ [c]) false.
Proof.
  intros Hb Hc. unfold escape_one.
  repeat match goal with |- context [if ?x =? ?k then _ else _] =>
    destruct (Z.eqb_spec x k) as [->|]; [cbn [string_loop app Z.eqb Pos.eqb negb escape_char]; rewrite ?put_fits by done; done|] end.
  destruct (Z.ltb_spec c 32) as [Hlt|Hge].
  - unfold is_byte in Hb.
    assert (exists h1 h2 h3 h4, fmt_04x c = [h1; h2; h3; h4] /\
      (forall r, hex4 4 0 (h1 :: h2 :: h3 :: h4 :: r) = (c, false, r)) /\ utf8 c = [c]) as (h1 & h2 & h3 & h4 & Ef & Eh & Eu).
    { assert (c ∈ seqZ 0 32) as Hin by (apply elem_of_seqZ; lia). revert Hin. clear.
      change (seqZ 0 32) with [0;1;2;3;4;5;6;7;8;9;10;11;12;13;14;15;16;17;18;19;20;21;22;23;24;25;26;27;28;29;30;31].
      rewrite !elem_of_cons, elem_of_nil. intros Hin.
      repeat destruct Hin as [->|Hin]; try done; do 4 eexists; by split_and!. }
    rewrite Ef. cbn [app string_loop Z.eqb Pos.eqb negb length]. cbn [Nat.ltb Nat.leb]. rewrite Eh, Eu.
    rewrite puts_fit by (simpl; lia). by bind.
  - cbn [app string_loop]. rewrite (proj2 (Z.eqb_neq c 34)), (proj2 (Z.eqb_neq c 92)) by done.
    cbn [negb]. by rewrite put_fits.
Qed.

Lemma string_loop_text s fuel cap r buf :
  bytes_ok s -> (length s <= fuel)%nat -> (length buf + length s <= cap)%nat ->
  string_loop fuel cap (concat (escape_one <$> s) ++ 34 :: r) buf false = Some (buf ++ s, 34 :: r, false).
Proof.
  intros Hs. revert fuel buf. induction Hs as [|c s Hc Hs IH]; intros fuel buf Hf Hl.
  { cbn [fmap list_fmap concat app]. rewrite app_nil_r. by destruct fuel. }
  destruct fuel as [|f]; [simpl in Hf; lia|]. simpl in Hf, Hl. cbn [fmap list_fmap concat].
  rewrite <- app_assoc, string_loop_one by (done || lia).
  rewrite IH by (rewrite ?length_app; simpl; lia). by rewrite <- app_assoc.
Qed.

Lemma escape_one_length c : (1 <= length (escape_one c))%nat.
Proof. unfold escape_one. repeat case_match; simpl; lia. Qed.

Lemma length_escaped s : (length s <= length (concat (escape_one <$> s)))%nat.
Proof.
  induction s as [|c s IH]; [done|]. rewrite fmap_cons. cbn [concat length]. rewrite length_app.
  pose proof (escape_one_length c). lia.
Qed.

Lemma parse_string_text s r d :
  bytes_ok s -> parse_string (MkP (str_text s ++ r) [] false d) = Some (s, MkP r [] false d).
Proof.
  intros Hs. unfold parse_string, str_text. cbn [app advance set_rest rest tail alloc mem err depth negb].
  rewrite <- app_assoc. pose proof (length_escaped s). change ([34] ++ r) with (34 :: r).
  rewrite string_loop_text by (done || (rewrite ?length_app; simpl; lia)). by bind.
Qed.

(** Text that may follow a number. *)
Definition num_end (r : bytes) : Prop := forall c, head r = Some c -> is_num_char c = false.

Lemma span_num_text t r :
  Forall (fun c => is_num_char c = true) t -> num_end r -> span_num (t ++ r) = (t, r).
Proof.
  intros Ht Hr. induction Ht as [|c t Hc Ht IH]; cbn [app].
  - destruct r as [|c r]; [done|]. cbn [span_num]. by rewrite (Hr c eq_refl).
  - cbn [span_num]. by rewrite Hc, IH.
Qed.

Lemma length_digits_fuel fuel b z : (length (digits_fuel fuel b z) <= fuel)%nat.
Proof.
  revert z. induction fuel as [|f IH]; intros z; cbn [digits_fuel]; [done|]. rewrite length_app.
  case_match; [simpl; lia|]. specialize (IH (z / b)). simpl. lia.
Qed.

Lemma fmt_d_facts z :
  Z.abs z < 10 ^ 15 ->
  Forall (fun c => is_num_char c = true) (fmt_d z) /\ (length (fmt_d z) < 64)%nat /\
  exists c t, fmt_d z = c :: t /\ ((c =? 45) || ((48 <=? c) && (c <=? 57))) = true.
Proof.
  intros Hz.
  assert (forall n, 0 <= n < 10 ^ 15 -> Forall (fun c => is_digit c = true) (digits 10 n) /\
    (length (digits 10 n) <= 50)%nat /\ digits 10 n <> []) as Hd.
  { intros n Hn. destruct (digits_dec n ltac:(lia)) as (_ & H1 & H2). split; [done|]. split; [|done].
    etrans; [apply length_digits_fuel|]. assert (Z.log2 n < 50); [|pose proof (Z.log2_nonneg n); lia].
    destruct (Z.eq_dec n 0) as [->|]; [done|]. apply Z.log2_lt_pow2; [lia|].
    assert (10 ^ 15 < 2 ^ 50) by done. lia. }
  assert (forall c, is_digit c = true -> is_num_char c = true) as Hnum.
  { intros c Hc. unfold is_num_char. unfold is_digit in Hc. rewrite Hc. apply orb_true_r. }
  unfold fmt_d. destruct (Z.ltb_spec z 0) as [Hn|Hp].
  - destruct (Hd (- z) ltac:(lia)) as (H1 & H2 & H3). split; [|split; [simpl; lia|by eexists _, _]].
    constructor; [done|]. eapply list.Forall_impl; [exact H1|]. exact Hnum.
  - destruct (Hd z ltac:(lia)) as (H1 & H2 & H3). split; [|split; [lia|]].
    + eapply list.Forall_impl; [exact H1|]. exact Hnum.
    + destruct (digits 10 z) as [|c t]; [done|]. apply Forall_cons_1 in H1 as [Hc _].
      eexists _, _. split; [done|]. unfold is_digit in Hc. rewrite Hc. apply orb_true_r.
Qed.

Lemma fmt_num_int z : Z.abs z < 10 ^ 15 -> fmt_num (d_of_Z z) = fmt_d z.
Proof.
  intros Hz. destruct (d_of_Z_exact z) as (H1 & H2 & H3); [lia|]. unfold fmt_num.
  rewrite H1, H2, H3. by rewrite (proj2 (Z.ltb_lt _ _) Hz).
Qed.

Lemma parse_number_text z r d :
  Z.abs z < 10 ^ 15 -> num_end r ->
  parse_number (MkP (fmt_d z ++ r) [] false d) = (true, JNum (d_of_Z z), MkP r [] false d).
Proof.
  intros Hz Hr. destruct (fmt_d_facts z Hz) as (H1 & H2 & _). unfold parse_number. cbn [rest].
  rewrite span_num_text by done. cbn [new_val alloc set_rest mem err depth].
  rewrite (proj2 (Nat.leb_gt 64 _)) by lia. by rewrite take_ge, strtod_fmt_d by lia.
Qed.

(** A value's text is read back in front of anything that cannot continue it. *)
Definition reads (v : ntc_json) (d : Z) : Prop :=
  forall fuel r, (2 * length (json_text v) + 1 <= fuel)%nat -> num_end r ->
  parse_value fuel (MkP (json_text v ++ r) [] false d) = Some (Some v, MkP r [] false d).

Definition more (ts : list bytes) : bytes := match ts with [] => [] | _ => 44 :: commas ts end.

Lemma commas_cons t ts : commas (t :: ts) = t ++ more ts.
Proof. unfold more. destruct ts; cbn [commas]; [by rewrite app_nil_r|done]. Qed.

Lemma items_text its : forall fuel acc r d,
  Forall (fun v => reads v d) its -> its <> [] -> (length acc + length its <= 64)%nat ->
  (2 * length (commas (json_text <$> its)) + 2 <= fuel)%nat ->
  items_loop fuel (MkP (commas (json_text <$> its) ++ 93 :: r) [] false d) acc =
  Some (acc ++ its, MkP r [] false d).
Proof.
  induction its as [|v its IH]; intros fuel acc r d Hr Hne Hl Hf; [done|].
  apply Forall_cons_1 in Hr as [Hv Hr]. rewrite fmap_cons, commas_cons in *.
  destruct fuel as [|f]; [lia|]. cbn [items_loop]. rewrite <- app_assoc. rewrite length_app in Hf.
  rewrite Hv; [|lia|by destruct its; intros c [= <-]]. bind. cbn [err]. simpl in Hl.
  rewrite (proj2 (Nat.ltb_lt (length acc) NTC_JSON_MAX_MEMBERS)) by (unfold NTC_JSON_MAX_MEMBERS; lia).
  destruct its as [|w its]; [done|]. rewrite fmap_cons in *.
  etrans; [apply (IH f (acc ++ [v]) r d); [done|done|rewrite length_app; simpl in *; lia|]|by rewrite <- app_assoc].
  simpl length in Hf. simpl length. lia.
Qed.

Definition member_text (m : bytes * ntc_json) : bytes := str_text (fst m) ++ 58 :: json_text (snd m).

Lemma members_text ms : forall fuel acc r d,
  Forall (fun m => bytes_ok (fst m) /\ reads (snd m) d) ms -> ms <> [] -> (length acc + length ms <= 64)%nat ->
  (2 * length (commas (member_text <$> ms)) + 2 <= fuel)%nat ->
  members_loop fuel (MkP (commas (member_text <$> ms) ++ 125 :: r) [] false d) acc =
  Some (acc ++ ms, MkP r [] false d).
Proof.
  induction ms as [|[k v] ms IH]; intros fuel acc r d Hr Hne Hl Hf; [done|].
  apply Forall_cons_1 in Hr as [[Hk Hv] Hr]. rewrite fmap_cons, commas_cons in *.
  destruct fuel as [|f]; [lia|]. cbn [members_loop]. rewrite <- app_assoc. rewrite length_app in Hf.
  unfold member_text at 1 in Hf. cbn [fst snd] in *. rewrite length_app in Hf. simpl length in Hf at 2.
  assert (member_text (k, v) ++ more (member_text <$> ms) ++ 125 :: r =
    str_text k ++ 58 :: json_text v ++ more (member_text <$> ms) ++ 125 :: r) as ->.
  { unfold member_text at 1. cbn [fst snd]. by rewrite <- app_assoc. }
  simpl in Hl. cbv zeta.
  match goal with |- context [skip_ws ?s] => change (skip_ws s) with s end.
  match goal with |- context [head_is 34 ?s] => change (head_is 34 s) with true end. cbn [negb].
  rewrite parse_string_text by done. bind.
  match goal with |- context [head_is 58 ?s] => change (head_is 58 s) with true end. cbn [negb].
  match goal with |- context [advance ?s] => change (advance s) with (MkP (tail (rest s)) [] false d) end.
  cbn [rest skip_ws set_rest drop_ws is_ws Z.eqb Pos.eqb orb tail].
  rewrite Hv; [|lia|by destruct ms; intros c [= <-]]. bind. cbn [err].
  rewrite (proj2 (Nat.ltb_lt (length acc) NTC_JSON_MAX_MEMBERS)) by (unfold NTC_JSON_MAX_MEMBERS; lia).
  destruct ms as [|m ms]; [done|].
  etrans; [apply (IH f (acc ++ [(k, v)]) r d); [done|done|rewrite length_app; simpl in *; lia|]|by rewrite <- app_assoc].
  rewrite fmap_cons in *. cbn [more length] in Hf. lia.
Qed.

Lemma alloc_n_ok k r d : alloc_n k (MkP r [] false d) = MkP r [] false d.
Proof. induction k as [|k IH]; [done|]. cbn [alloc_n alloc mem]. by rewrite IH. Qed.

Lemma json_text_head v :
  exact v -> exists c t, json_text v = c :: t /\ is_ws c = false /\ c <> 93 /\ c <> 125.
Proof.
  intros He. destruct v as [|b|d|s|its|ms]; try (by eexists _, _).
  - by destruct b; eexists _, _.
  - destruct He as (z & Hz & ->). cbn [json_text]. rewrite fmt_num_int by done.
    destruct (fmt_d_facts z Hz) as (_ & _ & c & t & -> & Hc). exists c, t. split; [done|].
    rewrite orb_true_iff, andb_true_iff, Z.eqb_eq, !Z.leb_le in Hc. unfold is_ws.
    rewrite !orb_false_iff, !Z.eqb_neq. lia.
Qed.

Lemma result_ok v r d : result true v (MkP r [] false (d + 1)) = (Some v, MkP r [] false d).
Proof.
  unfold result, leave. cbn [rest mem err depth orb negb]. by replace (d + 1 - 1) with d by lia.
Qed.

(** The branches, by the character in front. *)
Lemma value_arr f t d :
  d < NTC_JSON_MAX_DEPTH ->
  parse_value (S f) (MkP (91 :: t) [] false d) =
  let s := skip_ws (MkP t [] false (d + 1)) in
  '(its, s) ← (if head_is 93 s then Some ([], advance s) else items_loop f s []);
  Some (result true (JArr its) (finish 1 true s)).
Proof.
  intros Hd. cbn [parse_value err]. cbv zeta.
  by rewrite (proj2 (Z.ltb_ge NTC_JSON_MAX_DEPTH (depth (enter _)))) by (cbn; lia).
Qed.

Lemma value_obj f t d :
  d < NTC_JSON_MAX_DEPTH ->
  parse_value (S f) (MkP (123 :: t) [] false d) =
  let s := skip_ws (MkP t [] false (d + 1)) in
  '(ms, s) ← (if head_is 125 s then Some ([], advance s) else members_loop f s []);
  Some (result true (JObj ms) (finish 2 true s)).
Proof.
  intros Hd. cbn [parse_value err]. cbv zeta.
  by rewrite (proj2 (Z.ltb_ge NTC_JSON_MAX_DEPTH (depth (enter _)))) by (cbn; lia).
Qed.

Lemma value_str f t d :
  d < NTC_JSON_MAX_DEPTH ->
  parse_value (S f) (MkP (34 :: t) [] false d) =
  '(str, s) ← parse_string (MkP (34 :: t) [] false (d + 1)); Some (result true (JStr str) s).
Proof.
  intros Hd. cbn [parse_value err]. cbv zeta.
  by rewrite (proj2 (Z.ltb_ge NTC_JSON_MAX_DEPTH (depth (enter _)))) by (cbn; lia).
Qed.

Lemma value_num f c t d :
  d < NTC_JSON_MAX_DEPTH -> ((c =? 45) || ((48 <=? c) && (c <=? 57))) = true ->
  parse_value (S f) (MkP (c :: t) [] false d) =
  let '(ok, v, s) := parse_number (MkP (c :: t) [] false (d + 1)) in Some (result ok v s).
Proof.
  intros Hd Hc. cbn [parse_value err]. cbv zeta.
  rewrite (proj2 (Z.ltb_ge NTC_JSON_MAX_DEPTH (depth (enter _)))) by (cbn; lia).
  assert (c = 45 \/ 48 <= c <= 57) as Hr by (rewrite orb_true_iff, andb_true_iff, Z.eqb_eq, !Z.leb_le in Hc; lia).
  assert (skip_ws (enter (MkP (c :: t) [] false d)) = MkP (c :: t) [] false (d + 1)) as ->.
  { unfold skip_ws. cbn [enter rest drop_ws]. assert (is_ws c = false) as ->; [|done].
    unfold is_ws. rewrite !orb_false_iff, !Z.eqb_neq. lia. }
  cbn [rest].
  repeat match goal with |- context [if c =? ?k then _ else _] => rewrite (proj2 (Z.eqb_neq c k)) by lia end.
  by rewrite Hc.
Qed.

Lemma parse_literal_text w v r d :
  parse_literal w v (MkP (w ++ r) [] false d) = (true, v, MkP r [] false d).
Proof.
  unfold parse_literal. cbn [rest]. rewrite (proj2 (Nat.leb_le _ _)) by (rewrite length_app; lia).
  rewrite take_app_length, drop_app_length. unfold memeq. by rewrite bool_decide_true.
Qed.

Lemma value_lit f w v r d :
  d < NTC_JSON_MAX_DEPTH -> (w = bs "true" /\ v = JBool true) \/ (w = bs "false" /\ v = JBool false) \/
                            (w = bs "null" /\ v = JNull) ->
  parse_value (S f) (MkP (w ++ r) [] false d) = Some (Some v, MkP r [] false d).
Proof.
  intros Hd Hw. rewrite <- result_ok.
  enough (parse_value (S f) (MkP (w ++ r) [] false d) =
    let '(ok, v, s) := parse_literal w v (MkP (w ++ r) [] false (d + 1)) in Some (result ok v s)) as ->.
  { by rewrite parse_literal_text. }
  cbn [parse_value err]. cbv zeta.
  rewrite (proj2 (Z.ltb_ge NTC_JSON_MAX_DEPTH (depth (enter _)))) by (cbn; lia).
  by destruct Hw as [[-> ->]|[[-> ->]|[-> ->]]].
Qed.

Lemma finish_skip k r d : finish k true (MkP r [] false d) = MkP r [] false d.
Proof. apply alloc_n_ok. Qed.

Lemma skip_ws_id c t d : is_ws c = false -> skip_ws (MkP (c :: t) [] false d) = MkP (c :: t) [] false d.
Proof. intros H. unfold skip_ws. cbn [rest drop_ws]. by rewrite H. Qed.

Lemma exact_arr its : exact (JArr its) -> Forall exact its.
Proof. cbn [exact]. by rewrite Forall_fmap. Qed.

Lemma exact_obj ms : exact (JObj ms) -> Forall (fun m => bytes_ok (fst m) /\ exact (snd m)) ms.
Proof. cbn [exact]. by rewrite Forall_fmap. Qed.

Lemma reads_all v : forall n d,
  shaped n v -> exact v -> d + Z.of_nat n <= NTC_JSON_MAX_DEPTH -> reads v d.
Proof.
  induction v as [|b|x|s|its IH|ms IH] using json_nested_ind; intros n d Hs He Hd fuel r Hf Hr;
    (destruct n as [|n]; [done|]); (destruct fuel as [|f]; [lia|]).
  - apply value_lit; [lia|auto].
  - destruct b; apply value_lit; first [lia|auto].
  - destruct He as (z & Hz & ->). cbn [json_text]. rewrite fmt_num_int by done.
    pose proof (parse_number_text z r (d + 1) Hz Hr) as Hp.
    destruct (fmt_d_facts z Hz) as (_ & _ & c & t & Et & Hc). rewrite Et in *. cbn [app] in *.
    rewrite value_num by (done || lia). by rewrite Hp, result_ok.
  - cbn [json_text]. unfold str_text. cbn [app]. rewrite value_str by lia.
    change (34 :: (concat (escape_one <$> s) ++ [34]) ++ r) with (str_text s ++ r).
    rewrite parse_string_text by done. bind. by rewrite result_ok.
  - cbn [shaped] in Hs. destruct Hs as [Hn Hs]. apply exact_arr in He.
    cbn [json_text app] in *. rewrite value_arr by lia. cbv zeta. rewrite <- app_assoc. change ([93] ++ r) with (93 :: r).
    destruct its as [|v its]; [cbn -[Z.add]; by rewrite <- result_ok|].
    assert (exists c t, commas (json_text <$> v :: its) ++ 93 :: r = c :: t /\ is_ws c = false /\ c <> 93) as (c & t & Ec & Hw & H93).
    { apply Forall_cons_1 in He as [Hev _]. destruct (json_text_head v Hev) as (c & t & Ev & ? & ? & _).
      rewrite fmap_cons, commas_cons, Ev. cbn [app]. eauto. }
    rewrite Ec, skip_ws_id by done. unfold head_is. cbn [rest]. rewrite (proj2 (Z.eqb_neq c 93)) by done.
    rewrite <- Ec, items_text; [bind; by rewrite finish_skip, result_ok|..|done|exact Hn|].
    + apply list.Forall_forall. intros w Hin. rewrite list.Forall_forall in IH, Hs, He.
      apply (IH w Hin n); [by apply Hs|by apply He|lia].
    + cbn [length] in Hf. rewrite length_app in Hf. cbn [length] in Hf. lia.
  - cbn [shaped] in Hs. destruct Hs as [Hn Hs]. apply exact_obj in He.
    cbn [json_text app] in *. fold member_text in *. rewrite value_obj by lia. cbv zeta.
    rewrite <- app_assoc. change ([125] ++ r) with (125 :: r).
    destruct ms as [|[k v] ms]; [cbn -[Z.add]; by rewrite <- result_ok|].
    assert (exists t, commas (member_text <$> (k, v) :: ms) ++ 125 :: r = 34 :: t) as (t & Ec).
    { rewrite fmap_cons, commas_cons. cbn. by eexists. }
    rewrite Ec, skip_ws_id by done. unfold head_is. cbn [rest Z.eqb Pos.eqb].
    rewrite <- Ec, members_text; [bind; by rewrite finish_skip, result_ok|..|done|exact Hn|].
    + apply list.Forall_forall. intros m Hin. rewrite list.Forall_forall in IH, Hs, He.
      split; [by apply He|]. apply (IH m Hin n); [by apply Hs|by apply He|lia].
    + cbn [length] in Hf. rewrite length_app in Hf. cbn [length] in Hf. lia.
Qed.

(** C30. Writing and reading.  [ntc_json_emit] writes the text of a value exactly when the
    buffer has room for it and its NUL, and fails otherwise; if the value nests at most 32
    levels, has at most 64 members per node and only numbers that are printed in full,
    [ntc_json_parse] reads the same value back. *)
Theorem json_roundtrip v cap :
  shaped 32 v -> exact v ->
  ntc_json_emit (Some v) cap =
    (if decide (length (json_text v) < cap)%nat then Some (json_text v) else None) /\
  ntc_json_parse [] (json_text v) = Some (Some v).
Proof.
  intros Hs He. split.
  - unfold ntc_json_emit. destruct (Nat.eqb_spec cap 0) as [->|Hc]; [by rewrite decide_False by lia|].
    rewrite emit_rec_spec by (simpl; lia). unfold app_out. cbn [length Nat.add app].
    destruct (Nat.leb_spec cap (length (json_text v))); bind.
    + by rewrite decide_False by lia.
    + rewrite decide_True by lia. by rewrite (proj2 (Nat.leb_gt cap _)) by lia.
  - unfold ntc_json_parse.
    pose proof (reads_all v 32 0 Hs He ltac:(done) (2 * length (json_text v) + 2)%nat [] ltac:(lia) ltac:(done)) as H.
    rewrite app_nil_r in H. rewrite H. by bind.
Qed.

Definition demo_json : ntc_json :=
  JObj [(bs "id", JNum (d_of_Z (-7))); (bs "a", JArr [JStr [1; 34; 200]; JNull])].

Lemma shaped_obj d ms :
  (length ms <= NTC_JSON_MAX_MEMBERS)%nat -> Forall (fun m => shaped d (snd m)) ms -> shaped (S d) (JObj ms).
Proof. by split. Qed.

Lemma demo_json_shaped : shaped 32 demo_json.
Proof.
  assert (forall d, shaped (S (S (S d))) demo_json) as H; [|exact (H 29%nat)]. intros d.
  apply shaped_obj; [simpl; unfold NTC_JSON_MAX_MEMBERS; lia|]. repeat constructor.
Qed.

Lemma demo_json_exact : exact demo_json.
Proof. repeat first [split|constructor]; try (unfold is_byte; lia). exists (-7). split; [lia|done]. Qed.

Theorem json_roundtrip_witness :
  ntc_json_emit (Some demo_json) 100 = Some (qs "{'id':-7,'a':['\u0001\'" ++ [200] ++ qs "',null]}") /\
  ntc_json_parse [] (json_text demo_json) = Some (Some demo_json).
Proof. apply (json_roundtrip demo_json 100 demo_json_shaped demo_json_exact). Defined.
