(* ===== verification/Schema.v ===== *)
(** * The JSON Schema validator (src/common/schema.c)

    The keywords in the order the code checks them, against what each one means. *)
From S2P Require Import Prelude Double Json.
Open Scope Z_scope.

(** The result: [Invalid] with what the error buffer then holds. *)
Inductive verdict := Valid | Invalid (msg : bytes).

(** schema.c:8-10 [fail] *)
Definition fail (errcap : nat) (msg : bytes) : verdict := Invalid (snprintf errcap msg).

(** schema.c:13-23 [type_ok] *)
Definition type_ok (t : bytes) (v : ntc_json) : bool :=
  if memeq t (bs "object") then match v with JObj _ => true | _ => false end else
  if memeq t (bs "array") then match v with JArr _ => true | _ => false end else
  if memeq t (bs "string") then match v with JStr _ => true | _ => false end else
  if memeq t (bs "boolean") then match v with JBool _ => true | _ => false end else
  if memeq t (bs "null") then match v with JNull => true | _ => false end else
  if memeq t (bs "number") then match v with JNum _ => true | _ => false end else
  if memeq t (bs "integer") then match v with JNum d => d_integral d | _ => false end else
  true.

(** schema.c:26-36 [json_eq] *)
Definition json_eq (a b : ntc_json) : bool :=
  match a, b with
  | JNull, JNull => true
  | JBool x, JBool y => Bool.eqb x y
  | JNum x, JNum y => d_eq x y
  | JStr x, JStr y => (length x =? length y)%nat && memeq x y
  | _, _ => false
  end.

(** Checks in sequence, up to the first that fails. *)
Definition and_then (a b : option verdict) : option verdict :=
  a ← a; match a with Valid => b | Invalid m => Some (Invalid m) end.
Notation "a ▷ b" := (and_then a b) (at level 60, right associativity) : c_scope.
Open Scope c_scope.

Definition check (errcap : nat) (bad : bool) (msg : bytes) : option verdict :=
  Some (if bad then fail errcap msg else Valid).

Fixpoint all {A} (f : A -> option verdict) (l : list A) : option verdict :=
  match l with [] => Some Valid | x :: l => f x ▷ all f l end.

(** schema.c:43-53 [ntc_schema_validate, type] *)
Definition check_type (schema : ntc_json) (inst : ntc_json) (errcap : nat) : option verdict :=
  match ntc_json_get (Some schema) (bs "type") with
  | Some (JStr t) =>
      let tn := to_cstr 24 t in
      check errcap (negb (type_ok tn inst)) (snprintf 64 (bs "expected type " ++ tn))
  | _ => Some Valid
  end.

(** schema.c:55-61 [ntc_schema_validate, enum] *)
Definition check_enum (schema inst : ntc_json) (errcap : nat) : option verdict :=
  match ntc_json_get (Some schema) (bs "enum") with
  | Some (JArr items) => check errcap (negb (existsb (fun e => json_eq e inst) items)) (bs "value not in enum")
  | _ => Some Valid
  end.

(** A bound that is present and a number. *)
Definition num_kw (schema : ntc_json) (k : bytes) : option double :=
  match ntc_json_get (Some schema) k with Some (JNum d) => Some d | _ => None end.

Definition check_bound (schema : ntc_json) (k : bytes) (bad : double -> bool) (errcap : nat) (msg : bytes)
    : option verdict :=
  match num_kw schema k with Some d => check errcap (bad d) msg | None => Some Valid end.

(** schema.c:63-69 [ntc_schema_validate, numbers] *)
Definition check_num (schema : ntc_json) (x : double) (errcap : nat) : option verdict :=
  check_bound schema (bs "minimum") (fun d => d_lt x d) errcap (bs "below minimum") ▷
  check_bound schema (bs "maximum") (fun d => d_lt d x) errcap (bs "above maximum").

(** schema.c:71-77 [ntc_schema_validate, strings]. A bound below zero or beyond the range of
    [size_t] is undefined in the conversion; the model wraps it. *)
Definition check_str (schema : ntc_json) (s : bytes) (errcap : nat) : option verdict :=
  check_bound schema (bs "minLength") (fun d => Z.of_nat (length s) <? d_size d) errcap (bs "string too short") ▷
  check_bound schema (bs "maxLength") (fun d => d_size d <? Z.of_nat (length s)) errcap (bs "string too long").

(** schema.c:93-106 [ntc_schema_validate, required] *)
Definition check_required (schema inst : ntc_json) (errcap : nat) : option verdict :=
  match ntc_json_get (Some schema) (bs "required") with
  | Some (JArr names) =>
      all (fun name =>
        match name with
        | JStr s =>
            let key := to_cstr 96 s in
            check errcap (negb (bool_decide (is_Some (ntc_json_get (Some inst) key))))
              (snprintf 128 (bs "missing required property '" ++ key ++ bs "'"))
        | _ => Some Valid
        end) names
  | _ => Some Valid
  end.

(** schema.c:116-127 [ntc_schema_validate, additionalProperties] *)
Definition check_additional (schema : ntc_json) (members : list (bytes * ntc_json)) (errcap : nat) : option verdict :=
  match ntc_json_get (Some schema) (bs "additionalProperties"), ntc_json_get (Some schema) (bs "properties") with
  | Some (JBool false), Some (JObj ps) =>
      all (fun m =>
        let key := to_cstr 96 (fst m) in
        check errcap (negb (bool_decide (is_Some (ntc_json_get (Some (JObj ps)) key))))
          (snprintf 128 (bs "unexpected property '" ++ key ++ bs "'"))) members
  | _, _ => Some Valid
  end.

(** schema.c:38-131 [ntc_schema_validate]. A unit of fuel per level of the schema. *)
Fixpoint ntc_schema_validate (fuel : nat) (schema inst : option ntc_json) (errcap : nat) : option verdict :=
  match fuel with
  | O => None
  | S f =>
      match schema with
      | Some (JObj kws) =>
          let sc := JObj kws in
          match inst with
          | None => Some (fail errcap (bs "missing value"))
          | Some v =>
              check_type sc v errcap ▷
              check_enum sc v errcap ▷
              match v with
              | JNum x => check_num sc x errcap
              | JStr s => check_str sc s errcap
              | JArr items =>
                  check_bound sc (bs "minItems") (fun d => Z.of_nat (length items) <? d_size d) errcap (bs "too few items") ▷
                  check_bound sc (bs "maxItems") (fun d => d_size d <? Z.of_nat (length items)) errcap (bs "too many items") ▷
                  match ntc_json_get schema (bs "items") with
                  | Some (JObj ik) => all (fun it => ntc_schema_validate f (Some (JObj ik)) (Some it) errcap) items
                  | _ => Some Valid
                  end
              | JObj members =>
                  check_required sc v errcap ▷
                  match ntc_json_get schema (bs "properties") with
                  | Some (JObj ps) =>
                      all (fun p =>
                        match ntc_json_get (Some v) (to_cstr 96 (fst p)) with
                        | Some iv => ntc_schema_validate f (Some (snd p)) (Some iv) errcap
                        | None => Some Valid
                        end) ps
                  | _ => Some Valid
                  end ▷
                  check_additional sc members errcap
              | _ => Some Valid
              end
          end
      | _ => Some Valid
      end
  end.

Section examples.
Definition demo_schema : ntc_json :=
  JObj [(bs "type", JStr (bs "object")); (bs "required", JArr [JStr (bs "name")]);
        (bs "properties", JObj [(bs "name", JObj [(bs "type", JStr (bs "string")); (bs "minLength", JNum (d_of_Z 2))])]);
        (bs "additionalProperties", JBool false)].

Example schema_1 :
  ntc_schema_validate 9 (Some demo_schema) (Some (JObj [(bs "name", JStr (bs "bob"))])) 64 = Some Valid.
Proof. vm_compute. reflexivity. Qed.
Example schema_2 :
  ntc_schema_validate 9 (Some demo_schema) (Some (JObj [(bs "name", JStr (bs "b"))])) 64 =
  Some (Invalid (bs "string too short")).
Proof. vm_compute. reflexivity. Qed.
Example schema_3 :
  ntc_schema_validate 9 (Some demo_schema) (Some (JObj [])) 64 =
  Some (Invalid (bs "missing required property 'name'")).
Proof. vm_compute. reflexivity. Qed.
End examples.

(** ** What the keywords mean *)

Definition kw (schema : ntc_json) (k : bytes) (P : ntc_json -> Prop) : Prop :=
  forall x, ntc_json_get (Some schema) k = Some x -> P x.

Definition on_num (P : double -> Prop) (x : ntc_json) : Prop := forall d, x = JNum d -> P d.
Definition on_arr (P : list ntc_json -> Prop) (x : ntc_json) : Prop := forall l, x = JArr l -> P l.
Definition on_obj (P : list (bytes * ntc_json) -> Prop) (x : ntc_json) : Prop := forall l, x = JObj l -> P l.

Definition has_key (v : ntc_json) (k : bytes) : Prop := is_Some (ntc_json_get (Some v) k).

(** What the keywords say of one value, without its parts.  Names are the C strings the
    code cuts them to: 23 bytes of a type, 95 of a property, up to a NUL. *)
Definition flat_ok (schema v : ntc_json) : Prop :=
  kw schema (bs "type") (fun x => forall t, x = JStr t -> type_ok (to_cstr 24 t) v = true) /\
  kw schema (bs "enum") (on_arr (Exists (fun e => json_eq e v = true))) /\
  match v with
  | JNum x =>
      kw schema (bs "minimum") (on_num (fun d => d_lt x d = false)) /\
      kw schema (bs "maximum") (on_num (fun d => d_lt d x = false))
  | JStr s =>
      kw schema (bs "minLength") (on_num (fun d => d_size d <= Z.of_nat (length s))) /\
      kw schema (bs "maxLength") (on_num (fun d => Z.of_nat (length s) <= d_size d))
  | JArr l =>
      kw schema (bs "minItems") (on_num (fun d => d_size d <= Z.of_nat (length l))) /\
      kw schema (bs "maxItems") (on_num (fun d => Z.of_nat (length l) <= d_size d))
  | JObj ms =>
      kw schema (bs "required") (on_arr (Forall (fun n => forall s, n = JStr s -> has_key v (to_cstr 96 s)))) /\
      (forall ps, ntc_json_get (Some schema) (bs "additionalProperties") = Some (JBool false) ->
         ntc_json_get (Some schema) (bs "properties") = Some (JObj ps) ->
         Forall (fun m => has_key (JObj ps) (to_cstr 96 (fst m))) ms)
  | _ => True
  end.

(** A value and its parts, against a schema of at most [n] levels.  A schema that is not an
    object accepts everything. *)
Fixpoint conforms (n : nat) (schema v : ntc_json) : Prop :=
  match n, schema with
  | S n, JObj _ =>
      flat_ok schema v /\
      match v with
      | JArr l => kw schema (bs "items") (on_obj (fun ik => Forall (conforms n (JObj ik)) l))
      | JObj _ =>
          kw schema (bs "properties") (on_obj (Forall (fun p =>
            forall w, ntc_json_get (Some v) (to_cstr 96 (fst p)) = Some w -> conforms n (snd p) w)))
      | _ => True
      end
  | _, _ => True
  end.

(** ** Lemmas *)

(** A check that ends, and what passing it means. *)
Definition decides (c : option verdict) (P : Prop) : Prop := exists r, c = Some r /\ (r = Valid <-> P).

Lemma decides_then a b P Q : decides a P -> decides b Q -> decides (a ▷ b) (P /\ Q).
Proof.
  intros (r & -> & Hr) (r' & -> & Hr'). unfold and_then. bind. destruct r as [|m].
  - exists r'. split; [done|]. tauto.
  - exists (Invalid m). split; [done|]. split; [done|]. intros [HP _]. by apply Hr in HP.
Qed.

Lemma decides_iff c P Q : (P <-> Q) -> decides c P -> decides c Q.
Proof. intros H (r & -> & Hr). exists r. split; [done|]. by rewrite Hr. Qed.

Lemma decides_valid : decides (Some Valid) True.
Proof. by exists Valid. Qed.

Lemma decides_check errcap bad msg : decides (check errcap bad msg) (bad = false).
Proof. exists (if bad then fail errcap msg else Valid). by destruct bad. Qed.

Lemma decides_all {A} (f : A -> option verdict) (P : A -> Prop) l :
  Forall (fun x => decides (f x) (P x)) l -> decides (all f l) (Forall P l).
Proof.
  induction 1 as [|x l Hx Hl IH]; cbn [all].
  - eapply decides_iff, decides_valid. split; [intros _; constructor|done].
  - eapply decides_iff; [|by apply decides_then]. by rewrite list.Forall_cons.
Qed.

Lemma decides_bound sc k bad errcap msg :
  decides (check_bound sc k bad errcap msg) (kw sc k (on_num (fun d => bad d = false))).
Proof.
  unfold check_bound, num_kw, kw, on_num. destruct (ntc_json_get (Some sc) k) as [[]|];
    try (eapply decides_iff, decides_valid; naive_solver).
  eapply decides_iff, decides_check. naive_solver.
Qed.

Lemma decides_type sc v errcap :
  decides (check_type sc v errcap)
    (kw sc (bs "type") (fun x => forall t, x = JStr t -> type_ok (to_cstr 24 t) v = true)).
Proof.
  unfold check_type, kw. destruct (ntc_json_get (Some sc) (bs "type")) as [[]|];
    try (eapply decides_iff, decides_valid; naive_solver).
  eapply decides_iff, decides_check. rewrite negb_false_iff. naive_solver.
Qed.

Lemma decides_enum sc v errcap :
  decides (check_enum sc v errcap) (kw sc (bs "enum") (on_arr (Exists (fun e => json_eq e v = true)))).
Proof.
  unfold check_enum, kw, on_arr. destruct (ntc_json_get (Some sc) (bs "enum")) as [[]|];
    try (eapply decides_iff, decides_valid; naive_solver).
  eapply decides_iff, decides_check.
  rewrite negb_false_iff, existsb_exists, <- List.Exists_exists. naive_solver.
Qed.

Lemma decides_required sc v errcap :
  decides (check_required sc v errcap)
    (kw sc (bs "required") (on_arr (Forall (fun n => forall s, n = JStr s -> has_key v (to_cstr 96 s))))).
Proof.
  unfold check_required, kw, on_arr. destruct (ntc_json_get (Some sc) (bs "required")) as [[| | | |names|]|];
    try (eapply decides_iff, decides_valid; naive_solver).
  eapply decides_iff; [|apply (decides_all _ (fun n => forall s, n = JStr s -> has_key v (to_cstr 96 s)))].
  { naive_solver. }
  apply Forall_true. intros [| | |s| |]; try (eapply decides_iff, decides_valid; naive_solver).
  eapply decides_iff, decides_check. rewrite negb_false_iff, bool_decide_eq_true. unfold has_key. naive_solver.
Qed.

Lemma decides_additional sc ms errcap :
  decides (check_additional sc ms errcap)
    (forall ps, ntc_json_get (Some sc) (bs "additionalProperties") = Some (JBool false) ->
      ntc_json_get (Some sc) (bs "properties") = Some (JObj ps) ->
      Forall (fun m => has_key (JObj ps) (to_cstr 96 (fst m))) ms).
Proof.
  unfold check_additional.
  destruct (ntc_json_get (Some sc) (bs "additionalProperties")) as [[|[]| | | |]|];
    try (eapply decides_iff, decides_valid; naive_solver).
  destruct (ntc_json_get (Some sc) (bs "properties")) as [[| | | | |ps]|];
    try (eapply decides_iff, decides_valid; naive_solver).
  eapply decides_iff; [|apply (decides_all _ (fun m => has_key (JObj ps) (to_cstr 96 (fst m))))].
  { naive_solver. }
  apply Forall_true. intros m. eapply decides_iff, decides_check.
  by rewrite negb_false_iff, bool_decide_eq_true.
Qed.

Lemma find_member_in key ms v : find_member key ms = Some v -> exists k, (k, v) ∈ ms.
Proof.
  induction ms as [|[k w] ms IH]; cbn [find_member]; [done|].
  case_match; [intros [= ->]; exists k; left|]. intros [k' Hk]%IH. exists k'. by right.
Qed.

(** The parts of a schema have fewer levels. *)
Lemma shaped_get n ms k v : shaped (S n) (JObj ms) -> ntc_json_get (Some (JObj ms)) k = Some v -> shaped n v.
Proof.
  intros [_ Hs] H. apply find_member_in in H as [k' Hin]. rewrite list.Forall_forall in Hs.
  exact (Hs _ Hin).
Qed.

Lemma shaped_pos n v : shaped n v -> n <> O.
Proof. by destruct n. Qed.

Lemma shaped_S v : forall n, shaped n v -> shaped (S n) v.
Proof.
  induction v as [| | | |its IH|ms IH] using json_nested_ind; intros [|n] H; try done;
    destruct H as [Hl Hs]; (split; [done|]); rewrite list.Forall_forall in *; eauto.
Qed.

Lemma decides_size sc k (le : Z -> bool) (P : double -> Prop) errcap msg :
  (forall d, le (d_size d) = false <-> P d) ->
  decides (check_bound sc k (fun d => le (d_size d)) errcap msg) (kw sc k (on_num P)).
Proof.
  intros H. eapply decides_iff; [|apply decides_bound]. unfold kw, on_num.
  split; intros Hk x Hx d ->; apply H; eauto.
Qed.

(** At least, and at most, so many. *)
Lemma decides_min sc k n errcap msg :
  decides (check_bound sc k (fun d => Z.of_nat n <? d_size d) errcap msg)
    (kw sc k (on_num (fun d => d_size d <= Z.of_nat n))).
Proof. apply (decides_size _ _ (fun z => Z.of_nat n <? z)). intros d. apply Z.ltb_ge. Qed.

Lemma decides_max sc k n errcap msg :
  decides (check_bound sc k (fun d => d_size d <? Z.of_nat n) errcap msg)
    (kw sc k (on_num (fun d => Z.of_nat n <= d_size d))).
Proof. apply (decides_size _ _ (fun z => z <? Z.of_nat n)). intros d. apply Z.ltb_ge. Qed.

Section step.
Context (n errcap : nat) (kws : list (bytes * ntc_json)).
Context (IH : forall schema v, shaped n schema ->
  decides (ntc_schema_validate n (Some schema) (Some v) errcap) (conforms n schema v)).
Context (Hs : shaped (S n) (JObj kws)).

Lemma decides_items l :
  decides
    match ntc_json_get (Some (JObj kws)) (bs "items") with
    | Some (JObj ik) => all (fun it => ntc_schema_validate n (Some (JObj ik)) (Some it) errcap) l
    | _ => Some Valid
    end
    (kw (JObj kws) (bs "items") (on_obj (fun ik => Forall (conforms n (JObj ik)) l))).
Proof.
  unfold kw, on_obj. destruct (ntc_json_get (Some (JObj kws)) (bs "items")) as [[| | | | |ik]|] eqn:Eg;
    try (eapply decides_iff, decides_valid; naive_solver).
  eapply decides_iff; [|apply decides_all, Forall_true; intros w; apply IH; by eapply shaped_get].
  naive_solver.
Qed.

Lemma decides_props v :
  decides
    match ntc_json_get (Some (JObj kws)) (bs "properties") with
    | Some (JObj ps) =>
        all (fun p =>
          match ntc_json_get (Some v) (to_cstr 96 (fst p)) with
          | Some iv => ntc_schema_validate n (Some (snd p)) (Some iv) errcap
          | None => Some Valid
          end) ps
    | _ => Some Valid
    end
    (kw (JObj kws) (bs "properties") (on_obj (Forall (fun p =>
       forall w, ntc_json_get (Some v) (to_cstr 96 (fst p)) = Some w -> conforms n (snd p) w)))).
Proof.
  unfold kw, on_obj. destruct (ntc_json_get (Some (JObj kws)) (bs "properties")) as [[| | | | |ps]|] eqn:Eg;
    try (eapply decides_iff, decides_valid; naive_solver).
  eapply decides_iff; [|apply (decides_all _ (fun p => forall w,
    ntc_json_get (Some v) (to_cstr 96 (fst p)) = Some w -> conforms n (snd p) w))]; [naive_solver|].
  apply list.Forall_forall. intros p Hp.
  destruct (ntc_json_get (Some v) _) as [w|]; [|eapply decides_iff, decides_valid; naive_solver].
  eapply decides_iff; [|apply (IH (snd p) w)]; [naive_solver|].
  pose proof (shaped_get _ _ _ _ Hs Eg) as Hps. destruct n as [|n']; [done|].
  destruct Hps as [_ Hps]. rewrite list.Forall_forall in Hps. apply shaped_S, Hps, Hp.
Qed.
End step.

Lemma validate_decides n : forall schema v errcap,
  shaped n schema -> decides (ntc_schema_validate n (Some schema) (Some v) errcap) (conforms n schema v).
Proof.
  induction n as [|n IH]; intros schema v errcap Hs; [done|]. cbn [ntc_schema_validate].
  destruct schema as [| | | | |kws]; try apply decides_valid.
  assert (forall c P Q, decides c P ->
    (Q <-> kw (JObj kws) (bs "type") (fun x => forall t, x = JStr t -> type_ok (to_cstr 24 t) v = true) /\
           kw (JObj kws) (bs "enum") (on_arr (Exists (fun e => json_eq e v = true))) /\ P) ->
    decides (check_type (JObj kws) v errcap ▷ check_enum (JObj kws) v errcap ▷ c) Q) as Hgo.
  { intros c P Q Hc HQ. eapply decides_iff; [symmetry; exact HQ|].
    apply decides_then; [apply decides_type|]. apply decides_then; [apply decides_enum|done]. }
  cbn [conforms]. unfold flat_ok.
  destruct v as [|b|x|s|items|members].
  - eapply Hgo; [apply decides_valid|]. tauto.
  - eapply Hgo; [apply decides_valid|]. tauto.
  - eapply Hgo; [apply decides_then; apply decides_bound|]. tauto.
  - eapply Hgo; [apply decides_then; [apply decides_min|apply decides_max]|]. tauto.
  - eapply Hgo; [apply decides_then; [apply decides_min|apply decides_then; [apply decides_max|]]|].
    + apply (decides_items n errcap kws); [intros; by apply IH|done].
    + tauto.
  - eapply Hgo; [apply decides_then; [apply decides_required|apply decides_then; [|apply decides_additional]]|].
    + apply (decides_props n errcap kws); [intros; by apply IH|done].
    + tauto.
Qed.


Lemma demo_schema_shaped : shaped 32 demo_schema.
Proof.
  assert (forall d, shaped (S (S (S (S d)))) demo_schema) as H; [|exact (H 28%nat)]. intros d.
  apply shaped_obj; [simpl; unfold NTC_JSON_MAX_MEMBERS; lia|]. repeat constructor.
Qed.

