(* ===== verification/Jwt.v ===== *)
(** * JSON Web Tokens (src/common/jwt.c)

    Splitting, claims, key sets and the three verifiers.  RSA and ECDSA are BearSSL's: an
    interface that answers what a signature says.  Whether an arena and each allocation of
    the reader succeeds is an argument. *)
From S2P Require Import Prelude Slice Double Json Crypto.
Open Scope Z_scope.

(** BearSSL: the hash a PKCS#1 v1.5 signature carries under a modulus and an exponent, and
    whether an ECDSA P-256 signature is one of a hash under a point. *)
Class SigEngine := {
  br_rsa_pkcs1_vrfy : bytes -> bytes -> bytes -> option bytes;
  br_ecdsa_vrfy_raw : bytes -> bytes -> bytes -> bool }.

(** The answers of the allocator to one operation: the arena, then the nodes of the first
    and of the second document it reads. *)
Record arena_mem := ArenaMem { am_init : bool; am_first : list bool; am_second : list bool }.
Definition am_ok : arena_mem := ArenaMem true [] [].

(** jwt.c:15-20 [jwt_parts] *)
Record jwt_parts := Parts { jp_h : bytes; jp_p : bytes; jp_sig : bytes; jp_signed_len : nat }.

(** jwt.h:15-20 [ntc_jwt_claims] *)
Record ntc_jwt_claims := Claims { cl_sub : bytes; cl_scope : bytes; cl_exp : Z; cl_iat : Z }.

(** jwt.c:22-34 [jwt_split] *)
Definition jwt_split (token : bytes) : option jwt_parts :=
  d1 ← memchr 46 token;
  let after1 := S d1 in
  d2 ← memchr 46 (drop after1 token);
  Some (Parts (take d1 token) (take d2 (drop after1 token)) (drop (after1 + S d2) token) (after1 + d2)).

(** A document in a buffer of [cap] bytes, read: [None] when it does not decode to
    something, or is not JSON. *)
Definition decode_json (m : list bool) (cap : nat) (s : bytes) : option (option ntc_json) :=
  match ntc_base64url_decode s cap with
  | Some (x :: d) => ntc_json_parse m (x :: d)
  | _ => Some None
  end.

Definition jstr (j : option ntc_json) (k : bytes) : bytes := ntc_json_str (ntc_json_get j k).

(** jwt.c:38-70 [jwt_parse_claims]. [Some None] is false; the outer [None] would be a fault of
    the reader. *)
Definition jwt_parse_claims (am : arena_mem) (jp : jwt_parts) (expect_alg : bytes) (now_unix : Z)
    : option (option ntc_jwt_claims) :=
  if negb (am_init am) then Some None else
  hj ← decode_json (am_first am) 1024 (jp_h jp);
  if negb (bool_decide (is_Some hj) && ntc_slice_eq_cstr (jstr hj (bs "alg")) expect_alg) then Some None else
  pj ← decode_json (am_second am) 4096 (jp_p jp);
  match pj with
  | Some (JObj ms) =>
      let exp := d_long (ntc_json_num (ntc_json_get pj (bs "exp"))) in
      if negb (negb (exp =? 0) && (0 <? now_unix) && (exp <=? now_unix)) then
        Some (Some (Claims (to_cstr 128 (jstr pj (bs "sub"))) (to_cstr 256 (jstr pj (bs "scope"))) exp
                      (d_long (ntc_json_num (ntc_json_get pj (bs "iat"))))))
      else Some None
  | _ => Some None
  end.

(** jwt.c:72-92 [ntc_jwt_peek_alg] *)
Definition ntc_jwt_peek_alg (am : arena_mem) (token : bytes) (cap : nat) : option (option bytes) :=
  match jwt_split token with
  | None => Some None
  | Some jp =>
      match ntc_base64url_decode (jp_h jp) 1024 with
      | Some (x :: d) =>
          if negb (am_init am) then Some None else
          hj ← ntc_json_parse (am_first am) (x :: d);
          let alg := jstr hj (bs "alg") in
          Some (if bool_decide (is_Some hj) && (0 <? length alg)%nat && (length alg <? cap)%nat
                then Some (to_cstr cap alg) else None)
      | _ => Some None
      end
  end.

(** jwt.c:94-119 [ntc_jwt_peek_header]. The two buffers when the result is true. *)
Definition ntc_jwt_peek_header (am : arena_mem) (token : bytes) (algcap kidcap : nat)
    : option (option (bytes * bytes)) :=
  match jwt_split token with
  | None => Some None
  | Some jp =>
      match ntc_base64url_decode (jp_h jp) 1024 with
      | Some (x :: d) =>
          if negb (am_init am) then Some None else
          hj ← ntc_json_parse (am_first am) (x :: d);
          let av := jstr hj (bs "alg") in
          if bool_decide (is_Some hj) && (0 <? length av)%nat && (length av <? algcap)%nat then
            let kv := jstr hj (bs "kid") in
            let kid := if (0 <? length kv)%nat && (length kv <? kidcap)%nat then to_cstr kidcap kv else [] in
            Some (Some (to_cstr algcap av, kid))
          else Some None
      | _ => Some None
      end
  end.

(** jwt.c:121-137 [ntc_jwt_verify_hs256] *)
Definition ntc_jwt_verify_hs256 (am : arena_mem) (token secret : bytes) (now_unix : Z)
    : option (option ntc_jwt_claims) :=
  match jwt_split token with
  | None => Some None
  | Some jp =>
      mac ← ntc_hmac_sha256 (cstr secret) (take (jp_signed_len jp) token);
      match ntc_base64url_encode mac 64 with
      | None => Some None
      | Some macb64 =>
          if negb (length macb64 =? length (jp_sig jp))%nat then Some None else
          if negb (ntc_ct_eq macb64 (jp_sig jp)) then Some None else
          jwt_parse_claims am jp (bs "HS256") now_unix
      end
  end.

(** jwt.h:24-30 [ntc_rsa_pubkey] *)
Record ntc_rsa_pubkey := RsaKey { rk_n : bytes; rk_e : bytes; rk_present : bool }.

Section verify.
Context {E : SigEngine}.

(** jwt.c:139-167 [ntc_jwt_verify_rs256] *)
Definition ntc_jwt_verify_rs256 (am : arena_mem) (token : bytes) (key : ntc_rsa_pubkey) (now_unix : Z)
  : option (option ntc_jwt_claims) :=
if negb (rk_present key) then Some None else
match jwt_split token with
| None => Some None
| Some jp =>
    match ntc_base64url_decode (jp_sig jp) 512 with
    | Some (x :: sig) =>
        hash ← ntc_sha256 (take (jp_signed_len jp) token);
        match br_rsa_pkcs1_vrfy (x :: sig) (rk_n key) (rk_e key) with
        | Some hout =>
            if negb (ntc_ct_eq hout hash) then Some None else
            jwt_parse_claims am jp (bs "RS256") now_unix
        | None => Some None
        end
    | _ => Some None
    end
end.

(** jwt.c:169-194 [ntc_jwt_verify_es256] *)
Definition ntc_jwt_verify_es256 (am : arena_mem) (token q : bytes) (now_unix : Z)
  : option (option ntc_jwt_claims) :=
if (length q =? 0)%nat then Some None else
match jwt_split token with
| None => Some None
| Some jp =>
    match ntc_base64url_decode (jp_sig jp) 160 with
    | Some sig =>
        if negb (length sig =? 64)%nat then Some None else
        hash ← ntc_sha256 (take (jp_signed_len jp) token);
        if negb (br_ecdsa_vrfy_raw hash q sig) then Some None else
        jwt_parse_claims am jp (bs "ES256") now_unix
    | None => Some None
    end
end.
End verify.

(** ** Keys *)

(** jwt.c:204-206 [jwk_b64u_field, leading zeros] *)
Fixpoint strip_leading (l : bytes) : bytes :=
  match l with
  | x :: l' => if (x =? 0) && (0 <? length l')%nat then strip_leading l' else l
  | [] => []
  end.

(** jwt.c:198-208 [jwk_b64u_field]. [None] is -1. *)
Definition jwk_b64u_field (obj : option ntc_json) (name : bytes) (cap : nat) : option bytes :=
  let s := jstr obj name in
  if (length s =? 0)%nat then None else
  match ntc_base64url_decode s cap with
  | Some (x :: d) => Some (strip_leading (x :: d))
  | _ => None
  end.

(** jwt.c:210-220 [jwk_load_rsa] *)
Definition jwk_load_rsa (jwk : option ntc_json) : option ntc_rsa_pubkey :=
  match jwk with
  | Some (JObj _) =>
      if negb (ntc_slice_eq_cstr (jstr jwk (bs "kty")) (bs "RSA")) then None else
      n ← jwk_b64u_field jwk (bs "n") 512;
      e ← jwk_b64u_field jwk (bs "e") 16;
      Some (RsaKey n e true)
  | _ => None
  end.

(** The first element for which [f] has a value. *)
Fixpoint first_some {A B} (f : A -> option B) (l : list A) : option B :=
  match l with
  | [] => None
  | x :: l => match f x with Some y => Some y | None => first_some f l end
  end.

(** jwt.c:222-240 [ntc_jwk_parse] *)
Definition ntc_jwk_parse (am : arena_mem) (json : bytes) : option (option ntc_rsa_pubkey) :=
  if negb (am_init am) then Some None else
  root ← ntc_json_parse (am_first am) json;
  Some (match root with
        | None => None
        | Some _ =>
            match ntc_json_get root (bs "keys") with
            | Some (JArr items) => first_some (fun it => jwk_load_rsa (Some it)) items
            | _ => jwk_load_rsa root
            end
        end).

(** jwt.c:247-256 [jwk_ec_coord] *)
Definition jwk_ec_coord (jwk : option ntc_json) (name : bytes) : option bytes :=
  let s := jstr jwk name in
  if (length s =? 0)%nat then None else
  match ntc_base64url_decode s 48 with
  | Some (x :: d) =>
      if (32 <? length (x :: d))%nat then None
      else Some (replicate (32 - length (x :: d)) 0 ++ (x :: d))
  | _ => None
  end.

(** jwt.h:34-34 [ntc_jwk_kty] *)
Inductive ntc_jwk_kty := NTC_JWK_RSA | NTC_JWK_EC.
#[export] Instance ntc_jwk_kty_eq_dec : EqDecision ntc_jwk_kty.
Proof. solve_decision. Defined.

(** jwt.h:38-45 [ntc_jwk_key]. Each array with its length. *)
Record ntc_jwk_key := JwkKey {
  jk_kty : ntc_jwk_kty; jk_kid : bytes; jk_alg : bytes; jk_n : bytes; jk_e : bytes; jk_q : bytes }.

(** jwt.c:259-287 [jwk_load_one] *)
Definition jwk_load_one (jwk : option ntc_json) : option ntc_jwk_key :=
  match jwk with
  | Some (JObj _) =>
      let kty := jstr jwk (bs "kty") in
      let kid := jstr jwk (bs "kid") in
      let alg := jstr jwk (bs "alg") in
      let kid' := if (0 <? length kid)%nat && (length kid <? 80)%nat then to_cstr 80 kid else [] in
      let alg' := if (0 <? length alg)%nat && (length alg <? 16)%nat then to_cstr 16 alg else [] in
      if ntc_slice_eq_cstr kty (bs "RSA") then
        n ← jwk_b64u_field jwk (bs "n") 512;
        e ← jwk_b64u_field jwk (bs "e") 16;
        Some (JwkKey NTC_JWK_RSA kid' alg' n e [])
      else if ntc_slice_eq_cstr kty (bs "EC") then
        if negb (ntc_slice_eq_cstr (jstr jwk (bs "crv")) (bs "P-256")) then None else
        x ← jwk_ec_coord jwk (bs "x");
        y ← jwk_ec_coord jwk (bs "y");
        Some (JwkKey NTC_JWK_EC kid' alg' [] [] (4 :: x ++ y))
      else None
  | _ => None
  end.

(** jwt.h:47-52 [ntc_jwks]. The used part of the array. *)
Definition NTC_JWKS_MAX_KEYS : nat := 16.
Abbreviation ntc_jwks := (list ntc_jwk_key).

(** jwt.c:298-299 [ntc_jwks_parse, loop] *)
Fixpoint jwks_loop (items : list ntc_json) (out : ntc_jwks) : ntc_jwks :=
  match items with
  | [] => out
  | it :: items =>
      if (length out <? NTC_JWKS_MAX_KEYS)%nat then
        jwks_loop items (match jwk_load_one (Some it) with Some k => out ++ [k] | None => out end)
      else out
  end.

(** jwt.c:289-306 [ntc_jwks_parse]. The set; the result is whether it is not empty. *)
Definition ntc_jwks_parse (am : arena_mem) (json : bytes) : option ntc_jwks :=
  if negb (am_init am) then Some [] else
  root ← ntc_json_parse (am_first am) json;
  Some (match root with
        | None => []
        | Some _ =>
            match ntc_json_get root (bs "keys") with
            | Some (JArr items) => jwks_loop items []
            | _ => match jwk_load_one root with Some k => [k] | None => [] end
            end
        end).

(** jwt.c:311-315 [ntc_jwks_find, want] *)
Definition want_kty (alg : bytes) : option ntc_jwk_kty :=
  if memeq alg (bs "RS256") then Some NTC_JWK_RSA
  else if memeq alg (bs "ES256") then Some NTC_JWK_EC else None.

(** jwt.c:317-327 [ntc_jwks_find, loop] *)
Fixpoint find_loop (set : ntc_jwks) (kid : bytes) (want : option ntc_jwk_kty) (fallback : option ntc_jwk_key)
    : option ntc_jwk_key :=
  let havekid := (0 <? length kid)%nat in
  match set with
  | [] => if havekid then None else fallback
  | k :: set =>
      if match want with Some w => negb (bool_decide (jk_kty k = w)) | None => false end
      then find_loop set kid want fallback
      else if havekid then
        if memeq (jk_kid k) kid then Some k else find_loop set kid want fallback
      else find_loop set kid want (match fallback with None => Some k | Some _ => fallback end)
  end.

(** jwt.c:308-328 [ntc_jwks_find] *)
Definition ntc_jwks_find (set : ntc_jwks) (kid alg : bytes) : option ntc_jwk_key :=
  if (length set =? 0)%nat then None else find_loop set kid (want_kty alg) None.

(** jwt.c:330-350 [ntc_jwt_verify_jwks]. Each of its two operations has its own arena. *)
Definition ntc_jwt_verify_jwks `{SigEngine} (am am' : arena_mem) (token : bytes) (set : ntc_jwks) (now_unix : Z)
    : option (option ntc_jwt_claims) :=
  hdr ← ntc_jwt_peek_header am token 16 80;
  match hdr with
  | None => Some None
  | Some (alg, kid) =>
      match ntc_jwks_find set kid alg with
      | None => Some None
      | Some k =>
          if memeq alg (bs "RS256") && bool_decide (jk_kty k = NTC_JWK_RSA) then
            ntc_jwt_verify_rs256 am' token (RsaKey (jk_n k) (jk_e k) true) now_unix
          else if memeq alg (bs "ES256") && bool_decide (jk_kty k = NTC_JWK_EC) then
            ntc_jwt_verify_es256 am' token (jk_q k) now_unix
          else Some None
      end
  end.

Definition jwt_io : bytes :=
  bs "eyJhbGciOiJIUzI1NiIsInR5cCI6IkpXVCJ9." ++
  bs "eyJzdWIiOiIxMjM0NTY3ODkwIiwibmFtZSI6IkpvaG4gRG9lIiwiaWF0IjoxNTE2MjM5MDIyfQ." ++
  bs "SflKxwRJSMeKKF2QT4fwpMeJf36POk6yJV_adQssw5c".

Example hs256_1 : ntc_jwt_verify_hs256 am_ok jwt_io (bs "your-256-bit-secret") 0 =
  Some (Some (Claims (bs "1234567890") [] 0 1516239022)).
Proof. vm_compute. reflexivity. Qed.
Example hs256_2 : ntc_jwt_verify_hs256 am_ok jwt_io (bs "wrong-secret") 0 = Some None.
Proof. vm_compute. reflexivity. Qed.

(** ** What a token says *)

Definition reads_json (cap : nat) (s : bytes) (j : ntc_json) : Prop :=
  decode_json [] cap s = Some (Some j).

Definition header_alg (h alg : bytes) : Prop := exists hj, reads_json 1024 h hj /\ jstr (Some hj) (bs "alg") = alg.

Definition num_claim (ms : list (bytes * ntc_json)) (k : bytes) : Z :=
  d_long (ntc_json_num (ntc_json_get (Some (JObj ms)) k)).

(** An [exp] of 0, or none, never expires; nor does any token while the clock is not set. *)
Definition expired (ms : list (bytes * ntc_json)) (now_unix : Z) : Prop :=
  num_claim ms (bs "exp") <> 0 /\ 0 < now_unix /\ num_claim ms (bs "exp") <= now_unix.

Definition claims_of (ms : list (bytes * ntc_json)) : ntc_jwt_claims :=
  Claims (to_cstr 128 (jstr (Some (JObj ms)) (bs "sub"))) (to_cstr 256 (jstr (Some (JObj ms)) (bs "scope")))
    (num_claim ms (bs "exp")) (num_claim ms (bs "iat")).

Definition says (h p alg : bytes) (now_unix : Z) (cl : ntc_jwt_claims) : Prop :=
  header_alg h alg /\ exists ms, reads_json 4096 p (JObj ms) /\ ~ expired ms now_unix /\ cl = claims_of ms.

(** ** Lemmas *)

Lemma ntc_json_parse_some m buf : exists r, ntc_json_parse m buf = Some r.
Proof.
  destruct (parse_total (2 * length buf + 2)) as [Hv _].
  destruct (Hv (MkP buf m false 0)) as (o & s & E & _); [cbn; lia|].
  unfold ntc_json_parse. rewrite E. bind. by eexists.
Qed.

Lemma decode_json_some m cap s : exists r, decode_json m cap s = Some r.
Proof.
  unfold decode_json. destruct (ntc_base64url_decode s cap) as [[|x d]|]; eauto using ntc_json_parse_some.
Qed.

(** The three segments. *)
Lemma jwt_split_Some token jp :
  jwt_split token = Some jp <->
  exists h p sig, (46 ∉ h) /\ (46 ∉ p) /\ token = h ++ 46 :: p ++ 46 :: sig /\
    jp = Parts h p sig (length (h ++ 46 :: p)).
Proof.
  unfold jwt_split. split.
  - intros H. opt_inv. rename x into d1, x0 into d2.
    destruct (memchr_Some _ _ _ H0) as (E1 & N1 & L1). destruct (memchr_Some _ _ _ H1) as (E2 & N2 & L2).
    exists (take d1 token), (take d2 (drop (S d1) token)), (drop (S d1 + S d2) token).
    split; [done|]. split; [done|]. split.
    + rewrite E1 at 1. do 2 f_equal. rewrite <- drop_drop. exact E2.
    + f_equal. rewrite length_app, length_cons, !length_take. rewrite length_drop in *. lia.
  - intros (h & p & sig & Hh & Hp & -> & ->). rewrite memchr_app by done. bind.
    change (h ++ 46 :: ?x) with (h ++ [46] ++ x). rewrite (app_assoc h).
    assert (S (length h) = length (h ++ [46])) as -> by (rewrite length_app; simpl; lia).
    rewrite drop_app_length, memchr_app by done. bind. rewrite <- drop_drop, drop_app_length.
    do 2 f_equal; [by rewrite <- app_assoc, take_app_length|by rewrite take_app_length| |rewrite !length_app; simpl; lia].
    change (46 :: sig) with ([46] ++ sig). rewrite (app_assoc p).
    replace (S (length p)) with (length (p ++ [46])) by (rewrite length_app; simpl; lia).
    by rewrite drop_app_length.
Qed.

Lemma signed_part h p sig : take (length (h ++ 46 :: p)) (h ++ 46 :: p ++ 46 :: sig) = h ++ 46 :: p.
Proof.
  replace (h ++ 46 :: p ++ 46 :: sig) with ((h ++ 46 :: p) ++ 46 :: sig) by (by rewrite <- app_assoc).
  apply take_app_length.
Qed.

Lemma jwt_parse_claims_total am jp alg now : exists r, jwt_parse_claims am jp alg now = Some r.
Proof.
  unfold jwt_parse_claims. destruct (am_init am); cbn [negb]; [|eauto].
  destruct (decode_json_some (am_first am) 1024 (jp_h jp)) as [hj ->]. bind.
  case_match; [eauto|]. destruct (decode_json_some (am_second am) 4096 (jp_p jp)) as [pj ->]. bind.
  destruct pj as [[]|]; eauto. cbv zeta. case_match; eauto.
Qed.

Lemma jwt_parse_claims_spec jp alg now cl :
  (0 ∉ alg) -> alg <> [] ->
  jwt_parse_claims am_ok jp alg now = Some (Some cl) <-> says (jp_h jp) (jp_p jp) alg now cl.
Proof.
  intros Hz Hne. unfold jwt_parse_claims, says, header_alg, reads_json, am_ok.
  cbn [am_init am_first am_second negb].
  destruct (decode_json_some [] 1024 (jp_h jp)) as [hj ->]. bind.
  destruct (decode_json_some [] 4096 (jp_p jp)) as [pj ->].
  destruct (bool_decide _ && _) eqn:Ea; cbn [negb].
  - apply andb_true_iff in Ea as [E1 E2]. apply bool_decide_eq_true in E1 as [hj' ->].
    apply ntc_slice_eq_true in E2. unfold ntc_slice_cstr in E2. rewrite cstr_id in E2 by done. bind.
    destruct pj as [[| | | | |ms]|]; try (split; [done|]; intros (_ & ms' & [=] & _)).
    fold (num_claim ms (bs "exp")) (num_claim ms (bs "iat")). cbv zeta.
    destruct (negb (negb _ && _ && _)) eqn:Ee.
    + rewrite negb_true_iff, !andb_false_iff, negb_false_iff, Z.eqb_eq, Z.ltb_ge, Z.leb_gt in Ee.
      split.
      * intros [= <-]. split; [by exists hj'|]. exists ms. split; [done|]. split; [|done].
        unfold expired. lia.
      * intros (_ & ms' & [= <-] & _ & ->). done.
    + rewrite negb_false_iff, !andb_true_iff, negb_true_iff, Z.eqb_neq, Z.ltb_lt, Z.leb_le in Ee.
      split; [done|]. intros (_ & ms' & [= <-] & Hx & _). exfalso. apply Hx. unfold expired. tauto.
  - split; [done|]. intros ((hj' & [= ->] & Hj) & _). exfalso.
    rewrite bool_decide_true in Ea by eauto. cbn [andb] in Ea. rewrite Hj in Ea.
    unfold ntc_slice_eq_cstr, ntc_slice_cstr in Ea. rewrite cstr_id in Ea by done.
    by rewrite ntc_slice_eq_refl in Ea.
Qed.

Lemma bytes_ok_SHA256 m : bytes_ok (SHA256 m).
Proof.
  unfold SHA256, sha_out. apply Forall_concat, Forall_fmap, Forall_true. intros x. cbn.
  repeat constructor; apply u8_range.
Qed.

Lemma length_HMAC k m : length (HMAC k m) = 32%nat.
Proof. apply length_SHA256. Qed.

Lemma b64_text_ok x : bytes_ok x -> bytes_ok (b64_text x) /\ (46 ∉ b64_text x).
Proof.
  intros Hx. assert (Forall (fun d => 0 <= d < 64) (b64_digits x)) as Hd.
  { revert Hx. induction x as [|a|a b|a b c x IH] using bytes_ind3; intros Hx;
      repeat (apply Forall_cons_1 in Hx as [? Hx]); unfold is_byte in *;
      cbn [b64_digits]; repeat constructor; try (apply IH; done);
      Z.to_euclidean_division_equations; lia. }
  assert (forallb (fun d => (0 <=? b64_char d) && (b64_char d <? 256) && negb (b64_char d =? 46)) (seqZ 0 64) = true)
    as Hall by reflexivity.
  rewrite forallb_forall in Hall.
  assert (forall d, 0 <= d < 64 -> is_byte (b64_char d) /\ b64_char d <> 46) as Hc.
  { intros d H. specialize (Hall d). rewrite !andb_true_iff, Z.leb_le, Z.ltb_lt, negb_true_iff, Z.eqb_neq in Hall.
    destruct Hall as [[? ?] ?]; [apply list_elem_of_In, elem_of_seqZ; lia|]. done. }
  rewrite list.Forall_forall in Hd. split.
  - apply list.Forall_forall. intros y (d & -> & Hin)%list_elem_of_fmap. apply Hc, Hd, Hin.
  - intros (d & Hy & Hin)%list_elem_of_fmap. symmetry in Hy. revert Hy. apply Hc, Hd, Hin.
Qed.

Lemma encode_mac mac : bytes_ok mac -> length mac = 32%nat -> ntc_base64url_encode mac 64 = Some (b64_text mac).
Proof.
  intros Hm Hl. unfold ntc_base64url_encode. pose proof (length_b64_text mac) as Ht. rewrite Hl in Ht.
  rewrite b64u_loop_spec by (done || (rewrite Hl; lia) || lia). cbv zeta. rewrite drop_0, app_nil_l.
  cbn [length Nat.add]. replace (length (b64_digits mac)) with (length (b64_text mac)) by apply length_fmap.
  fold (b64_text mac). change ((4 * 32 + 2) / 3)%nat with 43%nat in Ht.
  rewrite decide_True by (right; lia). bind. by rewrite (proj2 (Nat.leb_gt 64 _)) by lia.
Qed.

Section hs256.
Context (secret : bytes).

(** The signature the code expects on [s]. *)
Definition hs256_sig (s : bytes) : bytes := b64_text (HMAC (cstr secret) s).

Lemma hs256_unfold am token now :
  ntc_jwt_verify_hs256 am token secret now =
  match jwt_split token with
  | None => Some None
  | Some jp =>
      let macb64 := hs256_sig (take (jp_signed_len jp) token) in
      if negb (length macb64 =? length (jp_sig jp))%nat then Some None else
      if negb (ntc_ct_eq macb64 (jp_sig jp)) then Some None else
      jwt_parse_claims am jp (bs "HS256") now
  end.
Proof.
  unfold ntc_jwt_verify_hs256. destruct (jwt_split token) as [jp|]; [|done].
  rewrite ntc_hmac_sha256_spec. bind.
  by rewrite encode_mac by (apply bytes_ok_SHA256 || apply length_HMAC).
Qed.

Lemma verify_hs256_total am token now : exists r, ntc_jwt_verify_hs256 am token secret now = Some r.
Proof.
  rewrite hs256_unfold. destruct (jwt_split token) as [jp|]; [|eauto]. cbv zeta.
  repeat (case_match; [by eexists|]). apply jwt_parse_claims_total.
Qed.

Lemma verify_hs256_spec token now cl :
  bytes_ok token ->
  ntc_jwt_verify_hs256 am_ok token secret now = Some (Some cl) <->
  exists h p, (46 ∉ h) /\ (46 ∉ p) /\ token = h ++ 46 :: p ++ 46 :: hs256_sig (h ++ 46 :: p) /\
    says h p (bs "HS256") now cl.
Proof.
  intros Hok. rewrite hs256_unfold.
  assert (forall s, bytes_ok (hs256_sig s)) as Hsig by (intros; apply b64_text_ok, bytes_ok_SHA256).
  assert (0 ∉ bs "HS256") as Hz by (apply (bool_decide_unpack _); vm_compute; exact I).
  split.
  - destruct (jwt_split token) as [jp|] eqn:Ej; [|done]. cbv zeta.
    apply jwt_split_Some in Ej as (h & p & sig & Hh & Hp & -> & ->). cbn [jp_signed_len jp_sig].
    rewrite signed_part. destruct (Nat.eqb_spec (length (hs256_sig (h ++ 46 :: p))) (length sig)) as [El|]; [|done].
    cbn [negb]. assert (bytes_ok sig) as Hs.
    { apply Forall_app in Hok as [_ Hok]. apply Forall_cons_1 in Hok as [_ Hok].
      apply Forall_app in Hok as [_ Hok]. by apply Forall_cons_1 in Hok as [_ Hok]. }
    rewrite ntc_ct_eq_spec by done. case_bool_decide as Eq; [|done]. cbn [negb]. subst sig.
    intros H. apply jwt_parse_claims_spec in H; [|done|done]. by exists h, p.
  - intros (h & p & Hh & Hp & -> & Hs).
    rewrite (proj2 (jwt_split_Some _ _)) by (by exists h, p, (hs256_sig (h ++ 46 :: p))).
    cbv zeta. cbn [jp_signed_len jp_sig]. rewrite signed_part, Nat.eqb_refl. cbn [negb].
    rewrite ntc_ct_eq_spec, bool_decide_true by done. cbn [negb]. by apply jwt_parse_claims_spec.
Qed.
End hs256.

(** C8. HS256.  On any token and any secret the verifier ends with a yes or a no.  It
    accepts exactly the tokens [h.p.s] whose last segment is the base64url of the
    HMAC-SHA256 of [h.p] under the secret, whose header names HS256, and whose payload is an
    object that has not expired; the claims are that object's. *)
Theorem jwt_hs256_correct token secret now cl :
  bytes_ok token ->
  (exists r, ntc_jwt_verify_hs256 am_ok token secret now = Some r) /\
  (ntc_jwt_verify_hs256 am_ok token secret now = Some (Some cl) <->
   exists h p, (46 ∉ h) /\ (46 ∉ p) /\
     token = h ++ 46 :: p ++ 46 :: b64_text (HMAC (cstr secret) (h ++ 46 :: p)) /\
     says h p (bs "HS256") now cl).
Proof. split; [apply verify_hs256_total|by apply verify_hs256_spec]. Qed.

Theorem jwt_hs256_correct_witness :
  exists h p, (46 ∉ h) /\ (46 ∉ p) /\
    jwt_io = h ++ 46 :: p ++ 46 :: b64_text (HMAC (cstr (bs "your-256-bit-secret")) (h ++ 46 :: p)) /\
    says h p (bs "HS256") 0 (Claims (bs "1234567890") [] 0 1516239022).
Proof.
  apply (jwt_hs256_correct jwt_io (bs "your-256-bit-secret") 0 (Claims (bs "1234567890") [] 0 1516239022)).
  - apply (bool_decide_unpack _). vm_compute. exact I.
  - vm_compute. reflexivity.
Defined.

(** ** Key sets *)

(** BearSSL returns a hash of the length it is asked for. *)
Class SigEngineOk `{SigEngine} := rsa_hash_ok : forall sig n e h,
  br_rsa_pkcs1_vrfy sig n e = Some h -> length h = 32%nat /\ bytes_ok h.

Definition of_kty (want : option ntc_jwk_kty) (k : ntc_jwk_key) : Prop := forall w, want = Some w -> jk_kty k = w.

Lemma find_loop_sound (good : ntc_jwk_key -> Prop) set kid want fb k :
  Forall good set -> (forall x, fb = Some x -> good x /\ of_kty want x) ->
  find_loop set kid want fb = Some k ->
  good k /\ of_kty want k /\ (kid <> [] -> jk_kid k = kid).
Proof.
  intros Hs. revert fb. induction Hs as [|x set Hx Hs IH]; intros fb Hfb H; cbn [find_loop] in H.
  - destruct (Nat.ltb_spec 0 (length kid)); [done|]. destruct (Hfb k H) as [? ?]. split_and!; [done..|].
    intros Hk. destruct kid; [done|simpl in *; lia].
  - case_match eqn:Ew; [by apply (IH fb)|].
    assert (of_kty want x) as Hw.
    { intros w ->. apply negb_false_iff, bool_decide_eq_true in Ew. done. }
    destruct (0 <? length kid)%nat.
    + case_match eqn:Ek; [|by apply (IH fb)]. injection H as ->. apply memeq_true in Ek. by split_and!.
    + apply (IH _) in H; [done|]. intros y Hy. destruct fb; [by apply Hfb|]. by injection Hy as <-.
Qed.

Lemma ntc_jwks_find_sound set kid alg k :
  ntc_jwks_find set kid alg = Some k ->
  k ∈ set /\ of_kty (want_kty alg) k /\ (kid <> [] -> jk_kid k = kid).
Proof.
  unfold ntc_jwks_find. case_match; [done|]. intros Hf.
  apply (find_loop_sound (fun k => k ∈ set)) in Hf; [done|by apply list.Forall_forall|done].
Qed.

(** The three segments of an accepted token, and what BearSSL says of the last. *)
Definition signed_by `{SigEngine} (k : ntc_jwk_key) (alg msg sig : bytes) : Prop :=
  (alg = bs "RS256" /\ jk_kty k = NTC_JWK_RSA /\ exists s, ntc_base64url_decode sig 512 = Some s /\
    br_rsa_pkcs1_vrfy s (jk_n k) (jk_e k) = Some (SHA256 msg)) \/
  (alg = bs "ES256" /\ jk_kty k = NTC_JWK_EC /\ exists s, ntc_base64url_decode sig 160 = Some s /\
    length s = 64%nat /\ br_ecdsa_vrfy_raw (SHA256 msg) (jk_q k) s = true).

Section jwks.
Context `{SigEngineOk}.

Lemma verify_rs256_sound token key now cl :
  ntc_jwt_verify_rs256 am_ok token key now = Some (Some cl) ->
  exists h p sig s, (46 ∉ h) /\ (46 ∉ p) /\ token = h ++ 46 :: p ++ 46 :: sig /\
    ntc_base64url_decode sig 512 = Some s /\
    br_rsa_pkcs1_vrfy s (rk_n key) (rk_e key) = Some (SHA256 (h ++ 46 :: p)) /\
    says h p (bs "RS256") now cl.
Proof.
  unfold ntc_jwt_verify_rs256. case_match; [done|].
  destruct (jwt_split token) as [jp|] eqn:Ej; [|done].
  apply jwt_split_Some in Ej as (h & p & sig & Hh & Hp & -> & ->). cbn [jp_sig jp_signed_len].
  rewrite signed_part, ntc_sha256_spec. bind.
  destruct (ntc_base64url_decode sig 512) as [[|x s]|] eqn:Ed; [done| |done].
  destruct (br_rsa_pkcs1_vrfy (x :: s) _ _) as [hout|] eqn:Er; [|done].
  destruct (rsa_hash_ok _ _ _ _ Er) as [Hl Hok].
  rewrite ntc_ct_eq_spec by (done || apply bytes_ok_SHA256 || by rewrite length_SHA256).
  case_bool_decide as Eq; [|done]. subst hout. cbn [negb]. intros Hc.
  apply jwt_parse_claims_spec in Hc; [|apply (bool_decide_unpack _); vm_compute; exact I|done].
  by exists h, p, sig, (x :: s).
Qed.

Lemma verify_es256_sound token q now cl :
  ntc_jwt_verify_es256 am_ok token q now = Some (Some cl) ->
  exists h p sig s, (46 ∉ h) /\ (46 ∉ p) /\ token = h ++ 46 :: p ++ 46 :: sig /\
    ntc_base64url_decode sig 160 = Some s /\ length s = 64%nat /\
    br_ecdsa_vrfy_raw (SHA256 (h ++ 46 :: p)) q s = true /\ says h p (bs "ES256") now cl.
Proof.
  unfold ntc_jwt_verify_es256. case_match; [done|].
  destruct (jwt_split token) as [jp|] eqn:Ej; [|done].
  apply jwt_split_Some in Ej as (h & p & sig & Hh & Hp & -> & ->). cbn [jp_sig jp_signed_len].
  rewrite signed_part, ntc_sha256_spec. bind.
  destruct (ntc_base64url_decode sig 160) as [s|] eqn:Ed; [|done].
  destruct (Nat.eqb_spec (length s) 64) as [El|]; [|done]. cbn [negb].
  destruct (br_ecdsa_vrfy_raw _ _ _) eqn:Ee; [|done]. cbn [negb]. intros Hc.
  apply jwt_parse_claims_spec in Hc; [|apply (bool_decide_unpack _); vm_compute; exact I|done].
  by exists h, p, sig, s.
Qed.

Lemma verify_jwks_sound token set now cl :
  ntc_jwt_verify_jwks am_ok am_ok token set now = Some (Some cl) ->
  exists h p sig alg kid k, token = h ++ 46 :: p ++ 46 :: sig /\
    ntc_jwt_peek_header am_ok token 16 80 = Some (Some (alg, kid)) /\
    k ∈ set /\ (kid <> [] -> jk_kid k = kid) /\
    signed_by k alg (h ++ 46 :: p) sig /\ says h p alg now cl.
Proof.
  unfold ntc_jwt_verify_jwks.
  destruct (ntc_jwt_peek_header am_ok token 16 80) as [[[alg kid]|]|] eqn:Ep; [|done|done]. bind.
  destruct (ntc_jwks_find set kid alg) as [k|] eqn:Ef; [|done].
  apply ntc_jwks_find_sound in Ef as (Hk & _ & Hkid).
  destruct (memeq alg (bs "RS256") && bool_decide (jk_kty k = NTC_JWK_RSA)) eqn:E1.
  - apply andb_true_iff in E1 as [Ea Et]. apply memeq_true in Ea. apply bool_decide_eq_true in Et.
    intros (h & p & sig & s & _ & _ & -> & Hd & Hv & Hs)%verify_rs256_sound. subst alg.
    exists h, p, sig, (bs "RS256"), kid, k. split_and!; [done..| |done]. left. eauto.
  - destruct (memeq alg (bs "ES256") && bool_decide (jk_kty k = NTC_JWK_EC)) eqn:E2; [|done].
    apply andb_true_iff in E2 as [Ea Et]. apply memeq_true in Ea. apply bool_decide_eq_true in Et.
    intros (h & p & sig & s & _ & _ & -> & Hd & Hl & Hv & Hs)%verify_es256_sound. subst alg.
    exists h, p, sig, (bs "ES256"), kid, k. split_and!; [done..| |done]. right. eauto 6.
Qed.
End jwks.

(** A [SigEngine] whose signatures are the hash itself, followed by the modulus. *)
Definition demo_engine : SigEngine := {|
  br_rsa_pkcs1_vrfy sig n e :=
    if decide (drop 32 sig = n /\ length (take 32 sig) = 32%nat /\ bytes_ok (take 32 sig)) then Some (take 32 sig) else None;
  br_ecdsa_vrfy_raw hash q sig := bool_decide (sig = hash ++ hash) |}.

Lemma demo_engine_ok : @SigEngineOk demo_engine.
Proof. intros sig n e h. cbn. case_decide as Hd; [|done]. intros [= <-]. apply Hd. Qed.

Definition demo_msg : bytes :=
  b64_text (qs "{'alg':'RS256','kid':'a'}") ++ 46 :: b64_text (qs "{'sub':'bob','exp':200}").
Definition demo_key : ntc_jwk_key := JwkKey NTC_JWK_RSA (bs "a") [] [3; 1] [1] [].
Definition demo_token : bytes :=
  demo_msg ++ 46 :: b64_text (default [] (ntc_sha256 demo_msg) ++ [3; 1]).


