(* ===== verification/Session.v ===== *)
(** * Sessions, cookies and PKCE (src/core/session.c)

    The fixed array of entries with expiry and eviction, against a map; the cookie scanner,
    against the list of cookies of a header; random tokens and PKCE. *)
From S2P Require Import Prelude Crypto.
Open Scope Z_scope.

(** session.c:13-14 [NTC_KV_KEYLEN, NTC_KV_VALLEN] *)
Definition NTC_KV_KEYLEN : nat := 96.
Definition NTC_KV_VALLEN : nat := 1024.

(** session.c:16-20 [kv_entry]. The arrays by the C strings they hold. *)
Record kv_entry := Entry { kv_key : bytes; kv_val : bytes; kv_expiry : Z }.

(** session.c:22-25 [ntc_kvstore]. The [cap] entries. *)
Abbreviation ntc_kvstore := (list kv_entry).

(** session.c:27-35 [ntc_kv_new]. Given whether its two allocations succeed. *)
Definition ntc_kv_new (alloc1 alloc2 : bool) (cap : nat) : option ntc_kvstore :=
  let cap := if (cap =? 0)%nat then Nat.mul 32 32 else cap in
  if alloc1 && alloc2 then Some (replicate cap (Entry [] [] 0)) else None.

Definition is_entry (key : bytes) (e : kv_entry) : bool :=
  negb (kv_expiry e =? 0) && memeq (kv_key e) key.

(** session.c:43-47 [kv_find]. The index of the entry. *)
Fixpoint kv_find (kv : ntc_kvstore) (key : bytes) : option nat :=
  match kv with
  | [] => None
  | e :: kv => if is_entry key e then Some 0%nat else S <$> kv_find kv key
  end.

(** session.c:54-59 [ntc_kv_put, slot]. The first empty slot from [i] on, else the victim. *)
Fixpoint find_slot (kv : ntc_kvstore) (i : nat) (victim : option (nat * Z)) : option nat :=
  match kv with
  | [] => fst <$> victim
  | e :: kv =>
      if kv_expiry e =? 0 then Some i else
      find_slot kv (S i)
        (match victim with
         | None => Some (i, kv_expiry e)
         | Some (j, x) => if kv_expiry e <? x then Some (i, kv_expiry e) else victim
         end)
  end.

(** session.c:49-65 [ntc_kv_put] *)
Definition ntc_kv_put (kv : ntc_kvstore) (key val : bytes) (expiry : Z) : ntc_kvstore :=
  if (NTC_KV_KEYLEN <=? length key)%nat || (NTC_KV_VALLEN <=? length val)%nat then kv else
  match (match kv_find kv key with Some i => Some i | None => find_slot kv 0 None end) with
  | None => kv
  | Some i =>
      <[i := Entry (snprintf NTC_KV_KEYLEN key) (snprintf NTC_KV_VALLEN val) (if expiry =? 0 then 1 else expiry)]> kv
  end.

(** session.c:67-74 [ntc_kv_get]. What is copied out, and the store. *)
Definition ntc_kv_get (kv : ntc_kvstore) (key : bytes) (now : Z) (cap : nat) : option bytes * ntc_kvstore :=
  match kv_find kv key with
  | None => (None, kv)
  | Some i =>
      match kv !! i with
      | None => (None, kv)
      | Some e =>
          if (0 <? now) && (kv_expiry e <=? now) then (None, <[i := Entry (kv_key e) (kv_val e) 0]> kv)
          else (Some (snprintf cap (kv_val e)), kv)
      end
  end.

(** session.c:76-80 [ntc_kv_del] *)
Definition ntc_kv_del (kv : ntc_kvstore) (key : bytes) : ntc_kvstore :=
  match kv_find kv key with None => kv | Some i => <[i := Entry [] [] 0]> kv end.

(** ** Cookies

    A pointer into a C string is the rest of the string. *)

(** session.c:89 [ntc_cookie_get, skip] *)
Fixpoint skip_sep (p : bytes) : bytes :=
  match p with c :: p' => if (c =? 32) || (c =? 59) then skip_sep p' else p | [] => [] end.

(** session.c:91-93 [ntc_cookie_get, value] and the skip of line 100. The characters up to
    a [';'], and the rest. *)
Fixpoint until_semi (p : bytes) : bytes * bytes :=
  match p with
  | c :: p' => if c =? 59 then ([], p) else let '(a, b) := until_semi p' in (c :: a, b)
  | [] => ([], [])
  end.

(** session.c:88-103 [ntc_cookie_get, loop]. [Some None] is false; [None] is a write past [out],
    or a loop that does not end. *)
Fixpoint cookie_loop (fuel : nat) (p name : bytes) (cap : nat) : option (option bytes) :=
  match fuel with
  | O => None
  | S f =>
      match p with
      | [] => Some None
      | _ =>
          let p := skip_sep p in
          if memeq (take (length name) p) name && (match drop (length name) p with c :: _ => c =? 61 | [] => false end)
          then
            let '(v, _) := until_semi (drop (S (length name)) p) in
            if (cap =? 0)%nat then None
            else Some (Some (take (if (cap <=? length v)%nat then cap - 1 else length v) v))
          else cookie_loop f (snd (until_semi p)) name cap
      end
  end.

(** session.c:84-103 [ntc_cookie_get] *)
Definition ntc_cookie_get (cookie_header name : bytes) (cap : nat) : option (option bytes) :=
  cookie_loop (S (length cookie_header)) cookie_header name cap.

(** session.c:105-113 [ntc_cookie_format]. The text and the result; [None] for -1. A
    [Max-Age] that does not fit is cut. *)
Definition ntc_cookie_format (cap : nat) (name value : bytes) (secure : bool) (max_age : Z) : option (bytes * Z) :=
  let t := name ++ bs "=" ++ value ++ bs "; Path=/; HttpOnly; SameSite=Lax" ++ (if secure then bs "; Secure" else []) in
  if (cap <=? length t)%nat then None else
  let a := if 0 <=? max_age then bs "; Max-Age=" ++ fmt_d max_age else [] in
  Some (t ++ snprintf (cap - length t) a, Z.of_nat (length t + length a)).

(** ** Random tokens and PKCE *)

(** session.c:117-128 [fill_random]. From what each [read] of /dev/urandom gives ([None]
    when it does not open; an empty read is an end or an error). *)
Fixpoint fill_loop (reads : list bytes) (got : bytes) (n : nat) : option bytes :=
  if (n <=? length got)%nat then Some got else
  match reads with
  | [] => None
  | r :: reads =>
      let r := take (n - length got) r in
      if (length r =? 0)%nat then None else fill_loop reads (got ++ r) n
  end.
Definition fill_random (urandom : option (list bytes)) (n : nat) : option bytes :=
  reads ← urandom; fill_loop reads [] n.

(** session.c:130-136 [ntc_random_token] *)
Definition ntc_random_token (urandom : option (list bytes)) (cap nbytes : nat) : option bytes :=
  if (64 <? nbytes)%nat || (cap <? nbytes * 2 + 1)%nat then None else
  b ← fill_random urandom nbytes; Some (concat (fmt_02x <$> b)).

(** session.c:138-143 [ntc_pkce_verifier] *)
Definition ntc_pkce_verifier (urandom : option (list bytes)) (cap : nat) : option bytes :=
  if (cap <? 44)%nat then None else
  b ← fill_random urandom 32;
  t ← ntc_base64url_encode b cap;
  if (0 <? length t)%nat then Some t else None.

(** session.c:145-151 [ntc_pkce_challenge] *)
Definition ntc_pkce_challenge (verifier : bytes) (cap : nat) : option bytes :=
  if (cap <? 44)%nat then None else
  h ← ntc_sha256 (cstr verifier);
  t ← ntc_base64url_encode h cap;
  if (0 <? length t)%nat then Some t else None.

Example kv_evicts :
  let kv := ntc_kv_put (ntc_kv_put (ntc_kv_put (replicate 2 (Entry [] [] 0)) (bs "a") (bs "1") 1000)
              (bs "b") (bs "2") 2000) (bs "c") (bs "3") 3000 in
  (fst (ntc_kv_get kv (bs "a") 500 16), fst (ntc_kv_get kv (bs "b") 500 16), fst (ntc_kv_get kv (bs "c") 500 16)) =
  (None, Some (bs "2"), Some (bs "3")).
Proof. reflexivity. Qed.
Example pkce_rfc7636 :
  ntc_pkce_challenge (bs "dBjftJeZ4CVP-mB92K27uhbUJU1p1r_wW1gFWFOEjXk") 64 =
  Some (bs "E9Melhoa2OwvFrEMTJguCHaoeK1t8URWbuGJSstw-cM").
Proof. vm_compute. reflexivity. Qed.
Example cookie_1 : ntc_cookie_get (bs "a=1; ntc_sid=xyz;b=2") (bs "ntc_sid") 64 = Some (Some (bs "xyz")).
Proof. reflexivity. Qed.

(** ** The store as a map *)

(** The value and the expiry of a key. *)
Definition kv_view (kv : ntc_kvstore) (k : bytes) : option (bytes * Z) :=
  i ← kv_find kv k; e ← kv !! i; Some (kv_val e, kv_expiry e).

(** No two live entries have the same key. *)
Definition kv_unique (kv : ntc_kvstore) : Prop :=
  forall i j a b, kv !! i = Some a -> kv !! j = Some b -> kv_expiry a <> 0 -> kv_expiry b <> 0 ->
    kv_key a = kv_key b -> i = j.

(** The key that has to make room for a new one: none if the key is there or a slot is
    free, and else one whose entry is the first to expire. *)
Definition evicts (kv : ntc_kvstore) (k victim : bytes) : Prop :=
  kv_view kv k = None /\ Forall (fun e => kv_expiry e <> 0) kv /\
  exists v x, kv_view kv victim = Some (v, x) /\ Forall (fun e => x <= kv_expiry e) kv.

Lemma is_entry_true key e : is_entry key e = true <-> kv_expiry e <> 0 /\ kv_key e = key.
Proof. unfold is_entry. by rewrite andb_true_iff, negb_true_iff, Z.eqb_neq, memeq_true. Qed.

Lemma kv_find_Some kv k i :
  kv_find kv k = Some i -> exists e, kv !! i = Some e /\ kv_expiry e <> 0 /\ kv_key e = k.
Proof.
  revert i. induction kv as [|e kv IH]; intros i; cbn [kv_find]; [done|].
  destruct (is_entry k e) eqn:Ee.
  - intros [= <-]. apply is_entry_true in Ee. by exists e.
  - intros H. apply fmap_Some in H as (j & Hj & ->). by apply IH.
Qed.

Lemma kv_find_None kv k :
  kv_find kv k = None <-> Forall (fun e => kv_expiry e <> 0 -> kv_key e <> k) kv.
Proof.
  induction kv as [|e kv IH]; cbn [kv_find]; [split; [constructor|done]|].
  rewrite list.Forall_cons. destruct (is_entry k e) eqn:Ee.
  - split; [done|]. apply is_entry_true in Ee as [? ?]. intros [Hne _]. by destruct Hne.
  - rewrite fmap_None, IH. assert (~ (kv_expiry e <> 0 /\ kv_key e = k)); [|tauto].
    rewrite <- is_entry_true, Ee. done.
Qed.

(** Where keys are unique, the index found is the only one. *)
Lemma kv_find_unique kv k i e :
  kv_unique kv -> kv !! i = Some e -> kv_expiry e <> 0 -> kv_key e = k -> kv_find kv k = Some i.
Proof.
  intros Hu Hi Hx Hk. destruct (kv_find kv k) as [j|] eqn:Ef.
  - apply kv_find_Some in Ef as (e' & Hj & Hx' & Hk'). f_equal. eapply (Hu j i); eauto. congruence.
  - apply kv_find_None in Ef. rewrite Forall_lookup in Ef. by destruct (Ef i e Hi Hx).
Qed.

Lemma kv_view_Some kv k v x :
  kv_unique kv ->
  kv_view kv k = Some (v, x) <-> exists i e, kv !! i = Some e /\ kv_expiry e <> 0 /\ kv_key e = k /\ kv_val e = v /\ kv_expiry e = x.
Proof.
  intros Hu. unfold kv_view. split.
  - intros H. opt_inv. destruct (kv_find_Some _ _ _ H0) as (e & He & ? & ?). rewrite He in H1.
    simplify_eq. by exists x0, x1.
  - intros (i & e & Hi & Hx & Hk & <- & <-). rewrite (kv_find_unique kv k i e) by done. bind. by rewrite Hi.
Qed.

Lemma kv_view_None kv k : kv_view kv k = None <-> kv_find kv k = None.
Proof.
  unfold kv_view. destruct (kv_find kv k) as [i|] eqn:Ef; [|done]. bind.
  destruct (kv_find_Some _ _ _ Ef) as (e & -> & _). by bind.
Qed.

(** Writing one slot with an entry whose key no other slot has. *)
Lemma kv_write kv i old new :
  kv_unique kv -> kv !! i = Some old ->
  (forall j e, kv !! j = Some e -> kv_expiry e <> 0 -> kv_expiry new <> 0 -> kv_key e = kv_key new -> j = i) ->
  kv_unique (<[i := new]> kv) /\
  forall k, kv_view (<[i := new]> kv) k =
    if decide (kv_expiry new <> 0 /\ k = kv_key new) then Some (kv_val new, kv_expiry new)
    else if decide (kv_expiry old <> 0 /\ k = kv_key old) then None else kv_view kv k.
Proof.
  intros Hu Hi Hnew. pose proof (lookup_lt_Some _ _ _ Hi) as Hl.
  assert (kv_unique (<[i := new]> kv)) as Hu'.
  { intros a b x y Ha Hb Hx Hy Hk.
    rewrite list_lookup_insert_Some in Ha, Hb.
    destruct Ha as [(-> & <- & _)|[Hne Ha]], Hb as [(-> & <- & _)|[Hne' Hb]]; [done|..].
    - symmetry. by apply (Hnew b y).
    - by apply (Hnew a x).
    - by apply (Hu a b x y). }
  split; [done|]. intros k.
  assert (forall v x, kv_view (<[i := new]> kv) k = Some (v, x) <->
    (kv_expiry new <> 0 /\ kv_key new = k /\ kv_val new = v /\ kv_expiry new = x) \/
    exists j e, j <> i /\ kv !! j = Some e /\ kv_expiry e <> 0 /\ kv_key e = k /\ kv_val e = v /\ kv_expiry e = x) as Hv.
  { intros v x. rewrite kv_view_Some by done. split.
    - intros (j & e & Hj & H). destruct (decide (i = j)) as [->|Hne].
      + rewrite list_lookup_insert_eq in Hj by done. simplify_eq. by left.
      + rewrite list_lookup_insert_ne in Hj by done. right. by exists j, e.
    - intros [H|(j & e & Hne & Hj & H)].
      + exists i, new. by rewrite list_lookup_insert_eq.
      + exists j, e. by rewrite list_lookup_insert_ne. }
  case_decide as Hn; [destruct Hn as [Hx ->]; apply Hv; left; done|].
  case_decide as Ho.
  - destruct Ho as [Hx ->]. destruct (kv_view (<[i := new]> kv) (kv_key old)) as [[v x]|] eqn:E; [|done].
    destruct (proj1 (Hv v x) eq_refl) as [(? & ? & _)|(j & e & Hne & Hj & ? & Hk & _)]; [by destruct Hn|].
    exfalso. apply Hne. by apply (Hu j i e old).
  - destruct (kv_view kv k) as [[v x]|] eqn:E.
    + apply Hv. right. apply kv_view_Some in E as (j & e & Hj & ? & ? & ? & ?); [|done].
      exists j, e. split; [|done]. intros ->. simplify_eq. apply Ho. done.
    + destruct (kv_view (<[i := new]> kv) k) as [[v x]|] eqn:E'; [|done]. exfalso.
      destruct (proj1 (Hv v x) eq_refl) as [(? & ? & _)|(j & e & Hne & Hj & ? & ? & _)]; [by destruct Hn|].
      apply kv_view_None, kv_find_None in E. rewrite Forall_lookup in E. by apply (E j e).
Qed.

Lemma find_slot_spec kv : forall i v,
  match find_slot kv i v with
  | None => kv = [] /\ v = None
  | Some j =>
      (exists k e, j = (i + k)%nat /\ kv !! k = Some e /\ kv_expiry e = 0) \/
      (Forall (fun e => kv_expiry e <> 0) kv /\
       exists x, ((exists k e, j = (i + k)%nat /\ kv !! k = Some e /\ kv_expiry e = x) \/ v = Some (j, x)) /\
         Forall (fun e => x <= kv_expiry e) kv /\ (forall j' x', v = Some (j', x') -> x <= x'))
  end.
Proof.
  induction kv as [|e kv IH]; intros i v; cbn [find_slot].
  { destruct v as [[j x]|]; cbn [fmap option_fmap option_map fst]; [|done]. right. split; [constructor|].
    exists x. split; [by right|]. split; [constructor|]. by intros j' x' [= _ ->]. }
  destruct (Z.eqb_spec (kv_expiry e) 0) as [E0|E0].
  { left. exists 0%nat, e. split; [lia|done]. }
  set (v' := match v with None => _ | Some _ => _ end). specialize (IH (S i) v').
  assert (exists j0 x0, v' = Some (j0, x0) /\ x0 <= kv_expiry e /\ (forall j' x', v = Some (j', x') -> x0 <= x') /\
    (v = Some (j0, x0) \/ (j0 = i /\ x0 = kv_expiry e))) as (j0 & x0 & Ev & Hle & Hv & Hor).
  { unfold v'. destruct v as [[j x]|].
    - destruct (Z.ltb_spec (kv_expiry e) x).
      + exists i, (kv_expiry e). split; [done|]. split; [lia|]. split; [|by right]. intros j' x' [= _ <-]. lia.
      + exists j, x. split; [done|]. split; [lia|]. split; [|by left]. intros j' x' [= _ <-]. lia.
    - exists i, (kv_expiry e). split; [done|]. split; [lia|]. split; [done|by right]. }
  destruct (find_slot kv (S i) v') as [j|]; [|by destruct IH as [_ IH]; rewrite IH in Ev].
  destruct IH as [(k & e' & -> & Hk & He')|(Hall & x & Hx & Hmin & Hlow)].
  - left. exists (S k), e'. split; [lia|done].
  - right. split; [by constructor|]. pose proof (Hlow _ _ Ev) as Hxx. exists x. split; [|split].
    + destruct Hx as [(k & e' & -> & Hk & He')|Hx].
      * left. exists (S k), e'. split; [lia|done].
      * rewrite Ev in Hx. injection Hx as <- <-. destruct Hor as [?|[-> ->]]; [by right|].
        left. exists 0%nat, e. split; [lia|done].
    + constructor; [lia|done].
    + intros j' x' Hj. specialize (Hv _ _ Hj). lia.
Qed.

Lemma kv_put_spec kv k v x :
  kv_unique kv -> kv <> [] -> (length k < NTC_KV_KEYLEN)%nat -> (length v < NTC_KV_VALLEN)%nat ->
  let kv' := ntc_kv_put kv k v x in
  kv_unique kv' /\ length kv' = length kv /\ kv_view kv' k = Some (v, if x =? 0 then 1 else x) /\
  forall k', k' <> k -> kv_view kv' k' = kv_view kv k' \/ (kv_view kv' k' = None /\ evicts kv k k').
Proof.
  intros Hu Hne Hk Hv. unfold ntc_kv_put.
  rewrite (proj2 (Nat.leb_gt _ _) Hk), (proj2 (Nat.leb_gt _ _) Hv). cbn [orb].
  rewrite !snprintf_fits by done. set (new := Entry k v _).
  assert (kv_expiry new <> 0) as Hnew by (unfold new; cbn; case_match; lia).
  destruct (kv_find kv k) as [i|] eqn:Ef.
  - destruct (kv_find_Some _ _ _ Ef) as (old & Hi & Hx & Hk').
    destruct (kv_write kv i old new Hu Hi) as [Hu' Hview].
    { intros j e Hj Hxe _ Hke. apply (Hu j i e old); [done..|]. by rewrite Hke. }
    cbv zeta. split; [done|]. split; [apply length_insert|]. rewrite Hview. split; [by rewrite decide_True|].
    intros k' Hk2. left. rewrite Hview, decide_False by (intros [_ ?]; done).
    rewrite decide_False; [done|]. intros [_ ->]. done.
  - pose proof (find_slot_spec kv 0 None) as Hs. destruct (find_slot kv 0 None) as [i|]; [|by destruct Hs].
    assert (exists old, kv !! i = Some old) as [old Hi].
    { destruct Hs as [(n & e & -> & He & _)|(_ & y & [(n & e & -> & He & _)|?] & _)]; [by exists e..|done]. }
    destruct (kv_write kv i old new Hu Hi) as [Hu' Hview].
    { intros j e Hj Hxe _ Hke. apply kv_find_None in Ef. rewrite Forall_lookup in Ef. by destruct (Ef j e Hj Hxe). }
    cbv zeta. split; [done|]. split; [apply length_insert|]. rewrite Hview. split; [by rewrite decide_True|].
    intros k' Hk2. rewrite Hview, decide_False by (intros [_ ?]; done).
    destruct (decide (kv_expiry old <> 0 /\ k' = kv_key old)) as [[Hox ->]|Ho]; [|by left]. right. split; [done|].
    destruct Hs as [(n & e & -> & He & He0)|(Hall & y & Hy & Hmin & _)]; [cbn in Hi; simplify_eq|].
    split; [by apply kv_view_None|]. split; [done|].
    destruct Hy as [(n & e & -> & He & <-)|]; [|done]. cbn in Hi. rewrite Hi in He. injection He as ->.
    exists (kv_val e), (kv_expiry e). split; [|done]. apply kv_view_Some; [done|]. by exists n, e.
Qed.

Lemma kv_get_spec kv k now cap :
  kv_unique kv ->
  let '(r, kv') := ntc_kv_get kv k now cap in
  kv_unique kv' /\ length kv' = length kv /\
  match kv_view kv k with
  | None => r = None /\ kv' = kv
  | Some (v, x) =>
      if (0 <? now) && (x <=? now) then r = None /\ kv_view kv' k = None /\ forall k', k' <> k -> kv_view kv' k' = kv_view kv k'
      else r = Some (snprintf cap v) /\ kv' = kv
  end.
Proof.
  intros Hu. unfold ntc_kv_get, kv_view at 1. destruct (kv_find kv k) as [i|] eqn:Ef; [|done]. bind.
  destruct (kv_find_Some _ _ _ Ef) as (e & Hi & Hx & Hk). rewrite Hi. bind.
  destruct (_ && _); [|done].
  destruct (kv_write kv i e (Entry (kv_key e) (kv_val e) 0) Hu Hi) as [Hu' Hview]; [done|].
  split; [done|]. split; [apply length_insert|]. split; [done|]. split.
  - rewrite Hview. cbn. rewrite decide_False by (intros [? _]; done). by rewrite decide_True.
  - intros k' Hk'. rewrite Hview. cbn. rewrite decide_False by (intros [? _]; done).
    rewrite decide_False; [done|]. intros [_ ->]. done.
Qed.

Lemma kv_del_spec kv k :
  kv_unique kv ->
  kv_unique (ntc_kv_del kv k) /\ length (ntc_kv_del kv k) = length kv /\
  forall k', kv_view (ntc_kv_del kv k) k' = if decide (k' = k) then None else kv_view kv k'.
Proof.
  intros Hu. unfold ntc_kv_del. destruct (kv_find kv k) as [i|] eqn:Ef.
  - destruct (kv_find_Some _ _ _ Ef) as (e & Hi & Hx & Hk).
    destruct (kv_write kv i e (Entry [] [] 0) Hu Hi) as [Hu' Hview]; [done|].
    split; [done|]. split; [apply length_insert|]. intros k'. rewrite Hview. cbn.
    rewrite decide_False by (intros [? _]; done). subst k. apply decide_ext. naive_solver.
  - split; [done|]. split; [done|]. intros k'. case_decide; [subst|done]. by apply kv_view_None.
Qed.

Definition kv_wf (kv : ntc_kvstore) : Prop := kv <> [] /\ kv_unique kv.

(** C33. The session store is a map with expiry.  From the empty store it is created as,
    every operation keeps it well formed: putting a key makes it readable until its expiry
    and takes away at most one other key, and that only when no slot is free and it is the
    first to expire; a get returns the value exactly while it has not expired, and removes
    nothing but an expired key; a delete removes that key alone.  (A key or a value that
    does not fit its array is not stored at all.) *)
Theorem kv_store_correct kv :
  kv_wf kv ->
  (forall k v x, let kv' := ntc_kv_put kv k v x in
     kv_wf kv' /\
     (if decide (length k < 96 /\ length v < 1024)%nat then
        kv_view kv' k = Some (v, if x =? 0 then 1 else x) /\
        forall k', k' <> k -> kv_view kv' k' = kv_view kv k' \/ (kv_view kv' k' = None /\ evicts kv k k')
      else kv' = kv)) /\
  (forall k now cap, let '(r, kv') := ntc_kv_get kv k now cap in
     kv_wf kv' /\
     match kv_view kv k with
     | None => r = None /\ kv' = kv
     | Some (v, x) =>
         if (0 <? now) && (x <=? now)
         then r = None /\ kv_view kv' k = None /\ forall k', k' <> k -> kv_view kv' k' = kv_view kv k'
         else r = Some (snprintf cap v) /\ kv' = kv
     end) /\
  (forall k, kv_wf (ntc_kv_del kv k) /\
     forall k', kv_view (ntc_kv_del kv k) k' = if decide (k' = k) then None else kv_view kv k').
Proof.
  intros [Hne Hu].
  assert (forall kv' : ntc_kvstore, length kv' = length kv -> kv' <> []) as Hlen.
  { intros kv' Hl ->. by destruct kv. }
  split; [|split].
  - intros k v x. cbv zeta. case_decide as Hfit.
    + destruct (kv_put_spec kv k v x Hu Hne) as (Hu' & Hl & Hv & Ho); [apply Hfit|apply Hfit|].
      split; [split; [by apply Hlen|done]|done].
    + assert (ntc_kv_put kv k v x = kv) as ->; [|by split].
      unfold ntc_kv_put, NTC_KV_KEYLEN, NTC_KV_VALLEN.
      destruct (Nat.leb_spec 96 (length k)); [done|]. destruct (Nat.leb_spec 1024 (length v)); [done|lia].
  - intros k now cap. pose proof (kv_get_spec kv k now cap Hu) as H.
    destruct (ntc_kv_get kv k now cap) as [r kv']. destruct H as (Hu' & Hl & H).
    split; [split; [by apply Hlen|done]|done].
  - intros k. destruct (kv_del_spec kv k Hu) as (Hu' & Hl & H).
    split; [split; [by apply Hlen|done]|done].
Qed.

Theorem kv_store_correct_witness :
  let kv := [Entry (bs "a") (bs "1") 1000; Entry (bs "b") (bs "2") 2000] in
  let kv' := ntc_kv_put kv (bs "c") (bs "3") 3000 in
  kv_view kv' (bs "c") = Some (bs "3", 3000) /\ kv_wf kv'.
Proof.
  cbv zeta. pose proof (kv_store_correct [Entry (bs "a") (bs "1") 1000; Entry (bs "b") (bs "2") 2000]) as H.
  destruct H as (H & _ & _).
  - split; [done|]. intros [|[|i]] [|[|j]] a b Ha Hb _ _; cbn in Ha, Hb; try done; injection Ha as <-; injection Hb as <-; done.
  - specialize (H (bs "c") (bs "3") 3000). cbv zeta in H. destruct H as [Hwf H]. split; [|exact Hwf]. apply H.
Defined.

(** ** The cookie header *)

Definition cookie_text (p : bytes * bytes) : bytes := fst p ++ 61 :: snd p.

(** A header as browsers send it: [n=v] pairs, separated by a semicolon and a space. *)
Fixpoint cookies_text (ps : list (bytes * bytes)) : bytes :=
  match ps with [] => [] | [p] => cookie_text p | p :: ps => cookie_text p ++ bs "; " ++ cookies_text ps end.

Fixpoint assoc (ps : list (bytes * bytes)) (name : bytes) : option bytes :=
  match ps with [] => None | (n, v) :: ps => if decide (n = name) then Some v else assoc ps name end.

(** Names are not empty and have no separator; values have no semicolon. *)
Definition cookie_name (n : bytes) : Prop := n <> [] /\ (61 ∉ n) /\ (59 ∉ n) /\ (32 ∉ n).
Definition cookie_ok (p : bytes * bytes) : Prop := cookie_name (fst p) /\ (59 ∉ snd p).

Lemma until_semi_app a b : (59 ∉ a) -> (b = [] \/ exists t, b = 59 :: t) -> until_semi (a ++ b) = (a, b).
Proof.
  intros Ha Hb. induction a as [|c a IH]; cbn [app until_semi].
  - destruct Hb as [->|[t ->]]; done.
  - apply not_elem_of_cons in Ha as [Hc Ha]. rewrite (proj2 (Z.eqb_neq c 59)) by congruence. by rewrite IH.
Qed.

Lemma skip_sep_id n t : cookie_name n -> skip_sep (n ++ t) = n ++ t.
Proof.
  intros (Hne & _ & Hs & Hsp). destruct n as [|c n]; [done|]. cbn [app skip_sep].
  apply not_elem_of_cons in Hs as [Hs _]. apply not_elem_of_cons in Hsp as [Hsp _].
  rewrite (proj2 (Z.eqb_neq c 32)), (proj2 (Z.eqb_neq c 59)) by congruence. done.
Qed.

(** The test at the start of a pair succeeds only for its own name. *)
Lemma cookie_match n v rest name :
  (61 ∉ n) -> (61 ∉ name) ->
  memeq (take (length name) (n ++ 61 :: v ++ rest)) name &&
    (match drop (length name) (n ++ 61 :: v ++ rest) with c :: _ => c =? 61 | [] => false end) =
  bool_decide (n = name).
Proof.
  intros Hn Hname. case_bool_decide as E.
  - subst. rewrite take_app_length, drop_app_length. unfold memeq. by rewrite bool_decide_true.
  - apply andb_false_iff. unfold memeq. case_bool_decide as Et; [right|by left].
    destruct (drop (length name) (n ++ 61 :: v ++ rest)) as [|c t] eqn:Ed; [done|].
    apply Z.eqb_neq. intros ->. apply E.
    assert (n ++ 61 :: v ++ rest = name ++ 61 :: t) as Eq by (by rewrite <- Et, <- Ed, take_drop).
    pose proof (f_equal (memchr 61) Eq) as Hm. rewrite !memchr_app in Hm by done. injection Hm as Hl.
    rewrite <- Et, <- Hl. by rewrite take_app_length.
Qed.

Lemma cookie_loop_text ps : forall fuel name cap sep,
  Forall cookie_ok ps -> (61 ∉ name) -> (0 < cap)%nat -> (sep = [] \/ sep = bs "; ") ->
  (length (match ps with [] => [] | _ => sep ++ cookies_text ps end) < fuel)%nat ->
  cookie_loop fuel (match ps with [] => [] | _ => sep ++ cookies_text ps end) name cap =
  Some (snprintf cap <$> assoc ps name).
Proof.
  induction ps as [|[n v] ps IH]; intros fuel name cap sep Hok Hname Hcap Hsep Hf;
    (destruct fuel as [|f]; [lia|]); [done|].
  apply Forall_cons_1 in Hok as [[Hn Hv] Hok]. cbn [fst snd] in *.
  set (rest := match ps with [] => [] | _ => bs "; " ++ cookies_text ps end).
  assert (cookies_text ((n, v) :: ps) = n ++ 61 :: v ++ rest) as Et.
  { unfold rest. cbn [cookies_text]. unfold cookie_text. cbn [fst snd].
    destruct ps; [by rewrite app_nil_r|by rewrite <- app_assoc]. }
  rewrite Et in *. cbn [cookie_loop].
  assert (skip_sep (sep ++ n ++ 61 :: v ++ rest) = n ++ 61 :: v ++ rest) as Es.
  { destruct Hsep as [->| ->]; exact (skip_sep_id n (61 :: v ++ rest) Hn). }
  destruct (sep ++ n ++ 61 :: v ++ rest) as [|c0 t0] eqn:E0.
  { destruct Hn as [Hne _]. destruct sep, n; done. }
  rewrite Es, cookie_match by (done || apply Hn). cbn [assoc].
  assert (until_semi (v ++ rest) = (v, rest)) as Hu.
  { apply until_semi_app; [done|]. unfold rest. destruct ps; [by left|right; by eexists]. }
  destruct (bool_decide (n = name)) eqn:Eb.
  - apply bool_decide_eq_true in Eb as ->. rewrite decide_True by done.
    change (name ++ 61 :: v ++ rest) with (name ++ [61] ++ v ++ rest). rewrite app_assoc.
    replace (S (length name)) with (length (name ++ [61])) by (rewrite length_app; simpl; lia).
    rewrite drop_app_length, Hu. rewrite (proj2 (Nat.eqb_neq cap 0)) by lia. cbn [fmap option_fmap option_map].
    do 2 f_equal. unfold snprintf. destruct (Nat.leb_spec cap (length v)); [done|].
    rewrite !take_ge by lia. done.
  - apply bool_decide_eq_false in Eb. rewrite decide_False by done.
    assert (until_semi (n ++ 61 :: v ++ rest) = (n ++ 61 :: v, rest)) as ->.
    { change (n ++ 61 :: v ++ rest) with (n ++ (61 :: v) ++ rest). rewrite app_assoc. apply until_semi_app.
      - rewrite not_elem_of_app, not_elem_of_cons. split; [apply Hn|done].
      - unfold rest. destruct ps; [by left|right; by eexists]. }
    cbn [snd]. unfold rest. apply (IH f name cap (bs "; ")); [done|done|done|by right|].
    assert (length (n ++ 61%Z :: v ++ rest) <= length (c0 :: t0))%nat as Hl1.
    { rewrite <- E0, (length_app sep). lia. }
    assert (length rest < length (n ++ 61%Z :: v ++ rest))%nat as Hl2.
    { rewrite length_app. cbn [length]. rewrite length_app. lia. }
    fold rest. lia.
Qed.

(** Reading a cookie.  In a header of [n=v] pairs separated as browsers do,
    [ntc_cookie_get] finds exactly the first pair of the given name, and copies its value
    (cut to the buffer); it never runs past the string or the buffer. *)
Theorem cookie_get_correct ps name cap :
  Forall cookie_ok ps -> (61 ∉ name) -> (0 < cap)%nat ->
  ntc_cookie_get (cookies_text ps) name cap = Some (snprintf cap <$> assoc ps name).
Proof.
  intros Hok Hn Hc. pose proof (cookie_loop_text ps (S (length (cookies_text ps))) name cap [] Hok Hn Hc) as H.
  unfold ntc_cookie_get. destruct ps; [done|]. apply H; [by left|simpl; lia].
Qed.

Theorem cookie_get_correct_witness :
  ntc_cookie_get (cookies_text [(bs "a", bs "1"); (bs "ntc_sid", bs "xyz"); (bs "b", [])]) (bs "ntc_sid") 64 =
  Some (Some (bs "xyz")).
Proof.
  apply (cookie_get_correct [(bs "a", bs "1"); (bs "ntc_sid", bs "xyz"); (bs "b", [])] (bs "ntc_sid") 64); [|..|lia].
  - repeat constructor; apply (bool_decide_unpack _); vm_compute; exact I.
  - apply (bool_decide_unpack _). vm_compute. exact I.
Defined.
