(* ===== verification/Http.v ===== *)
(** * HTTP data and response serialization (include/ntc/http.h, src/common/http.c) *)
From S2P Require Import Prelude Err Slice.
Open Scope Z_scope.

(** http.h:12-12 [NTC_MAX_HEADERS] *)
Definition NTC_MAX_HEADERS : nat := 64.
(** http.h:13-13 [NTC_MAX_PARAMS] *)
Definition NTC_MAX_PARAMS : nat := 8.

(** http.h:15-18 [ntc_header] *)
Record ntc_header := Header { h_name : ntc_slice; h_value : ntc_slice }.

(** http.h:20-35 [ntc_request]. [headers] and [params] are the used prefixes of the
    fixed arrays, so [nheaders] and [nparams] are their lengths. *)
Record ntc_request := Request {
  method : ntc_slice; target : ntc_slice; path : ntc_slice; query : ntc_slice;
  minor_version : Z;
  headers : list ntc_header;
  params : list ntc_header;
  auth_sub : ntc_slice; auth_scope : ntc_slice;
  has_content_length : bool; content_length : Z;
  body : ntc_slice }.

#[export] Instance ntc_header_eq_dec : EqDecision ntc_header.
Proof. solve_decision. Defined.
#[export] Instance ntc_request_eq_dec : EqDecision ntc_request.
Proof. solve_decision. Defined.

(** http_request.c:62-62 [ntc_http_parse_request]. What [memset(req, 0, sizeof *req)] leaves. *)
Definition zero_request : ntc_request :=
  Request [] [] [] [] 0 [] [] [] [] false 0 [].

(** http.h:44-50 [ntc_response]. [res_headers] is the used prefix of the 512-byte array. *)
Record ntc_response := Response {
  res_status : Z; res_content_type : ntc_slice; res_body : ntc_slice; res_headers : bytes }.

(** version.h:4-5 [NTC_NAME, NTC_VERSION] *)
Definition NTC_NAME : bytes := bs "naitron-c".
Definition NTC_VERSION : bytes := bs "0.0.1".

(** http.c:7-25 [ntc_http_status_text] *)
Definition ntc_http_status_text (status : Z) : bytes :=
  match status with
  | 200 => bs "OK"
  | 201 => bs "Created"
  | 204 => bs "No Content"
  | 400 => bs "Bad Request"
  | 401 => bs "Unauthorized"
  | 403 => bs "Forbidden"
  | 404 => bs "Not Found"
  | 405 => bs "Method Not Allowed"
  | 413 => bs "Payload Too Large"
  | 431 => bs "Request Header Fields Too Large"
  | 500 => bs "Internal Server Error"
  | 502 => bs "Bad Gateway"
  | 503 => bs "Service Unavailable"
  | 504 => bs "Gateway Timeout"
  | _ => bs "OK"
  end.

(** http.c:39-50 [ntc_http_format_response_ex, header format]. [%.*s] stops at a NUL. *)
Definition response_header (status : Z) (status_text : bytes) (content_type : ntc_slice)
    (extra_headers : option bytes) (blen : nat) : bytes :=
  bs "HTTP/1.1 " ++ fmt_d status ++ bs " " ++ status_text ++ crlf ++
  bs "Server: " ++ NTC_NAME ++ bs "/" ++ NTC_VERSION ++ crlf ++
  bs "Content-Type: " ++ cstr content_type ++ crlf ++
  bs "Content-Length: " ++ fmt_u (Z.of_nat blen) ++ crlf ++
  bs "Connection: close" ++ crlf ++
  default [] extra_headers ++
  crlf.

(** http.c:33-65 [ntc_http_format_response_ex]. [arena_ok] says whether the arena had
    room for the copy; the text pointers are never NULL in this model. *)
Definition ntc_http_format_response_ex (arena_ok : bool) (status : Z) (status_text : bytes)
    (content_type : ntc_slice) (extra_headers : option bytes) (body : ntc_slice)
    : ntc_err * ntc_slice :=
  let header := response_header status status_text content_type extra_headers (length body) in
  let n := length header in
  if (1024 <=? n)%nat then (NTC_ERR_OVERFLOW, []) else
  let '(e, total) := ntc_size_add (Z.of_nat n) (Z.of_nat (length body)) in
  if decide (e <> NTC_OK) then (e, []) else
  if negb arena_ok then (NTC_ERR_OOM, []) else
  (NTC_OK, header ++ body).

(** http.c:27-31 [ntc_http_format_response] *)
Definition ntc_http_format_response (arena_ok : bool) (status : Z) (status_text : bytes)
    (content_type body : ntc_slice) : ntc_err * ntc_slice :=
  ntc_http_format_response_ex arena_ok status status_text content_type None body.

(** http.c:72-97 [ntc_http_format_stream_head, header format] *)
Definition stream_header (status : Z) (status_text : bytes) (content_type : ntc_slice)
    (sse : bool) (extra_headers : option bytes) : bytes :=
  if sse then
    bs "HTTP/1.1 " ++ fmt_d status ++ bs " " ++ status_text ++ crlf ++
    bs "Server: " ++ NTC_NAME ++ bs "/" ++ NTC_VERSION ++ crlf ++
    bs "Content-Type: text/event-stream" ++ crlf ++
    bs "Cache-Control: no-cache" ++ crlf ++
    bs "Connection: close" ++ crlf ++
    default [] extra_headers ++ crlf
  else
    bs "HTTP/1.1 " ++ fmt_d status ++ bs " " ++ status_text ++ crlf ++
    bs "Server: " ++ NTC_NAME ++ bs "/" ++ NTC_VERSION ++ crlf ++
    bs "Content-Type: " ++ cstr content_type ++ crlf ++
    bs "Transfer-Encoding: chunked" ++ crlf ++
    bs "Connection: close" ++ crlf ++
    default [] extra_headers ++ crlf.

(** http.c:67-106 [ntc_http_format_stream_head] *)
Definition ntc_http_format_stream_head (arena_ok : bool) (status : Z) (status_text : bytes)
    (content_type : ntc_slice) (sse : bool) (extra_headers : option bytes)
    : ntc_err * ntc_slice :=
  let header := stream_header status status_text content_type sse extra_headers in
  if (1024 <=? length header)%nat then (NTC_ERR_OVERFLOW, []) else
  if negb arena_ok then (NTC_ERR_OOM, []) else
  (NTC_OK, header).

Example format_204 :
  ntc_http_format_response true 204 (bs "No Content") (bs "text/plain") [] =
  (NTC_OK,
   bs "HTTP/1.1 204 No Content" ++ crlf ++ bs "Server: naitron-c/0.0.1" ++ crlf ++
   bs "Content-Type: text/plain" ++ crlf ++ bs "Content-Length: 0" ++ crlf ++
   bs "Connection: close" ++ crlf ++ crlf).
Proof. vm_compute. reflexivity. Qed.
