(* ===== verification/Wire.v ===== *)
(** * The IPC wire format (include/ntc/wire.h, src/common/wire.c)

    The gateway and the controllers exchange frames: a 16-byte big-endian header and a
    payload.  Writers fill a caller's buffer through [wbuf], which refuses to go past its
    capacity; readers walk a received buffer through [rbuf].  Every access to a buffer is
    a [mem_write] or a lookup that is [None] outside it. *)
From S2P Require Import Prelude Err Slice Http.
Open Scope Z_scope.

(** ** Big-endian primitives *)

(** wire.c:6-6 [put_u16] *)
Definition put_u16 (v : Z) : bytes := [u8 (v ≫ 8); u8 v].

(** wire.c:7-10 [put_u32] *)
Definition put_u32 (v : Z) : bytes := [u8 (v ≫ 24); u8 (v ≫ 16); u8 (v ≫ 8); u8 v].

(** wire.c:11-11 [get_u16] *)
Definition get_u16 (p : bytes) (i : nat) : option Z :=
  a ← p !! i; b ← p !! (i + 1)%nat; Some (u16 (Z.lor (a ≪ 8) b)).

(** wire.c:12-15 [get_u32] *)
Definition get_u32 (p : bytes) (i : nat) : option Z :=
  a ← p !! i; b ← p !! (i + 1)%nat; c ← p !! (i + 2)%nat; d ← p !! (i + 3)%nat;
  Some (Z.lor (Z.lor (Z.lor (u32 (a ≪ 24)) (b ≪ 16)) (c ≪ 8)) d).

(** ** The bounded writer *)

(** wire.c:18-18 [wbuf] *)
Record wbuf := WBuf { w_p : bytes; w_cap : nat; w_off : nat; w_err : bool }.

(** wire.c:19-19 [w_need] *)
Definition w_need (w : wbuf) (n : nat) : wbuf :=
  if (w_cap w <? w_off w + n)%nat then WBuf (w_p w) (w_cap w) (w_off w) true else w.

(** wire.c:20-22 [w_u8]. The store and the advance every [w_] operation makes under its
    [!w->err] test. *)
Definition w_store (w : wbuf) (d : bytes) : option wbuf :=
  if w_err w then Some w else
  p ← mem_write (w_p w) (w_off w) d;
  Some (WBuf p (w_cap w) (w_off w + length d) false).

(** wire.c:20-20 [w_u8] *)
Definition w_u8 (w : wbuf) (v : Z) : option wbuf := w_store (w_need w 1) [u8 v].
(** wire.c:21-21 [w_u16] *)
Definition w_u16 (w : wbuf) (v : Z) : option wbuf := w_store (w_need w 2) (put_u16 v).
(** wire.c:22-22 [w_u32] *)
Definition w_u32 (w : wbuf) (v : Z) : option wbuf := w_store (w_need w 4) (put_u32 v).
(** wire.c:23-26 [w_bytes]. With [n = 0] nothing is stored. *)
Definition w_bytes (w : wbuf) (s : bytes) : option wbuf :=
  let w := w_need w (length s) in
  if (length s =? 0)%nat then Some w else w_store w s.

(** wire.c:27-31 [w_slice16] *)
Definition w_slice16 (w : wbuf) (s : ntc_slice) : option wbuf :=
  if (0xFFFF <? Z.of_nat (length s)) then Some (WBuf (w_p w) (w_cap w) (w_off w) true) else
  w ← w_u16 w (u16 (Z.of_nat (length s)));
  w_bytes w s.

(** wire.c:121-121 [ntc_wire_encode_request, return]. The [ssize_t] every encoder returns,
    with the buffer it leaves. *)
Definition w_result (w : wbuf) : bytes * Z :=
  (w_p w, if w_err w then -1 else Z.of_nat (w_off w)).

(** ** The bounded reader *)

(** wire.c:34-34 [rbuf] *)
Record rbuf := RBuf { r_p : bytes; r_len : nat; r_off : nat; r_err : bool }.

(** wire.c:35-35 [r_u8]. The two ways a read ends: the error flag, or an advance. *)
Definition r_fail (r : rbuf) : rbuf := RBuf (r_p r) (r_len r) (r_off r) true.
Definition r_advance (r : rbuf) (n : nat) : rbuf := RBuf (r_p r) (r_len r) (r_off r + n) (r_err r).

(** wire.c:35-35 [r_u8] *)
Definition r_u8 (r : rbuf) : option (Z * rbuf) :=
  if (r_len r <? r_off r + 1)%nat then Some (0, r_fail r) else
  v ← r_p r !! r_off r; Some (v, r_advance r 1).

(** wire.c:36-36 [r_u16] *)
Definition r_u16 (r : rbuf) : option (Z * rbuf) :=
  if (r_len r <? r_off r + 2)%nat then Some (0, r_fail r) else
  v ← get_u16 (r_p r) (r_off r); Some (v, r_advance r 2).

(** wire.c:37-37 [r_u32] *)
Definition r_u32 (r : rbuf) : option (Z * rbuf) :=
  if (r_len r <? r_off r + 4)%nat then Some (0, r_fail r) else
  v ← get_u32 (r_p r) (r_off r); Some (v, r_advance r 4).

(** wire.c:38-44 [r_slice16] *)
Definition r_slice16 (r : rbuf) : option (ntc_slice * rbuf) :=
  '(n, r) ← r_u16 r;
  if r_err r || (Z.of_nat (r_len r) <? Z.of_nat (r_off r) + n) then Some ([], r_fail r) else
  s ← mem_range (r_p r) (r_off r) (Z.to_nat n);
  Some (s, r_advance r (Z.to_nat n)).

(** wire.c:45-51 [r_slice32] *)
Definition r_slice32 (r : rbuf) : option (ntc_slice * rbuf) :=
  '(n, r) ← r_u32 r;
  if r_err r || (Z.of_nat (r_len r) <? Z.of_nat (r_off r) + n) then Some ([], r_fail r) else
  s ← mem_range (r_p r) (r_off r) (Z.to_nat n);
  Some (s, r_advance r (Z.to_nat n)).

(** ** Framing *)

(** wire.h:17-17 [NTC_WIRE_MAGIC] *)
Definition NTC_WIRE_MAGIC : Z := 0x4E544331.
(** wire.h:22-24 [NTC_WIRE_VERSION] *)
Definition NTC_WIRE_VERSION : Z := 2.
Definition NTC_WIRE_VERSION_MAX : Z := 3.
Definition NTC_WIRE_HEADER_LEN : nat := 16.

(** wire.h:26-39 [ntc_msg_type] *)
Definition NTC_MSG_HELLO : Z := 1.
Definition NTC_MSG_WELCOME : Z := 2.
Definition NTC_MSG_REQUEST : Z := 3.
Definition NTC_MSG_RESPONSE : Z := 4.
Definition NTC_MSG_PING : Z := 5.
Definition NTC_MSG_PONG : Z := 6.
Definition NTC_MSG_RESPONSE_BEGIN : Z := 7.
Definition NTC_MSG_RESPONSE_CHUNK : Z := 8.
Definition NTC_MSG_RESPONSE_END : Z := 9.
Definition NTC_MSG_WS_OPEN : Z := 10.
Definition NTC_MSG_WS_MSG : Z := 11.
Definition NTC_MSG_WS_CLOSE : Z := 12.

(** wire.h:42-43 [NTC_STREAM_FLAG] *)
Definition NTC_STREAM_FLAG_SSE : Z := 0x01.
Definition NTC_STREAM_FLAG_CHUNKED : Z := 0x02.

(** wire.h:45-50 [ntc_wire_header] *)
Record ntc_wire_header := WireHeader {
  wh_version : Z; wh_type : Z; wh_request_id : Z; wh_length : Z }.

(** wire.c:54-63 [ntc_wire_write_header]. The 16 bytes it stores. *)
Definition ntc_wire_write_header (type request_id payload_len : Z) : bytes :=
  put_u32 NTC_WIRE_MAGIC ++ [NTC_WIRE_VERSION; u8 type; 0; 0] ++
  put_u32 request_id ++ put_u32 payload_len.

(** wire.c:68-70 [version_ok] *)
Definition version_ok (v : Z) : bool := (NTC_WIRE_VERSION <=? v) && (v <=? NTC_WIRE_VERSION_MAX).

(** wire.c:72-81 [ntc_wire_parse_header] *)
Definition ntc_wire_parse_header (buf : bytes) : option (option ntc_wire_header) :=
  m ← get_u32 buf 0;
  if negb (m =? NTC_WIRE_MAGIC) then Some None else
  v ← buf !! 4%nat;
  if negb (version_ok v) then Some None else
  t ← buf !! 5%nat;
  rid ← get_u32 buf 8;
  len ← get_u32 buf 12;
  Some (Some (WireHeader v t rid len)).

(** wire.h:59-62 [ntc_wire_read_frame]. Its three results: -1, 0, and 1 with what it
    stores. *)
Inductive read_frame_result :=
  | FrameMalformed
  | FrameIncomplete
  | FrameOk (hdr : ntc_wire_header) (payload : bytes) (consumed : nat).

(** wire.c:83-97 [ntc_wire_read_frame] *)
Definition ntc_wire_read_frame (buf : bytes) : option read_frame_result :=
  let len := length buf in
  if (len <? NTC_WIRE_HEADER_LEN)%nat then Some FrameIncomplete else
  m ← get_u32 buf 0;
  if negb (m =? NTC_WIRE_MAGIC) then Some FrameMalformed else
  v ← buf !! 4%nat;
  if negb (version_ok v) then Some FrameMalformed else
  plen ← get_u32 buf 12;
  if (Z.of_nat len <? Z.of_nat NTC_WIRE_HEADER_LEN + plen) then Some FrameIncomplete else
  t ← buf !! 5%nat;
  rid ← get_u32 buf 8;
  payload ← mem_range buf NTC_WIRE_HEADER_LEN (Z.to_nat plen);
  Some (FrameOk (WireHeader v t rid plen) payload (NTC_WIRE_HEADER_LEN + Z.to_nat plen)).

(** ** Payloads *)

(** wire.c:107-110 [ntc_wire_encode_request, header loop] *)
Fixpoint w_headers (w : wbuf) (hs : list ntc_header) : option wbuf :=
  match hs with
  | [] => Some w
  | h :: hs =>
      w ← w_slice16 w (h_name h);
      w ← w_slice16 w (h_value h);
      w_headers w hs
  end.

(** wire.c:100-122 [ntc_wire_encode_request]. [out] is the caller's buffer, of [cap] bytes. *)
Definition ntc_wire_encode_request (req : ntc_request) (out : bytes) (cap : nat)
    : option (bytes * Z) :=
  let w := WBuf out cap 0 false in
  w ← w_slice16 w (method req);
  w ← w_slice16 w (path req);
  w ← w_slice16 w (query req);
  let hs := take NTC_MAX_HEADERS (headers req) in
  w ← w_u16 w (u16 (Z.of_nat (length hs)));
  w ← w_headers w hs;
  let ps := take NTC_MAX_PARAMS (params req) in
  w ← w_u16 w (u16 (Z.of_nat (length ps)));
  w ← w_headers w ps;
  w ← w_slice16 w (auth_sub req);
  w ← w_slice16 w (auth_scope req);
  w ← w_u32 w (u32 (Z.of_nat (length (body req))));
  w ← w_bytes w (body req);
  Some (w_result w).

(** wire.c:134-137 [ntc_wire_decode_request, header loop] *)
Fixpoint r_headers (n : nat) (r : rbuf) : option (list ntc_header * rbuf) :=
  match n with
  | O => Some ([], r)
  | S n =>
      '(name, r) ← r_slice16 r;
      '(value, r) ← r_slice16 r;
      '(hs, r) ← r_headers n r;
      Some (Header name value :: hs, r)
  end.

(** wire.c:124-152 [ntc_wire_decode_request]. [None] inside is the [false] result. *)
Definition ntc_wire_decode_request (buf : bytes) : option (option ntc_request) :=
  let r := RBuf buf (length buf) 0 false in
  '(method, r) ← r_slice16 r;
  '(path, r) ← r_slice16 r;
  '(query, r) ← r_slice16 r;
  '(nh, r) ← r_u16 r;
  if (Z.of_nat NTC_MAX_HEADERS <? nh) then Some None else
  '(headers, r) ← r_headers (Z.to_nat nh) r;
  '(np, r) ← r_u16 r;
  if (Z.of_nat NTC_MAX_PARAMS <? np) then Some None else
  '(params, r) ← r_headers (Z.to_nat np) r;
  '(auth_sub, r) ← r_slice16 r;
  '(auth_scope, r) ← r_slice16 r;
  '(body, r) ← r_slice32 r;
  Some (if r_err r then None else
    Some (Request method path path query 1 headers params auth_sub auth_scope
            (0 <? Z.of_nat (length body)) (Z.of_nat (length body)) body)).

(** wire.c:155-163 [ntc_wire_encode_response] *)
Definition ntc_wire_encode_response (status : Z) (ctype body : ntc_slice) (out : bytes) (cap : nat)
    : option (bytes * Z) :=
  let w := WBuf out cap 0 false in
  w ← w_u16 w (u16 status);
  w ← w_slice16 w ctype;
  w ← w_u32 w (u32 (Z.of_nat (length body)));
  w ← w_bytes w body;
  Some (w_result w).

(** wire.c:165-172 [ntc_wire_decode_response] *)
Definition ntc_wire_decode_response (buf : bytes) : option (option (Z * ntc_slice * ntc_slice)) :=
  let r := RBuf buf (length buf) 0 false in
  '(status, r) ← r_u16 r;
  '(ctype, r) ← r_slice16 r;
  '(body, r) ← r_slice32 r;
  Some (if r_err r then None else Some (status, ctype, body)).

(** wire.c:174-183 [ntc_wire_encode_response_ex] *)
Definition ntc_wire_encode_response_ex (status : Z) (ctype body headers : ntc_slice)
    (out : bytes) (cap : nat) : option (bytes * Z) :=
  let w := WBuf out cap 0 false in
  w ← w_u16 w (u16 status);
  w ← w_slice16 w ctype;
  w ← w_u32 w (u32 (Z.of_nat (length body)));
  w ← w_bytes w body;
  w ← w_slice16 w headers;
  Some (w_result w).

(** wire.c:185-194 [ntc_wire_decode_response_ex]. The result carries status, content
    type, body and the trailing header blob. *)
Definition ntc_wire_decode_response_ex (buf : bytes)
    : option (option (Z * ntc_slice * ntc_slice * ntc_slice)) :=
  let r := RBuf buf (length buf) 0 false in
  '(status, r) ← r_u16 r;
  '(ctype, r) ← r_slice16 r;
  '(body, r) ← r_slice32 r;
  '(headers, r) ← (if (r_off r <? r_len r)%nat then r_slice16 r else Some ([], r));
  Some (if r_err r then None else Some (status, ctype, body, headers)).

(** wire.c:197-204 [ntc_wire_encode_response_begin] *)
Definition ntc_wire_encode_response_begin (status flags : Z) (ctype : ntc_slice)
    (out : bytes) (cap : nat) : option (bytes * Z) :=
  let w := WBuf out cap 0 false in
  w ← w_u16 w (u16 status);
  w ← w_u8 w flags;
  w ← w_slice16 w ctype;
  Some (w_result w).

(** wire.c:206-213 [ntc_wire_decode_response_begin] *)
Definition ntc_wire_decode_response_begin (buf : bytes) : option (option (Z * Z * ntc_slice)) :=
  let r := RBuf buf (length buf) 0 false in
  '(status, r) ← r_u16 r;
  '(flags, r) ← r_u8 r;
  '(ctype, r) ← r_slice16 r;
  Some (if r_err r then None else Some (status, flags, ctype)).

(** wire.c:215-220 [ntc_wire_encode_chunk] *)
Definition ntc_wire_encode_chunk (data : ntc_slice) (out : bytes) (cap : nat)
    : option (bytes * Z) :=
  let w := WBuf out cap 0 false in
  w ← w_u32 w (u32 (Z.of_nat (length data)));
  w ← w_bytes w data;
  Some (w_result w).

(** wire.c:222-226 [ntc_wire_decode_chunk] *)
Definition ntc_wire_decode_chunk (buf : bytes) : option (option ntc_slice) :=
  let r := RBuf buf (length buf) 0 false in
  '(data, r) ← r_slice32 r;
  Some (if r_err r then None else Some data).

(** wire.c:228-234 [ntc_wire_encode_ws_msg] *)
Definition ntc_wire_encode_ws_msg (opcode : Z) (data : ntc_slice) (out : bytes) (cap : nat)
    : option (bytes * Z) :=
  let w := WBuf out cap 0 false in
  w ← w_u8 w opcode;
  w ← w_u32 w (u32 (Z.of_nat (length data)));
  w ← w_bytes w data;
  Some (w_result w).

(** wire.c:236-241 [ntc_wire_decode_ws_msg] *)
Definition ntc_wire_decode_ws_msg (buf : bytes) : option (option (Z * ntc_slice)) :=
  let r := RBuf buf (length buf) 0 false in
  '(opcode, r) ← r_u8 r;
  '(data, r) ← r_slice32 r;
  Some (if r_err r then None else Some (opcode, data)).

(** wire.c:243-247 [ntc_wire_encode_ws_close] *)
Definition ntc_wire_encode_ws_close (code : Z) (out : bytes) (cap : nat) : option (bytes * Z) :=
  let w := WBuf out cap 0 false in
  w ← w_u16 w code;
  Some (w_result w).

(** wire.c:249-253 [ntc_wire_decode_ws_close] *)
Definition ntc_wire_decode_ws_close (buf : bytes) : option (option Z) :=
  let r := RBuf buf (length buf) 0 false in
  '(code, r) ← r_u16 r;
  Some (if r_err r then None else Some code).

(** ** The wire grammar

    What each payload is, as a plain byte string: the reference the encoders and
    decoders are proved against. *)

Definition enc16 (s : bytes) : bytes := put_u16 (Z.of_nat (length s)) ++ s.
Definition enc32 (s : bytes) : bytes := put_u32 (Z.of_nat (length s)) ++ s.
Fixpoint enc_headers (hs : list ntc_header) : bytes :=
  match hs with
  | [] => []
  | h :: hs => enc16 (h_name h) ++ enc16 (h_value h) ++ enc_headers hs
  end.

Arguments put_u16 : simpl never.
Arguments put_u32 : simpl never.
Arguments enc16 : simpl never.
Arguments enc32 : simpl never.

Definition ok16 (s : bytes) : bool := Z.of_nat (length s) <=? 0xFFFF.
Definition ok32 (s : bytes) : bool := Z.of_nat (length s) <? 2 ^ 32.
Definition ok_headers (hs : list ntc_header) : bool :=
  forallb (fun h => ok16 (h_name h) && ok16 (h_value h)) hs.

Definition request_spec (req : ntc_request) : bytes :=
  enc16 (method req) ++ enc16 (path req) ++ enc16 (query req) ++
  put_u16 (Z.of_nat (length (headers req))) ++ enc_headers (headers req) ++
  put_u16 (Z.of_nat (length (params req))) ++ enc_headers (params req) ++
  enc16 (auth_sub req) ++ enc16 (auth_scope req) ++ enc32 (body req).

(** The requests the format carries: bounded counts and 16-bit slices. *)
Definition wire_request (req : ntc_request) : bool :=
  (length (headers req) <=? NTC_MAX_HEADERS)%nat && (length (params req) <=? NTC_MAX_PARAMS)%nat &&
  ok16 (method req) && ok16 (path req) && ok16 (query req) &&
  ok_headers (headers req) && ok_headers (params req) &&
  ok16 (auth_sub req) && ok16 (auth_scope req) && ok32 (body req).

(** What the encoder sends of a request: the first 64 headers and 8 parameters. *)
Definition clip (req : ntc_request) : ntc_request :=
  Request (method req) (target req) (path req) (query req) (minor_version req)
    (take NTC_MAX_HEADERS (headers req)) (take NTC_MAX_PARAMS (params req))
    (auth_sub req) (auth_scope req) (has_content_length req) (content_length req) (body req).

(** What the receiver sees of a request: the target is the path, the version is 1.1 and
    the content length is the body's. *)
Definition received (req : ntc_request) : ntc_request :=
  Request (method req) (path req) (path req) (query req) 1 (headers req) (params req)
    (auth_sub req) (auth_scope req) (0 <? Z.of_nat (length (body req)))
    (Z.of_nat (length (body req))) (body req).

Definition response_ex_spec (status : Z) (ctype body headers : bytes) : bytes :=
  put_u16 status ++ enc16 ctype ++ enc32 body ++ enc16 headers.

(** ** Reasoning about writers

    [writes op ok d]: from any well-formed buffer [op] runs without a bad access; it
    appends [d], and raises the error flag exactly when [ok] fails or [d] does not fit. *)

Definition wwf (w : wbuf) : Prop := (w_off w <= w_cap w <= length (w_p w))%nat.

Definition overflows (w : wbuf) (ok : bool) (d : bytes) : bool :=
  w_err w || negb ok || (w_cap w <? w_off w + length d)%nat.

Record writes (op : wbuf -> option wbuf) (ok : bool) (d : bytes) : Prop := Writes {
  writes_at : forall w, wwf w -> exists w', op w = Some w' /\ wwf w' /\ w_cap w' = w_cap w /\
    length (w_p w') = length (w_p w) /\ w_err w' = overflows w ok d /\
    (w_err w' = false -> w_off w' = (w_off w + length d)%nat /\
       w_p w' = take (w_off w) (w_p w) ++ d ++ drop (w_off w + length d) (w_p w)) }.

(** The same for the rest of an encoder, up to the pair it returns. *)
Record runs (k : wbuf -> option (bytes * Z)) (ok : bool) (d : bytes) : Prop := Runs {
  runs_at : forall w, wwf w -> exists out n, k w = Some (out, n) /\ length out = length (w_p w) /\
    if overflows w ok d then n = -1
    else n = Z.of_nat (w_off w + length d) /\
         out = take (w_off w) (w_p w) ++ d ++ drop (w_off w + length d) (w_p w) }.

(** The outcome of an encoder on a caller's buffer: [d] at its front and its length, the
    rest untouched, when [ok] holds and [d] fits; [-1] otherwise.  Either way the buffer
    keeps its size, and no store left it. *)
Definition encodes (result : option (bytes * Z)) (out : bytes) (cap : nat) (ok : bool) (d : bytes)
    : Prop :=
  exists out' n, result = Some (out', n) /\ length out' = length out /\
    if ok && (length d <=? cap)%nat
    then n = Z.of_nat (length d) /\ out' = d ++ drop (length d) out
    else n = -1.

(** ** Reasoning about readers

    [reads op d v]: at [d ++ rest], [op] reads [v] and leaves [rest].  [reads_inv op enc]
    is the converse: an unfailing read consumed the encoding of its result.  [rsafe op]
    says it never leaves the buffer, whatever the bytes are. *)

Definition rwf (r : rbuf) : Prop := (r_off r <= r_len r)%nat /\ r_len r = length (r_p r).
Definition rrep (r : rbuf) (s : bytes) : Prop :=
  rwf r /\ r_err r = false /\ drop (r_off r) (r_p r) = s.

Definition reads {A} (op : rbuf -> option (A * rbuf)) (d : bytes) (v : A) : Prop :=
  forall r rest, rrep r (d ++ rest) -> exists r', op r = Some (v, r') /\ rrep r' rest.

Definition rstep (r r' : rbuf) : Prop := rwf r' /\ r_p r' = r_p r.

Definition rsafe {A} (op : rbuf -> option (A * rbuf)) : Prop :=
  forall r, rwf r -> exists v r', op r = Some (v, r') /\ rstep r r'.

Definition reads_inv {A} (op : rbuf -> option (A * rbuf)) (enc : A -> bytes) (ok : A -> bool) : Prop :=
  forall r v r', rwf r -> bytes_ok (r_p r) -> op r = Some (v, r') -> r_err r' = false ->
    r_err r = false /\ ok v = true /\
    drop (r_off r) (r_p r) = enc v ++ drop (r_off r') (r_p r').

(** The reader [r] walks the buffer [buf]. *)
Definition rat (buf : bytes) (r : rbuf) : Prop := rwf r /\ r_p r = buf.

(** ** Lemmas: the primitives *)

Lemma length_put_u16 v : length (put_u16 v) = 2%nat.
Proof. done. Qed.
Lemma length_put_u32 v : length (put_u32 v) = 4%nat.
Proof. done. Qed.

Lemma get_put_u16 v l rest i :
  0 <= v < 2 ^ 16 -> drop i l = put_u16 v ++ rest -> get_u16 l i = Some v.
Proof.
  intros Hv Hd. unfold get_u16.
  assert (forall k, l !! (i + k)%nat = (put_u16 v ++ rest) !! k) as Hk
    by (intros; by rewrite <- Hd, lookup_drop).
  rewrite <- (Nat.add_0_r i) at 1. rewrite !Hk. unfold put_u16. cbn. f_equal.
  unfold u16, u8. rewrite lor_shiftl_add, Z.shiftr_div_pow2 by (try apply Z.mod_pos_bound; lia).
  pose proof (div_mod_pow2_split v 8 8) as E. rewrite E by lia.
  rewrite Z.mod_mod by lia. apply Z.mod_small. lia.
Qed.

Lemma put_get_u16 a b :
  is_byte a -> is_byte b -> put_u16 (u16 (Z.lor (a ≪ 8) b)) = [a; b].
Proof.
  intros [] []. unfold put_u16, u16, u8. rewrite lor_shiftl_add by lia.
  rewrite Z.shiftr_div_pow2 by lia. rewrite (Z.mod_small (_ + _)) by lia.
  repeat f_equal; [|rewrite Z.add_comm, Z.mod_add by lia; apply Z.mod_small; lia].
  rewrite Z.div_add_l, Z.div_small by lia. rewrite Z.add_0_r. by apply Z.mod_small.
Qed.

Lemma get_u32_eq a b c d :
  is_byte a -> is_byte b -> is_byte c -> is_byte d ->
  Z.lor (Z.lor (Z.lor (u32 (a ≪ 24)) (b ≪ 16)) (c ≪ 8)) d =
  ((a * 2 ^ 8 + b) * 2 ^ 8 + c) * 2 ^ 8 + d.
Proof.
  intros [] [] [] []. unfold u32.
  rewrite (Z.shiftl_mul_pow2 a), Z.mod_small by lia.
  replace (a * 2 ^ 24) with ((a * 2 ^ 8) ≪ 16) by (rewrite Z.shiftl_mul_pow2; lia).
  rewrite <- Z.shiftl_lor.
  replace (Z.lor (a * 2 ^ 8) b) with (a * 2 ^ 8 + b)
    by (rewrite <- Z.shiftl_mul_pow2, lor_shiftl_add, Z.shiftl_mul_pow2; lia).
  replace ((a * 2 ^ 8 + b) ≪ 16) with (((a * 2 ^ 8 + b) ≪ 8) ≪ 8)
    by (rewrite Z.shiftl_shiftl by lia; reflexivity).
  rewrite <- Z.shiftl_lor, lor_shiftl_add by lia.
  rewrite lor_shiftl_add by lia. lia.
Qed.

Lemma put_u32_bytes v :
  0 <= v < 2 ^ 32 ->
  exists a b c d, put_u32 v = [a; b; c; d] /\ is_byte a /\ is_byte b /\ is_byte c /\ is_byte d /\
    ((a * 2 ^ 8 + b) * 2 ^ 8 + c) * 2 ^ 8 + d = v.
Proof.
  intros Hv. do 4 eexists. split; [reflexivity|]. split_and!; try apply u8_range.
  unfold u8. rewrite !Z.shiftr_div_pow2 by lia.
  assert (v / 2 ^ 8 mod 2 ^ 8 * 2 ^ 8 + v mod 2 ^ 8 = v mod 2 ^ 16) by (by apply (div_mod_pow2_split v 8 8)).
  assert (v / 2 ^ 16 mod 2 ^ 8 * 2 ^ 16 + v mod 2 ^ 16 = v mod 2 ^ 24) by (by apply (div_mod_pow2_split v 16 8)).
  assert (v / 2 ^ 24 mod 2 ^ 8 * 2 ^ 24 + v mod 2 ^ 24 = v mod 2 ^ 32) by (by apply (div_mod_pow2_split v 24 8)).
  rewrite (Z.mod_small v (2 ^ 32)) in * by lia. lia.
Qed.

Lemma put_u32_eq a b c d :
  is_byte a -> is_byte b -> is_byte c -> is_byte d ->
  put_u32 (((a * 2 ^ 8 + b) * 2 ^ 8 + c) * 2 ^ 8 + d) = [a; b; c; d].
Proof.
  intros [] [] [] []. unfold put_u32, u8. rewrite !Z.shiftr_div_pow2 by lia.
  assert (forall q r, 0 <= r < 2 ^ 8 -> (q * 2 ^ 8 + r) mod 2 ^ 8 = r) as Hm
    by (intros; rewrite Z.add_comm, Z.mod_add by lia; apply Z.mod_small; lia).
  replace (2 ^ 24) with (2 ^ 8 * 2 ^ 8 * 2 ^ 8) by lia.
  replace (2 ^ 16) with (2 ^ 8 * 2 ^ 8) by lia.
  rewrite <- !Z.div_div by lia.
  assert (forall q r, 0 <= r < 2 ^ 8 -> (q * 2 ^ 8 + r) / 2 ^ 8 = q) as Hd
    by (intros; rewrite Z.div_add_l, Z.div_small by lia; lia).
  rewrite !Hd by lia. rewrite !Hm by lia. repeat f_equal. by apply Z.mod_small.
Qed.

Lemma get_put_u32 v l rest i :
  0 <= v < 2 ^ 32 -> drop i l = put_u32 v ++ rest -> get_u32 l i = Some v.
Proof.
  intros Hv Hd. destruct (put_u32_bytes v Hv) as (a & b & c & d & E & ? & ? & ? & ? & <-).
  rewrite E in Hd. unfold get_u32.
  assert (forall k, l !! (i + k)%nat = ([a; b; c; d] ++ rest) !! k) as Hk
    by (intros; by rewrite <- Hd, lookup_drop).
  rewrite <- (Nat.add_0_r i) at 1. rewrite !Hk. cbn. by rewrite get_u32_eq.
Qed.

Lemma get_u16_inv l i v :
  bytes_ok l -> get_u16 l i = Some v ->
  0 <= v < 2 ^ 16 /\ drop i l = put_u16 v ++ drop (i + 2) l.
Proof.
  intros Hl H. unfold get_u16 in H. opt_inv. rename H0 into Ha, H1 into Hb.
  assert (is_byte x /\ is_byte x0) as [] by (split; eapply Forall_lookup_1; eauto).
  split; [apply Z.mod_pos_bound; lia|]. rewrite put_get_u16 by done.
  rewrite (drop_S _ x) by done. rewrite (drop_S _ x0) by (by rewrite Nat.add_1_r in Hb).
  by rewrite Nat.add_comm.
Qed.

Lemma get_u32_inv l i v :
  bytes_ok l -> get_u32 l i = Some v ->
  0 <= v < 2 ^ 32 /\ drop i l = put_u32 v ++ drop (i + 4) l.
Proof.
  intros Hl H. unfold get_u32 in H. opt_inv.
  assert (is_byte x /\ is_byte x0 /\ is_byte x1 /\ is_byte x2) as (Ba & Bb & Bc & Bd)
    by (split_and!; eapply Forall_lookup_1; eauto).
  rewrite get_u32_eq by done. split; [unfold is_byte in *; lia|]. rewrite put_u32_eq by done.
  rewrite (drop_S _ x) by done. rewrite (drop_S _ x0) by (by rewrite Nat.add_1_r in *).
  rewrite (drop_S _ x1) by (by rewrite Nat.add_comm in *).
  rewrite (drop_S _ x2) by (by rewrite Nat.add_comm in *).
  by rewrite Nat.add_comm.
Qed.

Lemma get_u16_safe l i : (i + 2 <= length l)%nat -> is_Some (get_u16 l i).
Proof.
  intros H. unfold get_u16.
  destruct (lookup_lt_is_Some_2 l i) as [a ->]; [lia|].
  destruct (lookup_lt_is_Some_2 l (i + 1)) as [b ->]; [lia|]. by eexists.
Qed.

Lemma get_u32_safe l i : (i + 4 <= length l)%nat -> is_Some (get_u32 l i).
Proof.
  intros H. unfold get_u32.
  destruct (lookup_lt_is_Some_2 l i) as [a ->]; [lia|].
  destruct (lookup_lt_is_Some_2 l (i + 1)) as [b ->]; [lia|].
  destruct (lookup_lt_is_Some_2 l (i + 2)) as [c ->]; [lia|].
  destruct (lookup_lt_is_Some_2 l (i + 3)) as [d ->]; [lia|]. by eexists.
Qed.

(** ** Lemmas: writers *)

Lemma overflows_compose w w' ok1 d1 ok2 d2 :
  w_cap w' = w_cap w -> w_err w' = overflows w ok1 d1 ->
  (w_err w' = false -> w_off w' = (w_off w + length d1)%nat) ->
  overflows w' ok2 d2 = overflows w (ok1 && ok2) (d1 ++ d2).
Proof.
  intros Hc He Ho. unfold overflows in *. rewrite length_app, Hc, He in *.
  destruct (w_err w), ok1; simpl in *; try done.
  destruct (Nat.ltb_spec (w_cap w) (w_off w + length d1)); simpl in *.
  - destruct ok2; simpl; [|done]. symmetry. apply Nat.ltb_lt. lia.
  - rewrite Ho by done. destruct ok2; simpl; [|done]. f_equal. lia.
Qed.

Lemma splice_compose (p d1 d2 : bytes) off :
  (off + length d1 <= length p)%nat ->
  let p' := take off p ++ d1 ++ drop (off + length d1) p in
  take (off + length d1) p' ++ d2 ++ drop (off + length d1 + length d2) p' =
  take off p ++ (d1 ++ d2) ++ drop (off + length (d1 ++ d2)) p.
Proof.
  intros Hl p'.
  assert (length (take off p ++ d1) = off + length d1)%nat as Hlen
    by (rewrite length_app, length_take; lia).
  assert (p' = (take off p ++ d1) ++ drop (off + length d1) p) as -> by apply app_assoc.
  rewrite take_app_length' by done. rewrite drop_app_ge by lia.
  rewrite drop_drop, Hlen, <- !app_assoc, length_app. do 4 f_equal. lia.
Qed.

Lemma writes_store ok d f :
  (forall w, f w = w_store (w_need w (length d)) d) -> ok = true -> writes f ok d.
Proof.
  intros Hf ->. constructor. intros w [Ho Hc]. rewrite Hf. unfold w_need, w_store.
  destruct (Nat.ltb_spec (w_cap w) (w_off w + length d)) as [Hlt|Hge]; simpl.
  - eexists; split; [done|]. split_and!; [by split|done|done| |done].
    unfold overflows. simpl. apply Nat.ltb_lt in Hlt. by rewrite Hlt, !orb_true_r.
  - unfold overflows. rewrite (proj2 (Nat.ltb_ge _ _)) by done. rewrite !orb_false_r.
    destruct (w_err w) eqn:E.
    + eexists; split; [done|]. split_and!; [by split|done|done|done|congruence].
    + rewrite mem_write_Some by lia. bind.
      eexists; split; [done|]. unfold wwf. simpl.
      rewrite !length_app, length_take, length_drop. split_and!; (lia || done).
Qed.

Lemma writes_compose op1 op2 ok1 ok2 d1 d2 :
  writes op1 ok1 d1 -> writes op2 ok2 d2 ->
  writes (fun w => op1 w ≫= op2) (ok1 && ok2) (d1 ++ d2).
Proof.
  intros [H1] [H2]. constructor. intros w Hw.
  destruct (H1 w Hw) as (w1 & -> & Hw1 & Hc1 & Hl1 & He1 & Hf1). bind.
  destruct (H2 w1 Hw1) as (w2 & -> & Hw2 & Hc2 & Hl2 & He2 & Hf2).
  exists w2. split; [done|]. split_and!; try done; try congruence.
  - rewrite He2. apply overflows_compose; [done|done|]. intros E. by apply Hf1.
  - intros E. destruct (Hf2 E) as [Ho2 Hp2].
    assert (w_err w1 = false) as E1.
    { rewrite He2 in E. unfold overflows in E. by destruct (w_err w1). }
    destruct (Hf1 E1) as [Ho1 Hp1]. rewrite Ho2, Ho1. split; [rewrite length_app; lia|].
    rewrite Hp2, Ho1, Hp1. apply splice_compose. destruct Hw1, Hw. lia.
Qed.

Lemma runs_result : runs (fun w => Some (w_result w)) true [].
Proof.
  constructor. intros w [Ho Hc]. unfold w_result, overflows. simpl. rewrite Nat.add_0_r.
  rewrite (proj2 (Nat.ltb_ge _ _)) by lia. rewrite !orb_false_r.
  eexists _, _. split; [done|]. split; [done|]. destruct (w_err w); [done|].
  by rewrite take_drop.
Qed.

Lemma runs_bind op k ok1 ok2 d1 d2 :
  writes op ok1 d1 -> runs k ok2 d2 -> runs (fun w => op w ≫= k) (ok1 && ok2) (d1 ++ d2).
Proof.
  intros [H1] [H2]. constructor. intros w Hw.
  destruct (H1 w Hw) as (w1 & -> & Hw1 & Hc1 & Hl1 & He1 & Hf1). bind.
  destruct (H2 w1 Hw1) as (out & n & -> & Hl2 & Hres).
  exists out, n. split; [done|]. split; [congruence|].
  rewrite (overflows_compose w w1 ok1 d1 ok2 d2) in Hres; [|done|done|intros E; by apply Hf1].
  destruct (overflows w (ok1 && ok2) (d1 ++ d2)) eqn:Eo; [done|].
  destruct Hres as [-> ->].
  assert (w_err w1 = false) as E1.
  { rewrite He1. unfold overflows in *. destruct (w_err w), ok1; try done. simpl in *.
    apply orb_false_iff in Eo as [_ Eo]. apply Nat.ltb_ge in Eo. rewrite length_app in Eo.
    apply Nat.ltb_ge. lia. }
  destruct (Hf1 E1) as [Ho1 Hp1]. rewrite Ho1. split; [rewrite length_app; lia|].
  rewrite Hp1. apply splice_compose. destruct Hw1. destruct Hw. lia.
Qed.

Lemma writes_u8 v : is_byte v -> writes (fun w => w_u8 w v) true [v].
Proof. intros. apply writes_store; [|done]. intros w. unfold w_u8. by rewrite u8_id. Qed.

Lemma writes_u16 v : writes (fun w => w_u16 w v) true (put_u16 v).
Proof. by apply writes_store. Qed.

Lemma writes_u32 v : writes (fun w => w_u32 w v) true (put_u32 v).
Proof. by apply writes_store. Qed.

Lemma writes_bytes s : writes (fun w => w_bytes w s) true s.
Proof.
  destruct s as [|x s]; [|by apply writes_store].
  constructor. intros w [Ho Hc]. unfold w_bytes, w_need. simpl. rewrite Nat.add_0_r.
  rewrite (proj2 (Nat.ltb_ge _ _)) by lia. exists w.
  unfold overflows. simpl. rewrite Nat.add_0_r, (proj2 (Nat.ltb_ge _ _)), !orb_false_r by lia.
  split_and!; try done. by rewrite take_drop.
Qed.

Lemma writes_slice16 s : writes (fun w => w_slice16 w s) (ok16 s) (enc16 s).
Proof.
  unfold w_slice16, ok16, enc16.
  destruct (Z.ltb_spec 65535 (Z.of_nat (length s))) as [Hlt|Hge].
  - constructor. intros w [Ho Hc]. eexists; split; [done|]. split_and!; [by split|done|done| |done].
    unfold overflows. rewrite (proj2 (Z.leb_gt _ _)) by lia. by rewrite orb_true_r.
  - rewrite (proj2 (Z.leb_le _ _)) by lia. change true with (true && true).
    unfold u16. rewrite Z.mod_small by lia.
    apply writes_compose; [apply writes_u16|apply writes_bytes].
Qed.

Lemma writes_headers hs : writes (fun w => w_headers w hs) (ok_headers hs) (enc_headers hs).
Proof.
  induction hs as [|h hs IH]; cbn [w_headers enc_headers ok_headers forallb].
  - constructor. intros w [Ho Hc]. exists w. unfold overflows. simpl.
    rewrite Nat.add_0_r, (proj2 (Nat.ltb_ge _ _)), !orb_false_r by lia.
    split_and!; try done. by rewrite take_drop.
  - rewrite <- andb_assoc.
    apply writes_compose; [apply writes_slice16|].
    apply writes_compose; [apply writes_slice16|apply IH].
Qed.

Create HintDb wire.
#[export] Hint Resolve writes_u8 writes_u16 writes_u32 writes_bytes writes_slice16
  writes_headers runs_result : wire.

Lemma encodes_start op k ok1 ok2 d1 d2 out cap :
  writes op ok1 d1 -> runs k ok2 d2 -> (cap <= length out)%nat ->
  encodes (op (WBuf out cap 0 false) ≫= k) out cap (ok1 && ok2) (d1 ++ d2).
Proof.
  intros H1 H2 Hcap. destruct (runs_bind op k ok1 ok2 d1 d2 H1 H2) as [H].
  destruct (H (WBuf out cap 0 false)) as (out' & n & E & Hl & Hr); [split; simpl; lia|].
  exists out', n. split; [done|]. split; [done|].
  unfold overflows in Hr. cbn [w_err w_cap w_off w_p] in Hr. rewrite Nat.leb_antisym.
  rewrite orb_false_l, Nat.add_0_l in Hr. rewrite take_0 in Hr.
  destruct (ok1 && ok2); cbn [negb orb andb] in *; [|done].
  by destruct (cap <? length (d1 ++ d2))%nat.
Qed.

Lemma encodes_equiv result out cap ok ok' d d' :
  encodes result out cap ok d -> ok = ok' -> d = d' -> encodes result out cap ok' d'.
Proof. by intros ? -> ->. Qed.

(** Reading back what an encoder wrote. *)
Lemma encodes_take result out cap ok d :
  encodes result out cap ok d -> ok = true -> (length d <= cap)%nat ->
  exists out', result = Some (out', Z.of_nat (length d)) /\ take (length d) out' = d.
Proof.
  intros (out' & n & -> & _ & Hr) -> Hle. rewrite (proj2 (Nat.leb_le _ _)) in Hr by done.
  destruct Hr as [-> ->]. eexists; split; [done|]. by rewrite take_app_length.
Qed.

(** Follow the binds of an encoder whose first write is [op]. *)
Ltac encoder op :=
  eapply encodes_equiv;
  [eapply (encodes_start op);
   [eauto with wire|repeat (eapply runs_bind; [eauto with wire|]); apply runs_result|done]| |].

(** ** Lemmas: readers *)

Lemma rrep_drop r d rest :
  rrep r (d ++ rest) -> (r_off r + length d <= r_len r)%nat /\
  drop (r_off r + length d) (r_p r) = rest /\ take (length d) (drop (r_off r) (r_p r)) = d.
Proof.
  intros ([Ho Hl] & _ & Hd).
  assert (length (drop (r_off r) (r_p r)) = length (d ++ rest)) as Hlen by (by rewrite Hd).
  rewrite length_drop, length_app in Hlen. split_and!; [lia| |].
  - by rewrite <- drop_drop, Hd, drop_app_length.
  - by rewrite Hd, take_app_length.
Qed.

Lemma rrep_advance r d rest :
  rrep r (d ++ rest) -> rrep (r_advance r (length d)) rest.
Proof.
  intros H. destruct (rrep_drop r d rest H) as (Hle & Hd & _). destruct H as ([] & ? & _).
  by repeat split.
Qed.

Lemma reads_u8 v : reads r_u8 [v] v.
Proof.
  intros r rest H. destruct (rrep_drop _ _ _ H) as (Hle & _ & _). simpl in Hle.
  unfold r_u8. rewrite (proj2 (Nat.ltb_ge _ _)) by lia.
  assert (r_p r !! r_off r = Some v) as ->.
  { rewrite <- (Nat.add_0_r (r_off r)), <- lookup_drop. by destruct H as (_ & _ & ->). }
  bind. eexists; split; [done|]. apply (rrep_advance r [v]). done.
Qed.

Lemma reads_u16 v : 0 <= v < 2 ^ 16 -> reads r_u16 (put_u16 v) v.
Proof.
  intros Hv r rest H. destruct (rrep_drop _ _ _ H) as (Hle & _ & _).
  rewrite length_put_u16 in Hle. unfold r_u16. rewrite (proj2 (Nat.ltb_ge _ _)) by lia.
  destruct H as (Hw & He & Hd). rewrite (get_put_u16 v _ rest) by done. bind.
  eexists; split; [done|]. by apply (rrep_advance r (put_u16 v)).
Qed.

Lemma reads_u32 v : 0 <= v < 2 ^ 32 -> reads r_u32 (put_u32 v) v.
Proof.
  intros Hv r rest H. destruct (rrep_drop _ _ _ H) as (Hle & _ & _).
  rewrite length_put_u32 in Hle. unfold r_u32. rewrite (proj2 (Nat.ltb_ge _ _)) by lia.
  destruct H as (Hw & He & Hd). rewrite (get_put_u32 v _ rest) by done. bind.
  eexists; split; [done|]. by apply (rrep_advance r (put_u32 v)).
Qed.

(** The shared tail of [r_slice16] and [r_slice32]: a length is in hand. *)
Lemma slice_tail_reads r s rest :
  rrep r (s ++ rest) ->
  exists r', (if r_err r || (Z.of_nat (r_len r) <? Z.of_nat (r_off r) + Z.of_nat (length s))
              then Some ([], r_fail r)
              else s' ← mem_range (r_p r) (r_off r) (Z.to_nat (Z.of_nat (length s)));
                   Some (s', r_advance r (Z.to_nat (Z.of_nat (length s)))))
             = Some (s, r') /\ rrep r' rest.
Proof.
  intros H. destruct (rrep_drop _ _ _ H) as (Hle & _ & Ht). pose proof H as ([Ho Hl] & He & _).
  rewrite He, Nat2Z.id. simpl. rewrite (proj2 (Z.ltb_ge _ _)) by lia.
  rewrite mem_range_Some by lia. bind. rewrite Ht.
  eexists; split; [done|]. by apply rrep_advance.
Qed.

Lemma reads_slice16 s : ok16 s = true -> reads r_slice16 (enc16 s) s.
Proof.
  intros Hs r rest H. unfold enc16 in H. rewrite <- app_assoc in H. apply Z.leb_le in Hs.
  destruct (reads_u16 (Z.of_nat (length s)) ltac:(lia) r _ H) as (r1 & E & H1).
  unfold r_slice16. rewrite E. bind. by apply slice_tail_reads.
Qed.

Lemma reads_slice32 s : ok32 s = true -> reads r_slice32 (enc32 s) s.
Proof.
  intros Hs r rest H. unfold enc32 in H. rewrite <- app_assoc in H. apply Z.ltb_lt in Hs.
  destruct (reads_u32 (Z.of_nat (length s)) ltac:(lia) r _ H) as (r1 & E & H1).
  unfold r_slice32. rewrite E. bind. by apply slice_tail_reads.
Qed.

Lemma reads_headers hs : ok_headers hs = true -> reads (r_headers (length hs)) (enc_headers hs) hs.
Proof.
  induction hs as [|[name value] hs IH]; cbn [ok_headers forallb enc_headers r_headers length];
    intros Hok r rest H.
  - exists r. by split.
  - apply andb_true_iff in Hok as [Hnv Hok]. apply andb_true_iff in Hnv as [Hn Hv].
    rewrite <- !app_assoc in H.
    destruct (reads_slice16 name Hn _ _ H) as (r1 & -> & H1). bind.
    destruct (reads_slice16 value Hv _ _ H1) as (r2 & -> & H2). bind.
    destruct (IH Hok _ _ H2) as (r3 & -> & H3). bind. eauto.
Qed.

(** Safety of the readers. *)
Lemma rstep_fail r : rwf r -> rstep r (r_fail r).
Proof. done. Qed.

Lemma rstep_advance r n : rwf r -> (r_off r + n <= r_len r)%nat -> rstep r (r_advance r n).
Proof. intros [] ?. by repeat split. Qed.

Lemma rstep_trans r1 r2 r3 : rstep r1 r2 -> rstep r2 r3 -> rstep r1 r3.
Proof. intros [] []. split; [done|congruence]. Qed.

#[export] Hint Resolve rstep_fail rstep_advance : wire.

Lemma rsafe_u8 : rsafe r_u8.
Proof.
  intros r Hr. unfold r_u8. destruct (Nat.ltb_spec (r_len r) (r_off r + 1)); [by eauto with wire|].
  destruct (lookup_lt_is_Some_2 (r_p r) (r_off r)) as [v ->]; [destruct Hr; lia|]. bind.
  eauto with wire.
Qed.

Lemma rsafe_u16 : rsafe r_u16.
Proof.
  intros r Hr. unfold r_u16. destruct (Nat.ltb_spec (r_len r) (r_off r + 2)); [by eauto with wire|].
  destruct (get_u16_safe (r_p r) (r_off r)) as [v ->]; [destruct Hr; lia|]. bind.
  eauto with wire.
Qed.

Lemma rsafe_u32 : rsafe r_u32.
Proof.
  intros r Hr. unfold r_u32. destruct (Nat.ltb_spec (r_len r) (r_off r + 4)); [by eauto with wire|].
  destruct (get_u32_safe (r_p r) (r_off r)) as [v ->]; [destruct Hr; lia|]. bind.
  eauto with wire.
Qed.

(** The shared tail again, from any well-formed reader. *)
Lemma slice_tail_safe r n :
  rwf r -> exists s r',
    (if r_err r || (Z.of_nat (r_len r) <? Z.of_nat (r_off r) + n) then Some ([], r_fail r)
     else s' ← mem_range (r_p r) (r_off r) (Z.to_nat n); Some (s', r_advance r (Z.to_nat n)))
    = Some (s, r') /\ rstep r r'.
Proof.
  intros Hr. destruct (r_err r || _) eqn:E; [by eauto with wire|].
  apply orb_false_iff in E as [_ E]. apply Z.ltb_ge in E.
  rewrite mem_range_Some by (destruct Hr; lia). bind.
  do 2 eexists. split; [done|]. apply rstep_advance; [done|destruct Hr; lia].
Qed.

Lemma rsafe_slice16 : rsafe r_slice16.
Proof.
  intros r Hr. unfold r_slice16. destruct (rsafe_u16 r Hr) as (n & r1 & -> & H1). bind.
  destruct (slice_tail_safe r1 n) as (s & r' & -> & H2); [apply H1|].
  eauto using rstep_trans.
Qed.

Lemma rsafe_slice32 : rsafe r_slice32.
Proof.
  intros r Hr. unfold r_slice32. destruct (rsafe_u32 r Hr) as (n & r1 & -> & H1). bind.
  destruct (slice_tail_safe r1 n) as (s & r' & -> & H2); [apply H1|].
  eauto using rstep_trans.
Qed.

Lemma rsafe_headers n : rsafe (r_headers n).
Proof.
  induction n as [|n IH]; intros r Hr; cbn [r_headers]; [by do 2 eexists|].
  destruct (rsafe_slice16 r Hr) as (a & r1 & -> & [H1 P1]). bind.
  destruct (rsafe_slice16 r1 H1) as (b & r2 & -> & [H2 P2]). bind.
  destruct (IH r2 H2) as (c & r3 & -> & [H3 P3]). bind.
  do 2 eexists; split; [done|]. split; [done|congruence].
Qed.

Lemma rsafe_bind {A B} (op : rbuf -> option (A * rbuf)) (k : A -> rbuf -> option B) r :
  rsafe op -> rwf r -> (forall v r', rwf r' -> is_Some (k v r')) ->
  is_Some ('(v, r') ← op r; k v r').
Proof. intros H Hr Hk. destruct (H r Hr) as (v & r' & -> & [Hr' _]). bind. by apply Hk. Qed.

(** A step of a safe reader, from the equation of its result. *)
Lemma rsafe_step {A} (op : rbuf -> option (A * rbuf)) r v r' :
  rsafe op -> rwf r -> op r = Some (v, r') -> rstep r r'.
Proof. intros H Hr E. destruct (H r Hr) as (? & ? & E' & ?). congruence. Qed.

#[export] Hint Resolve rsafe_u8 rsafe_u16 rsafe_u32 rsafe_slice16 rsafe_slice32 rsafe_headers : wire.

(** What a successful read consumed. *)
Lemma inv_u8 : reads_inv r_u8 (fun v => [v]) (fun v => bool_decide (is_byte v)).
Proof.
  intros r v r' Hr Hb H He. unfold r_u8 in H.
  destruct (Nat.ltb_spec (r_len r) (r_off r + 1)); [by simplify_eq|]. binv H as x Hx. simplify_eq.
  split_and!; [done|apply bool_decide_eq_true; by eapply Forall_lookup_1|].
  simpl. rewrite Nat.add_1_r. by apply drop_S.
Qed.

Lemma inv_u16 : reads_inv r_u16 put_u16 (fun v => (0 <=? v) && (v <? 2 ^ 16)).
Proof.
  intros r v r' Hr Hb H He. unfold r_u16 in H.
  destruct (Nat.ltb_spec (r_len r) (r_off r + 2)); [by simplify_eq|]. binv H as x Hx.
  apply get_u16_inv in Hx as [Hv Hd]; [|done]. simplify_eq. split_and!; [done|lia|done].
Qed.

Lemma inv_u32 : reads_inv r_u32 put_u32 (fun v => (0 <=? v) && (v <? 2 ^ 32)).
Proof.
  intros r v r' Hr Hb H He. unfold r_u32 in H.
  destruct (Nat.ltb_spec (r_len r) (r_off r + 4)); [by simplify_eq|]. binv H as x Hx.
  apply get_u32_inv in Hx as [Hv Hd]; [|done]. simplify_eq. split_and!; [done|lia|done].
Qed.

Lemma slice_tail_inv r n s r' :
  rwf r -> 0 <= n ->
  (if r_err r || (Z.of_nat (r_len r) <? Z.of_nat (r_off r) + n) then Some ([], r_fail r)
   else s' ← mem_range (r_p r) (r_off r) (Z.to_nat n); Some (s', r_advance r (Z.to_nat n)))
  = Some (s, r') -> r_err r' = false ->
  r_err r = false /\ Z.of_nat (length s) = n /\
  drop (r_off r) (r_p r) = s ++ drop (r_off r') (r_p r').
Proof.
  intros Hr Hn H He. destruct (r_err r || _) eqn:E; [by simplify_eq|].
  apply orb_false_iff in E as [E1 E2]. binv H as x Hx. simplify_eq.
  apply mem_range_inv in Hx as (Hle & -> & Hl).
  split_and!; [done|lia|]. simpl. by rewrite <- drop_drop, take_drop.
Qed.

Lemma inv_slice16 : reads_inv r_slice16 enc16 ok16.
Proof.
  intros r s r' Hr Hb H He. unfold r_slice16 in H. binv H as [n r1] Hn.
  destruct (rsafe_step _ _ _ _ rsafe_u16 Hr Hn) as [Hr1 Hp1].
  assert (r_err r1 = false) as He1 by (destruct (r_err r1) eqn:E; [by simplify_eq/=|done]).
  destruct (inv_u16 r n r1 Hr Hb Hn He1) as (Hr0 & Hn' & Hd).
  apply slice_tail_inv in H as (_ & Hl & Hd'); [|done|lia|done].
  split_and!; [done|unfold ok16; lia|].
  unfold enc16. by rewrite <- app_assoc, Hl, Hd, Hd'.
Qed.

Lemma inv_slice32 : reads_inv r_slice32 enc32 ok32.
Proof.
  intros r s r' Hr Hb H He. unfold r_slice32 in H. binv H as [n r1] Hn.
  destruct (rsafe_step _ _ _ _ rsafe_u32 Hr Hn) as [Hr1 Hp1].
  assert (r_err r1 = false) as He1 by (destruct (r_err r1) eqn:E; [by simplify_eq/=|done]).
  destruct (inv_u32 r n r1 Hr Hb Hn He1) as (Hr0 & Hn' & Hd).
  apply slice_tail_inv in H as (_ & Hl & Hd'); [|done|lia|done].
  split_and!; [done|unfold ok32; lia|].
  unfold enc32. by rewrite <- app_assoc, Hl, Hd, Hd'.
Qed.

Lemma inv_headers n :
  reads_inv (r_headers n) enc_headers (fun hs => (length hs =? n)%nat && ok_headers hs).
Proof.
  induction n as [|n IH]; intros r hs r' Hr Hb H He; cbn [r_headers] in H; [by simplify_eq|].
  binv H as [name r1] H1. binv H as [value r2] H2. binv H as [hs' r3] H3. simplify_eq.
  destruct (rsafe_step _ _ _ _ rsafe_slice16 Hr H1) as [W1 P1].
  destruct (rsafe_step _ _ _ _ rsafe_slice16 W1 H2) as [W2 P2].
  destruct (IH r2 hs' r' W2) as (E2 & Hok & Hd); [congruence|done|done|].
  destruct (inv_slice16 r1 value r2 W1) as (E1 & Hov & Hdv); [congruence|done|done|].
  destruct (inv_slice16 r name r1 Hr Hb H1 E1) as (E0 & Hon & Hdn).
  split_and!; [done| |].
  - unfold ok_headers in *. cbn. apply andb_true_iff in Hok as [Hlen Hok]. by rewrite Hlen, Hon, Hov, Hok.
  - cbn [enc_headers h_name h_value]. by rewrite Hdn, Hdv, Hd, <- !app_assoc.
Qed.

(** ** Properties *)

(** The buffer a decoder starts on. *)
Lemma rrep_start buf : rrep (RBuf buf (length buf) 0 false) buf.
Proof. repeat split; simpl; lia || done. Qed.

(** Follow the binds of a decoder over a known encoding. *)
Ltac read_step L :=
  match goal with
  | H : rrep ?r (_ ++ _) |- context [?op ?r] =>
      destruct (L r _ H) as (? & -> & ?); clear H; bind
  end.

Lemma encode_request_encodes req out cap :
  (cap <= length out)%nat -> ok32 (body req) = true ->
  encodes (ntc_wire_encode_request req out cap) out cap
    (wire_request (clip req)) (request_spec (clip req)).
Proof.
  intros Hcap Hb. unfold ntc_wire_encode_request.
  encoder (fun w => w_slice16 w (method req)).
  - unfold wire_request, clip. cbn. rewrite Hb.
    rewrite (proj2 (Nat.leb_le _ 64)), (proj2 (Nat.leb_le _ 8)) by (rewrite length_take; lia).
    cbn. by rewrite !andb_assoc, !andb_true_r.
  - unfold request_spec, clip, enc32. cbn. apply Z.ltb_lt in Hb.
    rewrite !u16_id by (rewrite length_take; lia). rewrite u32_id by lia. by rewrite app_nil_r.
Qed.

Lemma wire_request_fields req :
  wire_request req = true ->
  (length (headers req) <= 64)%nat /\ (length (params req) <= 8)%nat /\
  ok16 (method req) = true /\ ok16 (path req) = true /\ ok16 (query req) = true /\
  ok_headers (headers req) = true /\ ok_headers (params req) = true /\
  ok16 (auth_sub req) = true /\ ok16 (auth_scope req) = true /\ ok32 (body req) = true.
Proof.
  unfold wire_request, NTC_MAX_HEADERS, NTC_MAX_PARAMS. rewrite !andb_true_iff, !Nat.leb_le. tauto.
Qed.

Lemma clip_wire req : wire_request req = true -> clip req = req.
Proof.
  intros H. destruct (wire_request_fields req H) as (Lh & Lp & _).
  unfold clip, NTC_MAX_HEADERS, NTC_MAX_PARAMS. rewrite !take_ge by done. by destruct req.
Qed.

Lemma decode_request_spec req rest :
  wire_request req = true ->
  ntc_wire_decode_request (request_spec req ++ rest) = Some (Some (received req)).
Proof.
  intros Hw. destruct (wire_request_fields req Hw) as (Lh & Lp & Hm & Hp & Hq & Hh & Hps & Hs & Hc & Hb).
  unfold ntc_wire_decode_request. pose proof (rrep_start (request_spec req ++ rest)) as H.
  unfold request_spec in H at 3. rewrite <- !app_assoc in H.
  read_step (reads_slice16 _ Hm). read_step (reads_slice16 _ Hp). read_step (reads_slice16 _ Hq).
  assert (0 <= Z.of_nat (length (headers req)) < 2 ^ 16) as Bh by lia.
  assert (0 <= Z.of_nat (length (params req)) < 2 ^ 16) as Bp by lia.
  read_step (reads_u16 _ Bh). rewrite (proj2 (Z.ltb_ge _ _)), Nat2Z.id by (unfold NTC_MAX_HEADERS; lia).
  read_step (reads_headers _ Hh). read_step (reads_u16 _ Bp).
  rewrite (proj2 (Z.ltb_ge _ _)), Nat2Z.id by (unfold NTC_MAX_PARAMS; lia).
  read_step (reads_headers _ Hps). read_step (reads_slice16 _ Hs). read_step (reads_slice16 _ Hc).
  read_step (reads_slice32 _ Hb).
  by match goal with H : rrep ?r rest |- _ => destruct H as (_ & -> & _) end.
Qed.

Lemma rat_start buf : rat buf (RBuf buf (length buf) 0 false).
Proof. by repeat split; simpl; try lia. Qed.

Lemma rat_step {A} (op : rbuf -> option (A * rbuf)) buf r v r' :
  op r = Some (v, r') -> rsafe op -> rat buf r -> rat buf r'.
Proof. intros E H [W <-]. by destruct (rsafe_step _ _ _ _ H W E). Qed.

Lemma rat_inv {A} (op : rbuf -> option (A * rbuf)) enc ok buf r v r' :
  op r = Some (v, r') -> reads_inv op enc ok -> rsafe op -> bytes_ok buf -> rat buf r ->
  r_err r' = false ->
  r_err r = false /\ ok v = true /\ drop (r_off r) buf = enc v ++ drop (r_off r') buf.
Proof.
  intros E H Hs Hb [W <-] He. destruct (rsafe_step _ _ _ _ Hs W E) as [_ P].
  destruct (H r v r') as (? & ? & Hd); [done..|]. by rewrite P in Hd.
Qed.

#[export] Hint Resolve inv_u8 inv_u16 inv_u32 inv_slice16 inv_slice32 inv_headers : wire.

(** Walk a successful decoder: forward, every reader stays on the buffer ... *)
Ltac walk :=
  repeat match goal with
  | E : ?op ?r = Some (_, ?r'), W : rat ?buf ?r |- _ =>
      lazymatch goal with _ : rat buf r' |- _ => fail | _ => idtac end;
      assert (rat buf r') by (eapply (rat_step op); eauto with wire)
  end.

(** ... and backward, every read consumed the encoding of its result. *)
Ltac unwalk :=
  repeat match goal with
  | E : ?op ?r = Some (_, ?r'), He : r_err ?r' = false |- _ =>
      let Hv := fresh "Hv" in let Hd := fresh "Hd" in let H := fresh "He" in
      eapply (rat_inv op) in E as (H & Hv & Hd); [|solve [eauto with wire]..]
  end.

Lemma decode_request_inv buf req :
  bytes_ok buf -> ntc_wire_decode_request buf = Some (Some req) ->
  wire_request req = true /\ received req = req /\ exists rest, buf = request_spec req ++ rest.
Proof.
  intros Hbuf H. unfold ntc_wire_decode_request in H. pose proof (rat_start buf) as W0.
  binv H as [m r1] H1. binv H as [p r2] H2. binv H as [q r3] H3. binv H as [nh r4] H4.
  destruct (Z.of_nat NTC_MAX_HEADERS <? nh) eqn:Lh; [done|].
  binv H as [hs r5] H5. binv H as [np r6] H6.
  destruct (Z.of_nat NTC_MAX_PARAMS <? np) eqn:Lp; [done|].
  binv H as [ps r7] H7. binv H as [s r8] H8. binv H as [sc r9] H9. binv H as [b r10] H10.
  destruct (r_err r10) eqn:E10; [done|]. simplify_eq. walk. unwalk.
  assert (Z.of_nat (length hs) = nh /\ Z.of_nat (length ps) = np) as [Ehs Eps]
    by (apply andb_true_iff in Hv2 as [Eps _], Hv3 as [? _], Hv4 as [Ehs _], Hv5 as [? _];
        apply Nat.eqb_eq in Eps, Ehs; lia).
  apply Z.ltb_ge in Lh, Lp.
  split; [|split; [done|exists (drop (r_off r10) buf)]].
  - unfold wire_request. cbn. unfold NTC_MAX_HEADERS, NTC_MAX_PARAMS in *.
    rewrite !andb_true_iff in *. rewrite !Nat.leb_le in *. rewrite !Nat.eqb_eq in *.
    repeat match goal with H : _ /\ _ |- _ => destruct H end. split_and!; done || lia.
  - etransitivity; [exact Hd8|]. rewrite Hd7, Hd6, Hd5, Hd4, Hd3, Hd2, Hd1, Hd0, Hd.
    unfold request_spec. cbn. by rewrite Ehs, Eps, <- !app_assoc.
Qed.

Lemma encode_response_ex_encodes status ctype body headers out cap :
  0 <= status < 2 ^ 16 -> (cap <= length out)%nat -> ok32 body = true ->
  encodes (ntc_wire_encode_response_ex status ctype body headers out cap) out cap
    (ok16 ctype && ok16 headers) (response_ex_spec status ctype body headers).
Proof.
  intros Hs Hcap Hb. unfold ntc_wire_encode_response_ex. encoder (fun w => w_u16 w (u16 status)).
  - by rewrite !andb_true_r.
  - unfold response_ex_spec, enc32. apply Z.ltb_lt in Hb.
    rewrite u16_id by done. rewrite u32_id by lia. by rewrite app_nil_r, <- !app_assoc.
Qed.

Lemma encode_response_encodes status ctype body out cap :
  0 <= status < 2 ^ 16 -> (cap <= length out)%nat -> ok32 body = true ->
  encodes (ntc_wire_encode_response status ctype body out cap) out cap
    (ok16 ctype) (put_u16 status ++ enc16 ctype ++ enc32 body).
Proof.
  intros Hs Hcap Hb. unfold ntc_wire_encode_response. encoder (fun w => w_u16 w (u16 status)).
  - by rewrite !andb_true_r.
  - unfold enc32. apply Z.ltb_lt in Hb.
    rewrite u16_id by done. rewrite u32_id by lia. by rewrite app_nil_r.
Qed.

Lemma decode_response_ex_spec status ctype body headers :
  0 <= status < 2 ^ 16 -> ok16 ctype = true -> ok32 body = true -> ok16 headers = true ->
  ntc_wire_decode_response_ex (response_ex_spec status ctype body headers)
    = Some (Some (status, ctype, body, headers)) /\
  ntc_wire_decode_response_ex (put_u16 status ++ enc16 ctype ++ enc32 body)
    = Some (Some (status, ctype, body, [])) /\
  forall trailer, ntc_wire_decode_response (put_u16 status ++ enc16 ctype ++ enc32 body ++ trailer)
    = Some (Some (status, ctype, body)).
Proof.
  intros Hs Hc Hb Hh. split_and!.
  - unfold ntc_wire_decode_response_ex.
    pose proof (rrep_start (response_ex_spec status ctype body headers)) as H.
    rewrite <- (app_nil_r (response_ex_spec _ _ _ _)) in H at 3.
    unfold response_ex_spec in H at 3. rewrite <- !app_assoc in H.
    read_step (reads_u16 _ Hs). read_step (reads_slice16 _ Hc). read_step (reads_slice32 _ Hb).
    match goal with H : rrep ?r _ |- _ => destruct (rrep_drop _ _ _ H) as [Hle _] end.
    unfold enc16 in Hle. rewrite length_app, length_put_u16 in Hle.
    rewrite (proj2 (Nat.ltb_lt _ _)) by lia.
    read_step (reads_slice16 _ Hh).
    by match goal with H : rrep ?r [] |- _ => destruct H as (_ & -> & _) end.
  - unfold ntc_wire_decode_response_ex.
    pose proof (rrep_start (put_u16 status ++ enc16 ctype ++ enc32 body)) as H.
    rewrite <- (app_nil_r (enc32 body)) in H at 3.
    read_step (reads_u16 _ Hs). read_step (reads_slice16 _ Hc). read_step (reads_slice32 _ Hb).
    match goal with H : rrep ?r [] |- _ =>
      destruct H as ([_ Hl] & He & Hd); apply (f_equal length) in Hd end.
    rewrite length_drop in Hd. simpl in Hd.
    rewrite (proj2 (Nat.ltb_ge _ _)) by lia. bind. by rewrite He.
  - intros trailer. unfold ntc_wire_decode_response.
    pose proof (rrep_start (put_u16 status ++ enc16 ctype ++ enc32 body ++ trailer)) as H.
    read_step (reads_u16 _ Hs). read_step (reads_slice16 _ Hc). read_step (reads_slice32 _ Hb).
    by match goal with H : rrep ?r trailer |- _ => destruct H as (_ & -> & _) end.
Qed.

(** Frames: what [ntc_wire_read_frame] sees of a header that was just written. *)
Lemma read_frame_written type request_id payload rest :
  is_byte type -> 0 <= request_id < 2 ^ 32 -> ok32 payload = true ->
  ntc_wire_read_frame
    (ntc_wire_write_header type request_id (Z.of_nat (length payload)) ++ payload ++ rest) =
  Some (FrameOk (WireHeader NTC_WIRE_VERSION type request_id (Z.of_nat (length payload)))
          payload (NTC_WIRE_HEADER_LEN + length payload)).
Proof.
  intros Ht Hr Hp. apply Z.ltb_lt in Hp.
  set (h := ntc_wire_write_header type request_id (Z.of_nat (length payload))).
  assert (length h = 16%nat) as Hh by done.
  assert (forall i, (i < 16)%nat -> (h ++ payload ++ rest) !! i = h !! i) as Hi
    by (intros; by apply lookup_app_l; rewrite Hh).
  assert (get_u32 (h ++ payload ++ rest) 0 = Some NTC_WIRE_MAGIC) as E0
    by (by apply (get_put_u32 NTC_WIRE_MAGIC _ (drop 4 (h ++ payload ++ rest)))).
  assert (get_u32 (h ++ payload ++ rest) 8 = Some request_id) as E8
    by (by apply (get_put_u32 request_id _ (drop 12 (h ++ payload ++ rest)))).
  assert (get_u32 (h ++ payload ++ rest) 12 = Some (Z.of_nat (length payload))) as E12
    by (by apply (get_put_u32 (Z.of_nat (length payload)) _ (payload ++ rest)); [lia|]).
  assert (h !! 4%nat = Some NTC_WIRE_VERSION /\ h !! 5%nat = Some type) as [H4 H5]
    by (split; [done|unfold h, ntc_wire_write_header; cbn; by rewrite u8_id]).
  unfold ntc_wire_read_frame. rewrite E0, E8, E12, !Hi, H4, H5 by lia. bind.
  rewrite !length_app, Hh. unfold NTC_WIRE_HEADER_LEN.
  rewrite (proj2 (Nat.ltb_ge _ _)) by lia.
  change (version_ok NTC_WIRE_VERSION) with true. rewrite Z.eqb_refl. cbn [negb].
  rewrite (proj2 (Z.ltb_ge _ _)), Nat2Z.id by lia.
  rewrite mem_range_Some by (rewrite !length_app; lia). bind.
  replace 16%nat with (length h) at 1. rewrite drop_app_length, take_app_length. done.
Qed.

Lemma lookup_app_Some (l k : bytes) i x : l !! i = Some x -> (l ++ k) !! i = Some x.
Proof. apply lookup_app_l_Some. Qed.

Lemma get_u32_app l k i v : get_u32 l i = Some v -> get_u32 (l ++ k) i = Some v.
Proof. unfold get_u32. intros. opt_inv. by repeat (erewrite lookup_app_Some by done; bind). Qed.

Lemma mem_range_app l k off n r : mem_range l off n = Some r -> mem_range (l ++ k) off n = Some r.
Proof.
  intros H. destruct (mem_range_inv _ _ _ _ H) as (Hle & -> & _).
  rewrite mem_range_Some by (rewrite length_app; lia). f_equal.
  rewrite drop_app_le, take_app_le by (rewrite ?length_drop; lia). done.
Qed.

Lemma read_frame_app buf more r :
  ntc_wire_read_frame buf = Some r -> r <> FrameIncomplete ->
  ntc_wire_read_frame (buf ++ more) = Some r.
Proof.
  unfold ntc_wire_read_frame. intros H Hr. rewrite length_app.
  destruct (Nat.ltb_spec (length buf) NTC_WIRE_HEADER_LEN); [by simplify_eq|].
  rewrite (proj2 (Nat.ltb_ge _ _)) by lia.
  binv H as m Hm. rewrite (get_u32_app _ _ _ _ Hm). bind. destruct (negb (m =? _)); [done|].
  binv H as v Hv. rewrite (lookup_app_Some _ _ _ _ Hv). bind. destruct (negb (version_ok v)); [done|].
  binv H as n Hn. rewrite (get_u32_app _ _ _ _ Hn). bind.
  destruct (Z.ltb_spec (Z.of_nat (length buf)) (Z.of_nat NTC_WIRE_HEADER_LEN + n)); [by simplify_eq|].
  rewrite (proj2 (Z.ltb_ge _ _)) by lia.
  binv H as t Ht. binv H as rid Hid. binv H as p Hp.
  by rewrite (lookup_app_Some _ _ _ _ Ht), (get_u32_app _ _ _ _ Hid), (mem_range_app _ _ _ _ _ Hp).
Qed.

Lemma parse_header_total buf : (NTC_WIRE_HEADER_LEN <= length buf)%nat -> is_Some (ntc_wire_parse_header buf).
Proof.
  change NTC_WIRE_HEADER_LEN with 16%nat. intros Hl. unfold ntc_wire_parse_header.
  destruct (get_u32_safe buf 0) as [m ->]; [lia|]. bind. case_match; [by eexists|].
  destruct (lookup_lt_is_Some_2 buf 4) as [v ->]; [lia|]. bind. case_match; [by eexists|].
  destruct (lookup_lt_is_Some_2 buf 5) as [t ->]; [lia|]. bind.
  destruct (get_u32_safe buf 8) as [rid ->]; [lia|]. bind.
  destruct (get_u32_safe buf 12) as [len ->]; [lia|]. bind. by eexists.
Qed.

Lemma read_frame_safe buf :
  bytes_ok buf -> exists r, ntc_wire_read_frame buf = Some r /\
    match r with
    | FrameOk h p n => n = (NTC_WIRE_HEADER_LEN + length p)%nat /\ (n <= length buf)%nat /\
                       wh_length h = Z.of_nat (length p) /\ version_ok (wh_version h) = true
    | _ => True
    end.
Proof.
  intros Hb. unfold ntc_wire_read_frame, NTC_WIRE_HEADER_LEN.
  destruct (Nat.ltb_spec (length buf) 16); [by eexists|].
  destruct (get_u32_safe buf 0) as [m ->]; [lia|]. bind. destruct (negb (m =? _)); [by eexists|].
  destruct (lookup_lt_is_Some_2 buf 4) as [v ->]; [lia|]. bind.
  destruct (version_ok v) eqn:Ev; cbn [negb]; [|by eexists].
  destruct (get_u32_safe buf 12) as [n En]; [lia|]. rewrite En. bind.
  apply get_u32_inv in En as [Hn _]; [|done].
  destruct (Z.ltb_spec (Z.of_nat (length buf)) (Z.of_nat 16 + n)); [by eexists|].
  destruct (lookup_lt_is_Some_2 buf 5) as [t ->]; [lia|]. bind.
  destruct (get_u32_safe buf 8) as [rid ->]; [lia|]. bind.
  destruct (mem_range buf 16 (Z.to_nat n)) as [p|] eqn:Ep; [|by rewrite mem_range_Some in Ep by lia].
  apply mem_range_inv in Ep as (_ & _ & Hl). bind. eexists; split; [done|].
  split_and!; cbn [wh_length wh_version]; lia || done.
Qed.

(** Payloads of the streaming and WebSocket messages. *)
Lemma encode_response_begin_encodes status flags ctype out cap :
  0 <= status < 2 ^ 16 -> is_byte flags -> (cap <= length out)%nat ->
  encodes (ntc_wire_encode_response_begin status flags ctype out cap) out cap
    (ok16 ctype) (put_u16 status ++ flags :: enc16 ctype).
Proof.
  intros Hs Hf Hcap. unfold ntc_wire_encode_response_begin. encoder (fun w => w_u16 w (u16 status)).
  - by rewrite andb_true_r.
  - rewrite u16_id by done. by rewrite app_nil_r.
Qed.

Lemma encode_chunk_encodes data out cap :
  ok32 data = true -> (cap <= length out)%nat ->
  encodes (ntc_wire_encode_chunk data out cap) out cap true (enc32 data).
Proof.
  intros Hd Hcap. unfold ntc_wire_encode_chunk. apply Z.ltb_lt in Hd.
  encoder (fun w => w_u32 w (u32 (Z.of_nat (length data)))); [done|].
  rewrite u32_id by lia. by rewrite app_nil_r.
Qed.

Lemma encode_ws_msg_encodes opcode data out cap :
  is_byte opcode -> ok32 data = true -> (cap <= length out)%nat ->
  encodes (ntc_wire_encode_ws_msg opcode data out cap) out cap true (opcode :: enc32 data).
Proof.
  intros Ho Hd Hcap. unfold ntc_wire_encode_ws_msg. apply Z.ltb_lt in Hd.
  encoder (fun w => w_u8 w opcode); [done|]. rewrite u32_id by lia. by rewrite app_nil_r.
Qed.

Lemma encode_ws_close_encodes code out cap :
  0 <= code < 2 ^ 16 -> (cap <= length out)%nat ->
  encodes (ntc_wire_encode_ws_close code out cap) out cap true (put_u16 code).
Proof.
  intros Hc Hcap. unfold ntc_wire_encode_ws_close. encoder (fun w => w_u16 w code); [done|].
  by rewrite app_nil_r.
Qed.

(** The buffer of a decoder that reads a whole payload. *)
Lemma rrep_whole buf : rrep (RBuf buf (length buf) 0 false) (buf ++ []).
Proof. rewrite app_nil_r. apply rrep_start. Qed.

Ltac decoder_done := by match goal with H : rrep ?r [] |- _ => destruct H as (_ & -> & _) end.

Lemma decode_stream_specs :
  (forall status flags ctype, 0 <= status < 2 ^ 16 -> is_byte flags -> ok16 ctype = true ->
     ntc_wire_decode_response_begin (put_u16 status ++ flags :: enc16 ctype)
     = Some (Some (status, flags, ctype))) /\
  (forall data, ok32 data = true -> ntc_wire_decode_chunk (enc32 data) = Some (Some data)) /\
  (forall opcode data, ok32 data = true ->
     ntc_wire_decode_ws_msg (opcode :: enc32 data) = Some (Some (opcode, data))) /\
  (forall code, 0 <= code < 2 ^ 16 -> ntc_wire_decode_ws_close (put_u16 code) = Some (Some code)).
Proof.
  split_and!.
  - intros status flags ctype Hs Hf Hc. unfold ntc_wire_decode_response_begin.
    change (flags :: enc16 ctype) with ([flags] ++ enc16 ctype).
    pose proof (rrep_whole (put_u16 status ++ [flags] ++ enc16 ctype)) as H.
    rewrite <- !app_assoc in H.
    read_step (reads_u16 _ Hs). read_step (reads_u8 flags). read_step (reads_slice16 _ Hc). decoder_done.
  - intros data Hd. unfold ntc_wire_decode_chunk. pose proof (rrep_whole (enc32 data)) as H.
    read_step (reads_slice32 _ Hd). decoder_done.
  - intros opcode data Hd. unfold ntc_wire_decode_ws_msg.
    change (opcode :: enc32 data) with ([opcode] ++ enc32 data).
    pose proof (rrep_whole ([opcode] ++ enc32 data)) as H. rewrite <- !app_assoc in H.
    read_step (reads_u8 opcode). read_step (reads_slice32 _ Hd). decoder_done.
  - intros code Hc. unfold ntc_wire_decode_ws_close. pose proof (rrep_whole (put_u16 code)) as H.
    read_step (reads_u16 _ Hc). decoder_done.
Qed.

Lemma rwf_start buf : rwf (RBuf buf (length buf) 0 false).
Proof. apply rrep_start. Qed.

(** A decoder is safe when its first read is and the rest is, wherever it starts. *)
Ltac decoder_safe :=
  repeat first
    [ progress bind | by eexists
    | apply rsafe_bind; [solve [eauto with wire]|done|intros ? ? ?]
    | case_match ].

(** Every decoder returns on every byte string. *)
Lemma decoders_safe buf :
  is_Some (ntc_wire_decode_request buf) /\ is_Some (ntc_wire_decode_response buf) /\
  is_Some (ntc_wire_decode_response_ex buf) /\ is_Some (ntc_wire_decode_response_begin buf) /\
  is_Some (ntc_wire_decode_chunk buf) /\ is_Some (ntc_wire_decode_ws_msg buf) /\
  is_Some (ntc_wire_decode_ws_close buf).
Proof.
  pose proof (rwf_start buf).
  split_and!; [unfold ntc_wire_decode_request|unfold ntc_wire_decode_response|
    unfold ntc_wire_decode_response_ex|unfold ntc_wire_decode_response_begin|
    unfold ntc_wire_decode_chunk|unfold ntc_wire_decode_ws_msg|unfold ntc_wire_decode_ws_close];
  decoder_safe.
Qed.

(** A request for the witnesses. *)
Definition sample_request : ntc_request :=
  Request (bs "POST") (bs "/api/users/7") (bs "/api/users/7") (bs "v=1") 1
    [Header (bs "Host") (bs "a.test")] [Header (bs "id") (bs "7")] (bs "u1") (bs "read")
    true 2 (bs "{}").

(** ** The properties *)

(** The request encoder writes the grammar: into any caller's buffer it leaves
    [request_spec] of the request with at most 64 headers and 8 parameters, and returns its
    length, exactly when every 16-bit field fits and the payload fits the capacity; it
    returns -1 otherwise.  It stores nothing outside the buffer. *)
Theorem encode_request_correct req out cap :
  (cap <= length out)%nat -> ok32 (body req) = true ->
  encodes (ntc_wire_encode_request req out cap) out cap
    (wire_request (clip req)) (request_spec (clip req)).
Proof. apply encode_request_encodes. Qed.

Lemma encode_request_correct_witness :
  (100 <= length (replicate 128 0))%nat /\ ok32 (body sample_request) = true /\
  encodes (ntc_wire_encode_request sample_request (replicate 128 0) 100) (replicate 128 0) 100
    (wire_request (clip sample_request)) (request_spec (clip sample_request)).
Proof.
  split; [cbn; lia|]. split; [reflexivity|].
  apply (encode_request_correct sample_request (replicate 128 0) 100); [cbn; lia|reflexivity].
Defined.

(** C25. The request decoder accepts exactly the grammar: on any buffer of bytes it returns a
    request if and only if the buffer starts with the encoding of that request and the
    request is one the format carries. *)
Theorem decode_request_iff buf req :
  bytes_ok buf ->
  ntc_wire_decode_request buf = Some (Some req) <->
  wire_request req = true /\ received req = req /\ exists rest, buf = request_spec req ++ rest.
Proof.
  intros Hb. split; [by apply decode_request_inv|]. intros (Hw & Hr & rest & ->).
  by rewrite decode_request_spec, Hr.
Qed.

Lemma decode_request_iff_witness :
  let buf := request_spec sample_request ++ [1; 2] in
  bytes_ok buf /\
  (ntc_wire_decode_request buf = Some (Some (received sample_request)) <->
   wire_request (received sample_request) = true /\
   received (received sample_request) = received sample_request /\
   exists rest, buf = request_spec (received sample_request) ++ rest).
Proof.
  intros buf. assert (bytes_ok buf) as H by (apply (bool_decide_unpack _); vm_compute; exact I).
  split; [exact H|]. exact (decode_request_iff buf (received sample_request) H).
Defined.

(** A request survives the wire: whatever the gateway manages to encode, the controller
    decodes to the same method, path, query, headers, parameters, principal and body. *)
Theorem request_roundtrip req out cap :
  (cap <= length out)%nat -> wire_request req = true -> (length (request_spec req) <= cap)%nat ->
  exists out', ntc_wire_encode_request req out cap = Some (out', Z.of_nat (length (request_spec req))) /\
    ntc_wire_decode_request (take (length (request_spec req)) out') = Some (Some (received req)).
Proof.
  intros Hcap Hw Hfit. pose proof (wire_request_fields req Hw) as (_ & _ & _ & _ & _ & _ & _ & _ & _ & Hb).
  pose proof (encode_request_encodes req out cap Hcap Hb) as E. rewrite clip_wire in E by done.
  destruct (encodes_take _ _ _ _ _ E Hw Hfit) as (out' & E1 & E2). exists out'. split; [done|].
  rewrite E2, <- (app_nil_r (request_spec req)). by apply decode_request_spec.
Qed.

Lemma request_roundtrip_witness :
  exists out', ntc_wire_encode_request sample_request (replicate 128 0) 100
               = Some (out', Z.of_nat (length (request_spec sample_request))) /\
    ntc_wire_decode_request (take (length (request_spec sample_request)) out')
    = Some (Some (received sample_request)).
Proof.
  apply (request_roundtrip sample_request (replicate 128 0) 100);
    [cbn; lia|reflexivity|vm_compute; lia].
Defined.

(** A response survives the wire, and the extended format is compatible both ways: the
    extended decoder reads a plain payload as one without extra headers, and the plain
    decoder ignores the trailing headers. *)
Theorem response_roundtrip status ctype body headers out cap :
  (cap <= length out)%nat -> 0 <= status < 2 ^ 16 ->
  ok16 ctype = true -> ok32 body = true -> ok16 headers = true ->
  (length (response_ex_spec status ctype body headers) <= cap)%nat ->
  let n := length (response_ex_spec status ctype body headers) in
  let m := length (put_u16 status ++ enc16 ctype ++ enc32 body) in
  exists out' out'', ntc_wire_encode_response_ex status ctype body headers out cap
                     = Some (out', Z.of_nat n) /\
    ntc_wire_encode_response status ctype body out cap = Some (out'', Z.of_nat m) /\
    ntc_wire_decode_response_ex (take n out') = Some (Some (status, ctype, body, headers)) /\
    ntc_wire_decode_response_ex (take m out'') = Some (Some (status, ctype, body, [])) /\
    ntc_wire_decode_response (take n out') = Some (Some (status, ctype, body)).
Proof.
  intros Hcap Hs Hc Hb Hh Hfit n m.
  destruct (decode_response_ex_spec status ctype body headers Hs Hc Hb Hh) as (D1 & D2 & D3).
  assert (m <= cap)%nat by (unfold m, n, response_ex_spec in *; rewrite !length_app in *; lia).
  destruct (encodes_take _ _ _ _ _ (encode_response_ex_encodes status ctype body headers out cap
    Hs Hcap Hb)) as (o1 & E1 & T1); [by rewrite Hc, Hh|done|].
  destruct (encodes_take _ _ _ _ _ (encode_response_encodes status ctype body out cap Hs Hcap Hb))
    as (o2 & E2 & T2); [done|done|].
  exists o1, o2. unfold n, m. rewrite T1, T2. split_and!; try done.
  unfold response_ex_spec. apply D3.
Qed.

Lemma response_roundtrip_witness :
  exists out' out'', ntc_wire_encode_response_ex 200 (bs "text/plain") (bs "hi") (bs "X: 1")
      (replicate 64 0) 64 = Some (out', 26) /\
    ntc_wire_encode_response 200 (bs "text/plain") (bs "hi") (replicate 64 0) 64 = Some (out'', 20) /\
    ntc_wire_decode_response_ex (take 26 out')
    = Some (Some (200, bs "text/plain", bs "hi", bs "X: 1")) /\
    ntc_wire_decode_response_ex (take 20 out'') = Some (Some (200, bs "text/plain", bs "hi", [])) /\
    ntc_wire_decode_response (take 26 out') = Some (Some (200, bs "text/plain", bs "hi")).
Proof.
  apply (response_roundtrip 200 (bs "text/plain") (bs "hi") (bs "X: 1") (replicate 64 0) 64);
    try reflexivity; try lia; vm_compute; lia.
Defined.

(** Frames: the reader recovers the frame a peer wrote, whatever follows it in the
    buffer, and its verdict never changes as more bytes arrive. *)
Theorem frame_roundtrip type request_id payload rest :
  is_byte type -> 0 <= request_id < 2 ^ 32 -> ok32 payload = true ->
  (ntc_wire_read_frame
     (ntc_wire_write_header type request_id (Z.of_nat (length payload)) ++ payload ++ rest) =
   Some (FrameOk (WireHeader NTC_WIRE_VERSION type request_id (Z.of_nat (length payload)))
           payload (NTC_WIRE_HEADER_LEN + length payload))) /\
  forall buf more r, ntc_wire_read_frame buf = Some r -> r <> FrameIncomplete ->
    ntc_wire_read_frame (buf ++ more) = Some r.
Proof. intros. split; [by apply read_frame_written|apply read_frame_app]. Qed.

Lemma frame_roundtrip_witness :
  (ntc_wire_read_frame
     (ntc_wire_write_header NTC_MSG_RESPONSE 4097 (Z.of_nat (length [1; 2; 3])) ++ [1; 2; 3] ++ [9]) =
   Some (FrameOk (WireHeader NTC_WIRE_VERSION NTC_MSG_RESPONSE 4097 3) [1; 2; 3] 19)) /\
  forall buf more r, ntc_wire_read_frame buf = Some r -> r <> FrameIncomplete ->
    ntc_wire_read_frame (buf ++ more) = Some r.
Proof.
  apply (frame_roundtrip NTC_MSG_RESPONSE 4097 [1; 2; 3] [9]);
    [unfold is_byte, NTC_MSG_RESPONSE; lia|lia|reflexivity].
Defined.

(** C36. Streamed responses and WebSocket traffic survive the wire: each payload an encoder
    produces decodes to the values it was given. *)
Theorem stream_roundtrip status flags ctype opcode data code out cap :
  0 <= status < 2 ^ 16 -> is_byte flags -> ok16 ctype = true -> is_byte opcode ->
  ok32 data = true -> 0 <= code < 2 ^ 16 ->
  (cap <= length out)%nat -> (5 + length ctype + length data <= cap)%nat ->
  (exists o n, ntc_wire_encode_response_begin status flags ctype out cap = Some (o, Z.of_nat n) /\
     ntc_wire_decode_response_begin (take n o) = Some (Some (status, flags, ctype))) /\
  (exists o n, ntc_wire_encode_chunk data out cap = Some (o, Z.of_nat n) /\
     ntc_wire_decode_chunk (take n o) = Some (Some data)) /\
  (exists o n, ntc_wire_encode_ws_msg opcode data out cap = Some (o, Z.of_nat n) /\
     ntc_wire_decode_ws_msg (take n o) = Some (Some (opcode, data))) /\
  (exists o n, ntc_wire_encode_ws_close code out cap = Some (o, Z.of_nat n) /\
     ntc_wire_decode_ws_close (take n o) = Some (Some code)).
Proof.
  intros Hs Hf Hc Ho Hd Hcode Hcap Hfit.
  destruct decode_stream_specs as (D1 & D2 & D3 & D4).
  assert (length (put_u16 status ++ flags :: enc16 ctype) = 5 + length ctype)%nat
    by (rewrite length_app; unfold enc16; cbn; by rewrite length_app).
  assert (length (enc32 data) = 4 + length data)%nat by (unfold enc32; by rewrite length_app).
  split_and!.
  - destruct (encodes_take _ _ _ _ _ (encode_response_begin_encodes status flags ctype out cap Hs Hf Hcap))
      as (o & E & T); [done|lia|]. eexists o, _. split; [exact E|]. rewrite T. by apply D1.
  - destruct (encodes_take _ _ _ _ _ (encode_chunk_encodes data out cap Hd Hcap))
      as (o & E & T); [done|lia|]. eexists o, _. split; [exact E|]. rewrite T. by apply D2.
  - destruct (encodes_take _ _ _ _ _ (encode_ws_msg_encodes opcode data out cap Ho Hd Hcap))
      as (o & E & T); [done|simpl; lia|]. eexists o, _. split; [exact E|]. rewrite T. by apply D3.
  - destruct (encodes_take _ _ _ _ _ (encode_ws_close_encodes code out cap Hcode Hcap))
      as (o & E & T); [done|rewrite length_put_u16; lia|].
    eexists o, _. split; [exact E|]. rewrite T. by apply D4.
Qed.

Lemma stream_roundtrip_witness :
  (exists o n, ntc_wire_encode_response_begin 200 2 (bs "text/plain") (replicate 64 0) 64
               = Some (o, Z.of_nat n) /\
     ntc_wire_decode_response_begin (take n o) = Some (Some (200, 2, bs "text/plain"))) /\
  (exists o n, ntc_wire_encode_chunk [1; 2] (replicate 64 0) 64 = Some (o, Z.of_nat n) /\
     ntc_wire_decode_chunk (take n o) = Some (Some [1; 2])) /\
  (exists o n, ntc_wire_encode_ws_msg 1 [1; 2] (replicate 64 0) 64 = Some (o, Z.of_nat n) /\
     ntc_wire_decode_ws_msg (take n o) = Some (Some (1, [1; 2]))) /\
  (exists o n, ntc_wire_encode_ws_close 1000 (replicate 64 0) 64 = Some (o, Z.of_nat n) /\
     ntc_wire_decode_ws_close (take n o) = Some (Some 1000)).
Proof.
  apply (stream_roundtrip 200 2 (bs "text/plain") 1 [1; 2] 1000 (replicate 64 0) 64);
    try reflexivity; try (unfold is_byte; lia); vm_compute; lia.
Defined.

(** No payload makes a decoder read outside its buffer: every decoder, and the frame
    reader, returns on every byte string. *)
Theorem decoders_total buf :
  is_Some (ntc_wire_decode_request buf) /\ is_Some (ntc_wire_decode_response buf) /\
  is_Some (ntc_wire_decode_response_ex buf) /\ is_Some (ntc_wire_decode_response_begin buf) /\
  is_Some (ntc_wire_decode_chunk buf) /\ is_Some (ntc_wire_decode_ws_msg buf) /\
  is_Some (ntc_wire_decode_ws_close buf).
Proof. apply decoders_safe. Qed.
