(* ===== verification/HttpRequest.v ===== *)
(** * The HTTP request parser (src/common/http_request.c)

    The parser walks the buffer by index; every byte it reads is a lookup that is [None]
    outside the buffer.  Slices of the request are the bytes they view. *)
From S2P Require Import Prelude Err Slice Http.
Open Scope Z_scope.

(** http_request.c:5 [NTC_MAX_HEADER_BYTES] *)
Definition NTC_MAX_HEADER_BYTES : nat := 32 * 1024.

(** http_request.c:15-16 [find_eoh, condition]. The bytes of [pat] at [i], compared left to
    right as [&&] does. *)
Fixpoint match_at (buf : bytes) (i : nat) (pat : bytes) : option bool :=
  match pat with
  | [] => Some true
  | c :: pat => x ← buf !! i; if x =? c then match_at buf (S i) pat else Some false
  end.

(** http_request.c:7-11 [find_crlf]. The scan of [p, e). *)
Fixpoint find_crlf (fuel : nat) (buf : bytes) (p e : nat) : option (option nat) :=
  match fuel with
  | O => None
  | S f =>
      if (p + 1 <? e)%nat then
        hit ← match_at buf p crlf;
        if hit : bool then Some (Some p) else find_crlf f buf (S p) e
      else Some None
  end.

(** http_request.c:13-19 [find_eoh] *)
Fixpoint find_eoh (fuel : nat) (buf : bytes) (len i : nat) : option (option nat) :=
  match fuel with
  | O => None
  | S f =>
      if (i + 4 <=? len)%nat then
        hit ← match_at buf i (crlf ++ crlf);
        if hit : bool then Some (Some i) else find_eoh f buf len (S i)
      else Some None
  end.

(** http_request.c:21-23 [lc] *)
Definition lc (c : Z) : Z := if (65 <=? c) && (c <=? 90) then c - 65 + 97 else c.

(** http_request.c:28-30 [islabel_eq, loop] *)
Fixpoint label_loop (a b : bytes) : bool :=
  match a, b with
  | x :: a, y :: b => if lc x =? lc y then label_loop a b else false
  | _, _ => true
  end.

(** http_request.c:25-31 [islabel_eq] *)
Definition islabel_eq (a : ntc_slice) (b : bytes) : bool :=
  if negb (length a =? length (cstr b))%nat then false else label_loop a (cstr b).

(** http_request.c:33-43 [is_tchar] *)
Definition is_tchar (c : Z) : bool :=
  if ((97 <=? c) && (c <=? 122)) || ((65 <=? c) && (c <=? 90)) || ((48 <=? c) && (c <=? 57))
  then true else bool_decide (c ∈ bs "!#$%&'*+-.^_`|~").

(** http_request.c:45-50 [is_token] *)
Definition is_token (s : ntc_slice) : bool :=
  if (length s =? 0)%nat then false else forallb is_tchar s.

(** http_request.c:69-71 [ntc_http_parse_request, memchr]. [memchr(p + i, c, n)] as an index
    of the buffer. *)
Definition memchr_at (c : Z) (buf : bytes) (i n : nat) : option (option nat) :=
  r ← mem_range buf i n; Some (Nat.add i <$> memchr c r).

(** http_request.c:116-123 [ntc_http_parse_request, Content-Length loop]. [None] is a
    parse error: a byte that is not a digit, or a [size_t] overflow. *)
Fixpoint parse_content_length (s : bytes) (cl : Z) : option Z :=
  match s with
  | [] => Some cl
  | ch :: s =>
      if (ch <? 48) || (57 <? ch) then None else
      let '(e, cl) := ntc_size_mul cl 10 in
      if decide (e <> NTC_OK) then None else
      let '(e, cl) := ntc_size_add cl (ch - 48) in
      if decide (e <> NTC_OK) then None else
      parse_content_length s cl
  end.

(** http_request.c:114-128 [ntc_http_parse_request, Content-Length]. What one header does
    to [has_content_length] and [content_length]; [None] is a parse error. *)
Definition note_content_length (name value : ntc_slice) (st : bool * Z) : option (bool * Z) :=
  if islabel_eq name (bs "content-length") then
    if (length value =? 0)%nat then None else
    cl ← parse_content_length value 0;
    let '(has, old) := st in
    if has && negb (old =? cl) then None else Some (true, cl)
  else Some st.

(** http_request.c:97-130 [ntc_http_parse_request, header loop]. The inner [None] is
    [NTC_PARSE_ERROR]. *)
Fixpoint parse_headers (fuel : nat) (buf : bytes) (eoh cur : nat) (hs : list ntc_header)
    (st : bool * Z) : option (option (list ntc_header * (bool * Z))) :=
  match fuel with
  | O => None
  | S f =>
      if negb (cur <? eoh)%nat then Some (Some (hs, st)) else
      le ← find_crlf (S (length buf)) buf cur (eoh + 2);
      match le with
      | None => Some None
      | Some le =>
          colon ← memchr_at 58 buf cur (le - cur);
          match colon with
          | None => Some None
          | Some colon =>
              name ← mem_range buf cur (colon - cur);
              raw ← mem_range buf (colon + 1) (le - (colon + 1));
              value ← ntc_slice_trim raw;
              if negb (is_token name) then Some None else
              if (NTC_MAX_HEADERS <=? length hs)%nat then Some None else
              match note_content_length name value st with
              | None => Some None
              | Some st => parse_headers f buf eoh (le + 2) (hs ++ [Header name value]) st
              end
          end
      end
  end.

(** http_request.c:85-93 [ntc_http_parse_request, query split] *)
Definition split_target (target : ntc_slice) : ntc_slice * ntc_slice :=
  match memchr 63 target with
  | Some q => (take q target, drop (q + 1) target)
  | None => (target, [])
  end.

(** http_request.c:65-83 [ntc_http_parse_request, request line]. From the request line at
    the head of the buffer: the method, the target, the minor version, and the index of
    the line's end; the inner [None] is [NTC_PARSE_ERROR]. *)
Definition parse_request_line (buf : bytes) (eoh : nat)
    : option (option (ntc_slice * ntc_slice * Z * nat)) :=
  rl ← find_crlf (S (length buf)) buf 0 (eoh + 2);
  match rl with None => Some None | Some rl =>
  sp1 ← memchr_at 32 buf 0 rl;
  match sp1 with None => Some None | Some sp1 =>
  sp2 ← memchr_at 32 buf (sp1 + 1) (rl - (sp1 + 1));
  match sp2 with None => Some None | Some sp2 =>
  method ← mem_range buf 0 sp1;
  target ← mem_range buf (sp1 + 1) (sp2 - (sp1 + 1));
  version ← mem_range buf (sp2 + 1) (rl - (sp2 + 1));
  if negb (is_token method) then Some None else
  if (length target =? 0)%nat then Some None else
  if negb (length version =? 8)%nat then Some None else
  v7 ← mem_range version 0 7;
  if negb (memeq v7 (bs "HTTP/1.")) then Some None else
  d ← version !! 7%nat;
  if negb (d =? 48) && negb (d =? 49) then Some None else
  Some (Some (method, target, d - 48, rl))
  end end end.

(** http.h:37-41 [ntc_parse_result]. The three results of the parser; the request and
    [*consumed] are what it leaves on [NTC_PARSE_OK]. *)
Inductive parse_outcome :=
  | ParseError
  | ParseIncomplete
  | ParseOk (req : ntc_request) (consumed : nat).

(** http_request.c:52-134 [ntc_http_parse_request] *)
Definition ntc_http_parse_request (buf : bytes) : option parse_outcome :=
  eoh ← find_eoh (S (length buf)) buf (length buf) 0;
  match eoh with
  | None =>
      Some (if (NTC_MAX_HEADER_BYTES <? length buf)%nat then ParseError else ParseIncomplete)
  | Some eoh =>
      let consumed := (eoh + 4)%nat in
      line ← parse_request_line buf eoh;
      match line with
      | None => Some ParseError
      | Some (method, target, minor, rl) =>
          let '(path, query) := split_target target in
          hs ← parse_headers (S (length buf)) buf eoh (rl + 2) [] (false, 0);
          match hs with
          | None => Some ParseError
          | Some (headers, (has_cl, cl)) =>
              body ← mem_range buf consumed (length buf - consumed);
              Some (ParseOk (Request method target path query minor headers [] [] []
                               has_cl cl body) consumed)
          end
      end
  end.

(** http_request.c:137-139 [ntc_http_header, loop]. The first entry whose name satisfies
    [p], as the two lookups below search. *)
Fixpoint find_header (p : ntc_slice -> bool) (hs : list ntc_header) : option ntc_slice :=
  match hs with
  | [] => None
  | h :: hs => if p (h_name h) then Some (h_value h) else find_header p hs
  end.

(** http_request.c:136-141 [ntc_http_header]. [None] is the NULL slice. *)
Definition ntc_http_header (req : ntc_request) (name : bytes) : option ntc_slice :=
  find_header (fun n => islabel_eq n name) (headers req).

(** http_request.c:143-148 [ntc_req_param] *)
Definition ntc_req_param (req : ntc_request) (name : bytes) : option ntc_slice :=
  find_header (fun n => ntc_slice_eq n (ntc_slice_cstr name)) (params req).

(** http_request.c:157-157 [ntc_req_query, inner loop]. The end of the segment at [i]. *)
Fixpoint query_segment_end (fuel : nat) (p : bytes) (i : nat) : option nat :=
  match fuel with
  | O => None
  | S f =>
      if (i <? length p)%nat then
        c ← p !! i; if c =? 38 then Some i else query_segment_end f p (S i)
      else Some i
  end.

(** http_request.c:155-166 [ntc_req_query, loop] *)
Fixpoint query_loop (fuel : nat) (p name : bytes) (i : nat) : option (option ntc_slice) :=
  match fuel with
  | O => None
  | S f =>
      if negb (i <? length p)%nat then Some None else
      stop ← query_segment_end (S (length p)) p i;
      eq ← memchr_at 61 p i (stop - i);
      hit ← match eq with
            | None => Some None
            | Some e =>
                let klen := (e - i)%nat in
                if (klen =? length name)%nat then
                  k ← mem_range p i klen;
                  if memeq k name then
                    v ← mem_range p (e + 1) (stop - (e + 1)); Some (Some v)
                  else Some None
                else Some None
            end;
      match hit with
      | Some v => Some (Some v)
      | None => query_loop f p name (stop + 1)
      end
  end.

(** http_request.c:150-168 [ntc_req_query] *)
Definition ntc_req_query (req : ntc_request) (name : bytes) : option (option ntc_slice) :=
  query_loop (S (length (query req))) (query req) (cstr name) 0.

Example parse_get :
  let buf := bs "GET /a?k=v HTTP/1.1" ++ crlf ++ bs "Host: x" ++ crlf ++ crlf ++ bs "rest" in
  ntc_http_parse_request buf =
  Some (ParseOk (Request (bs "GET") (bs "/a?k=v") (bs "/a") (bs "k=v") 1
     [Header (bs "Host") (bs "x")] [] [] [] false 0 (bs "rest")) 32).
Proof. vm_compute. reflexivity. Qed.

(** ** The grammar of a request head *)

(** One header line: the name, a colon, white space around the value, and the line end. *)
Definition header_line (h : ntc_header) (l : bytes) : Prop :=
  exists pre post, l = h_name h ++ [58] ++ pre ++ h_value h ++ post ++ crlf /\
    Forall is_space pre /\ Forall is_space post.

(** The decimal number a string of digits denotes. *)
Fixpoint dec_value (s : bytes) (acc : Z) : Z :=
  match s with [] => acc | c :: s => dec_value s (acc * 10 + (c - 48)) end.
Definition is_digit (c : Z) : bool := (48 <=? c) && (c <=? 57).
Definition decimal (s : bytes) (v : Z) : Prop :=
  s <> [] /\ forallb is_digit s = true /\ dec_value s 0 = v /\ 0 <= v <= SIZE_MAX.

(** The effect of a list of headers on the content length. *)
Fixpoint note_all (hs : list ntc_header) (st : bool * Z) : option (bool * Z) :=
  match hs with
  | [] => Some st
  | h :: hs => st ← note_content_length (h_name h) (h_value h) st; note_all hs st
  end.

Definition is_content_length (h : ntc_header) : bool := islabel_eq (h_name h) (bs "content-length").

(** The text of a request whose headers are written one per line as [name: value]. *)
Definition render_header (h : ntc_header) : bytes := h_name h ++ [58; 32] ++ h_value h ++ crlf.
Definition render_request (method target : bytes) (minor : Z) (hs : list ntc_header) (body : bytes)
    : bytes :=
  (method ++ [32] ++ target ++ [32] ++ bs "HTTP/1." ++ [48 + minor] ++ crlf) ++
  concat (render_header <$> hs) ++ crlf ++ body.

(** The pieces [render_request] can carry: the text has no line end or separator in it. *)
Definition clean_header (h : ntc_header) : bool :=
  is_token (h_name h) && bool_decide (13 ∉ h_value h) &&
  bool_decide (ntc_slice_trim (h_value h) = Some (h_value h)).
Definition clean_line (method target : bytes) (minor : Z) : bool :=
  is_token method && bool_decide (32 ∉ target) && bool_decide (13 ∉ target) &&
  negb (length target =? 0)%nat && ((minor =? 0) || (minor =? 1)).

(** A line end at an index of the buffer. *)
Definition crlf_at (buf : bytes) (i : nat) : Prop :=
  buf !! i = Some 13 /\ buf !! S i = Some 10.

(** The end of the head: the first empty line. *)
Record head_end (buf : bytes) (eoh : nat) : Prop := HeadEnd {
  he_first : crlf_at buf eoh;
  he_second : crlf_at buf (S (S eoh));
  he_minimal : forall j, (j < eoh)%nat -> ~ (crlf_at buf j /\ crlf_at buf (S (S j))) }.

(** What the parser promises of an accepted request. *)
Record parsed (buf : bytes) (req : ntc_request) (n : nat) : Prop := Parsed {
  p_text : exists lines,
    buf = (method req ++ [32] ++ target req ++ [32] ++ bs "HTTP/1." ++ [48 + minor_version req] ++ crlf)
          ++ concat lines ++ crlf ++ body req /\
    Forall2 header_line (headers req) lines;
  p_consumed : (n + length (body req) = length buf)%nat;
  p_end : exists eoh, n = (eoh + 4)%nat /\ head_end buf eoh;
  p_method : is_token (method req) = true;
  p_target : target req <> [] /\ (path req, query req) = split_target (target req);
  p_minor : minor_version req = 0 \/ minor_version req = 1;
  p_headers : Forall (fun h => is_token (h_name h)) (headers req) /\
              (length (headers req) <= NTC_MAX_HEADERS)%nat;
  p_length : has_content_length req = existsb is_content_length (headers req) /\
    Forall (fun h => is_content_length h = true -> decimal (h_value h) (content_length req))
      (headers req) /\
    (has_content_length req = false -> content_length req = 0);
  p_unset : params req = [] /\ auth_sub req = [] /\ auth_scope req = [] }.

(** The same request with another body. *)
Definition with_body (req : ntc_request) (b : bytes) : ntc_request :=
  Request (method req) (target req) (path req) (query req) (minor_version req) (headers req)
    (params req) (auth_sub req) (auth_scope req) (has_content_length req) (content_length req) b.

(** Text lines: no line end inside, and not empty. *)
Definition text_line (l : bytes) : Prop := (13 ∉ l) /\ l <> [].

(** A rendered header without its line end. *)
Definition header_text (h : ntc_header) : bytes := h_name h ++ [58; 32] ++ h_value h.

(** The query string as a list of [&]-separated segments, and the value of the first one
    that reads [name=value]: the reference for [ntc_req_query]. *)
Definition segment_value (name seg : bytes) : option bytes :=
  e ← memchr 61 seg; if memeq (take e seg) name then Some (drop (S e) seg) else None.
Fixpoint first_value (name : bytes) (segs : list bytes) : option bytes :=
  match segs with
  | [] => None
  | seg :: segs => match segment_value name seg with Some v => Some v | None => first_value name segs end
  end.

(** ** Lemmas: the scans *)

Lemma match_at_spec buf i pat :
  (i + length pat <= length buf)%nat ->
  match_at buf i pat = Some (bool_decide (take (length pat) (drop i buf) = pat)).
Proof.
  revert i. induction pat as [|c pat IH]; intros i Hl; cbn [match_at length] in *; [done|].
  destruct (lookup_lt_is_Some_2 buf i) as [x Hx]; [lia|]. rewrite Hx. bind.
  rewrite (drop_S _ x) by done. cbn [take]. destruct (Z.eqb_spec x c) as [->|Hne].
  - rewrite IH by lia. f_equal. apply bool_decide_ext. split; [by intros ->|by intros [=]].
  - rewrite bool_decide_false; [done|]. by intros [=].
Qed.

Lemma memmem_short n s : (length s < length n)%nat -> memmem n s = None.
Proof.
  intros H. apply memmem_None. intros j E. apply (f_equal length) in E.
  rewrite length_take, length_drop in E. lia.
Qed.

Lemma memmem_cons n x s : n <> [] ->
  memmem n (x :: s) = if decide (take (length n) (x :: s) = n) then Some 0%nat else S <$> memmem n s.
Proof. done. Qed.

Lemma find_crlf_spec fuel buf p e :
  (e <= length buf)%nat -> (e - p < fuel)%nat ->
  find_crlf fuel buf p e = Some (Nat.add p <$> memmem crlf (take (e - p) (drop p buf))).
Proof.
  revert p. induction fuel as [|f IH]; intros p He Hf; [lia|]. cbn [find_crlf].
  destruct (Nat.ltb_spec (p + 1) e) as [Hlt|Hge].
  - rewrite match_at_spec by (cbn; lia). bind.
    destruct (lookup_lt_is_Some_2 buf p) as [x Hx]; [lia|]. rewrite (drop_S _ x) by done.
    replace (e - p)%nat with (S (e - S p)) by lia. cbn [take]. rewrite memmem_cons by done.
    replace (take (length crlf) (x :: take (e - S p) (drop (S p) buf)))
      with (take (length crlf) (x :: drop (S p) buf))
      by (replace (e - S p)%nat with (S (e - S p - 1)) by lia; by destruct (drop (S p) buf)).
    case_bool_decide; case_decide; try done; [cbn; f_equal; f_equal; lia|].
    rewrite IH by lia. f_equal. rewrite <- option_fmap_compose. apply option_fmap_ext. intros k. cbn. lia.
  - rewrite memmem_short; [done|]. rewrite length_take. cbn. lia.
Qed.

Lemma find_eoh_spec fuel buf i :
  (length buf - i < fuel)%nat ->
  find_eoh fuel buf (length buf) i = Some (Nat.add i <$> memmem (crlf ++ crlf) (drop i buf)).
Proof.
  revert i. induction fuel as [|f IH]; intros i Hf; [lia|]. cbn [find_eoh].
  destruct (Nat.leb_spec (i + 4) (length buf)) as [Hle|Hgt].
  - rewrite match_at_spec by (cbn; lia). bind.
    destruct (lookup_lt_is_Some_2 buf i) as [x Hx]; [lia|].
    rewrite !(drop_S _ x) by done. rewrite memmem_cons by done.
    case_bool_decide; case_decide; try done; [cbn; f_equal; f_equal; lia|].
    rewrite IH by lia. f_equal. rewrite <- option_fmap_compose. apply option_fmap_ext. intros k. cbn. lia.
  - rewrite memmem_short; [done|]. rewrite length_drop. cbn. lia.
Qed.

Lemma take1_at (s : bytes) n i a l :
  take (S n) (drop i s) = a :: l <-> s !! i = Some a /\ take n (drop (S i) s) = l.
Proof.
  destruct (s !! i) as [x|] eqn:Hx.
  - rewrite (drop_S _ x) by done. cbn [take]. split; [by intros [= -> ->]|by intros [[= ->] ->]].
  - apply lookup_ge_None in Hx. rewrite drop_ge by done. by split; [|intros []].
Qed.

Lemma crlf_at_take buf i : take 2 (drop i buf) = crlf <-> crlf_at buf i.
Proof. unfold crlf_at, crlf. rewrite !take1_at. cbn. tauto. Qed.

Lemma eoh_at_take buf i :
  take 4 (drop i buf) = crlf ++ crlf <-> crlf_at buf i /\ crlf_at buf (S (S i)).
Proof. unfold crlf_at, crlf. cbn [app]. rewrite !take1_at. cbn. tauto. Qed.

Lemma crlf_at_lt buf i : crlf_at buf i -> (S i < length buf)%nat.
Proof. intros [_ H]. by apply lookup_lt_Some in H. Qed.

Lemma find_eoh_Some buf eoh :
  find_eoh (S (length buf)) buf (length buf) 0 = Some (Some eoh) <-> head_end buf eoh.
Proof.
  rewrite find_eoh_spec by lia. rewrite drop_0. cbn [Nat.add].
  replace (Nat.add 0 <$> memmem (crlf ++ crlf) buf) with (memmem (crlf ++ crlf) buf)
    by (by destruct (memmem _ _)).
  split.
  - intros [= H]. apply memmem_Some in H as [(a & b & E & Hl) Hn].
    assert (take 4 (drop eoh buf) = crlf ++ crlf) as Ht by (by rewrite E, <- Hl, drop_app_length).
    apply eoh_at_take in Ht as []. split; [done|done|].
    intros j Hj Hc. apply (Hn j Hj). by apply eoh_at_take.
  - intros [H1 H2 Hm]. f_equal. apply memmem_Some. split.
    + exists (take eoh buf), (drop 4 (drop eoh buf)). split.
      * rewrite <- (take_drop eoh buf) at 1. f_equal. rewrite <- (take_drop 4 (drop eoh buf)) at 1.
        f_equal. by apply eoh_at_take.
      * apply crlf_at_lt in H1. rewrite length_take. lia.
    + intros j Hj Ht. apply (Hm j Hj). by apply eoh_at_take.
Qed.

(** Before the end of the head there is always a next line end, and the line after it
    starts before the end of the head, or is the empty line itself. *)
Lemma next_line buf eoh cur :
  head_end buf eoh -> (cur <= eoh)%nat ->
  exists le, find_crlf (S (length buf)) buf cur (eoh + 2) = Some (Some le) /\
    (cur <= le)%nat /\ crlf_at buf le /\ (forall j, (cur <= j < le)%nat -> ~ crlf_at buf j) /\
    (le = eoh \/ le + 2 < eoh)%nat.
Proof.
  intros [H1 H2 Hm] Hle. pose proof (crlf_at_lt _ _ H2).
  rewrite find_crlf_spec by lia. set (s := take _ _).
  assert (forall j, (cur + j <= eoh)%nat -> take 2 (drop j s) = take 2 (drop (cur + j) buf)) as Hs.
  { intros j Hj. unfold s. rewrite skipn_firstn_comm, drop_drop, take_take. f_equal. lia. }
  destruct (memmem crlf s) as [k|] eqn:Ek.
  - pose proof Ek as Es. apply memmem_Some in Ek as [(a & b & E & <-) Hn].
    assert (length a + 2 + length b = eoh + 2 - cur)%nat as Hlen.
    { rewrite <- (length_take_le (drop cur buf) (eoh + 2 - cur)) by (rewrite length_drop; lia).
      fold s. rewrite E, !length_app. cbn. lia. }
    exists (cur + length a)%nat. cbn [fmap option_fmap option_map].
    assert (crlf_at buf (cur + length a)) as Hc.
    { apply crlf_at_take. rewrite <- Hs by lia. by rewrite E, drop_app_length. }
    split_and!; [done|lia|done| |].
    + intros j Hj Hcj. apply (Hn (j - cur)%nat); [lia|].
      apply crlf_at_take in Hcj. change (length crlf) with 2%nat. rewrite Hs by lia.
      by replace (cur + (j - cur))%nat with j by lia.
    + destruct (decide (cur + length a = eoh)%nat) as [|Hne]; [by left|]. right.
      assert (cur + length a <> eoh - 1)%nat.
      { intros Heq. destruct Hc as [_ Hc]. destruct H1 as [H1 _]. rewrite Heq in Hc.
        replace (S (eoh - 1)) with eoh in Hc by lia. by simplify_eq. }
      assert (cur + length a <> eoh - 2)%nat; [|lia].
      intros Heq. apply (Hm (cur + length a)%nat); [lia|]. split; [done|].
      by replace (S (S (cur + length a))) with eoh by lia.
  - exfalso. rewrite memmem_None in Ek. apply (Ek (eoh - cur)%nat). change (length crlf) with 2%nat.
    rewrite Hs by lia. replace (cur + (eoh - cur))%nat with eoh by lia. by apply crlf_at_take.
Qed.

Lemma memchr_at_spec c buf i n :
  (i + n <= length buf)%nat ->
  memchr_at c buf i n = Some (Nat.add i <$> memchr c (take n (drop i buf))).
Proof. intros. unfold memchr_at. by rewrite mem_range_Some. Qed.

(** A line cut at its colon. *)
Lemma line_split (c : Z) (buf : bytes) i n k :
  memchr c (take n (drop i buf)) = Some k -> (i + n <= length buf)%nat ->
  (k < n)%nat /\
  take n (drop i buf) = take k (drop i buf) ++ [c] ++ take (n - S k) (drop (i + S k) buf).
Proof.
  intros Hk Hl. apply memchr_Some in Hk as (E & _ & Hlt).
  rewrite length_take, length_drop in Hlt. split; [lia|].
  rewrite E at 1. rewrite take_take, Nat.min_l by lia. cbn [app]. do 2 f_equal.
  by rewrite skipn_firstn_comm, drop_drop.
Qed.

Lemma drop_line buf cur le :
  (cur <= le)%nat -> crlf_at buf le ->
  drop cur buf = take (le - cur) (drop cur buf) ++ crlf ++ drop (le + 2) buf.
Proof.
  intros Hle Hc. rewrite <- (take_drop (le - cur) (drop cur buf)) at 1. f_equal.
  rewrite drop_drop. replace (cur + (le - cur))%nat with le by lia.
  rewrite <- (take_drop 2 (drop le buf)), drop_drop. f_equal. by apply crlf_at_take.
Qed.

Lemma parse_headers_spec fuel buf eoh cur hs st :
  head_end buf eoh -> (cur < eoh \/ cur = eoh + 2)%nat -> (eoh - cur < fuel)%nat ->
  (length hs <= 64)%nat ->
  exists r, parse_headers fuel buf eoh cur hs st = Some r /\
    forall hs' st', r = Some (hs', st') -> exists new lines, hs' = hs ++ new /\
      drop cur buf = concat lines ++ drop (eoh + 2) buf /\ Forall2 header_line new lines /\
      Forall (fun h => is_token (h_name h)) new /\ (length hs' <= 64)%nat /\
      note_all new st = Some st'.
Proof.
  intros He. revert cur hs st. induction fuel as [|f IH]; intros cur hs st Hcur Hf Hhs; [lia|].
  cbn [parse_headers]. destruct (Nat.ltb_spec cur eoh) as [Hlt|Hge]; cbn [negb].
  2: { eexists; split; [done|]. intros ? ? [= -> ->]. exists [], [].
       destruct Hcur as [?| ->]; [lia|]. rewrite app_nil_r. split_and!; try done; constructor. }
  destruct (next_line buf eoh cur He) as (le & -> & Hle & Hcr & _ & Hnext); [lia|]. bind.
  pose proof (crlf_at_lt _ _ Hcr).
  rewrite memchr_at_spec by lia. bind.
  destruct (memchr 58 _) as [k|] eqn:Ek; cbn [fmap option_fmap option_map]; [|by eexists].
  apply line_split in Ek as [Hk Hline]; [|lia].
  rewrite mem_range_Some by lia. bind. rewrite mem_range_Some by lia. bind.
  destruct (ntc_slice_trim_spec (take (le - (cur + k + 1)) (drop (cur + k + 1) buf)))
    as (value & -> & (pre & post & Eraw & Hpre & Hpost) & _). bind.
  destruct (is_token _) eqn:Etok; cbn [negb]; [|by eexists].
  unfold NTC_MAX_HEADERS. destruct (Nat.leb_spec 64 (length hs)); [by eexists|].
  destruct (note_content_length _ _ st) as [st1|] eqn:Enote; [|by eexists].
  destruct (IH (le + 2)%nat (hs ++ [Header (take (cur + k - cur) (drop cur buf)) value]) st1)
    as (r & -> & Hr); [lia|lia|rewrite length_app; cbn; lia|].
  eexists; split; [done|]. intros hs' st' Hr'.
  destruct (Hr hs' st' Hr') as (new & lines & -> & Hd & Hall & Htok & Hlen & Hn).
  exists (Header (take (cur + k - cur) (drop cur buf)) value :: new),
    ((take (le - cur) (drop cur buf) ++ crlf) :: lines).
  split_and!; [by rewrite <- app_assoc| |constructor; [|done]|constructor; [cbn [h_name]; by rewrite Etok|done]|done|].
  - cbn [concat]. rewrite <- !app_assoc, <- Hd. by apply drop_line.
  - exists pre, post. split; [|done]. rewrite Hline. cbn [h_name h_value].
    replace (cur + k - cur)%nat with k by lia.
    replace (le - cur - S k)%nat with (le - (cur + k + 1))%nat by lia.
    replace (cur + S k)%nat with (cur + k + 1)%nat by lia. rewrite Eraw.
    by rewrite <- !app_assoc.
  - cbn [note_all h_name h_value]. rewrite Enote. done.
Qed.

(** The request line. *)
Lemma parse_request_line_spec buf eoh :
  head_end buf eoh ->
  exists r, parse_request_line buf eoh = Some r /\
    forall method target minor rl, r = Some (method, target, minor, rl) ->
      buf = (method ++ [32] ++ target ++ [32] ++ bs "HTTP/1." ++ [48 + minor] ++ crlf)
            ++ drop (rl + 2) buf /\
      is_token method = true /\ target <> [] /\ (minor = 0 \/ minor = 1) /\
      (rl = eoh \/ rl + 2 < eoh)%nat.
Proof.
  intros He. unfold parse_request_line.
  destruct (next_line buf eoh 0 He) as (rl & -> & _ & Hcr & _ & Hnext); [lia|]. bind.
  pose proof (crlf_at_lt _ _ Hcr).
  rewrite memchr_at_spec by lia. bind.
  destruct (memchr 32 (take rl _)) as [k1|] eqn:E1; cbn [fmap option_fmap option_map Nat.add]; [|by eexists].
  apply line_split in E1 as [Hk1 L1]; [|lia].
  rewrite memchr_at_spec by lia. bind.
  destruct (memchr 32 _) as [k2|] eqn:E2; cbn [fmap option_fmap option_map]; [|by eexists].
  apply line_split in E2 as [Hk2 L2]; [|lia].
  rewrite !mem_range_Some by lia. bind.
  destruct (is_token _) eqn:Etok; cbn [negb]; [|by eexists].
  destruct (Nat.eqb_spec (length (take (k1 + 1 + k2 - (k1 + 1)) (drop (k1 + 1) buf))) 0) as [|Ht]; [by eexists|].
  set (version := take (rl - (k1 + 1 + k2 + 1)) (drop (k1 + 1 + k2 + 1) buf)).
  destruct (Nat.eqb_spec (length version) 8) as [Hv|]; cbn [negb]; [|by eexists].
  rewrite mem_range_Some by lia. bind.
  destruct (memeq _ _) eqn:Ev; cbn [negb]; [|by eexists]. apply memeq_true in Ev.
  destruct (lookup_lt_is_Some_2 version 7) as [d Hd]; [lia|]. rewrite Hd. bind.
  destruct (negb (d =? 48) && negb (d =? 49)) eqn:Edig; [by eexists|].
  assert (d = 48 \/ d = 49) as Hdig
    by (destruct (Z.eqb_spec d 48), (Z.eqb_spec d 49); cbn in Edig; (done || lia)).
  eexists; split; [done|]. intros ? ? ? ? [= <- <- <- <-].
  split_and!; [|done| |lia|done].
  - etransitivity; [exact (drop_line buf 0 rl (Nat.le_0_l _) Hcr)|]. rewrite Nat.sub_0_r, L1, !drop_0.
    replace (rl - S k1)%nat with (rl - (k1 + 1))%nat by lia.
    replace (0 + S k1)%nat with (k1 + 1)%nat by lia.
    rewrite L2. replace (k1 + 1 + S k2)%nat with (k1 + 1 + k2 + 1)%nat by lia.
    replace (rl - (k1 + 1) - S k2)%nat with (rl - (k1 + 1 + k2 + 1))%nat by lia. fold version.
    replace (k1 + 1 + k2 - (k1 + 1))%nat with k2 by lia.
    assert (version = bs "HTTP/1." ++ [48 + (d - 48)]) as ->; [|by rewrite <- !app_assoc].
    rewrite drop_0 in Ev. rewrite <- Ev. transitivity (take 7 version ++ drop 7 version);
      [by rewrite take_drop|]. f_equal. rewrite (drop_S _ d) by done. rewrite drop_ge by lia. f_equal. lia.
  - intros E. rewrite E in Ht. done.
Qed.

(** ** Lemmas: the content length *)

Lemma dec_value_ge s cl : 0 <= cl -> forallb is_digit s = true -> cl <= dec_value s cl.
Proof.
  revert cl. induction s as [|c s IH]; cbn [dec_value forallb]; intros cl Hcl H; [lia|].
  apply andb_true_iff in H as [Hc H]. unfold is_digit in Hc.
  apply andb_true_iff in Hc as [H1 H2]. apply Z.leb_le in H1, H2.
  pose proof (IH (cl * 10 + (c - 48)) ltac:(lia) H). lia.
Qed.

Lemma parse_content_length_spec s cl v :
  0 <= cl <= SIZE_MAX ->
  parse_content_length s cl = Some v <->
  forallb is_digit s = true /\ dec_value s cl = v /\ v <= SIZE_MAX.
Proof.
  revert cl. induction s as [|c s IH]; cbn [parse_content_length dec_value forallb]; intros cl Hcl.
  { split; [intros [= ->]; split_and!; lia || done|intros (_ & -> & _); done]. }
  unfold is_digit at 1. destruct (Z.ltb_spec c 48); cbn [orb].
  { rewrite (proj2 (Z.leb_gt _ _)) by done. split; [done|by intros [? _]]. }
  rewrite (proj2 (Z.leb_le 48 c)) by lia. destruct (Z.ltb_spec 57 c); cbn [andb].
  { rewrite (proj2 (Z.leb_gt _ _)) by done. split; [done|by intros [? _]]. }
  rewrite (proj2 (Z.leb_le c 57)) by lia. cbn [andb].
  assert (cl * 10 + (c - 48) <= SIZE_MAX -> parse_content_length s (cl * 10 + (c - 48)) = Some v <->
    forallb is_digit s = true /\ dec_value s (cl * 10 + (c - 48)) = v /\ v <= SIZE_MAX) as IH'
    by (intros; apply IH; lia).
  assert (SIZE_MAX < cl * 10 + (c - 48) ->
    ~ (forallb is_digit s = true /\ dec_value s (cl * 10 + (c - 48)) = v /\ v <= SIZE_MAX)) as Hbig.
  { intros Hb (Hd & E & ?). pose proof (dec_value_ge s (cl * 10 + (c - 48)) ltac:(lia) Hd). lia. }
  assert (forall x, 0 <= x <= SIZE_MAX -> u64 x = x) as Hu
    by (intros; apply Z.mod_small; unfold SIZE_MAX in *; lia).
  unfold ntc_size_mul, ntc_size_add. destruct (Z.leb_spec (cl * 10) SIZE_MAX).
  - rewrite decide_False by congruence. rewrite Hu by lia.
    destruct (Z.leb_spec (cl * 10 + (c - 48)) SIZE_MAX).
    + rewrite decide_False by congruence. rewrite Hu by lia. by apply IH'.
    + rewrite decide_True by done. split; [done|]. intros ?. by destruct Hbig.
  - rewrite decide_True by done. split; [done|]. intros ?. destruct Hbig; [lia|done].
Qed.

Lemma note_content_length_spec name value has old has' cl' :
  note_content_length name value (has, old) = Some (has', cl') <->
  if islabel_eq name (bs "content-length")
  then has' = true /\ decimal value cl' /\ (has = true -> old = cl')
  else has' = has /\ cl' = old.
Proof.
  unfold note_content_length, decimal. destruct (islabel_eq _ _).
  2: { split; [by intros [= -> ->]|by intros [-> ->]]. }
  assert (0 <= 0 <= SIZE_MAX) as H0 by (unfold SIZE_MAX; lia).
  destruct (Nat.eqb_spec (length value) 0) as [E|E].
  { apply nil_length_inv in E as ->. split; [done|]. by intros (_ & [] & _). }
  destruct (parse_content_length value 0) as [v|] eqn:Ev; bind.
  - apply parse_content_length_spec in Ev as (Hd & Hv & Hm); [|done].
    pose proof (dec_value_ge value 0 (Z.le_refl 0) Hd).
    destruct (Z.eqb_spec old v), has; cbn [andb negb]; split;
      (done || (intros [= <- <-]; split_and!; (done || lia || (by intros ->)))
       || (intros (-> & (_ & _ & <- & _) & Ho); rewrite <- ?Hv in *; try (by rewrite Ho in *); done)).
  - split; [done|]. intros (_ & (_ & Hd & Hv & _ & Hm) & _).
    assert (parse_content_length value 0 = Some cl') as E'; [|by rewrite E' in Ev].
    by apply parse_content_length_spec.
Qed.

(** What the headers of an accepted request say about its content length: the flag is
    set exactly when one of them is a Content-Length, and all of those agree. *)
Lemma note_all_spec hs has old has' cl :
  note_all hs (has, old) = Some (has', cl) ->
  has' = has || existsb is_content_length hs /\
  Forall (fun h => is_content_length h = true -> decimal (h_value h) cl) hs /\
  (has = true -> cl = old) /\ (has' = false -> cl = old).
Proof.
  revert has old. induction hs as [|h hs IH]; cbn [note_all existsb]; intros has old H.
  { simplify_eq. rewrite orb_false_r. split_and!; auto. }
  binv H as [has1 old1] H1. apply note_content_length_spec in H1. apply IH in H as (-> & Hall & Hh & Hn).
  destruct (islabel_eq (h_name h) _) eqn:El;
    fold (is_content_length h) in El; rewrite El.
  - destruct H1 as (-> & Hdec & Ho). specialize (Hh eq_refl) as ->. cbn [orb].
    rewrite orb_true_r. split_and!; [done| |by intros ?; symmetry; apply Ho|done].
    constructor; [done|done].
  - destruct H1 as [-> ->]. cbn [orb]. split_and!; [done| |done|done].
    constructor; [|done]. by rewrite El.
Qed.

Lemma parse_spec buf :
  exists r, ntc_http_parse_request buf = Some r /\
    forall req n, r = ParseOk req n -> parsed buf req n.
Proof.
  unfold ntc_http_parse_request.
  destruct (find_eoh (S (length buf)) buf (length buf) 0) as [[eoh|]|] eqn:Ee; bind.
  3: by rewrite find_eoh_spec in Ee by lia.
  2: { eexists; split; [done|]. intros ? ?. by case_match. }
  apply find_eoh_Some in Ee.
  destruct (parse_request_line_spec buf eoh Ee) as (line & -> & Hline). bind.
  destruct line as [[[[method target] minor] rl]|]; [|by eexists].
  destruct (Hline _ _ _ _ eq_refl) as (Hbuf & Hm & Ht & Hmin & Hrl). clear Hline.
  destruct (split_target target) as [path query] eqn:Esp.
  destruct (parse_headers_spec (S (length buf)) buf eoh (rl + 2) [] (false, 0) Ee) as (hs & -> & Hhs);
    [lia| |cbn; lia|].
  { destruct Ee as [He _ _]. apply crlf_at_lt in He. lia. }
  bind. destruct hs as [[hs [has cl]]|]; [|by eexists].
  destruct (Hhs _ _ eq_refl) as (new & lines & -> & Hd & Hall & Htok & Hlen & Hnote).
  pose proof (crlf_at_lt _ _ (he_second _ _ Ee)).
  rewrite mem_range_Some by lia. bind. eexists; split; [done|]. intros req n [= <- <-].
  apply note_all_spec in Hnote as (-> & Hcl & _ & Hcl0).
  split; cbn [Http.method Http.target Http.path Http.query minor_version headers
    has_content_length content_length body params auth_sub auth_scope]; try done.
  - exists lines. split; [|done]. rewrite Hbuf at 1. f_equal. rewrite Hd. f_equal.
    rewrite (drop_line buf (eoh + 2) (eoh + 2)) at 1; [|done|].
    + rewrite Nat.sub_diag, take_0, take_ge by (rewrite length_drop; lia).
      by replace (eoh + 4)%nat with (eoh + 2 + 2)%nat by lia.
    + replace (eoh + 2)%nat with (S (S eoh)) by lia. apply Ee.
  - rewrite length_take, length_drop. lia.
  - by exists eoh.
Qed.

(** ** Lemmas: more bytes after the buffer *)

Lemma mem_range_grow b more off n r :
  mem_range b off n = Some r -> mem_range (b ++ more) off n = Some r.
Proof.
  intros H. destruct (mem_range_inv _ _ _ _ H) as (Hle & -> & _).
  rewrite mem_range_Some by (rewrite length_app; lia). f_equal.
  by rewrite drop_app_le, take_app_le by (rewrite ?length_drop; lia).
Qed.

Lemma lookup_grow (b more : bytes) i x : b !! i = Some x -> (b ++ more) !! i = Some x.
Proof. apply lookup_app_l_Some. Qed.

Lemma match_at_grow b more i pat r : match_at b i pat = Some r -> match_at (b ++ more) i pat = Some r.
Proof.
  revert i. induction pat as [|c pat IH]; cbn [match_at]; intros i H; [done|].
  binv H as x Hx. rewrite (lookup_grow _ _ _ _ Hx). bind. destruct (x =? c); auto.
Qed.

Lemma find_crlf_grow f f' b more p e r :
  find_crlf f b p e = Some r -> (f <= f')%nat -> find_crlf f' (b ++ more) p e = Some r.
Proof.
  revert f' p. induction f as [|f IH]; intros [|f'] p H Hf; try done; try lia.
  cbn [find_crlf] in *. destruct (p + 1 <? e)%nat; [|done].
  binv H as hit Hh. rewrite (match_at_grow _ _ _ _ _ Hh). bind. destruct hit; [done|].
  apply IH; [done|lia].
Qed.

Lemma memchr_at_grow c b more i n r :
  memchr_at c b i n = Some r -> memchr_at c (b ++ more) i n = Some r.
Proof.
  unfold memchr_at. intros H. binv H as x Hx. by rewrite (mem_range_grow _ _ _ _ _ Hx).
Qed.

Lemma head_end_grow b more eoh : head_end b eoh -> head_end (b ++ more) eoh.
Proof.
  intros [H1 H2 Hm]. pose proof (crlf_at_lt _ _ H2).
  assert (forall i, (S i < length b)%nat -> crlf_at (b ++ more) i <-> crlf_at b i) as Hi.
  { intros i Hi. unfold crlf_at. by rewrite !lookup_app_l by lia. }
  split; [by apply Hi; [lia|]|by apply Hi|]. intros j Hj. rewrite !Hi by lia. by apply Hm.
Qed.

(** Rewrite every access to the longer buffer with its value on the shorter one. *)
Ltac grow :=
  repeat match goal with
  | H : mem_range ?b _ _ = Some _ |- context [mem_range (?b ++ ?more) _ _] =>
      rewrite (mem_range_grow _ more _ _ _ H); bind
  | H : memchr_at _ ?b _ _ = Some _ |- context [memchr_at _ (?b ++ ?more) _ _] =>
      rewrite (memchr_at_grow _ _ more _ _ _ H); bind
  | H : find_crlf _ ?b _ _ = Some _ |- context [find_crlf _ (?b ++ ?more) _ _] =>
      rewrite (find_crlf_grow _ _ _ more _ _ _ H) by (rewrite length_app; lia); bind
  end.

Lemma parse_request_line_grow b more eoh r :
  parse_request_line b eoh = Some r -> parse_request_line (b ++ more) eoh = Some r.
Proof.
  unfold parse_request_line. intros H.
  binv H as rl H1. grow. destruct rl as [rl|]; [|done].
  binv H as sp1 H2. grow. destruct sp1 as [sp1|]; [|done].
  binv H as sp2 H3. grow. destruct sp2 as [sp2|]; [|done].
  binv H as m H4. binv H as t H5. binv H as v H6. by grow.
Qed.

Lemma parse_headers_grow f f' b more eoh cur hs st r :
  parse_headers f b eoh cur hs st = Some r -> (f <= f')%nat ->
  parse_headers f' (b ++ more) eoh cur hs st = Some r.
Proof.
  revert f' cur hs st. induction f as [|f IH]; intros [|f'] cur hs st H Hf; try done; try lia.
  cbn [parse_headers] in *. destruct (negb _); [done|].
  binv H as le H1. grow. destruct le as [le|]; [|done].
  binv H as colon H2. grow. destruct colon as [colon|]; [|done].
  binv H as name H3. binv H as raw H4. grow. binv H as value H5. rewrite H5. bind.
  destruct (negb (is_token name)); [done|]. destruct (_ <=? _)%nat; [done|].
  destruct (note_content_length _ _ st); [|done]. apply IH; [done|lia].
Qed.

Lemma find_eoh_None buf :
  find_eoh (S (length buf)) buf (length buf) 0 = Some None <-> forall eoh, ~ head_end buf eoh.
Proof.
  split.
  - intros H eoh He. apply find_eoh_Some in He. congruence.
  - intros H. destruct (find_eoh _ _ _ _) as [[eoh|]|] eqn:E; [|done|by rewrite find_eoh_spec in E by lia].
    apply find_eoh_Some in E. by destruct (H eoh).
Qed.

Lemma parse_grow buf more r :
  ntc_http_parse_request buf = Some r ->
  match r with
  | ParseOk req n =>
      ntc_http_parse_request (buf ++ more) = Some (ParseOk (with_body req (body req ++ more)) n)
  | ParseError =>
      ntc_http_parse_request (buf ++ more) = Some ParseError \/
      ((forall eoh, ~ head_end buf eoh) /\ (NTC_MAX_HEADER_BYTES < length buf)%nat)
  | ParseIncomplete =>
      (forall eoh, ~ head_end buf eoh) /\ (length buf <= NTC_MAX_HEADER_BYTES)%nat
  end.
Proof.
  unfold ntc_http_parse_request. intros H. binv H as eoh He. destruct eoh as [eoh|].
  2: { pose proof (proj1 (find_eoh_None buf) He) as Hn.
       destruct (Nat.ltb_spec NTC_MAX_HEADER_BYTES (length buf)); injection H as <-; auto. }
  apply find_eoh_Some in He. pose proof (proj2 (find_eoh_Some _ _) (head_end_grow _ more _ He)) as He'.
  rewrite He'. bind.
  binv H as line H1. rewrite (parse_request_line_grow _ _ _ _ H1). bind.
  destruct line as [[[[m t] minor] rl]|]; [|injection H as <-; by left].
  destruct (split_target t) as [p q]. binv H as hs H2.
  erewrite parse_headers_grow by (done || (rewrite length_app; lia)). bind.
  destruct hs as [[hs [has cl]]|]; [|injection H as <-; by left].
  binv H as b Hb. injection H as <-. apply mem_range_inv in Hb as (Hle & -> & _).
  rewrite mem_range_Some by (rewrite length_app; lia). bind. unfold with_body. cbn.
  do 3 f_equal. rewrite drop_app_le by lia. rewrite !take_ge by (rewrite ?length_app, length_drop; lia).
  done.
Qed.

(** ** Lemmas: parsing a rendered request *)

Lemma trim_start_cons f x s i n :
  trim_start f (x :: s) (S i) (S n) = S <$> trim_start f s i n.
Proof.
  revert i. induction f as [|f IH]; intros i; cbn [trim_start]; [done|].
  change (S i <? S n)%nat with (i <? n)%nat. destruct (i <? n)%nat; [|done].
  cbn [lookup list_lookup]. destruct (s !! i) as [c|]; bind; [|done]. destruct (is_space c); [apply IH|done].
Qed.

Lemma trim_end_cons f x s i n r :
  trim_end f s i n = Some r -> trim_end (S f) (x :: s) (S i) (S n) = Some (S r).
Proof.
  revert n. induction f as [|f IH]; intros n H; [done|].
  change (trim_end (S (S f)) (x :: s) (S i) (S n) = Some (S r)). cbn [trim_end] in H.
  rewrite (eq_refl : trim_end (S (S f)) (x :: s) (S i) (S n) =
    if (i <? n)%nat then c ← (x :: s) !! (S n - 1)%nat;
      if is_space c then trim_end (S f) (x :: s) (S i) (S n - 1) else Some (S n) else Some (S n)).
  destruct (Nat.ltb_spec i n); [|by simplify_eq].
  replace (S n - 1)%nat with (S (n - 1)) by lia.
  change ((x :: s) !! S (n - 1)) with (s !! (n - 1)%nat). binv H as c Hc. rewrite Hc. bind. destruct (is_space c); [by apply IH|by simplify_eq].
Qed.

Lemma trim_space_value v : ntc_slice_trim v = Some v -> ntc_slice_trim (32 :: v) = Some v.
Proof.
  unfold ntc_slice_trim. intros H. binv H as i Hi. binv H as j Hj. cbn [length].
  change (trim_start (S (S (length v))) (32 :: v) 0 (S (length v)))
    with (trim_start (S (length v)) (32 :: v) 1 (S (length v))).
  rewrite trim_start_cons, Hi. bind. rewrite (trim_end_cons _ _ _ _ _ _ Hj). bind.
  destruct (mem_range_inv _ _ _ _ H) as (? & E & _).
  rewrite mem_range_Some by (cbn; lia). cbn [drop]. by rewrite Nat.sub_succ, <- E.
Qed.

Lemma is_token_no c s : is_token s = true -> is_tchar c = false -> c ∉ s.
Proof.
  unfold is_token. destruct (_ =? _)%nat; [done|]. intros H Hc Hin.
  rewrite forallb_forall in H. apply list_elem_of_In in Hin. apply H in Hin. congruence.
Qed.

Lemma is_token_nonempty s : is_token s = true -> s <> [].
Proof. by intros H ->. Qed.

(** Where line ends are in a line that has none inside. *)
Lemma crlf_at_line l rest j :
  (13 ∉ l) -> crlf_at (l ++ crlf ++ rest) j ->
  j = length l \/ (length l + 2 <= j)%nat /\ crlf_at rest (j - (length l + 2)).
Proof.
  intros Hl [H1 H2]. destruct (decide (j < length l)%nat).
  { rewrite lookup_app_l in H1 by lia. by apply list_elem_of_lookup_2 in H1. }
  rewrite lookup_app_r in H1, H2 by lia.
  destruct (decide (j = length l)) as [|Hne]; [by left|]. right.
  destruct (decide (j = S (length l))) as [->|].
  { by replace (S (length l) - length l)%nat with 1%nat in H1 by lia. }
  split; [lia|]. rewrite lookup_app_r in H1, H2 by (cbn; lia). cbn [length crlf] in *.
  split; [by replace (j - (length l + 2))%nat with (j - length l - 2)%nat by lia|].
  by replace (S (j - (length l + 2)))%nat with (S j - length l - 2)%nat by lia.
Qed.

Lemma crlf_at_front l rest : crlf_at (l ++ crlf ++ rest) (length l).
Proof.
  split; [by rewrite lookup_app_r, Nat.sub_diag by lia|].
  rewrite lookup_app_r by lia. by replace (S (length l) - length l)%nat with 1%nat by lia.
Qed.

Lemma crlf_at_skip l rest j : crlf_at (l ++ rest) (length l + j) <-> crlf_at rest j.
Proof.
  unfold crlf_at. rewrite !lookup_app_r by lia.
  replace (length l + j - length l)%nat with j by lia.
  by replace (S (length l + j) - length l)%nat with (S j) by lia.
Qed.

Lemma head_end_lines l ls rest :
  text_line l -> Forall text_line ls ->
  head_end (concat ((fun l => l ++ crlf) <$> (l :: ls)) ++ crlf ++ rest)
    (length (concat ((fun l => l ++ crlf) <$> (l :: ls))) - 2).
Proof.
  revert l. induction ls as [|l2 ls IH]; intros l [Hl Hne] Hls.
  - cbn [fmap list_fmap concat]. rewrite app_nil_r, length_app, <- app_assoc. cbn [length crlf].
    replace (length l + 2 - 2)%nat with (length l) by lia. split.
    + apply crlf_at_front.
    + rewrite app_assoc. replace (S (S (length l))) with (length (l ++ crlf) + 0)%nat
        by (rewrite length_app; cbn; lia). apply crlf_at_skip. done.
    + intros j Hj [Hc _]. apply crlf_at_line in Hc as [?|[]]; [lia|lia|done].
  - apply Forall_cons_1 in Hls as [Hl2 Hls]. specialize (IH l2 Hl2 Hls).
    rewrite fmap_cons. cbn [concat]. set (t := concat _) in *.
    assert (length t >= 3)%nat as Ht.
    { unfold t. rewrite fmap_cons. cbn [concat]. rewrite !length_app. cbn. destruct Hl2, l2; [done|cbn; lia]. }
    rewrite length_app, <- app_assoc.
    replace (length (l ++ crlf) + length t - 2)%nat with (length (l ++ crlf) + (length t - 2))%nat by lia.
    destruct IH as [H1 H2 Hm]. split.
    + by apply crlf_at_skip.
    + replace (S (S (length (l ++ crlf) + (length t - 2)))) with
        (length (l ++ crlf) + S (S (length t - 2)))%nat by lia. by apply crlf_at_skip.
    + intros j Hj [Hc1 Hc2]. rewrite <- app_assoc in Hc1, Hc2. rewrite length_app in Hj. cbn [length crlf] in Hj.
      apply crlf_at_line in Hc1 as [->|[Hge Hc1]]; [| |done].
      * apply crlf_at_line in Hc2 as [?|[_ [Hc2 _]]]; [lia| |done].
        replace (S (S (length l)) - (length l + 2))%nat with 0%nat in Hc2 by lia.
        destruct Hl2 as [Hn2 Hne2], l2 as [|y l2]; [done|]. cbn in Hc2. simplify_eq.
        apply Hn2. left.
      * apply (Hm (j - (length l + 2))%nat); [lia|]. split; [done|].
        apply crlf_at_line in Hc2 as [?|[_ Hc2]]; [lia| |done].
        by replace (S (S (j - (length l + 2)))) with (S (S j) - (length l + 2))%nat by lia.
Qed.

Lemma find_line buf eoh pre l rest :
  head_end buf eoh -> buf = pre ++ l ++ crlf ++ rest -> (13 ∉ l) ->
  (length pre + length l <= eoh)%nat ->
  find_crlf (S (length buf)) buf (length pre) (eoh + 2) = Some (Some (length pre + length l)%nat).
Proof.
  intros He -> Hl Hle. destruct (next_line _ _ (length pre) He) as (le & -> & Hge & Hc & Hn & _); [lia|].
  do 2 f_equal. replace le with (length pre + (le - length pre))%nat in Hc by lia.
  apply (proj1 (crlf_at_skip _ _ _)), crlf_at_line in Hc; [|done].
  destruct Hc as [|[Hgt _]]; [lia|]. exfalso. apply (Hn (length pre + length l)%nat); [lia|].
  apply crlf_at_skip, crlf_at_front.
Qed.

Lemma memchr_at_mid c pre x post n :
  (c ∉ x) -> (length x < n)%nat -> (n <= length (x ++ [c] ++ post))%nat ->
  memchr_at c (pre ++ x ++ [c] ++ post) (length pre) n = Some (Some (length pre + length x)%nat).
Proof.
  intros Hc Hn Hle. rewrite memchr_at_spec by (rewrite length_app; lia).
  rewrite drop_app_length, take_app_ge by lia.
  replace (n - length x)%nat with (S (n - length x - 1)) by lia. cbn [take app].
  by rewrite memchr_app.
Qed.

Lemma parse_request_line_render method target minor rest buf eoh :
  clean_line method target minor = true -> head_end buf eoh ->
  let line := method ++ [32] ++ target ++ [32] ++ bs "HTTP/1." ++ [48 + minor] in
  buf = (line ++ crlf) ++ rest -> (length line <= eoh)%nat ->
  parse_request_line buf eoh = Some (Some (method, target, minor, length line)).
Proof.
  intros Hc He line Hbuf Hle. unfold clean_line in Hc. rewrite !andb_true_iff in Hc.
  destruct Hc as ((((Hm & Ht32) & Ht13) & Htne) & Hmin).
  apply bool_decide_eq_true in Ht32, Ht13.
  assert ((32 ∉ method) /\ (13 ∉ method)) as [Hm32 Hm13] by (by split; apply is_token_no).
  assert (length line = length method + length target + 10)%nat as Hlen
    by (unfold line; rewrite !length_app; cbn; lia).
  assert (13 ∉ line) as Hl13.
  { unfold line. rewrite !not_elem_of_app. split_and!; try done.
    - apply (bool_decide_unpack _). by vm_compute.
    - apply (bool_decide_unpack _). by vm_compute.
    - apply (bool_decide_unpack _). by vm_compute.
    - apply orb_true_iff in Hmin as [E|E]; apply Z.eqb_eq in E; subst minor;
        apply (bool_decide_unpack _); by vm_compute. }
  assert (buf = method ++ [32] ++ target ++ [32] ++ (bs "HTTP/1." ++ [48 + minor]) ++ crlf ++ rest) as Hb
    by (rewrite Hbuf; unfold line; by rewrite <- !app_assoc).
  unfold parse_request_line.
  assert (find_crlf (S (length buf)) buf 0 (eoh + 2) = Some (Some (length line))) as ->
    by (apply (find_line buf eoh [] line rest He); [by rewrite Hbuf, <- app_assoc|done|done]).
  bind.
  assert (memchr_at 32 buf 0 (length line) = Some (Some (length method))) as ->.
  { rewrite Hb. apply (memchr_at_mid 32 []); [done|lia|]. rewrite Hlen, !length_app. cbn. lia. }
  bind.
  assert (memchr_at 32 buf (length method + 1) (length line - (length method + 1))
          = Some (Some (length method + 1 + length target)%nat)) as ->.
  { rewrite Hb, app_assoc. replace (length method + 1)%nat with (length (method ++ [32]))
      by (by rewrite length_app). apply memchr_at_mid; [done|rewrite length_app; cbn; lia|].
    rewrite Hlen, !length_app. cbn. lia. }
  bind.
  assert (mem_range buf 0 (length method) = Some method) as ->
    by (rewrite Hb; apply (mem_range_mid [])).
  bind.
  assert (mem_range buf (length method + 1) (length method + 1 + length target - (length method + 1))
          = Some target) as ->.
  { rewrite Hb, app_assoc. replace (length method + 1)%nat with (length (method ++ [32])) at 1
      by (by rewrite length_app).
    replace (length method + 1 + length target - (length method + 1))%nat with (length target) by lia.
    apply mem_range_mid. }
  bind.
  assert (mem_range buf (length method + 1 + length target + 1)
            (length line - (length method + 1 + length target + 1))
          = Some (bs "HTTP/1." ++ [48 + minor])) as ->.
  { assert (buf = (method ++ [32] ++ target ++ [32]) ++ (bs "HTTP/1." ++ [48 + minor]) ++ (crlf ++ rest))
      as Hb2 by (rewrite Hb; by rewrite <- !app_assoc).
    rewrite Hb2. replace (length method + 1 + length target + 1)%nat with
      (length (method ++ [32] ++ target ++ [32])) by (rewrite !length_app; cbn; lia).
    replace (length line - _)%nat with (length (bs "HTTP/1." ++ [48 + minor]))
      by (rewrite Hlen, !length_app; cbn; lia).
    apply mem_range_mid. }
  bind. rewrite Hm. cbn [negb]. apply negb_true_iff in Htne. rewrite Htne.
  apply orb_true_iff in Hmin as [E|E]; apply Z.eqb_eq in E; subst minor; reflexivity.
Qed.

Lemma render_headers_text hs :
  concat (render_header <$> hs) = concat ((fun l => l ++ crlf) <$> (header_text <$> hs)).
Proof.
  induction hs as [|h hs IH]; [done|]. rewrite !fmap_cons. cbn [concat]. rewrite IH. f_equal.
  unfold render_header, header_text. by rewrite <- !app_assoc.
Qed.

Lemma clean_header_fields h :
  clean_header h = true ->
  is_token (h_name h) = true /\ (58 ∉ h_name h) /\ (13 ∉ header_text h) /\
  ntc_slice_trim (h_value h) = Some (h_value h).
Proof.
  unfold clean_header. rewrite !andb_true_iff, !bool_decide_eq_true. intros [[Ht Hv] Htr].
  split_and!; try done; [by apply is_token_no|].
  unfold header_text. rewrite !not_elem_of_app. split_and!; [by apply is_token_no| |done].
  apply (bool_decide_unpack _). by vm_compute.
Qed.

Lemma clean_header_text h : clean_header h = true -> text_line (header_text h).
Proof.
  intros H. destruct (clean_header_fields h H) as (Ht & _ & H13 & _). split; [done|].
  unfold header_text. intros E. apply app_nil in E as [E _]. by apply (is_token_nonempty _ Ht).
Qed.

Lemma parse_headers_render f pre hs0 hs rest st st' buf eoh :
  buf = pre ++ concat (render_header <$> hs) ++ crlf ++ rest -> head_end buf eoh ->
  (length pre + length (concat (render_header <$> hs)) = eoh + 2)%nat ->
  forallb clean_header hs = true -> note_all hs st = Some st' ->
  (length hs0 + length hs <= 64)%nat -> (length hs < f)%nat ->
  parse_headers f buf eoh (length pre) hs0 st = Some (Some (hs0 ++ hs, st')).
Proof.
  revert pre hs0 hs st. induction f as [|f IH]; intros pre hs0 hs st Hbuf He Hlen Hc Hn Hmax Hf; [lia|].
  cbn [parse_headers]. destruct hs as [|h hs].
  { cbn in Hlen. rewrite (proj2 (Nat.ltb_ge _ _)) by lia. cbn [negb]. cbn in Hn. simplify_eq.
    by rewrite app_nil_r. }
  cbn [forallb note_all] in Hc, Hn. apply andb_true_iff in Hc as [Hc Hcs].
  destruct (clean_header_fields h Hc) as (Htok & H58 & H13 & Htrim). binv Hn as st1 Hn1.
  rewrite fmap_cons in *. cbn [concat] in *.
  assert (render_header h = header_text h ++ crlf) as Er
    by (unfold render_header, header_text; by rewrite <- !app_assoc).
  set (tl := concat (render_header <$> hs)) in *.
  assert (length (render_header h) = length (header_text h) + 2)%nat as Hrl
    by (by rewrite Er, length_app).
  rewrite length_app in Hlen.
  assert (hs = [] \/ 2 < length tl)%nat as Htl.
  { unfold tl. destruct hs as [|h2 hs]; [by left|right]. rewrite fmap_cons. cbn [concat].
    cbn [forallb] in Hcs. apply andb_true_iff in Hcs as [Hc2 _].
    destruct (clean_header_fields h2 Hc2) as (Ht2 & _). apply is_token_nonempty in Ht2.
    unfold render_header at 1. rewrite !length_app. cbn. destruct (h_name h2); [done|cbn; lia]. }
  assert (1 <= length (header_text h))%nat as Hht.
  { destruct (clean_header_text h Hc) as [_ Hne]. destruct (header_text h); [done|cbn; lia]. }
  assert (length pre < eoh)%nat as Hlt by lia.
  rewrite (proj2 (Nat.ltb_lt _ _)) by lia. cbn [negb].
  rewrite (find_line buf eoh pre (header_text h) (tl ++ crlf ++ rest) He);
    [|by rewrite Hbuf, Er, <- !app_assoc|done|lia]. bind.
  assert (buf = pre ++ h_name h ++ [58] ++ (32 :: h_value h) ++ crlf ++ tl ++ crlf ++ rest) as Hb2
    by (rewrite Hbuf; unfold render_header; by rewrite <- !app_assoc).
  assert (length (header_text h) = length (h_name h) + 2 + length (h_value h))%nat as Hhl
    by (unfold header_text; rewrite !length_app; cbn; lia).
  replace (length pre + length (header_text h) - length pre)%nat with (length (header_text h)) by lia.
  rewrite Hb2 at 1. rewrite memchr_at_mid; [|done|lia|rewrite Hhl, !length_app; cbn; lia]. bind.
  replace (length pre + length (h_name h) - length pre)%nat with (length (h_name h)) by lia.
  rewrite Hb2 at 1. rewrite mem_range_mid. bind.
  assert (mem_range buf (length pre + length (h_name h) + 1)
            (length pre + length (header_text h) - (length pre + length (h_name h) + 1))
          = Some (32 :: h_value h)) as ->.
  { assert (buf = (pre ++ h_name h ++ [58]) ++ (32 :: h_value h) ++ (crlf ++ tl ++ crlf ++ rest)) as Hb3
      by (rewrite Hb2; by rewrite <- !app_assoc).
    rewrite Hb3. replace (length pre + length (h_name h) + 1)%nat with (length (pre ++ h_name h ++ [58]))
      by (rewrite !length_app; cbn; lia).
    replace (_ - _)%nat with (length (32 :: h_value h)) by (rewrite Hhl, !length_app; cbn; lia).
    apply mem_range_mid. }
  bind. rewrite trim_space_value by done. bind. rewrite Htok. cbn [negb].
  cbn [length] in Hmax. unfold NTC_MAX_HEADERS. rewrite (proj2 (Nat.leb_gt _ _)) by lia. rewrite Hn1.
  replace (length pre + length (header_text h) + 2)%nat with (length (pre ++ render_header h))
    by (rewrite length_app; lia).
  rewrite (IH _ _ hs st1).
  - by rewrite <- app_assoc; destruct h.
  - by rewrite Hbuf, <- !app_assoc.
  - done.
  - fold tl. rewrite length_app. lia.
  - done.
  - done.
  - rewrite length_app. cbn. lia.
  - cbn in Hf. lia.
Qed.

Lemma parse_render method target minor hs body st :
  clean_line method target minor = true -> forallb clean_header hs = true ->
  (length hs <= NTC_MAX_HEADERS)%nat -> note_all hs (false, 0) = Some st ->
  ntc_http_parse_request (render_request method target minor hs body) =
  Some (ParseOk (Request method target (split_target target).1 (split_target target).2 minor hs
                   [] [] [] st.1 st.2 body)
          (length (render_request method target minor hs []))).
Proof.
  intros Hl Hh Hmax Hn. unfold NTC_MAX_HEADERS in Hmax.
  set (line := method ++ [32] ++ target ++ [32] ++ bs "HTTP/1." ++ [48 + minor]).
  set (buf := render_request method target minor hs body).
  assert (buf = (line ++ crlf) ++ concat (render_header <$> hs) ++ crlf ++ body) as Hbuf
    by (unfold buf, render_request, line; by rewrite <- !app_assoc).
  set (head := concat ((fun l => l ++ crlf) <$> (line :: (header_text <$> hs)))).
  assert (buf = head ++ crlf ++ body) as Hhead.
  { rewrite Hbuf, render_headers_text. unfold head. rewrite fmap_cons. cbn [concat].
    by rewrite <- !app_assoc. }
  assert (text_line line) as Htl.
  { split; [|unfold line; intros E; apply (f_equal length) in E; rewrite !length_app in E; cbn in E; lia].
    unfold clean_line in Hl. rewrite !andb_true_iff in Hl. destruct Hl as ((((Hm & _) & Ht13) & _) & Hmin).
    apply bool_decide_eq_true in Ht13. unfold line. rewrite !not_elem_of_app.
    split_and!; [by apply is_token_no| |done| | |]; try (apply (bool_decide_unpack _); by vm_compute).
    apply orb_true_iff in Hmin as [E|E]; apply Z.eqb_eq in E; subst minor;
      apply (bool_decide_unpack _); by vm_compute. }
  assert (Forall text_line (header_text <$> hs)) as Hth.
  { clear -Hh. induction hs as [|h hs IH]; [constructor|]. cbn [forallb] in Hh.
    apply andb_true_iff in Hh as [H1 H2]. rewrite fmap_cons. constructor; [by apply clean_header_text|auto]. }
  pose proof (head_end_lines line _ body Htl Hth) as He. fold head in He. rewrite <- Hhead in He.
  assert (length head = length line + 2 + length (concat (render_header <$> hs)))%nat as Hlen.
  { unfold head. rewrite fmap_cons. cbn [concat]. rewrite !length_app, render_headers_text. done. }
  unfold ntc_http_parse_request. rewrite (proj2 (find_eoh_Some _ _) He). bind.
  rewrite (parse_request_line_render method target minor
    (concat (render_header <$> hs) ++ crlf ++ body) buf _ Hl He Hbuf) by (fold line; lia).
  bind. fold line. destruct (split_target target) as [p q].
  replace (length line + 2)%nat with (length (line ++ crlf)) by (by rewrite length_app).
  rewrite (parse_headers_render _ (line ++ crlf) [] hs body (false, 0) st buf);
    [|done|done|rewrite length_app; change (length crlf) with 2%nat; lia|done|done|cbn; lia|].
  2: { rewrite Hbuf, !length_app. assert (length hs <= length (concat (render_header <$> hs)))%nat; [|lia].
       clear. induction hs as [|h hs IH]; [done|]. rewrite fmap_cons. cbn [concat]. rewrite length_app.
       unfold render_header at 1. rewrite !length_app. cbn [length crlf]. lia. }
  bind. destruct st as [has cl]. replace (length head - 2 + 4)%nat with (length (head ++ crlf))
    by (rewrite length_app; cbn [length crlf]; lia).
  replace (length buf - length (head ++ crlf))%nat with (length body)
    by (rewrite Hhead, !length_app; lia).
  assert (mem_range buf (length (head ++ crlf)) (length body) = Some body) as ->.
  { rewrite Hhead, app_assoc. rewrite <- (app_nil_r body) at 1. apply mem_range_mid. }
  bind. do 3 f_equal. unfold render_request. rewrite app_nil_r, render_headers_text.
  unfold head. rewrite fmap_cons. cbn [concat]. unfold line. by rewrite <- !app_assoc.
Qed.

(** ** Lemmas: the query string *)

Lemma query_segment_end_spec f p i :
  (i <= length p)%nat -> (length p - i < f)%nat ->
  exists k, query_segment_end f p i = Some k /\ (i <= k <= length p)%nat /\
    (38 ∉ take (k - i) (drop i p)) /\ ((k < length p)%nat -> p !! k = Some 38).
Proof.
  revert i. induction f as [|f IH]; intros i Hi Hf; [lia|]. cbn [query_segment_end].
  destruct (Nat.ltb_spec i (length p)) as [Hlt|Hge].
  - destruct (lookup_lt_is_Some_2 p i) as [c Hc]; [done|]. rewrite Hc. bind.
    destruct (Z.eqb_spec c 38) as [->|Hne].
    + exists i. rewrite Nat.sub_diag. split_and!; try done; lia || apply not_elem_of_nil.
    + destruct (IH (S i)) as (k & -> & Hk & Hn & Hl); [lia|lia|].
      exists k. split_and!; try done; [lia|lia|]. rewrite (drop_S _ c) by done.
      replace (k - i)%nat with (S (k - S i)) by lia. cbn [take]. by apply not_elem_of_cons.
  - exists i. rewrite Nat.sub_diag. split_and!; try done; lia || apply not_elem_of_nil.
Qed.

Lemma query_loop_spec f p name i :
  (length p - i < f)%nat ->
  query_loop f p name i = Some (first_value name (split_on 38 (drop i p))).
Proof.
  revert i. induction f as [|f IH]; intros i Hf; [lia|]. cbn [query_loop].
  destruct (Nat.ltb_spec i (length p)) as [Hlt|Hge]; cbn [negb].
  2: by rewrite drop_ge by lia.
  destruct (query_segment_end_spec (S (length p)) p i) as (k & -> & Hk & Hn & Hl); [lia|lia|]. bind.
  set (seg := take (k - i) (drop i p)) in *.
  assert (length seg = k - i)%nat as Hseg by (unfold seg; rewrite length_take, length_drop; lia).
  assert (first_value name (split_on 38 (drop i p)) =
          match segment_value name seg with
          | Some v => Some v
          | None => first_value name (split_on 38 (drop (k + 1) p))
          end) as ->.
  { rewrite <- (take_drop (k - i) (drop i p)). fold seg. rewrite drop_drop.
    replace (i + (k - i))%nat with k by lia.
    destruct (decide (k < length p)%nat) as [Hkl|Hkl].
    - rewrite (drop_S p 38 k) by auto. rewrite split_on_app by done. by rewrite Nat.add_1_r.
    - rewrite !(drop_ge p) by lia. by rewrite app_nil_r, split_on_none. }
  rewrite memchr_at_spec by lia. bind. fold seg. unfold segment_value.
  destruct (memchr 61 seg) as [e|] eqn:Ee; cbn [fmap option_fmap option_map]; bind.
  2: { rewrite IH by lia. done. }
  apply memchr_Some in Ee as (_ & _ & He).
  replace (i + e - i)%nat with e by lia.
  assert (mem_range p i e = Some (take e seg)) as Hm.
  { rewrite mem_range_Some by lia. unfold seg. by rewrite take_take, Nat.min_l by lia. }
  assert (mem_range p (i + e + 1) (k - (i + e + 1)) = Some (drop (S e) seg)) as Hv.
  { rewrite mem_range_Some by lia. unfold seg. rewrite skipn_firstn_comm, drop_drop.
    f_equal. f_equal; [|f_equal]; lia. }
  destruct (Nat.eqb_spec e (length name)) as [El|El].
  - rewrite Hm. bind. destruct (memeq _ _); [by rewrite Hv|]. bind. by rewrite IH by lia.
  - bind. destruct (memeq (take e seg) name) eqn:Em; [|by rewrite IH by lia].
    apply memeq_true in Em. apply (f_equal length) in Em. rewrite length_take in Em. lia.
Qed.

(** ** The properties *)

(** C4. The request parser is total and sound: on every buffer it returns without reading
    outside it, and whatever it accepts is a request head in the buffer's bytes: a method
    token, a target and an HTTP/1.0 or 1.1 version, at most 64 header lines with token names
    and trimmed values, the first empty line, and the body after it; every Content-Length is
    a decimal [size_t], and all of them agree with the one recorded. *)
Theorem parse_sound buf :
  exists r, ntc_http_parse_request buf = Some r /\
    forall req n, r = ParseOk req n -> parsed buf req n.
Proof. apply parse_spec. Qed.

(** C34. Parsing inverts rendering: a request written with one header per line, whatever its
    body, is parsed to exactly its fields, and the head's length is what is consumed. *)
Theorem parse_roundtrip method target minor hs body st :
  clean_line method target minor = true -> forallb clean_header hs = true ->
  (length hs <= NTC_MAX_HEADERS)%nat -> note_all hs (false, 0) = Some st ->
  ntc_http_parse_request (render_request method target minor hs body) =
  Some (ParseOk (Request method target (split_target target).1 (split_target target).2 minor hs
                   [] [] [] st.1 st.2 body)
          (length (render_request method target minor hs []))).
Proof. apply parse_render. Qed.

Lemma parse_roundtrip_witness :
  let hs := [Header (bs "Host") (bs "x"); Header (bs "Content-Length") (bs "2")] in
  ntc_http_parse_request (render_request (bs "POST") (bs "/a?b=c") 1 hs (bs "hi")) =
  Some (ParseOk (Request (bs "POST") (bs "/a?b=c") (bs "/a") (bs "b=c") 1 hs [] [] [] true 2 (bs "hi"))
          (length (render_request (bs "POST") (bs "/a?b=c") 1 hs []))).
Proof.
  intros hs. refine (parse_roundtrip (bs "POST") (bs "/a?b=c") 1 hs (bs "hi") (true, 2) _ _ _ _).
  - vm_compute. reflexivity.
  - vm_compute. reflexivity.
  - vm_compute. lia.
  - vm_compute. reflexivity.
Defined.

(** C35. The verdict does not depend on how the bytes arrive: more bytes only extend the body
    of an accepted request and never change an error found in a complete head; the parser
    asks for more exactly when there is no empty line yet and at most 32 KiB have come. *)
Theorem parse_incremental buf more r :
  ntc_http_parse_request buf = Some r ->
  match r with
  | ParseOk req n =>
      ntc_http_parse_request (buf ++ more) = Some (ParseOk (with_body req (body req ++ more)) n)
  | ParseError =>
      ntc_http_parse_request (buf ++ more) = Some ParseError \/
      ((forall eoh, ~ head_end buf eoh) /\ (NTC_MAX_HEADER_BYTES < length buf)%nat)
  | ParseIncomplete =>
      (forall eoh, ~ head_end buf eoh) /\ (length buf <= NTC_MAX_HEADER_BYTES)%nat
  end.
Proof. apply parse_grow. Qed.

Lemma parse_incremental_witness :
  let buf := bs "GET / HTTP/1.0" ++ crlf ++ crlf ++ bs "a" in
  let req := Request (bs "GET") (bs "/") (bs "/") [] 0 [] [] [] [] false 0 (bs "a") in
  ntc_http_parse_request (buf ++ bs "bc") = Some (ParseOk (with_body req (body req ++ bs "bc")) 18).
Proof.
  intros buf req. refine (parse_incremental buf (bs "bc") (ParseOk req 18) _).
  vm_compute. reflexivity.
Defined.

(** Query parameters: [ntc_req_query] stays inside the query string and returns the
    value of its first [&]-separated segment that reads [name=value]. *)
Theorem req_query_correct req name :
  ntc_req_query req name = Some (first_value (cstr name) (split_on 38 (query req))).
Proof. unfold ntc_req_query. rewrite query_loop_spec by lia. by rewrite drop_0. Qed.
