(* ===== verification/Middleware.v ===== *)
(** * The middleware chain (src/core/middleware.c)

    Request id, CORS, the authentication gate, the rate limiter, and the cache of signing
    keys.  What the system answers (the clock, /dev/urandom, a file, the HTTPS fetch, the
    allocator) is an argument. *)
From S2P Require Import Prelude Update Slice Double Json Crypto Jwt Http HttpRequest.
Open Scope Z_scope.

(** middleware.c:15-17 [NTC_RL_BUCKETS] *)
Definition NTC_RL_BUCKETS : Z := 1024.
Definition NTC_JWKS_MIN_REFRESH_MS : Z := 60000.
Definition NTC_JWKS_FETCH_TIMEOUT_MS : Z := 4000.

(** middleware.h:14-26 [ntc_mw_config]. The arrays by the C strings they hold. *)
Record ntc_mw_config := MwConfig {
  cf_request_id : bool; cf_access_log : bool; cf_cors_origin : bytes; cf_rate_per_sec : Z; cf_rate_burst : Z;
  cf_auth_mode : bytes; cf_auth_secret : bytes; cf_auth_protect : bytes;
  cf_auth_jwks_file : bytes; cf_auth_jwks_url : bytes; cf_auth_jwks_ca : bytes }.

(** middleware.h:54-54 [ntc_bucket] *)
Record ntc_bucket := Bucket { b_tokens : double; b_last_ms : Z }.

(** middleware.c:19-25 [ntc_mw]. [w_jwks_ca] is whether trust anchors are loaded. *)
Record ntc_mw := Mw {
  w_cfg : ntc_mw_config; w_jwks : ntc_jwks; w_jwks_ca : bool; w_last_fetch : Z; w_buckets : list ntc_bucket }.
#[export] Instance mw_settable : Settable ntc_mw := fun r =>
  Mw (w_cfg r) (w_jwks r) (w_jwks_ca r) (w_last_fetch r) (w_buckets r).

(** middleware.h:33-42 [ntc_mw_result] *)
Record ntc_mw_result := MwResult {
  r_short_circuit : bool; r_status : Z; r_content_type : bytes; r_body : bytes;
  r_extra_headers : bytes; r_request_id : bytes; r_auth_sub : bytes; r_auth_scope : bytes }.
#[export] Instance mw_result_settable : Settable ntc_mw_result := fun r =>
  MwResult (r_short_circuit r) (r_status r) (r_content_type r) (r_body r) (r_extra_headers r)
    (r_request_id r) (r_auth_sub r) (r_auth_scope r).

(** What the system answers during one call: the monotonic and the calendar clock, eight
    random bytes, whether the document's buffer is allocated, what the HTTPS fetch returns,
    and the memory of each JWT operation. *)
Record mw_env := MwEnv {
  e_mono_ms : Z; e_time : Z; e_urandom : option bytes; e_malloc : bool; e_fetch : option bytes;
  e_jwks : arena_mem; e_peek : arena_mem; e_peek2 : arena_mem; e_verify : arena_mem }.

(** middleware.c:35-45 [slurp_file]. Given what opening and reading the file gives; a file
    that fills the buffer is not at its end yet. *)
Definition slurp_file (contents : option bytes) (cap : nat) : option bytes :=
  c ← contents; if (length c <? cap - 1)%nat then Some c else None.

(** middleware.c:49-72 [mw_fetch_jwks] *)
Definition mw_fetch_jwks (e : mw_env) (m : ntc_mw) : option (bool * ntc_mw) :=
  if (length (cf_auth_jwks_url (w_cfg m)) =? 0)%nat || negb (w_jwks_ca m) then Some (false, m) else
  let m := m <| w_last_fetch := e_mono_ms e |> in
  if negb (e_malloc e) then Some (false, m) else
  match e_fetch e with
  | Some (x :: doc) =>
      fresh ← ntc_jwks_parse (e_jwks e) (x :: doc);
      Some (if (0 <? length fresh)%nat then (true, m <| w_jwks := fresh |>) else (false, m))
  | _ => Some (false, m)
  end.

(** middleware.c:76-81 [mw_maybe_refresh] *)
Definition mw_maybe_refresh (e : mw_env) (m : ntc_mw) : option ntc_mw :=
  if (length (cf_auth_jwks_url (w_cfg m)) =? 0)%nat || negb (w_jwks_ca m) then Some m else
  if negb (w_last_fetch m =? 0) && (e_mono_ms e - w_last_fetch m <? NTC_JWKS_MIN_REFRESH_MS) then Some m else
  r ← mw_fetch_jwks e m; Some (snd r).

(** middleware.c:83-105 [ntc_mw_new]. Given the key file's contents and whether trust
    anchors load. *)
Definition ntc_mw_new (e : mw_env) (file : option bytes) (ca : bool) (cfg : ntc_mw_config) : option ntc_mw :=
  let m := Mw cfg [] false 0 (replicate (Z.to_nat NTC_RL_BUCKETS) (Bucket d_zero 0)) in
  if negb (length (cf_auth_jwks_file cfg) =? 0)%nat then
    match slurp_file file 16384 with
    | Some (x :: doc) => keys ← ntc_jwks_parse (e_jwks e) (x :: doc); Some (m <| w_jwks := keys |>)
    | _ => Some m
    end
  else if negb (length (cf_auth_jwks_url cfg) =? 0)%nat then
    r ← mw_fetch_jwks e (m <| w_jwks_ca := ca |>); Some (snd r)
  else Some m.

(** middleware.c:112-122 [ntc_bucket_allow] *)
Definition ntc_bucket_allow (b : ntc_bucket) (now_ms : Z) (rate_per_sec burst : double) : bool * ntc_bucket :=
  let b := if b_last_ms b =? 0 then Bucket burst now_ms else b in
  let elapsed := d_div (d_of_Z (now_ms - b_last_ms b)) (d_of_Z 1000) in
  let b :=
    if d_lt d_zero elapsed then
      let tokens := d_add (b_tokens b) (d_mul elapsed rate_per_sec) in
      Bucket (if d_lt burst tokens then burst else tokens) now_ms
    else b in
  if d_le (d_of_Z 1) (b_tokens b) then (true, Bucket (d_sub (b_tokens b) (d_of_Z 1)) (b_last_ms b))
  else (false, b).

(** middleware.c:124-128 [hash_str] *)
Definition hash_str (s : bytes) : Z :=
  foldl (fun h c => u32 (Z.lxor h c * 16777619)) 2166136261 (cstr s).

(** middleware.c:134-135 [gen_request_id, loop]. Eight hex pairs, as far as they fit. *)
Fixpoint hex_pairs (b : bytes) (i cap : nat) : bytes :=
  match b with
  | [] => []
  | x :: b => if (2 * i + 2 <? cap)%nat then fmt_02x x ++ hex_pairs b (S i) cap else []
  end.

(** middleware.c:130-140 [gen_request_id] *)
Definition gen_request_id (urandom : option bytes) (cap : nat) : bytes :=
  match urandom with
  | Some b => hex_pairs b 0 cap
  | None => snprintf cap (bs "req-0000000000000000")
  end.

(** [off += snprintf(eh + off, cap - off, ...)]: the contents, and [off]; [None] is a write
    past the array. *)
Definition append_header (cap : nat) (eh : bytes * nat) (text : bytes) : option (bytes * nat) :=
  let '(s, off) := eh in
  if (cap <? off)%nat then None else Some (take off s ++ snprintf (cap - off) text, (off + length text)%nat).

(** middleware.c:155-159 [ntc_mw_before, CORS headers] *)
Definition cors_headers (origin : bytes) : bytes :=
  bs "Access-Control-Allow-Origin: " ++ origin ++ crlf ++
  bs "Access-Control-Allow-Methods: GET,POST,PUT,PATCH,DELETE,OPTIONS" ++ crlf ++
  bs "Access-Control-Allow-Headers: Authorization,Content-Type" ++ crlf.

Definition short (r : ntc_mw_result) (status : Z) (content_type body : bytes) : ntc_mw_result :=
  r <| r_short_circuit := true |> <| r_status := status |> <| r_content_type := content_type |> <| r_body := body |>.

Section before.
Context {E : SigEngine}.

(** middleware.c:184-201 [ntc_mw_before, jwt]. The claims of an accepted token. *)
Definition check_jwt (e : mw_env) (m : ntc_mw) (tok : bytes) : option (option ntc_jwt_claims * ntc_mw) :=
hdr ← ntc_jwt_peek_header (e_peek e) tok 16 80;
match hdr with
| None => Some (None, m)
| Some (alg, kid) =>
    if memeq alg (bs "RS256") || memeq alg (bs "ES256") then
      m ← (if negb (length (cf_auth_jwks_url (w_cfg m)) =? 0)%nat &&
              negb (bool_decide (is_Some (ntc_jwks_find (w_jwks m) kid alg)))
           then mw_maybe_refresh e m else Some m);
      if (0 <? length (w_jwks m))%nat then
        r ← ntc_jwt_verify_jwks (e_peek2 e) (e_verify e) tok (w_jwks m) (e_time e); Some (r, m)
      else Some (None, m)
    else if memeq alg (bs "HS256") && (0 <? length (cf_auth_secret (w_cfg m)))%nat then
      r ← ntc_jwt_verify_hs256 (e_verify e) tok (cf_auth_secret (w_cfg m)) (e_time e); Some (r, m)
    else Some (None, m)
end.

(** middleware.c:175-203 [ntc_mw_before, bearer]. Whether the request bears valid
  credentials, and the claims when they are a token's. *)
Definition check_bearer (e : mw_env) (m : ntc_mw) (a : bytes) : option (bool * option ntc_jwt_claims * ntc_mw) :=
if (7 <? length a)%nat && memeq (take 7 a) (bs "Bearer ") then
  let tok := drop 7 a in
  if memeq (cf_auth_mode (w_cfg m)) (bs "apikey") then
    let secret := cf_auth_secret (w_cfg m) in
    Some ((length tok =? length secret)%nat && ntc_ct_eq tok secret, None, m)
  else if memeq (cf_auth_mode (w_cfg m)) (bs "jwt") then
    '(cl, m) ← check_jwt e m tok;
    Some (bool_decide (is_Some cl), cl, m)
  else Some (false, None, m)
else Some (false, None, m).

(** middleware.c:169-171 [ntc_mw_before, gate] *)
Definition protected (cfg : ntc_mw_config) (path : bytes) (pre_authed : bool) : bool :=
(0 <? length (cf_auth_mode cfg))%nat && negb (memeq (cf_auth_mode cfg) (bs "none")) && negb pre_authed &&
((length (cf_auth_protect cfg) =? 0)%nat || ntc_slice_starts_with path (ntc_slice_cstr (cf_auth_protect cfg))).

(** middleware.c:173-202 [ntc_mw_before, credentials] *)
Definition authenticate (e : mw_env) (m : ntc_mw) (req : ntc_request) (r : ntc_mw_result)
  : option (bool * ntc_mw_result * ntc_mw) :=
'(ok, cl, m) ← check_bearer e m (default [] (ntc_http_header req (bs "authorization")));
Some (ok, match cl with
          | Some cl => r <| r_auth_sub := snprintf 128 (cl_sub cl) |> <| r_auth_scope := snprintf 256 (cl_scope cl) |>
          | None => r
          end, m).

(** middleware.c:214-224 [ntc_mw_before, rate limit] *)
Definition rate_limit (m : ntc_mw) (client_ip : bytes) (now_ms : Z) : option (bool * ntc_mw) :=
let cfg := w_cfg m in
if cf_rate_per_sec cfg <=? 0 then Some (true, m) else
let idx := Z.to_nat (hash_str client_ip mod NTC_RL_BUCKETS) in
let burst := if 0 <? cf_rate_burst cfg then cf_rate_burst cfg else cf_rate_per_sec cfg in
b ← w_buckets m !! idx;
let '(ok, b) := ntc_bucket_allow b now_ms (d_of_Z (cf_rate_per_sec cfg)) (d_of_Z burst) in
Some (ok, m <| w_buckets := <[idx := b]> (w_buckets m) |>).

(** middleware.c:142-226 [ntc_mw_before]. The result is true when a response is to be sent
  at once. *)
Definition ntc_mw_before (e : mw_env) (m : ntc_mw) (req : ntc_request) (client_ip : bytes) (now_ms : Z)
  (pre_authed : bool) : option (bool * ntc_mw_result * ntc_mw) :=
let cfg := w_cfg m in
let r := MwResult false 0 [] [] [] [] [] [] in
let rid := if cf_request_id cfg then gen_request_id (e_urandom e) 40 else [] in
eh ← (if cf_request_id cfg then append_header 512 ([], 0%nat) (bs "X-Request-Id: " ++ rid ++ crlf)
      else Some ([], 0%nat));
let cors := (0 <? length (cf_cors_origin cfg))%nat in
eh ← (if cors then append_header 512 eh (cors_headers (cf_cors_origin cfg)) else Some eh);
let r := r <| r_request_id := rid |> <| r_extra_headers := fst eh |> in
if cors && ntc_slice_eq_cstr (method req) (bs "OPTIONS") then Some (true, short r 204 (bs "text/plain") [], m) else
'(ok, r, m) ← (if protected cfg (path req) pre_authed then authenticate e m req r else Some (true, r, m));
if negb ok then Some (true, short r 401 (bs "application/json") (qs "{'error':'unauthorized'}"), m) else
'(ok, m) ← rate_limit m client_ip now_ms;
if negb (ok : bool) then Some (true, short r 429 (bs "application/json") (qs "{'error':'rate limited'}"), m)
else Some (false, r, m).
End before.

(** ** The rate limiter *)

(** The answers to [n] requests at the same time. *)
Fixpoint burst_of (n : nat) (b : ntc_bucket) (now_ms : Z) (rate burst : double) : list bool :=
  match n with
  | O => []
  | S n => let '(ok, b) := ntc_bucket_allow b now_ms rate burst in ok :: burst_of n b now_ms rate burst
  end.

Lemma bucket_same_time k now rate burst :
  now <> 0 -> 0 <= k < 2 ^ 53 ->
  ntc_bucket_allow (Bucket (d_of_Z k) now) now rate burst =
  if 1 <=? k then (true, Bucket (d_of_Z (k - 1)) now) else (false, Bucket (d_of_Z k) now).
Proof.
  intros Hn Hk. unfold ntc_bucket_allow. cbn [b_last_ms b_tokens].
  rewrite (proj2 (Z.eqb_neq now 0) Hn). cbv zeta. cbn [b_last_ms b_tokens].
  rewrite Z.sub_diag. change (d_lt d_zero (d_div (d_of_Z 0) (d_of_Z 1000))) with false. cbv iota.
  cbn [b_last_ms b_tokens]. rewrite d_le_one by done.
  destruct (Z.leb_spec 1 k); [|done]. by rewrite d_sub_one by lia.
Qed.

Lemma burst_of_tokens n k now rate burst :
  now <> 0 -> 0 <= k < 2 ^ 53 ->
  burst_of n (Bucket (d_of_Z k) now) now rate burst =
  replicate (Nat.min n (Z.to_nat k)) true ++ replicate (n - Z.to_nat k) false.
Proof.
  intros Hn. revert k. induction n as [|n IH]; intros k Hk; cbn [burst_of]; [done|].
  rewrite bucket_same_time by done. destruct (Z.leb_spec 1 k) as [H1|H0].
  - rewrite IH by lia. replace (Z.to_nat k) with (S (Z.to_nat (k - 1))) by lia. done.
  - assert (k = 0) as -> by lia. rewrite IH by lia. cbn [Z.to_nat]. rewrite Nat.min_0_r, !Nat.sub_0_r. done.
Qed.

(** ** The gate *)

Section gate.
Context {E : SigEngine} {HE : SigEngineOk}.

(** An environment whose allocator does not fail. *)
Definition env_ok (e : mw_env) : Prop :=
  e_jwks e = am_ok /\ e_peek e = am_ok /\ e_peek2 e = am_ok /\ e_verify e = am_ok.

(** The state the constructor builds, and keeps. *)
Record mw_ok (m : ntc_mw) : Prop := MwOk {
  mo_buckets : length (w_buckets m) = Z.to_nat NTC_RL_BUCKETS;
  mo_cors : (length (cf_cors_origin (w_cfg m)) < 128)%nat;
  mo_secret : bytes_ok (cf_auth_secret (w_cfg m)) }.

(** What makes a token valid: the shared secret's code, or a key of the set. *)
Definition token_valid (cfg : ntc_mw_config) (keys : ntc_jwks) (now : Z) (tok : bytes) (cl : ntc_jwt_claims) : Prop :=
  exists h p sig, tok = h ++ 46 :: p ++ 46 :: sig /\
  ((cf_auth_secret cfg <> [] /\ sig = hs256_sig (cf_auth_secret cfg) (h ++ 46 :: p) /\ says h p (bs "HS256") now cl) \/
   (exists k alg, k ∈ keys /\ signed_by k alg (h ++ 46 :: p) sig /\ says h p alg now cl)).

Definition credentials (cfg : ntc_mw_config) (keys : ntc_jwks) (now : Z) (a : bytes) : Prop :=
  exists tok, a = bs "Bearer " ++ tok /\
  ((cf_auth_mode cfg = bs "apikey" /\ tok = cf_auth_secret cfg) \/
   (cf_auth_mode cfg = bs "jwt" /\ exists cl, token_valid cfg keys now tok cl)).

Lemma ntc_jwks_parse_some am buf : exists r, ntc_jwks_parse am buf = Some r.
Proof.
  unfold ntc_jwks_parse. case_match; [eauto|].
  destruct (ntc_json_parse_some (am_first am) buf) as [r ->]. bind. eauto.
Qed.

Lemma mw_fetch_some e m :
  exists b m', mw_fetch_jwks e m = Some (b, m') /\ w_cfg m' = w_cfg m /\ w_buckets m' = w_buckets m.
Proof.
  unfold mw_fetch_jwks. case_match; [by eexists _, _|]. cbv zeta.
  case_match; [by eexists _, _|]. destruct (e_fetch e) as [[|x doc]|]; [by eexists _, _| |by eexists _, _].
  destruct (ntc_jwks_parse_some (e_jwks e) (x :: doc)) as [keys ->]. bind.
  case_match; by eexists _, _.
Qed.

Lemma mw_refresh_some e m :
  exists m', mw_maybe_refresh e m = Some m' /\ w_cfg m' = w_cfg m /\ w_buckets m' = w_buckets m.
Proof.
  unfold mw_maybe_refresh. repeat (case_match; [by eexists|]).
  destruct (mw_fetch_some e m) as (b & m' & -> & ? & ?). bind. by exists m'.
Qed.

Lemma peek_header_some am tok a b : exists r, ntc_jwt_peek_header am tok a b = Some r.
Proof.
  unfold ntc_jwt_peek_header. destruct (jwt_split tok); [|eauto].
  destruct (ntc_base64url_decode _ _) as [[|x d]|]; [eauto| |eauto].
  case_match; [eauto|]. destruct (ntc_json_parse_some (am_first am) (x :: d)) as [r ->]. bind.
  case_match; eauto.
Qed.

Lemma verify_rs256_some am tok key now : exists r, ntc_jwt_verify_rs256 am tok key now = Some r.
Proof.
  unfold ntc_jwt_verify_rs256. case_match; [eauto|]. destruct (jwt_split tok); [|eauto].
  destruct (ntc_base64url_decode _ _) as [[|x sig]|]; [eauto| |eauto]. rewrite ntc_sha256_spec. bind.
  destruct (br_rsa_pkcs1_vrfy _ _ _); [|eauto]. case_match; [eauto|]. apply jwt_parse_claims_total.
Qed.

Lemma verify_es256_some am tok q now : exists r, ntc_jwt_verify_es256 am tok q now = Some r.
Proof.
  unfold ntc_jwt_verify_es256. case_match; [eauto|]. destruct (jwt_split tok); [|eauto].
  destruct (ntc_base64url_decode _ _); [|eauto]. case_match; [eauto|]. rewrite ntc_sha256_spec. bind.
  case_match; [eauto|]. apply jwt_parse_claims_total.
Qed.

Lemma verify_jwks_some am am' tok set now : exists r, ntc_jwt_verify_jwks am am' tok set now = Some r.
Proof.
  unfold ntc_jwt_verify_jwks. destruct (peek_header_some am tok 16 80) as [[[alg kid]|] ->]; bind; [|eauto].
  destruct (ntc_jwks_find set kid alg) as [k|]; [|eauto].
  case_match; [apply verify_rs256_some|]. case_match; [apply verify_es256_some|eauto].
Qed.

(** The JWT branch: it always answers, keeps everything but the keys, and says yes only to
    a valid token. *)
Lemma check_jwt_spec e m tok :
  exists cl m', check_jwt e m tok = Some (cl, m') /\ w_cfg m' = w_cfg m /\ w_buckets m' = w_buckets m /\
    (forall c, cl = Some c -> env_ok e -> bytes_ok tok -> token_valid (w_cfg m) (w_jwks m') (e_time e) tok c).
Proof.
  unfold check_jwt. destruct (peek_header_some (e_peek e) tok 16 80) as [[[alg kid]|] ->]; bind.
  2: { by eexists _, _. }
  destruct (memeq alg (bs "RS256") || memeq alg (bs "ES256")).
  - match goal with |- context [if ?b then mw_maybe_refresh e m else Some m] =>
      assert (exists m1, (if b then mw_maybe_refresh e m else Some m) = Some m1 /\ w_cfg m1 = w_cfg m /\
        w_buckets m1 = w_buckets m) as (m1 & -> & Hc & Hb) end.
    { case_match; [apply mw_refresh_some|by exists m]. }
    bind. case_match; [|by eexists _, _].
    destruct (verify_jwks_some (e_peek2 e) (e_verify e) tok (w_jwks m1) (e_time e)) as [r Er].
    rewrite Er. bind. eexists _, _. split; [done|]. split; [done|]. split; [done|].
    intros c -> (_ & _ & H3 & H4) _. rewrite H3, H4 in Er.
    apply verify_jwks_sound in Er as (h & p & sig & alg' & kid' & k & -> & _ & Hk & _ & Hs & Hsay).
    exists h, p, sig. split; [done|]. right. by exists k, alg'.
  - destruct (memeq alg (bs "HS256") && _) eqn:Ea; [|by eexists _, _].
    destruct (verify_hs256_total (cf_auth_secret (w_cfg m)) (e_verify e) tok (e_time e)) as [r Er].
    rewrite Er. bind. eexists _, _. split; [done|]. split; [done|]. split; [done|].
    intros c -> (_ & _ & _ & H4) Hok. rewrite H4 in Er.
    apply verify_hs256_spec in Er as (h & p & _ & _ & -> & Hs); [|done].
    apply andb_true_iff in Ea as [_ Hl]. apply Nat.ltb_lt in Hl.
    exists h, p, (hs256_sig (cf_auth_secret (w_cfg m)) (h ++ 46 :: p)). split; [done|]. left.
    split; [|done]. by destruct (cf_auth_secret (w_cfg m)); [simpl in Hl; lia|].
Qed.

Lemma check_bearer_spec e m a :
  mw_ok m ->
  exists ok cl m', check_bearer e m a = Some (ok, cl, m') /\ w_cfg m' = w_cfg m /\ w_buckets m' = w_buckets m /\
    (ok = true -> env_ok e -> bytes_ok a -> credentials (w_cfg m) (w_jwks m') (e_time e) a).
Proof.
  intros Hm. unfold check_bearer. destruct (_ && _) eqn:Ea; [|by eexists _, _, _].
  apply andb_true_iff in Ea as [Hl Hb]. apply Nat.ltb_lt in Hl. apply memeq_true in Hb.
  assert (a = bs "Bearer " ++ drop 7 a) as Eq by (by rewrite <- Hb, take_drop).
  cbv zeta. destruct (memeq _ (bs "apikey")) eqn:E1; [|destruct (memeq _ (bs "jwt")) eqn:E2].
  - eexists _, _, _. split; [done|]. split; [done|]. split; [done|]. intros Hok _ Ha.
    apply andb_true_iff in Hok as [Hln Hct]. apply Nat.eqb_eq in Hln.
    rewrite ntc_ct_eq_spec in Hct by (done || apply Forall_drop, Ha || apply Hm).
    apply bool_decide_eq_true in Hct. exists (drop 7 a). split; [done|]. left.
    split; [by apply memeq_true|done].
  - destruct (check_jwt_spec e m (drop 7 a)) as (cl & m' & -> & Hc & Hbk & Hv). bind.
    eexists _, _, _. split; [done|]. split; [done|]. split; [done|]. intros Hok He Ha.
    apply bool_decide_eq_true in Hok as [c ->]. exists (drop 7 a). split; [done|]. right.
    split; [by apply memeq_true|]. exists c. apply Hv; [done|done|by apply Forall_drop].
  - by eexists _, _, _.
Qed.

Lemma append_header_fits cap s off t :
  (length s <= off)%nat -> (off <= cap)%nat ->
  exists s', append_header cap (s, off) t = Some (s', (off + length t)%nat) /\ (length s' <= off + length t)%nat.
Proof.
  intros Hs Ho. unfold append_header. rewrite (proj2 (Nat.ltb_ge cap off)) by lia.
  eexists. split; [done|]. unfold snprintf. rewrite length_app, !length_take. lia.
Qed.

Lemma length_hex_pairs b i cap : (length (hex_pairs b i cap) <= cap)%nat.
Proof.
  destruct (Nat.le_gt_cases (2 * i) cap).
  - assert (2 * i + length (hex_pairs b i cap) <= cap)%nat; [|lia].
    revert i H. induction b as [|x b IH]; intros i H; cbn [hex_pairs]; [simpl; lia|].
    destruct (Nat.ltb_spec (2 * i + 2) cap); [|simpl; lia].
    specialize (IH (S i) ltac:(lia)). rewrite length_app. simpl length. lia.
  - destruct b; cbn [hex_pairs]; [simpl; lia|]. rewrite (proj2 (Nat.ltb_ge (2 * i + 2) cap)) by lia. simpl. lia.
Qed.

Lemma length_request_id u : (length (gen_request_id u 40) <= 40)%nat.
Proof.
  unfold gen_request_id. destruct u; [apply length_hex_pairs|]. unfold snprintf. rewrite length_take. lia.
Qed.

(** The two response headers fit their buffer. *)
Lemma extra_headers_fit m rid :
  mw_ok m -> (length rid <= 40)%nat ->
  exists s off, (eh ← (if cf_request_id (w_cfg m) then append_header 512 ([], 0%nat) (bs "X-Request-Id: " ++ rid ++ crlf)
          else Some ([], 0%nat));
    (if (0 <? length (cf_cors_origin (w_cfg m)))%nat then append_header 512 eh (cors_headers (cf_cors_origin (w_cfg m)))
     else Some eh)) = Some (s, off) /\ (off < 512)%nat.
Proof.
  intros Hm Hr. assert (exists s off, (if cf_request_id (w_cfg m)
    then append_header 512 ([], 0%nat) (bs "X-Request-Id: " ++ rid ++ crlf) else Some ([], 0%nat)) = Some (s, off) /\
    (length s <= off)%nat /\ (off <= 60)%nat) as (s & off & -> & Hs & Ho).
  { case_match; [|by exists [], 0%nat; simpl; auto with lia].
    destruct (append_header_fits 512 [] 0 (bs "X-Request-Id: " ++ rid ++ crlf)) as (s & -> & Hl); [done|lia|].
    exists s, (0 + length (bs "X-Request-Id: " ++ rid ++ crlf))%nat. split; [done|]. split; [done|].
    rewrite !length_app. change (length (bs "X-Request-Id: ")) with 14%nat. simpl. lia. }
  bind. case_match; [|by exists s, off; auto with lia].
  destruct (append_header_fits 512 s off (cors_headers (cf_cors_origin (w_cfg m)))) as (s' & -> & Hl); [done|lia|].
  exists s', (off + length (cors_headers (cf_cors_origin (w_cfg m))))%nat. split; [done|].
  pose proof (mo_cors m Hm). unfold cors_headers. rewrite !length_app.
  change (length (bs "Access-Control-Allow-Origin: ")) with 29%nat.
  change (length (bs "Access-Control-Allow-Methods: GET,POST,PUT,PATCH,DELETE,OPTIONS")) with 63%nat.
  change (length (bs "Access-Control-Allow-Headers: Authorization,Content-Type")) with 56%nat.
  change (length crlf) with 2%nat. lia.
Qed.
Lemma rate_limit_some m ip now :
  mw_ok m -> exists ok m', rate_limit m ip now = Some (ok, m') /\ mw_ok m' /\ w_cfg m' = w_cfg m /\ w_jwks m' = w_jwks m.
Proof.
  intros Hm. unfold rate_limit. case_match; [by exists true, m|].
  set (idx := Z.to_nat _). assert (idx < length (w_buckets m))%nat as Hi.
  { rewrite (mo_buckets m Hm). unfold idx, NTC_RL_BUCKETS.
    pose proof (Z.mod_pos_bound (hash_str ip) 1024). lia. }
  destruct (lookup_lt_is_Some_2 _ _ Hi) as [b ->]. bind.
  destruct (ntc_bucket_allow _ _ _ _) as [ok b']. eexists _, _. split; [done|]. split; [|done].
  destruct Hm. split; unfold update; cbn; [by rewrite length_insert|done|done].
Qed.

(** After the gate: the rate limiter has its say. *)
Definition after_gate (m : ntc_mw) (r : ntc_mw_result) (ok : bool) (ip : bytes) (now : Z)
    : option (bool * ntc_mw_result * ntc_mw) :=
  if negb ok then Some (true, short r 401 (bs "application/json") (qs "{'error':'unauthorized'}"), m) else
  '(ok, m) ← rate_limit m ip now;
  if negb (ok : bool) then Some (true, short r 429 (bs "application/json") (qs "{'error':'rate limited'}"), m)
  else Some (false, r, m).

Lemma after_gate_spec m r ok ip now :
  mw_ok m -> r_status r = 0 ->
  exists stop r' m', after_gate m r ok ip now = Some (stop, r', m') /\ mw_ok m' /\ w_cfg m' = w_cfg m /\
    w_jwks m' = w_jwks m /\ (r_status r' = 401 <-> ok = false) /\ (ok = false -> stop = true).
Proof.
  intros Hm Hr. unfold after_gate. destruct ok; cbn [negb].
  - destruct (rate_limit_some m ip now Hm) as (ok & m' & -> & Hm' & Hc & Hj). bind.
    destruct ok; cbn [negb]; eexists _, _, _; (split; [done|]); split_and!; try done.
    by rewrite Hr.
  - eexists _, _, _. split; [done|]. by split_and!.
Qed.

Definition bearer (req : ntc_request) : bytes := default [] (ntc_http_header req (bs "authorization")).

Definition preflight (m : ntc_mw) (req : ntc_request) : bool :=
  (0 <? length (cf_cors_origin (w_cfg m)))%nat && ntc_slice_eq_cstr (method req) (bs "OPTIONS").

Lemma mw_before_spec e m req ip now pre :
  mw_ok m ->
  exists stop r m', ntc_mw_before e m req ip now pre = Some (stop, r, m') /\ mw_ok m' /\
    (preflight m req = false -> protected (w_cfg m) (path req) pre = true ->
     exists ok cl m1, check_bearer e m (bearer req) = Some (ok, cl, m1) /\ w_jwks m' = w_jwks m1 /\
       (r_status r = 401 <-> ok = false) /\ (ok = false -> stop = true)).
Proof.
  intros Hm. unfold ntc_mw_before. cbv zeta.
  set (rid := if cf_request_id (w_cfg m) then _ else _).
  assert (length rid <= 40)%nat as Hrid.
  { unfold rid. case_match; [apply length_request_id|simpl; lia]. }
  destruct (extra_headers_fit m rid Hm Hrid) as (s & off & Hx & _).
  apply bind_Some in Hx as (eh1 & -> & Hx). bind. rewrite Hx. bind.
  set (r0 := (MwResult false 0 [] [] [] [] [] []) <| r_request_id := _ |> <| r_extra_headers := _ |>).
  fold (preflight m req). destruct (preflight m req); [eexists _, _, _; split; [done|]; by split|].
  destruct (protected (w_cfg m) (path req) pre) eqn:Ep.
  - unfold authenticate. fold (bearer req).
    destruct (check_bearer_spec e m (bearer req) Hm) as (ok & cl & m1 & Ec & Hc & Hb & _).
    rewrite Ec. bind.
    assert (mw_ok m1) as Hm1 by (destruct Hm; split; rewrite ?Hc, ?Hb; done).
    destruct (after_gate_spec m1 (match cl with
      | Some cl => r0 <| r_auth_sub := snprintf 128 (cl_sub cl) |> <| r_auth_scope := snprintf 256 (cl_scope cl) |>
      | None => r0 end) ok ip now Hm1) as (stop & r' & m' & E2 & Hm' & _ & Hj & H401 & Hst); [by destruct cl|].
    exists stop, r', m'. split; [exact E2|]. split; [done|]. intros _ _. by exists ok, cl, m1.
  - bind. destruct (after_gate_spec m r0 true ip now Hm eq_refl) as (stop & r' & m' & E2 & Hm' & _).
    exists stop, r', m'. split; [exact E2|]. by split.
Qed.
End gate.

Lemma auth_gate_spec {E : SigEngine} {HE : SigEngineOk} e m req ip now pre :
  mw_ok m -> env_ok e -> bytes_ok (bearer req) ->
  exists stop r m', ntc_mw_before e m req ip now pre = Some (stop, r, m') /\ mw_ok m' /\
    (preflight m req = false -> protected (w_cfg m) (path req) pre = true ->
     (r_status r = 401 -> stop = true) /\
     (r_status r <> 401 -> credentials (w_cfg m) (w_jwks m') (e_time e) (bearer req)) /\
     (cf_auth_mode (w_cfg m) = bs "apikey" -> cf_auth_secret (w_cfg m) <> [] ->
      bearer req = bs "Bearer " ++ cf_auth_secret (w_cfg m) -> r_status r <> 401)).
Proof.
  intros Hm He Hb. destruct (mw_before_spec e m req ip now pre Hm) as (stop & r & m' & Er & Hm' & Hg).
  exists stop, r, m'. split; [done|]. split; [done|]. intros Hp Hpr.
  destruct (Hg Hp Hpr) as (ok & cl & m1 & Ec & Hj & H401 & Hst).
  destruct (check_bearer_spec e m (bearer req) Hm) as (ok' & cl' & m1' & Ec' & _ & _ & Hv).
  rewrite Ec in Ec'. injection Ec' as <- <- <-. split; [intros H; apply Hst, H401, H|]. split.
  - intros Hn. rewrite Hj. apply Hv; [|done|done]. destruct ok; [done|]. exfalso. by apply Hn, H401.
  - intros Hmode Hs Heq. rewrite H401. intros ->. revert Ec. unfold check_bearer. rewrite Heq.
    assert (length (bs "Bearer ") = 7%nat) as H7 by done.
    rewrite (proj2 (Nat.ltb_lt 7 _)) by (rewrite length_app, H7; destruct (cf_auth_secret (w_cfg m)); [done|simpl; lia]).
    rewrite <- H7, take_app_length, drop_app_length. unfold memeq at 1. rewrite bool_decide_true by done.
    cbn [andb]. unfold memeq. rewrite bool_decide_true by done. rewrite Nat.eqb_refl.
    rewrite ntc_ct_eq_spec by (done || apply Hm). by rewrite bool_decide_true.
Qed.

(** C6. The authentication gate.  [ntc_mw_before] always answers, within its buffers, and
    keeps its state well formed.  A request that is neither a CORS preflight nor already
    authenticated, to a path under the protected prefix, is stopped with 401 unless its
    Authorization header is [Bearer] and the API key, or (in the jwt mode) a token that is
    valid under the shared secret or a key of the set, at the present time; in the apikey
    mode the key, if there is one, is always let through. *)
Theorem auth_gate {E : SigEngine} {HE : SigEngineOk} e m req ip now pre :
  mw_ok m -> env_ok e -> bytes_ok (bearer req) ->
  exists stop r m', ntc_mw_before e m req ip now pre = Some (stop, r, m') /\ mw_ok m' /\
    (preflight m req = false -> protected (w_cfg m) (path req) pre = true ->
     (r_status r = 401 -> stop = true) /\
     (r_status r <> 401 -> credentials (w_cfg m) (w_jwks m') (e_time e) (bearer req)) /\
     (cf_auth_mode (w_cfg m) = bs "apikey" -> cf_auth_secret (w_cfg m) <> [] ->
      bearer req = bs "Bearer " ++ cf_auth_secret (w_cfg m) -> r_status r <> 401)).
Proof. apply auth_gate_spec. Qed.

Definition demo_cfg : ntc_mw_config :=
  MwConfig true false (bs "*") 10 3 (bs "apikey") (bs "k3y") (bs "/admin") [] [] [].
Definition demo_env : mw_env := MwEnv 5 6 (Some [1; 2; 3; 4; 5; 6; 7; 255]) true None am_ok am_ok am_ok am_ok.
Definition demo_mw : ntc_mw := Mw demo_cfg [] false 0 (replicate 1024 (Bucket d_zero 0)).
Definition demo_req (auth : bytes) : ntc_request :=
  Request (bs "GET") (bs "/admin/x") (bs "/admin/x") [] 1 [Header (bs "Authorization") auth] [] [] [] false 0 [].

Example before_401 :
  (fun x => (fst (fst x), r_status (snd (fst x)), r_request_id (snd (fst x)))) <$>
    @ntc_mw_before demo_engine demo_env demo_mw (demo_req (bs "Bearer nope")) (bs "10.0.0.1") 7 false =
  Some (true, 401, bs "01020304050607ff").
Proof. vm_compute. reflexivity. Qed.
Example before_ok :
  (fun x => (fst (fst x), r_status (snd (fst x)))) <$>
    @ntc_mw_before demo_engine demo_env demo_mw (demo_req (bs "Bearer k3y")) (bs "10.0.0.1") 7 false =
  Some (false, 0).
Proof. vm_compute. reflexivity. Qed.

Theorem auth_gate_witness :
  exists stop r m', @ntc_mw_before demo_engine demo_env demo_mw (demo_req (bs "Bearer k3y")) (bs "10.0.0.1") 7 false =
    Some (stop, r, m') /\ mw_ok m' /\ r_status r <> 401.
Proof.
  destruct (@auth_gate demo_engine demo_engine_ok demo_env demo_mw (demo_req (bs "Bearer k3y")) (bs "10.0.0.1") 7 false)
    as (stop & r & m' & H & Hm & Hg).
  - split; [reflexivity|simpl; lia|apply (bool_decide_unpack _); vm_compute; exact I].
  - by repeat split.
  - apply (bool_decide_unpack _). vm_compute. exact I.
  - exists stop, r, m'. split; [exact H|]. split; [exact Hm|]. apply Hg; done.
Defined.

(** A new client's burst.  At one instant the limiter lets exactly the configured
    number of requests of a client it has not seen through, and refuses every one after. *)
Theorem burst_bound n b now rate k :
  b_last_ms b = 0 -> now <> 0 -> 0 < k < 2 ^ 31 ->
  burst_of n b now rate (d_of_Z k) =
  replicate (Nat.min n (Z.to_nat k)) true ++ replicate (n - Z.to_nat k) false.
Proof.
  intros Hb Hn Hk. rewrite <- (burst_of_tokens n k now rate (d_of_Z k)) by lia.
  destruct n as [|n]; [done|]. cbn [burst_of].
  assert (forall t, ntc_bucket_allow (Bucket t 0) now rate (d_of_Z k) =
    ntc_bucket_allow (Bucket (d_of_Z k) now) now rate (d_of_Z k)) as E.
  { intros t. unfold ntc_bucket_allow. cbn [b_last_ms Z.eqb]. by rewrite (proj2 (Z.eqb_neq now 0) Hn). }
  destruct b as [t l]. cbn in Hb. subst l. by rewrite E.
Qed.

Theorem burst_bound_witness :
  burst_of 5 (Bucket d_zero 0) 1000 (d_of_Z 10) (d_of_Z 3) = [true; true; true; false; false].
Proof. apply (burst_bound 5 (Bucket d_zero 0) 1000 (d_of_Z 10) 3); [reflexivity|lia|lia]. Defined.
