(* ===== verification/Ws.v ===== *)
(** * The WebSocket handshake and frame codec (include/ntc/ws.h, src/core/ws.c)

    The gateway decodes client frames in place: the payload is unmasked inside the receive
    buffer, so the model threads the buffer.  SHA-1 is BearSSL's, a parameter. *)
From S2P Require Import Prelude.
Open Scope Z_scope.

(** ws.h:17-24 [ntc_ws_opcode] *)
Definition NTC_WS_CONT : Z := 0x0.
Definition NTC_WS_TEXT : Z := 0x1.
Definition NTC_WS_BIN : Z := 0x2.
Definition NTC_WS_CLOSE : Z := 0x8.
Definition NTC_WS_PING : Z := 0x9.
Definition NTC_WS_PONG : Z := 0xA.

(** ws.h:27 [NTC_WS_MAX_PAYLOAD] *)
Definition NTC_WS_MAX_PAYLOAD : Z := 1 * 1024 * 1024.

(** ws.c:10-11 [b64_std, T] *)
Definition b64_table : bytes := bs "ABCDEFGHIJKLMNOPQRSTUVWXYZabcdefghijklmnopqrstuvwxyz0123456789+/".

(** ws.c:13-23 [b64_std, loop]. [out] is what has been written: a character is stored
    while [o + 1 < cap]. *)
Fixpoint b64_std_loop (fuel : nat) (inp : bytes) (i cap : nat) (out : bytes) : option bytes :=
  match fuel with
  | O => None
  | S f =>
      let n := length inp in
      if negb (i <? n)%nat then Some out else
      a ← inp !! i;
      b ← (if (i + 1 <? n)%nat then inp !! (i + 1)%nat else Some 0);
      c ← (if (i + 2 <? n)%nat then inp !! (i + 2)%nat else Some 0);
      let v := Z.lor (Z.lor (a ≪ 16) (b ≪ 8)) c in
      c0 ← b64_table !! Z.to_nat (Z.land (v ≫ 18) 0x3f);
      c1 ← b64_table !! Z.to_nat (Z.land (v ≫ 12) 0x3f);
      c2 ← (if (i + 1 <? n)%nat then b64_table !! Z.to_nat (Z.land (v ≫ 6) 0x3f) else Some 61);
      c3 ← (if (i + 2 <? n)%nat then b64_table !! Z.to_nat (Z.land v 0x3f) else Some 61);
      b64_std_loop f inp (i + 3) cap (out ++ take (cap - 1 - length out) [c0; c1; c2; c3])
  end.

(** ws.c:9-25 [b64_std]. The string left in [out]. *)
Definition b64_std (inp : bytes) (cap : nat) : option bytes :=
  b64_std_loop (S (length inp)) inp 0 cap [].

Section accept.
  (** BearSSL's SHA-1 of a byte string. *)
  Variable br_sha1 : bytes -> bytes.

(** ws.c:27-36 [ntc_ws_accept_key] *)
Definition ntc_ws_accept_key (client_key : bytes) (cap : nat) : option bytes :=
  b64_std (br_sha1 (client_key ++ bs "258EAFA5-E914-47DA-95CA-C5AB0DC85B11")) cap.
End accept.

(** ws.c:55-55 [ntc_ws_decode, 64-bit length loop] *)
Fixpoint ws_len64 (n : nat) (buf : bytes) (i : nat) (plen : Z) : option Z :=
  match n with
  | O => Some plen
  | S n => b ← buf !! i; ws_len64 n buf (S i) (Z.lor (u64 (plen ≪ 8)) b)
  end.

(** ws.c:66-67 [ntc_ws_decode, unmask loop]. [n] bytes from index [i] of the payload. *)
Fixpoint ws_unmask (n : nat) (i : nat) (buf : bytes) (off : nat) (mask : bytes) : option bytes :=
  match n with
  | O => Some buf
  | S n =>
      v ← buf !! (off + i)%nat;
      m ← mask !! Z.to_nat (Z.land (Z.of_nat i) 3);
      buf ← mem_write buf (off + i) [Z.lxor v m];
      ws_unmask n (S i) buf off mask
  end.

(** ws.h:35-41 [ntc_ws_decode]. Its three results; [buf] is the buffer with the payload
    unmasked in place. *)
Inductive ws_decode_result :=
  | WsError
  | WsMore
  | WsFrame (buf : bytes) (consumed : nat) (opcode : Z) (fin : bool) (payload : bytes).

(** ws.c:45-57 [ntc_ws_decode, payload length]. The inner [None] asks for more bytes. *)
Definition ws_payload_length (buf : bytes) (b1 : Z) : option (option (Z * nat)) :=
  let len := length buf in
  let plen := Z.land b1 0x7f in
  if plen =? 126 then
    if (len <? 4)%nat then Some None else
    a ← buf !! 2%nat; b ← buf !! 3%nat; Some (Some (Z.lor (a ≪ 8) b, 4%nat))
  else if plen =? 127 then
    if (len <? 10)%nat then Some None else
    plen ← ws_len64 8 buf 2 0; Some (Some (plen, 10%nat))
  else Some (Some (plen, 2%nat)).

(** ws.c:38-72 [ntc_ws_decode] *)
Definition ntc_ws_decode (buf : bytes) : option ws_decode_result :=
  let len := length buf in
  if (len <? 2)%nat then Some WsMore else
  b0 ← buf !! 0%nat;
  b1 ← buf !! 1%nat;
  let fin := negb (Z.land b0 0x80 =? 0) in
  let opcode := Z.land b0 0x0f in
  let masked := negb (Z.land b1 0x80 =? 0) in
  l ← ws_payload_length buf b1;
  match l with
  | None => Some WsMore
  | Some (plen, off) =>
      if NTC_WS_MAX_PAYLOAD <? plen then Some WsError else
      if masked && (len <? off + 4)%nat then Some WsMore else
      mask ← (if masked then mem_range buf off 4 else Some [0; 0; 0; 0]);
      let off := if masked then (off + 4)%nat else off in
      if Z.of_nat len <? Z.of_nat off + plen then Some WsMore else
      let n := Z.to_nat plen in
      buf ← (if masked then ws_unmask n 0 buf off mask else Some buf);
      payload ← mem_range buf off n;
      Some (WsFrame buf (off + n) opcode fin payload)
  end.

(** ws.c:80-90 [ntc_ws_encode, header] *)
Definition ws_encode_header (opcode len : Z) : bytes :=
  u8 (Z.lor 0x80 (Z.land opcode 0x0f)) ::
  if 0xffff <? len then
    127 :: ((fun i => u8 (len ≫ (56 - 8 * i))) <$> [0; 1; 2; 3; 4; 5; 6; 7])
  else if 125 <? len then [126; u8 (len ≫ 8); u8 len]
  else [u8 len].

(** ws.c:74-93 [ntc_ws_encode]. The buffer after it and the returned [ssize_t]. *)
Definition ntc_ws_encode (opcode : Z) (data : bytes) (out : bytes) (cap : nat)
    : option (bytes * Z) :=
  let len := Z.of_nat (length data) in
  let hdr := if 0xffff <? len then 10%nat else if 125 <? len then 4%nat else 2%nat in
  if (cap <? hdr + length data)%nat then Some (out, -1) else
  out ← mem_write out 0 (ws_encode_header opcode len);
  out ← mem_write out hdr data;
  Some (out, Z.of_nat (hdr + length data)).

(** ** The frame format of RFC 6455

    The reference: a frame's text from its fields; [mask = None] is a server's frame. *)

Definition ws_mask_byte (mask : bytes) (i : nat) : Z := nth (i mod 4) mask 0.
Definition ws_masked (mask : bytes) (payload : bytes) : bytes :=
  imap (fun i v => Z.lxor v (ws_mask_byte mask i)) payload.

Definition be (n : nat) (v : Z) : bytes :=
  (fun i => (v / 2 ^ (8 * Z.of_nat (n - 1 - i))) mod 256) <$> seq 0 n.

Definition ws_length_field (mbit : Z) (len : Z) : bytes :=
  if len <=? 125 then [mbit + len]
  else if len <=? 0xffff then (mbit + 126) :: be 2 len
  else (mbit + 127) :: be 8 len.

Definition ws_header (fin : bool) (opcode : Z) (mask : option bytes) (len : Z) : bytes :=
  ((if fin then 128 else 0) + opcode) ::
  ws_length_field (if mask is Some _ then 128 else 0) len ++ default [] mask.

Definition ws_frame (fin : bool) (opcode : Z) (mask : option bytes) (payload : bytes) : bytes :=
  ws_header fin opcode mask (Z.of_nat (length payload)) ++
  match mask with Some m => ws_masked m payload | None => payload end.

Example decode_hello :
  ntc_ws_decode [0x81; 0x85; 0x37; 0xfa; 0x21; 0x3d; 0x7f; 0x9f; 0x4d; 0x51; 0x58; 7] =
  Some (WsFrame ([0x81; 0x85; 0x37; 0xfa; 0x21; 0x3d] ++ bs "Hello" ++ [7]) 11 NTC_WS_TEXT true
          (bs "Hello")).
Proof. vm_compute. reflexivity. Qed.

(** ** Lemmas: base64 *)

Lemma b64_digit v : is_Some (b64_table !! Z.to_nat (Z.land v 0x3f)).
Proof.
  apply lookup_lt_is_Some. change (length b64_table) with 64%nat. change 0x3f with (Z.ones 6).
  rewrite Z.land_ones by lia. pose proof (Z.mod_pos_bound v (2 ^ 6)). lia.
Qed.

(** The encoder stays inside its input, its table and its output, on any input. *)
Lemma b64_std_loop_safe fuel inp i cap out :
  (length inp - i < fuel)%nat -> is_Some (b64_std_loop fuel inp i cap out).
Proof.
  revert i out. induction fuel as [|f IH]; intros i out Hf; [lia|]. cbn [b64_std_loop].
  destruct (Nat.ltb_spec i (length inp)) as [Hi|]; cbn [negb]; [|by eexists].
  destruct (lookup_lt_is_Some_2 inp i Hi) as [a ->]. bind.
  assert (forall k, is_Some (if (i + k <? length inp)%nat then inp !! (i + k)%nat else Some 0)) as Hk.
  { intros k. destruct (Nat.ltb_spec (i + k) (length inp)); [by apply lookup_lt_is_Some|by eexists]. }
  destruct (Hk 1%nat) as [b ->], (Hk 2%nat) as [c ->]. bind.
  set (v := Z.lor _ c).
  destruct (b64_digit (v ≫ 18)) as [c0 ->], (b64_digit (v ≫ 12)) as [c1 ->]. bind.
  destruct (b64_digit (v ≫ 6)) as [c2 ->], (b64_digit v) as [c3 ->]. bind.
  destruct (i + 1 <? length inp)%nat, (i + 2 <? length inp)%nat; bind; apply IH; lia.
Qed.

(** ** Lemmas: header fields *)

Lemma land_0x7f x : 0 <= x -> Z.land x 0x7f = x mod 128.
Proof. intros. by apply (Z.land_ones x 7). Qed.
Lemma land_0x0f x : 0 <= x -> Z.land x 0x0f = x mod 16.
Proof. intros. by apply (Z.land_ones x 4). Qed.

Lemma high_bit x : is_byte x -> negb (Z.land x 0x80 =? 0) = (128 <=? x).
Proof.
  intros H. apply eqb_true_iff.
  by apply (all_bytes (fun x => Bool.eqb (negb (Z.land x 0x80 =? 0)) (128 <=? x))); [vm_compute|].
Qed.

Lemma be_S n v : be (S n) v = (v / 2 ^ (8 * Z.of_nat n)) mod 256 :: be n v.
Proof.
  unfold be. cbn [seq]. rewrite fmap_cons. f_equal; [repeat f_equal; lia|].
  rewrite <- fmap_S_seq, <- list_fmap_compose. apply list_fmap_ext. intros i x Hx. cbn.
  replace (n - 0 - S x)%nat with (n - 1 - x)%nat by lia. done.
Qed.

Lemma be_bytes n v : bytes_ok (be n v).
Proof.
  unfold be. apply Forall_fmap, Forall_forall. intros i _. unfold compose, is_byte.
  pose proof (Z.mod_pos_bound (v / 2 ^ (8 * Z.of_nat (n - 1 - i))) 256). lia.
Qed.

Lemma length_be n v : length (be n v) = n.
Proof. unfold be. by rewrite length_fmap, length_seq. Qed.

Lemma ws_len64_be n buf i rest v p :
  drop i buf = be n v ++ rest -> 0 <= v -> 0 <= p < 2 ^ (64 - 8 * Z.of_nat n) -> (n <= 8)%nat ->
  ws_len64 n buf i p = Some (p * 2 ^ (8 * Z.of_nat n) + v mod 2 ^ (8 * Z.of_nat n)).
Proof.
  revert i p. induction n as [|n IH]; intros i p Hd Hv Hp Hn; cbn [ws_len64].
  { rewrite Z.mod_1_r. f_equal. lia. }
  rewrite be_S in Hd. cbn [app] in Hd. set (b := (v / _) mod 256) in *.
  assert (0 <= b < 256) as Hb by (apply Z.mod_pos_bound; lia).
  assert (buf !! i = Some b) as Hl
    by (rewrite <- (Nat.add_0_r i), <- lookup_drop, Hd; done).
  rewrite Hl. bind.
  assert (2 ^ (64 - 8 * Z.of_nat n) = 2 ^ (64 - 8 * Z.of_nat (S n)) * 2 ^ 8) as Hpow
    by (rewrite <- Z.pow_add_r by lia; f_equal; lia).
  assert (2 ^ (64 - 8 * Z.of_nat n) <= 2 ^ 64) by (apply Z.pow_le_mono_r; lia).
  unfold u64. rewrite Z.shiftl_mul_pow2, Z.mod_small by lia.
  rewrite <- (Z.shiftl_mul_pow2 p) by lia. rewrite lor_shiftl_add by lia.
  rewrite IH.
  - f_equal. replace (8 * Z.of_nat (S n)) with (8 * Z.of_nat n + 8) by lia.
    pose proof (div_mod_pow2_split v (8 * Z.of_nat n) 8 ltac:(lia) ltac:(lia)) as E.
    rewrite <- E, Z.pow_add_r by lia. change (2 ^ 8) with 256. fold b. lia.
  - replace (S i) with (i + 1)%nat by lia. by rewrite <- drop_drop, Hd.
  - done.
  - lia.
  - lia.
Qed.

(** ** Lemmas: masking *)

Definition xor_from (mask : bytes) (i : nat) (p : bytes) : bytes :=
  imap (fun k v => Z.lxor v (ws_mask_byte mask (i + k))) p.

Lemma xor_from_cons mask i v p :
  xor_from mask i (v :: p) = Z.lxor v (ws_mask_byte mask i) :: xor_from mask (S i) p.
Proof.
  unfold xor_from. rewrite imap_cons. f_equal; [by rewrite Nat.add_0_r|].
  apply imap_ext. intros k x _. cbn. by rewrite Nat.add_succ_r.
Qed.

Lemma xor_from_invol mask i p : xor_from mask i (xor_from mask i p) = p.
Proof.
  revert i. induction p as [|v p IH]; intros i; [done|]. rewrite !xor_from_cons, IH. f_equal.
  by rewrite Z.lxor_assoc, Z.lxor_nilpotent, Z.lxor_0_r.
Qed.

Lemma length_xor_from mask i p : length (xor_from mask i p) = length p.
Proof. apply length_imap. Qed.

Lemma lxor_byte a b : is_byte a -> is_byte b -> is_byte (Z.lxor a b).
Proof.
  unfold is_byte. intros Ha Hb. assert (Z.lxor a b = Z.lxor a b mod 2 ^ 8) as E.
  { apply Z.bits_inj'. intros n Hn. destruct (Z.ltb_spec n 8).
    - by rewrite Z.mod_pow2_bits_low.
    - rewrite Z.mod_pow2_bits_high, Z.lxor_spec by lia.
      rewrite <- (Z.mod_small a (2 ^ 8)), <- (Z.mod_small b (2 ^ 8)) by lia.
      by rewrite !Z.mod_pow2_bits_high by lia. }
  rewrite E. pose proof (Z.mod_pos_bound (Z.lxor a b) (2 ^ 8)). lia.
Qed.

Lemma xor_from_bytes mask i p : bytes_ok mask -> bytes_ok p -> bytes_ok (xor_from mask i p).
Proof.
  intros Hm. revert i. induction p as [|v p IH]; intros i Hp; [constructor|].
  apply Forall_cons_1 in Hp as [Hv Hp]. rewrite xor_from_cons. constructor; [|by apply IH].
  apply lxor_byte; [done|]. unfold ws_mask_byte.
  destruct (lt_dec (i mod 4) (length mask)) as [Hlt|Hge].
  - apply Forall_lookup_1 with mask (i mod 4)%nat; [done|]. destruct (lookup_lt_is_Some_2 mask (i mod 4) Hlt) as [x Hx].
    rewrite Hx. f_equal. symmetry. by apply nth_lookup_Some.
  - rewrite nth_overflow by lia. unfold is_byte. lia.
Qed.

Lemma mask_lookup mask i :
  length mask = 4%nat -> mask !! Z.to_nat (Z.land (Z.of_nat i) 3) = Some (ws_mask_byte mask i).
Proof.
  intros H. change 3 with (Z.ones 2). rewrite Z.land_ones by lia. unfold ws_mask_byte.
  replace (Z.to_nat (Z.of_nat i mod 2 ^ 2)) with (i mod 4)%nat
    by (change (2 ^ 2) with (Z.of_nat 4); rewrite <- Nat2Z.inj_mod; lia).
  pose proof (Nat.mod_upper_bound i 4 ltac:(lia)).
  destruct (lookup_lt_is_Some_2 mask (i mod 4)) as [x Hx]; [lia|].
  by rewrite Hx, (nth_lookup_Some _ _ _ _ Hx).
Qed.

Lemma ws_unmask_spec pre p post i mask off :
  length mask = 4%nat -> length pre = (off + i)%nat ->
  ws_unmask (length p) i (pre ++ p ++ post) off mask = Some (pre ++ xor_from mask i p ++ post).
Proof.
  intros Hm. revert pre i. induction p as [|v p IH]; intros pre i Hl; cbn [ws_unmask length]; [done|].
  rewrite <- Hl. rewrite lookup_app_r, Nat.sub_diag by lia. cbn [lookup list_lookup app]. bind.
  rewrite mask_lookup by done. bind.
  rewrite (mem_write_mid pre [v] [_] (p ++ post)) by done. bind.
  rewrite (app_assoc pre [_]). rewrite IH by (rewrite length_app; cbn; lia).
  rewrite xor_from_cons, <- app_assoc. done.
Qed.

(** ** Lemmas: decoding a frame *)

Definition ws_offset (len : Z) : nat := if len <=? 125 then 2%nat else if len <=? 0xffff then 4%nat else 10%nat.

Lemma length_ws_length_field mbit len : length (ws_length_field mbit len) = (ws_offset len - 1)%nat.
Proof. unfold ws_length_field, ws_offset. by repeat case_match. Qed.

Lemma drop_at (buf pre x post : bytes) n :
  buf = pre ++ x ++ post -> n = length pre -> drop n buf = x ++ post.
Proof. intros -> ->. apply drop_app_length. Qed.

Lemma ws_payload_length_spec b0 mbit len rest buf b1 :
  buf = b0 :: ws_length_field mbit len ++ rest -> buf !! 1%nat = Some b1 ->
  mbit = 0 \/ mbit = 128 -> 0 <= len < 2 ^ 63 ->
  ws_payload_length buf b1 = Some (Some (len, ws_offset len)) /\
  is_byte b1 /\ (128 <=? b1) = (mbit =? 128).
Proof.
  intros -> H1 Hm Hlen. unfold ws_payload_length. unfold ws_length_field, ws_offset in *.
  destruct (Z.leb_spec len 125) as [H125|H125].
  { cbn in H1. simplify_eq. rewrite land_0x7f by lia.
    replace ((mbit + len) mod 128) with len by (destruct Hm as [-> | ->];
      [|replace (128 + len) with (len + 1 * 128) by lia; rewrite Z.mod_add by lia];
      symmetry; apply Z.mod_small; lia).
    rewrite (proj2 (Z.eqb_neq _ _)) by lia. rewrite (proj2 (Z.eqb_neq _ _)) by lia.
    unfold is_byte. destruct Hm as [-> | ->]; split_and!; (done || lia). }
  assert (Z.land (mbit + 126) 0x7f = 126 /\ Z.land (mbit + 127) 0x7f = 127) as [E126 E127]
    by (by destruct Hm as [-> | ->]).
  destruct (Z.leb_spec len 65535) as [H16|H16].
  - cbn [lookup list_lookup app] in H1. simplify_eq. rewrite E126. cbn [Z.eqb Pos.eqb].
    rewrite (proj2 (Nat.ltb_ge _ _)) by (cbn [length app]; rewrite length_app, length_be; lia).
    rewrite !be_S. unfold be. cbn [seq fmap list_fmap app lookup list_lookup]. bind.
    rewrite lor_shiftl_add by (lia || (apply Z.mod_pos_bound; lia)).
    split; [|by unfold is_byte; destruct Hm as [-> | ->]; split_and!; (done || lia)].
    do 3 f_equal. change (2 ^ (8 * Z.of_nat 1)) with 256. change (2 ^ (8 * Z.of_nat 0)) with 1.
    rewrite Z.div_1_r. rewrite (Z.mod_small (len / 256)) by (split; [apply Z.div_pos; lia|apply Z.div_lt_upper_bound; lia]).
    pose proof (Z.div_mod len 256). lia.
  - cbn [lookup list_lookup app] in H1. simplify_eq. rewrite E127. cbn [Z.eqb Pos.eqb].
    rewrite (proj2 (Nat.ltb_ge _ _)) by (cbn [length app]; rewrite length_app, length_be; lia).
    erewrite (ws_len64_be 8 _ 2 rest len 0); [|reflexivity|lia|lia|lia]. bind.
    split; [|by unfold is_byte; destruct Hm as [-> | ->]; split_and!; (done || lia)].
    do 3 f_equal. rewrite Z.mod_small; [lia|]. change (8 * Z.of_nat 8) with 64. lia.
Qed.

Definition mask_ok (mask : option bytes) : Prop :=
  match mask with Some m => length m = 4%nat | None => True end.

Lemma ws_decode_frame fin opcode mask payload rest :
  0 <= opcode < 16 -> mask_ok mask -> Z.of_nat (length payload) <= NTC_WS_MAX_PAYLOAD ->
  let h := ws_header fin opcode mask (Z.of_nat (length payload)) in
  ntc_ws_decode (ws_frame fin opcode mask payload ++ rest) =
  Some (WsFrame (h ++ payload ++ rest) (length h + length payload) opcode fin payload).
Proof.
  intros Hop Hmask Hmax h. unfold NTC_WS_MAX_PAYLOAD in Hmax.
  set (len := Z.of_nat (length payload)) in *.
  set (wire := match mask with Some m => ws_masked m payload | None => payload end).
  assert (length wire = length payload) as Hw.
  { unfold wire. destruct mask; [apply length_imap|done]. }
  set (mbit := if mask is Some _ then 128 else 0) in *.
  set (b0 := (if fin then 128 else 0) + opcode) in *.
  set (buf := ws_frame fin opcode mask payload ++ rest).
  assert (buf = h ++ wire ++ rest) as Hbuf by (unfold buf, ws_frame; by rewrite <- app_assoc).
  assert (h = b0 :: ws_length_field mbit len ++ default [] mask) as Hh by done.
  assert (length h = ws_offset len + length (default [] mask))%nat as Hlh.
  { rewrite Hh. cbn [length]. rewrite length_app, length_ws_length_field. unfold ws_offset.
    repeat case_match; lia. }
  assert (2 <= ws_offset len)%nat as Hoff by (unfold ws_offset; repeat case_match; lia).
  assert (length buf = length h + length payload + length rest)%nat as Hlb
    by (rewrite Hbuf, !length_app; lia).
  assert (buf !! 0%nat = Some b0) as H0 by (by rewrite Hbuf, Hh).
  destruct (lookup_lt_is_Some_2 buf 1) as [b1 H1]; [lia|].
  destruct (ws_payload_length_spec b0 mbit len (default [] mask ++ wire ++ rest) buf b1)
    as (Hpl & Hb1 & Hmb); [|done|unfold mbit; destruct mask; auto|lia|].
  { rewrite Hbuf, Hh. cbn [app]. by rewrite <- app_assoc. }
  assert (is_byte b0) as Hb0 by (unfold is_byte, b0; destruct fin; lia).
  unfold ntc_ws_decode. rewrite H0, H1. bind. rewrite Hpl. bind.
  rewrite (proj2 (Nat.ltb_ge _ _)) by lia. rewrite !high_bit by done. rewrite Hmb.
  rewrite land_0x0f by (unfold is_byte in *; lia).
  replace (128 <=? b0) with fin by (unfold b0; destruct fin; symmetry; [apply Z.leb_le|apply Z.leb_gt]; lia).
  replace (b0 mod 16) with opcode by (unfold b0; destruct fin;
    [replace (128 + opcode) with (opcode + 8 * 16) by lia; rewrite Z.mod_add by lia|];
    symmetry; apply Z.mod_small; lia).
  unfold NTC_WS_MAX_PAYLOAD. rewrite (proj2 (Z.ltb_ge _ _)) by lia.
  replace (Z.to_nat len) with (length payload) by lia.
  destruct mask as [m|]; cbn [mbit Z.eqb Pos.eqb andb from_option mask_ok] in *;
    unfold id in *.
  - rewrite (proj2 (Nat.ltb_ge _ _)) by lia.
    assert (mem_range buf (ws_offset len) 4 = Some m) as ->.
    { assert (buf = (b0 :: ws_length_field 128 len) ++ m ++ (wire ++ rest)) as ->
        by (rewrite Hbuf, Hh; cbn [app]; by rewrite <- app_assoc).
      rewrite <- Hmask. replace (ws_offset len) with (length (b0 :: ws_length_field 128 len)).
      - apply mem_range_mid.
      - cbn [length]. rewrite length_ws_length_field. lia. }
    bind. replace (ws_offset len + 4)%nat with (length h) by (rewrite Hlh, Hmask; lia).
    rewrite (proj2 (Z.ltb_ge _ _)) by lia.
    rewrite Hbuf. rewrite <- Hw at 1. rewrite ws_unmask_spec by (done || lia). bind.
    unfold wire. change (ws_masked m payload) with (xor_from m 0 payload). rewrite xor_from_invol.
    by rewrite mem_range_mid.
  - bind. cbn [length] in Hlh. rewrite Nat.add_0_r in Hlh. rewrite <- Hlh.
    rewrite (proj2 (Z.ltb_ge _ _)) by lia.
    rewrite Hbuf. unfold wire. rewrite mem_range_mid. done.
Qed.

(** ** Lemmas: any buffer *)

Lemma lor_nonneg a b : 0 <= a -> 0 <= b -> 0 <= Z.lor a b.
Proof. intros. by apply Z.lor_nonneg. Qed.

Lemma ws_len64_safe n buf i p :
  bytes_ok buf -> (i + n <= length buf)%nat -> 0 <= p ->
  exists v, ws_len64 n buf i p = Some v /\ 0 <= v.
Proof.
  intros Hb. revert i p. induction n as [|n IH]; intros i p Hl Hp; cbn [ws_len64]; [by exists p|].
  destruct (lookup_lt_is_Some_2 buf i) as [b E]; [lia|]. rewrite E. bind.
  apply IH; [lia|]. apply lor_nonneg; [apply Z.mod_pos_bound; lia|].
  pose proof (Forall_lookup_1 _ _ _ _ Hb E) as []. lia.
Qed.

Lemma ws_payload_length_safe buf b1 :
  bytes_ok buf -> (2 <= length buf)%nat -> is_byte b1 ->
  exists l, ws_payload_length buf b1 = Some l /\
    forall plen off, l = Some (plen, off) -> 0 <= plen /\ (2 <= off <= length buf)%nat.
Proof.
  intros Hb Hl Hb1. unfold ws_payload_length.
  rewrite land_0x7f by (unfold is_byte in *; lia).
  destruct (Z.eqb_spec (b1 mod 128) 126).
  - destruct (Nat.ltb_spec (length buf) 4); [by eexists|].
    destruct (lookup_lt_is_Some_2 buf 2) as [x Ex]; [lia|].
    destruct (lookup_lt_is_Some_2 buf 3) as [y Ey]; [lia|]. rewrite Ex, Ey. bind.
    eexists; split; [done|]. intros ? ? [= <- <-].
    pose proof (Forall_lookup_1 _ _ _ _ Hb Ex) as []. pose proof (Forall_lookup_1 _ _ _ _ Hb Ey) as [].
    split; [|lia]. apply lor_nonneg; [|done]. by apply Z.shiftl_nonneg.
  - destruct (Z.eqb_spec (b1 mod 128) 127).
    + destruct (Nat.ltb_spec (length buf) 10); [by eexists|].
      destruct (ws_len64_safe 8 buf 2 0 Hb) as (v & -> & Hv); [lia|lia|]. bind.
      eexists; split; [done|]. intros ? ? [= <- <-]. lia.
    + eexists; split; [done|]. intros ? ? [= <- <-].
      pose proof (Z.mod_pos_bound b1 128). lia.
Qed.

(** What a decoded frame is, in terms of the buffer it was found in. *)
Record ws_decoded (buf buf' : bytes) (consumed : nat) (opcode : Z) (payload : bytes) : Prop := WsDecoded {
  wd_opcode : 0 <= opcode < 16;
  wd_bounds : (2 + length payload <= consumed <= length buf)%nat;
  wd_limit : Z.of_nat (length payload) <= NTC_WS_MAX_PAYLOAD;
  wd_bytes : bytes_ok payload;
  wd_payload : exists pre post, buf' = pre ++ payload ++ post /\
    consumed = (length pre + length payload)%nat /\
    pre = take (length pre) buf /\ post = drop consumed buf }.

Lemma ws_decode_safe buf :
  bytes_ok buf -> exists r, ntc_ws_decode buf = Some r /\
    match r with
    | WsFrame buf' consumed opcode fin payload => ws_decoded buf buf' consumed opcode payload
    | _ => True
    end.
Proof.
  intros Hb. unfold ntc_ws_decode. destruct (Nat.ltb_spec (length buf) 2); [by eexists|].
  destruct (lookup_lt_is_Some_2 buf 0) as [b0 E0]; [lia|].
  destruct (lookup_lt_is_Some_2 buf 1) as [b1 E1]; [lia|]. rewrite E0, E1. bind.
  pose proof (Forall_lookup_1 _ _ _ _ Hb E0) as B0. pose proof (Forall_lookup_1 _ _ _ _ Hb E1) as B1.
  destruct (ws_payload_length_safe buf b1 Hb) as (l & -> & Hlen); [lia|done|]. bind.
  destruct l as [[plen off]|]; [|by eexists]. destruct (Hlen _ _ eq_refl) as [Hp Ho].
  destruct (Z.ltb_spec NTC_WS_MAX_PAYLOAD plen); [by eexists|].
  assert (0 <= Z.land b0 0x0f < 16) as Hop
    by (rewrite land_0x0f by (destruct B0; lia); apply Z.mod_pos_bound; lia).
  assert (forall buf' o (pre payload post : bytes), buf' = pre ++ payload ++ post ->
    o = length pre -> length payload = Z.to_nat plen -> (2 <= o)%nat -> (o + Z.to_nat plen <= length buf)%nat ->
    pre = take o buf -> post = drop (o + Z.to_nat plen) buf -> bytes_ok payload ->
    exists p, mem_range buf' o (Z.to_nat plen) = Some p /\
      ws_decoded buf buf' (o + Z.to_nat plen) (Z.land b0 0x0f) p) as Hdone.
  { intros buf' o pre payload post -> -> Hpl Ho2 Hole Hpre Hpost Hbp. exists payload.
    rewrite <- Hpl in *. rewrite mem_range_mid. split; [done|]. split; try done; try lia.
    exists pre, post. done. }
  destruct (negb (Z.land b1 128 =? 0)); cbn [andb].
  - destruct (Nat.ltb_spec (length buf) (off + 4)); [by eexists|].
    destruct (mem_range buf off 4) as [mask|] eqn:Em; [|by rewrite mem_range_Some in Em by lia].
    apply mem_range_inv in Em as (_ & Em' & Hm). bind.
    destruct (Z.ltb_spec (Z.of_nat (length buf)) (Z.of_nat (off + 4) + plen)); [by eexists|].
    set (p := take (Z.to_nat plen) (drop (off + 4) buf)).
    assert (length p = Z.to_nat plen) as Hlp by (unfold p; rewrite length_take, length_drop; lia).
    assert (buf = take (off + 4) buf ++ p ++ drop (off + 4 + Z.to_nat plen) buf) as Hs
      by (unfold p; by rewrite <- (drop_drop _ _ (off + 4)), !take_drop).
    assert (length (take (off + 4) buf) = off + 4)%nat as Hlt by (rewrite length_take; lia).
    pose proof (ws_unmask_spec (take (off + 4) buf) p (drop (off + 4 + Z.to_nat plen) buf) 0 mask
      (off + 4) Hm ltac:(lia)) as Hu.
    rewrite <- Hs, Hlp in Hu. rewrite Hu. bind.
    destruct (Hdone (take (off + 4) buf ++ xor_from mask 0 p ++ drop (off + 4 + Z.to_nat plen) buf)
      (off + 4)%nat (take (off + 4) buf) (xor_from mask 0 p) (drop (off + 4 + Z.to_nat plen) buf))
      as (q & -> & Hq); try done; try lia;
      [by rewrite length_xor_from|apply xor_from_bytes; [rewrite Em'|]; by apply Forall_take, Forall_drop|]. bind. eexists. split; [done|exact Hq].
  - bind. destruct (Z.ltb_spec (Z.of_nat (length buf)) (Z.of_nat off + plen)); [by eexists|].
    destruct (Hdone buf off (take off buf) (take (Z.to_nat plen) (drop off buf))
      (drop (off + Z.to_nat plen) buf)) as (q & -> & Hq); try done; try lia.
    + by rewrite <- (drop_drop _ _ off), !take_drop.
    + rewrite length_take. lia.
    + rewrite length_take, length_drop. lia.
    + by apply Forall_take, Forall_drop.
    + bind. eexists. split; [done|exact Hq].
Qed.

(** ** Lemmas: encoding *)

Lemma be_shifts n v : be n v = (fun i => u8 (v ≫ (8 * Z.of_nat (n - 1 - i)))) <$> seq 0 n.
Proof.
  unfold be, u8. apply list_fmap_ext. intros i x Hx. cbn.
  rewrite Z.shiftr_div_pow2 by lia. done.
Qed.

Lemma ws_encode_header_spec opcode len :
  0 <= opcode < 16 -> 0 <= len -> ws_encode_header opcode len = ws_header true opcode None len.
Proof.
  intros Hop Hlen. unfold ws_encode_header, ws_header, ws_length_field. cbn [from_option].
  rewrite app_nil_r. f_equal.
  - rewrite land_0x0f, Z.mod_small by lia.
    assert (forallb (fun o => u8 (Z.lor 128 o) =? 128 + o) (seqZ 0 16) = true) as H by (vm_compute; done).
    rewrite forallb_forall in H. apply Z.eqb_eq, H, list_elem_of_In, elem_of_seqZ. lia.
  - destruct (Z.ltb_spec 65535 len).
    + rewrite (proj2 (Z.leb_gt _ _)) by lia. rewrite (proj2 (Z.leb_gt _ _)) by lia.
      by rewrite be_shifts.
    + destruct (Z.ltb_spec 125 len).
      * rewrite (proj2 (Z.leb_gt _ _)) by lia. rewrite (proj2 (Z.leb_le _ _)) by lia.
        rewrite be_shifts. cbn. by rewrite Z.shiftr_0_r.
      * rewrite (proj2 (Z.leb_le _ _)) by lia. f_equal. rewrite u8_id; [lia|]. unfold is_byte. lia.
Qed.

Lemma ws_encode_spec opcode data out cap :
  0 <= opcode < 16 -> (cap <= length out)%nat ->
  let frame := ws_frame true opcode None data in
  ntc_ws_encode opcode data out cap =
  Some (if (length frame <=? cap)%nat
        then (frame ++ drop (length frame) out, Z.of_nat (length frame)) else (out, -1)).
Proof.
  intros Hop Hcap frame.
  set (len := Z.of_nat (length data)).
  assert (length frame = length (ws_header true opcode None len) + length data)%nat as Hf
    by (unfold frame, ws_frame; by rewrite length_app).
  assert (length (ws_header true opcode None len) =
    if 0xffff <? len then 10%nat else if 125 <? len then 4%nat else 2%nat) as Hh.
  { unfold ws_header. cbn [length from_option]. rewrite app_nil_r, length_ws_length_field.
    unfold ws_offset. destruct (Z.leb_spec len 125), (Z.leb_spec len 65535),
      (Z.ltb_spec 65535 len), (Z.ltb_spec 125 len); lia. }
  unfold ntc_ws_encode. fold len. rewrite ws_encode_header_spec, <- Hh, <- Hf by lia.
  rewrite Nat.ltb_antisym. destruct (Nat.leb_spec (length frame) cap) as [Hle|]; cbn [negb]; [|done].
  set (h := ws_header true opcode None len) in *.
  rewrite mem_write_Some by lia. bind. rewrite take_0. cbn [Nat.add app].
  rewrite mem_write_Some by (rewrite length_app, length_drop; lia). bind.
  rewrite take_app_length, <- (drop_drop _ _ (length h)), drop_app_length, drop_drop, <- Hf.
  unfold frame, ws_frame. fold len h. by rewrite <- app_assoc.
Qed.

(** ** The properties *)

(** C27. WebSocket frames: the decoder recovers any RFC 6455 frame of at most 1 MiB, masked
    or not, from the front of a buffer: its FIN bit, opcode and payload, with the payload
    unmasked in place and the bytes after it untouched. *)
Theorem ws_decode_roundtrip fin opcode mask payload rest :
  0 <= opcode < 16 -> mask_ok mask -> Z.of_nat (length payload) <= NTC_WS_MAX_PAYLOAD ->
  let h := ws_header fin opcode mask (Z.of_nat (length payload)) in
  ntc_ws_decode (ws_frame fin opcode mask payload ++ rest) =
  Some (WsFrame (h ++ payload ++ rest) (length h + length payload) opcode fin payload).
Proof. apply ws_decode_frame. Qed.

Lemma ws_decode_roundtrip_witness :
  0 <= 1 < 16 /\ mask_ok (Some [1; 2; 3; 4]) /\
  ntc_ws_decode (ws_frame true 1 (Some [1; 2; 3; 4]) (bs "hello") ++ [7]) =
  Some (WsFrame ([129; 133; 1; 2; 3; 4] ++ bs "hello" ++ [7]) 11 1 true (bs "hello")).
Proof.
  split; [lia|]. split; [reflexivity|].
  refine (ws_decode_roundtrip true 1 (Some [1; 2; 3; 4]) (bs "hello") [7] _ _ _).
  - lia.
  - reflexivity.
  - vm_compute. discriminate.
Defined.

(** The frame decoder is safe on every buffer of bytes: it returns, and a frame it
    reports lies inside the buffer, is at most 1 MiB, and only the payload's bytes changed. *)
Theorem ws_decode_total buf :
  bytes_ok buf -> exists r, ntc_ws_decode buf = Some r /\
    match r with
    | WsFrame buf' consumed opcode fin payload => ws_decoded buf buf' consumed opcode payload
    | _ => True
    end.
Proof. apply ws_decode_safe. Qed.

Lemma ws_decode_total_witness :
  exists r, ntc_ws_decode [129; 130; 1; 2; 3; 4; 0; 0; 9] = Some r /\
    match r with
    | WsFrame buf' consumed opcode fin payload =>
        ws_decoded [129; 130; 1; 2; 3; 4; 0; 0; 9] buf' consumed opcode payload
    | _ => True
    end.
Proof. apply ws_decode_total. apply (bool_decide_unpack _). vm_compute. exact I. Defined.

(** The frame encoder writes exactly the unmasked FIN frame of RFC 6455 and returns its
    length, or returns -1 and stores nothing when the frame does not fit. *)
Theorem ws_encode_correct opcode data out cap :
  0 <= opcode < 16 -> (cap <= length out)%nat ->
  let frame := ws_frame true opcode None data in
  ntc_ws_encode opcode data out cap =
  Some (if (length frame <=? cap)%nat
        then (frame ++ drop (length frame) out, Z.of_nat (length frame)) else (out, -1)).
Proof. apply ws_encode_spec. Qed.

Lemma ws_encode_correct_witness :
  ntc_ws_encode 1 (bs "hi") [0; 0; 0; 0; 0] 5 = Some ([129; 2; 104; 105; 0], 4).
Proof.
  refine (eq_trans (ws_encode_correct 1 (bs "hi") [0; 0; 0; 0; 0] 5 _ _) _).
  - lia.
  - cbn. lia.
  - reflexivity.
Defined.
