(* ===== verification/Router.v ===== *)
(** * The router (include/ntc/router.h, src/common/router.c)

    A router is a growable array of routes in registration order.  [malloc] and [realloc]
    can fail: each call's outcome is an argument of the operation that makes it. *)
From S2P Require Import Prelude Err Slice Http.
Open Scope Z_scope.

(** router.c:6 [NTC_MAX_SEGMENTS] *)
Definition NTC_MAX_SEGMENTS : nat := 16.

(** router.c:8-11 [seg_t] *)
Record seg_t := Seg { seg_s : ntc_slice; seg_is_param : bool }.

(** router.h:41-45 [ntc_route_status] *)
Inductive ntc_route_status := NTC_ROUTE_FOUND | NTC_ROUTE_NOT_FOUND | NTC_ROUTE_METHOD_NOT_ALLOWED.

(** router.c:34-39 [ntc_params_get]. The parameters are name/value pairs; [None] is the
    NULL slice. *)
Fixpoint ntc_params_get (p : list ntc_header) (name : bytes) : option ntc_slice :=
  match p with
  | [] => None
  | it :: p => if ntc_slice_eq (h_name it) (ntc_slice_cstr name) then Some (h_value it)
               else ntc_params_get p name
  end.

(** router.c:63-63 [split_segments, slash loop] *)
Fixpoint skip_slashes (fuel : nat) (s : bytes) (i : nat) : option nat :=
  match fuel with
  | O => None
  | S f =>
      if (i <? length s)%nat then
        c ← s !! i; if c =? 47 then skip_slashes f s (S i) else Some i
      else Some i
  end.

(** router.c:66-66 [split_segments, segment loop] *)
Fixpoint segment_end (fuel : nat) (s : bytes) (i : nat) : option nat :=
  match fuel with
  | O => None
  | S f =>
      if (i <? length s)%nat then
        c ← s !! i; if c =? 47 then Some i else segment_end f s (S i)
      else Some i
  end.

(** router.c:68-72 [split_segments, segment] *)
Definition make_seg (seg : ntc_slice) : option seg_t :=
  if (1 <? length seg)%nat then
    c ← seg !! 0%nat;
    if c =? 58 then Some (Seg (drop 1 seg) true) else Some (Seg seg false)
  else Some (Seg seg false).

(** router.c:62-75 [split_segments, loop]. [out] is what is stored so far; the inner [None]
    is the -1 result. *)
Fixpoint split_loop (fuel : nat) (s : bytes) (i max : nat) (out : list seg_t)
    : option (option (list seg_t)) :=
  match fuel with
  | O => None
  | S f =>
      if negb (i <? length s)%nat then Some (Some out) else
      i ← skip_slashes (S (length s)) s i;
      if (length s <=? i)%nat then Some (Some out) else
      stop ← segment_end (S (length s)) s i;
      if (max <=? length out)%nat then Some None else
      text ← mem_range s i (stop - i);
      seg ← make_seg text;
      split_loop f s stop max (out ++ [seg])
  end.

(** router.c:60-76 [split_segments] *)
Definition split_segments (s : bytes) (max : nat) : option (option (list seg_t)) :=
  split_loop (S (length s)) s 0 max [].

Section router.
  (** Handlers and their user data are opaque to the router. *)
  Context {handler udata : Type}.

(** router.c:13-20 [route_t] *)
Record route_t := Route {
  rt_method : bytes; rt_pattern : bytes; rt_segs : list seg_t;
  rt_handler : handler; rt_udata : udata }.

(** router.c:22-25 [ntc_router]. [count] is the length of [routes]. *)
Record ntc_router := Router { routes : list route_t; cap : nat }.

(** router.c:41-47 [ntc_router_create] *)
Definition ntc_router_create (calloc_ok : bool) : ntc_err * option ntc_router :=
  if calloc_ok then (NTC_OK, Some (Router [] 0)) else (NTC_ERR_OOM, None).

(** router.c:78-110 [ntc_router_add]. A NULL handler is [None]; [realloc_ok] and [dup_ok]
    are the outcomes of the allocations. *)
Definition ntc_router_add (realloc_ok dup_ok : bool) (r : ntc_router) (method pattern : bytes)
    (h : option handler) (u : udata) : option (ntc_err * ntc_router) :=
  match h with
  | None => Some (NTC_ERR_INVALID, r)
  | Some h =>
      let grow := (cap r <=? length (routes r))%nat in
      if grow && negb realloc_ok then Some (NTC_ERR_OOM, r) else
      let ncap := if grow then (if (cap r =? 0)%nat then 8%nat else (cap r * 2)%nat) else cap r in
      let r := Router (routes r) ncap in
      if negb dup_ok then Some (NTC_ERR_OOM, r) else
      ns ← split_segments (cstr pattern) NTC_MAX_SEGMENTS;
      match ns with
      | None => Some (NTC_ERR_INVALID, r)
      | Some segs =>
          Some (NTC_OK, Router (routes r ++ [Route (cstr method) (cstr pattern) segs h u]) ncap)
      end
  end.

(** router.c:123-127 [ntc_router_match, segment loop]. [None] is a read past the path's
    segments. *)
Fixpoint segs_match (rs ps : list seg_t) : option bool :=
  match rs, ps with
  | [], _ => Some true
  | _ :: _, [] => None
  | r :: rs, p :: ps =>
      if seg_is_param r then segs_match rs ps
      else if negb (ntc_slice_eq (seg_s r) (seg_s p)) then Some false else segs_match rs ps
  end.

(** router.c:132-141 [ntc_router_match, capture loop] *)
Fixpoint capture (rs ps : list seg_t) (out : list ntc_header) : option (list ntc_header) :=
  match rs, ps with
  | [], _ => Some out
  | _ :: _, [] => None
  | r :: rs, p :: ps =>
      if seg_is_param r && (length out <? NTC_MAX_PARAMS)%nat
      then capture rs ps (out ++ [Header (seg_s r) (seg_s p)])
      else capture rs ps out
  end.

(** What a match stores besides its status. *)
Record route_hit := Hit { hit_handler : handler; hit_udata : udata; hit_params : list ntc_header }.

(** router.c:119-146 [ntc_router_match, loop] *)
Fixpoint match_loop (rts : list route_t) (method : ntc_slice) (ps : option (list seg_t))
    (method_mismatch : bool) : option (ntc_route_status * option route_hit) :=
  match rts with
  | [] => Some (if method_mismatch then NTC_ROUTE_METHOD_NOT_ALLOWED else NTC_ROUTE_NOT_FOUND, None)
  | rt :: rts =>
      match ps with
      | None => match_loop rts method ps method_mismatch
      | Some segs =>
          if negb (length segs =? length (rt_segs rt))%nat
          then match_loop rts method ps method_mismatch else
          ok ← segs_match (rt_segs rt) segs;
          if negb ok then match_loop rts method ps method_mismatch else
          if negb (ntc_slice_eq_cstr method (rt_method rt)) then match_loop rts method ps true else
          params ← capture (rt_segs rt) segs [];
          Some (NTC_ROUTE_FOUND, Some (Hit (rt_handler rt) (rt_udata rt) params))
      end
  end.

(** router.c:112-147 [ntc_router_match] *)
Definition ntc_router_match (r : ntc_router) (method path : ntc_slice)
    : option (ntc_route_status * option route_hit) :=
  ps ← split_segments path NTC_MAX_SEGMENTS;
  match_loop (routes r) method ps false.

(** router.c:149-149 [ntc_router_count] *)
Definition ntc_router_count (r : option ntc_router) : nat :=
  match r with Some r => length (routes r) | None => 0 end.

(** ** The abstract router

    Paths as lists of non-empty segments, routes as patterns: what registration order and
    method selection mean, without indices or capacities. *)

(** A segment as both patterns and paths read it: a leading colon marks a parameter. *)
Definition seg_of (seg : bytes) : seg_t :=
  match seg with
  | c :: (_ :: _) as name => if c =? 58 then Seg name true else Seg seg false
  | _ => Seg seg false
  end.

Definition path_segments (s : bytes) : list bytes :=
  filter (fun seg => seg <> []) (split_on 47 s).

Definition path_segs (s : bytes) : option (list seg_t) :=
  let segs := path_segments s in
  if (length segs <=? NTC_MAX_SEGMENTS)%nat then Some (seg_of <$> segs) else None.

Definition seg_accepts (r p : seg_t) : Prop := seg_is_param r = true \/ seg_s r = seg_s p.
#[export] Instance seg_accepts_dec r p : Decision (seg_accepts r p).
Proof. unfold seg_accepts. apply _. Defined.

Definition route_accepts (segs : list seg_t) (rt : route_t) : Prop :=
  Forall2 seg_accepts (rt_segs rt) segs.
#[export] Instance route_accepts_dec segs rt : Decision (route_accepts segs rt).
Proof. unfold route_accepts. apply _. Defined.

Definition captured (rt : route_t) (segs : list seg_t) : list ntc_header :=
  take NTC_MAX_PARAMS
    ((fun rp => Header (seg_s rp.1) (seg_s rp.2)) <$>
     filter (fun rp => seg_is_param rp.1 = true) (zip (rt_segs rt) segs)).

(** The first route that accepts the path and the method. *)
Fixpoint first_route (rts : list route_t) (method : bytes) (segs : list seg_t) : option route_t :=
  match rts with
  | [] => None
  | rt :: rts =>
      if decide (route_accepts segs rt /\ rt_method rt = method) then Some rt
      else first_route rts method segs
  end.

Definition route_spec (rts : list route_t) (method path : bytes)
    : ntc_route_status * option route_hit :=
  match path_segs path with
  | None => (NTC_ROUTE_NOT_FOUND, None)
  | Some segs =>
      match first_route rts method segs with
      | Some rt => (NTC_ROUTE_FOUND, Some (Hit (rt_handler rt) (rt_udata rt) (captured rt segs)))
      | None => (if existsb (fun rt => bool_decide (route_accepts segs rt)) rts
                 then NTC_ROUTE_METHOD_NOT_ALLOWED else NTC_ROUTE_NOT_FOUND, None)
      end
  end.

(** The invariant of a router: the array holds the routes, and every route carries the
    segments of its own pattern, both texts being C strings. *)
Definition route_wf (rt : route_t) : Prop :=
  path_segs (rt_pattern rt) = Some (rt_segs rt) /\ (0 ∉ rt_method rt) /\ (0 ∉ rt_pattern rt).
Definition router_wf (r : ntc_router) : Prop :=
  (length (routes r) <= cap r)%nat /\ Forall route_wf (routes r).
End router.
Arguments route_t : clear implicits.
Arguments ntc_router : clear implicits.
Arguments route_hit : clear implicits.

Example match_user :
  let r := Router [Route (bs "GET") (bs "/api/users/:id")
                     [Seg (bs "api") false; Seg (bs "users") false; Seg (bs "id") true] 1 2] 8 in
  ntc_router_match r (bs "GET") (bs "/api//users/42/") =
    Some (NTC_ROUTE_FOUND, Some (Hit 1 2 [Header (bs "id") (bs "42")])) /\
  ntc_router_match r (bs "PUT") (bs "/api/users/42") = Some (NTC_ROUTE_METHOD_NOT_ALLOWED, None).
Proof. vm_compute. split; reflexivity. Qed.

(** ** Lemmas: splitting *)

Lemma skip_slashes_spec f s i :
  (length s - i < f)%nat -> (i <= length s)%nat ->
  exists k, skip_slashes f s i = Some k /\ (i <= k <= length s)%nat /\
    path_segments (drop i s) = path_segments (drop k s) /\
    ((k < length s)%nat -> exists c, s !! k = Some c /\ c <> 47).
Proof.
  revert i. induction f as [|f IH]; intros i Hf Hi; [lia|]. cbn [skip_slashes].
  destruct (Nat.ltb_spec i (length s)).
  - destruct (lookup_lt_is_Some_2 s i) as [c Hc]; [done|]. rewrite Hc. bind.
    destruct (Z.eqb_spec c 47) as [->|Hne].
    + destruct (IH (S i)) as (k & -> & Hk & Hp & Hn); [lia|lia|]. exists k.
      split_and!; try done; try lia. rewrite <- Hp, (drop_S _ 47) by done.
      unfold path_segments. cbn [split_on Z.eqb Pos.eqb]. rewrite filter_cons_False by auto. done.
    + exists i. split_and!; try done; try lia. by exists c.
  - exists i. split_and!; try done; try lia.
Qed.

Lemma segment_end_spec f s i :
  (length s - i < f)%nat -> (i <= length s)%nat ->
  exists k, segment_end f s i = Some k /\ (i <= k <= length s)%nat /\
    (47 ∉ take (k - i) (drop i s)) /\ ((k < length s)%nat -> s !! k = Some 47) /\
    ((exists c, s !! i = Some c /\ c <> 47) -> (i < k)%nat).
Proof.
  revert i. induction f as [|f IH]; intros i Hf Hi; [lia|]. cbn [segment_end].
  destruct (Nat.ltb_spec i (length s)).
  - destruct (lookup_lt_is_Some_2 s i) as [c Hc]; [done|]. rewrite Hc. bind.
    destruct (Z.eqb_spec c 47) as [->|Hne].
    + exists i. rewrite Nat.sub_diag, take_0. split_and!; try done; try lia;
        [apply not_elem_of_nil|]. intros (? & ? & ?). congruence.
    + destruct (IH (S i)) as (k & -> & Hk & Hn & Hl & _); [lia|lia|]. exists k.
      split_and!; try done; try lia. rewrite (drop_S _ c) by done.
      replace (k - i)%nat with (S (k - S i)) by lia. cbn [take]. by apply not_elem_of_cons.
  - exists i. rewrite Nat.sub_diag, take_0. split_and!; try done; try lia;
      [apply not_elem_of_nil|]. intros (? & Hc & ?). apply lookup_lt_Some in Hc. lia.
Qed.

Lemma make_seg_spec seg : make_seg seg = Some (seg_of seg).
Proof.
  unfold make_seg, seg_of. destruct seg as [|c [|d seg]]; try done.
  cbn. by destruct (c =? 58).
Qed.

Lemma path_segments_step s i k :
  (i < k)%nat -> (k <= length s)%nat -> (47 ∉ take (k - i) (drop i s)) ->
  ((k < length s)%nat -> s !! k = Some 47) ->
  path_segments (drop i s) = take (k - i) (drop i s) :: path_segments (drop k s).
Proof.
  intros Hik Hk Hn Hl. set (seg := take (k - i) (drop i s)) in *.
  assert (seg <> []) as Hne.
  { intros E. apply (f_equal length) in E. unfold seg in E. rewrite length_take, length_drop in E.
    cbn in E. lia. }
  assert (drop i s = seg ++ drop k s) as ->.
  { rewrite <- (take_drop (k - i) (drop i s)). fold seg. rewrite drop_drop. repeat f_equal. lia. }
  unfold path_segments. destruct (decide (k < length s)%nat) as [Hlt|].
  - rewrite (drop_S _ 47) by auto. rewrite split_on_app by done.
    by rewrite filter_cons_True by done.
  - rewrite (drop_ge s k) by lia. rewrite app_nil_r, split_on_none by done.
    rewrite filter_cons_True by done. done.
Qed.

Lemma split_loop_spec f s i max out :
  (length s - i < f)%nat -> (i <= length s)%nat -> (length out <= max)%nat ->
  split_loop f s i max out =
  Some (if (length out + length (path_segments (drop i s)) <=? max)%nat
        then Some (out ++ (seg_of <$> path_segments (drop i s))) else None).
Proof.
  revert i out. induction f as [|f IH]; intros i out Hf Hi Ho; [lia|]. cbn [split_loop].
  assert (forall j, (length s <= j)%nat -> path_segments (drop j s) = []) as Hend
    by (intros; by rewrite drop_ge).
  assert (forall j, (length s <= j)%nat -> Some (Some out) =
    Some (if (length out + length (path_segments (drop j s)) <=? max)%nat
        then Some (out ++ (seg_of <$> path_segments (drop j s))) else None)) as Hdone.
  { intros j Hj. rewrite Hend by done. cbn. rewrite Nat.add_0_r, app_nil_r.
    by rewrite (proj2 (Nat.leb_le _ _)) by lia. }
  destruct (Nat.ltb_spec i (length s)); cbn [negb]; [|by apply Hdone].
  destruct (skip_slashes_spec (S (length s)) s i) as (k & -> & Hk & -> & Hc); [lia|lia|]. bind.
  destruct (Nat.leb_spec (length s) k); [by apply Hdone|].
  destruct (segment_end_spec (S (length s)) s k) as (e & -> & He & Hn & Hl & Hlt); [lia|lia|]. bind.
  specialize (Hlt (Hc ltac:(lia))).
  rewrite (path_segments_step s k e) by (done || lia). cbn [length fmap list_fmap].
  destruct (Nat.leb_spec max (length out)).
  - by rewrite (proj2 (Nat.leb_gt _ _)) by lia.
  - rewrite mem_range_Some by lia. bind. rewrite make_seg_spec. bind.
    rewrite IH by (rewrite ?length_app; cbn; lia). rewrite length_app. cbn [length].
    rewrite <- app_assoc. cbn [app].
    by replace (length out + 1 + length (path_segments (drop e s)))%nat
      with (length out + S (length (path_segments (drop e s))))%nat by lia.
Qed.

Lemma split_segments_spec s : split_segments s NTC_MAX_SEGMENTS = Some (path_segs s).
Proof.
  unfold split_segments, path_segs. rewrite split_loop_spec by (cbn; lia). by rewrite drop_0.
Qed.

(** ** Lemmas: matching *)

Section router_lemmas.
  Context {handler udata : Type}.
  Implicit Types (rt : route_t handler udata) (rts : list (route_t handler udata)).

Lemma segs_match_spec rs ps :
  length rs = length ps -> segs_match rs ps = Some (bool_decide (Forall2 seg_accepts rs ps)).
Proof.
  revert ps. induction rs as [|r rs IH]; intros [|p ps] Hl; try done.
  cbn [segs_match]. rewrite !IH by (cbn in Hl; lia).
  assert (Forall2 seg_accepts (r :: rs) (p :: ps) <-> seg_accepts r p /\ Forall2 seg_accepts rs ps) as E
    by apply Forall2_cons_iff.
  unfold seg_accepts in E at 2. destruct (seg_is_param r).
  - f_equal. apply bool_decide_ext. rewrite E. tauto.
  - destruct (ntc_slice_eqP (seg_s r) (seg_s p)); cbn [negb].
    + f_equal. apply bool_decide_ext. rewrite E. tauto.
    + rewrite bool_decide_false; [done|]. rewrite E. intros [[|] _]; done.
Qed.

Lemma capture_spec rs ps out :
  length rs = length ps -> (length out <= NTC_MAX_PARAMS)%nat ->
  capture rs ps out =
  Some (out ++ take (NTC_MAX_PARAMS - length out)
    ((fun rp => Header (seg_s rp.1) (seg_s rp.2)) <$>
     filter (fun rp => seg_is_param rp.1 = true) (zip rs ps))).
Proof.
  revert ps out. induction rs as [|r rs IH]; intros [|p ps] out Hl Ho; try done.
  { cbn. by rewrite take_nil, app_nil_r. }
  cbn [capture zip zip_with]. destruct (seg_is_param r) eqn:Er; cbn [andb].
  - rewrite filter_cons_True by done. rewrite fmap_cons.
    destruct (Nat.ltb_spec (length out) NTC_MAX_PARAMS).
    + rewrite IH by (rewrite ?length_app; cbn in *; lia). rewrite length_app. cbn [length].
      replace (NTC_MAX_PARAMS - length out)%nat with (S (NTC_MAX_PARAMS - (length out + 1))) by lia.
      cbn [take]. by rewrite <- app_assoc.
    + rewrite IH by (cbn in *; lia). by replace (NTC_MAX_PARAMS - length out)%nat with 0%nat by lia.
  - rewrite filter_cons_False by (cbn; congruence). by apply IH; cbn in *; lia.
Qed.

Lemma match_loop_none rts method mm :
  match_loop rts method None mm =
  Some (if mm then NTC_ROUTE_METHOD_NOT_ALLOWED else NTC_ROUTE_NOT_FOUND, None).
Proof. by induction rts. Qed.

Lemma match_loop_spec rts method segs mm :
  Forall route_wf rts ->
  match_loop rts method (Some segs) mm =
  Some (match first_route rts method segs with
        | Some rt => (NTC_ROUTE_FOUND, Some (Hit (rt_handler rt) (rt_udata rt) (captured rt segs)))
        | None => (if mm || existsb (fun rt => bool_decide (route_accepts segs rt)) rts
                   then NTC_ROUTE_METHOD_NOT_ALLOWED else NTC_ROUTE_NOT_FOUND, None)
        end).
Proof.
  intros Hwf. revert mm. induction Hwf as [|rt rts [_ [Hm _]] Hwf IH]; intros mm.
  { cbn. by rewrite orb_false_r. }
  cbn [match_loop first_route existsb].
  destruct (Nat.eqb_spec (length segs) (length (rt_segs rt))) as [El|El]; cbn [negb].
  2: { assert (~ route_accepts segs rt) as Hn by (intros H; apply Forall2_length in H; congruence).
       rewrite decide_False by tauto. rewrite (bool_decide_false _ Hn). by rewrite IH. }
  rewrite segs_match_spec by done. bind. fold (route_accepts segs rt).
  destruct (decide (route_accepts segs rt)) as [Ha|Ha].
  2: { rewrite decide_False by tauto. rewrite !bool_decide_false by done. cbn [negb]. by rewrite IH. }
  rewrite !bool_decide_true by done. cbn [negb].
  unfold ntc_slice_eq_cstr, ntc_slice_cstr. rewrite cstr_id by done.
  destruct (ntc_slice_eqP method (rt_method rt)) as [->|Hne]; cbn [negb].
  - rewrite decide_True by done. rewrite capture_spec by (cbn; lia). done.
  - rewrite decide_False by (intros [_ E]; congruence). rewrite IH. by rewrite orb_true_r.
Qed.

Lemma router_match_spec (r : ntc_router handler udata) method path :
  router_wf r -> ntc_router_match r method path = Some (route_spec (routes r) method path).
Proof.
  intros [_ Hwf]. unfold ntc_router_match, route_spec. rewrite split_segments_spec. bind.
  destruct (path_segs path) as [segs|]; [by apply match_loop_spec|apply match_loop_none].
Qed.

Lemma router_add_spec realloc_ok dup_ok (r : ntc_router handler udata) method pattern h u :
  router_wf r ->
  exists e r', ntc_router_add realloc_ok dup_ok r method pattern h u = Some (e, r') /\ router_wf r' /\
    match e with
    | NTC_OK => exists h' segs, h = Some h' /\ path_segs (cstr pattern) = Some segs /\
        routes r' = routes r ++ [Route (cstr method) (cstr pattern) segs h' u]
    | NTC_ERR_INVALID => routes r' = routes r /\ (h = None \/ path_segs (cstr pattern) = None)
    | NTC_ERR_OOM => routes r' = routes r /\ (realloc_ok = false \/ dup_ok = false)
    | _ => False
    end.
Proof.
  intros [Hc Hwf]. unfold ntc_router_add. destruct h as [h|].
  2: { eexists _, _. split; [done|]. split; [by split|]. auto. }
  set (grow := (cap r <=? length (routes r))%nat).
  set (ncap := if grow then _ else cap r).
  assert (length (routes r) < ncap)%nat as Hn.
  { unfold ncap, grow. destruct (Nat.leb_spec (cap r) (length (routes r))); [|lia].
    destruct (Nat.eqb_spec (cap r) 0); lia. }
  assert (forall rts, (length rts <= ncap)%nat -> Forall route_wf rts -> router_wf (Router rts ncap)) as Hok
    by (by split).
  destruct grow, realloc_ok; cbn [andb negb];
    try (eexists _, _; split; [done|]; split; [by split|]; by auto).
  all: destruct dup_ok; cbn [negb];
    [|eexists _, _; split; [done|]; split; [apply Hok; [lia|done]|by auto]].
  all: rewrite split_segments_spec; bind; destruct (path_segs (cstr pattern)) as [segs|] eqn:Ep;
    eexists _, _; (split; [done|]); split; try (apply Hok; [cbn; lia|done]); eauto 6.
  all: apply Hok; [rewrite length_app; cbn; lia|].
  all: apply Forall_app_2; [done|]; constructor; [|done].
  all: split; [done|split; apply cstr_no_nul].
Qed.

Lemma first_route_app rts1 rts2 method segs :
  first_route (rts1 ++ rts2) method segs =
  match first_route rts1 method segs with Some rt => Some rt | None => first_route rts2 method segs end.
Proof.
  induction rts1 as [|rt rts1 IH]; cbn [first_route app]; [done|]. case_decide; [done|apply IH].
Qed.

Lemma first_route_in rts method segs rt : first_route rts method segs = Some rt -> rt ∈ rts.
Proof.
  induction rts as [|r rts IH]; cbn [first_route]; [done|]. case_decide; [intros [= <-]; left|right; auto].
Qed.

(** A match depends only on the texts of the path's segments. *)
Lemma accepts_texts rs ps :
  Forall2 seg_accepts rs ps <->
  Forall2 (fun r t => seg_is_param r = true \/ seg_s r = t) rs (seg_s <$> ps).
Proof. by rewrite Forall2_fmap_r. Qed.

Lemma captured_texts rt ps :
  captured rt ps =
  take NTC_MAX_PARAMS
    ((fun x => Header (seg_s x.1) x.2) <$>
     filter (fun x => seg_is_param x.1 = true) (zip (rt_segs rt) (seg_s <$> ps))).
Proof.
  unfold captured. f_equal. generalize (rt_segs rt) as rs. clear rt. intros rs. revert ps.
  induction rs as [|r rs IH]; intros [|p ps]; try done. rewrite fmap_cons. cbn [zip zip_with].
  destruct (decide (seg_is_param r = true)).
  - rewrite !filter_cons_True by done. rewrite !fmap_cons. f_equal. apply IH.
  - rewrite !filter_cons_False by done. apply IH.
Qed.

Lemma first_route_texts rts method ps qs :
  seg_s <$> ps = seg_s <$> qs -> first_route rts method ps = first_route rts method qs.
Proof.
  intros E. induction rts as [|rt rts IH]; [done|]. cbn [first_route]. rewrite IH.
  assert (route_accepts ps rt <-> route_accepts qs rt) as Ha
    by (unfold route_accepts; by rewrite !accepts_texts, E).
  case_decide as H1; case_decide as H2; tauto.
Qed.

Lemma route_spec_texts rts method p q :
  fmap (M:=list) seg_s <$> path_segs p = fmap (M:=list) seg_s <$> path_segs q ->
  route_spec rts method p = route_spec rts method q.
Proof.
  unfold route_spec. destruct (path_segs p) as [ps|], (path_segs q) as [qs|]; try done.
  intros [= E]. rewrite (first_route_texts rts method ps qs E).
  destruct (first_route rts method qs) as [rt|]; [by rewrite !captured_texts, E|].
  assert (existsb (fun rt => bool_decide (route_accepts ps rt)) rts =
          existsb (fun rt => bool_decide (route_accepts qs rt)) rts) as ->; [|done].
  induction rts as [|rt rts IH]; [done|]. cbn [existsb]. rewrite IH. f_equal.
  apply bool_decide_ext. unfold route_accepts. by rewrite !accepts_texts, E.
Qed.
End router_lemmas.

(** ** The properties *)

(** C5. Routing is first match in registration order: the router returns the first route
    whose method is the request's and whose pattern accepts the path, with the first eight
    captured parameters; when none does, it answers 405 exactly if some route accepts the
    path under another method, and 404 otherwise.  A path of more than 16 segments is never
    found.  The index loops never read outside the path. *)
Theorem router_match_correct {handler udata} (r : ntc_router handler udata) method path :
  router_wf r -> ntc_router_match r method path = Some (route_spec (routes r) method path).
Proof. apply router_match_spec. Qed.

(** A router with two routes for the witnesses. *)
Definition sample_router : ntc_router nat nat :=
  Router [Route (bs "GET") (bs "/api/users/:id")
            [Seg (bs "api") false; Seg (bs "users") false; Seg (bs "id") true] 1%nat 0%nat;
          Route (bs "GET") (bs "/api/hello") [Seg (bs "api") false; Seg (bs "hello") false] 2%nat 0%nat] 8.

Lemma sample_router_wf : router_wf sample_router.
Proof.
  split; [cbn; lia|].
  repeat constructor; try (vm_compute; reflexivity); apply (bool_decide_unpack _); vm_compute; exact I.
Qed.

Lemma router_match_correct_witness :
  ntc_router_match sample_router (bs "GET") (bs "//api/users/42/") =
  Some (NTC_ROUTE_FOUND, Some (Hit 1%nat 0%nat [Header (bs "id") (bs "42")])).
Proof.
  refine (eq_trans (router_match_correct sample_router (bs "GET") (bs "//api/users/42/")
            sample_router_wf) _). vm_compute. reflexivity.
Defined.

(** Registration keeps the router well formed and changes nothing on an error: it
    appends one route exactly on success, fails with INVALID exactly for a NULL handler or a
    pattern of more than 16 segments, and with OOM only when an allocation failed. *)
Theorem router_add_correct {handler udata} realloc_ok dup_ok (r : ntc_router handler udata)
    method pattern h u :
  router_wf r ->
  exists e r', ntc_router_add realloc_ok dup_ok r method pattern h u = Some (e, r') /\ router_wf r' /\
    match e with
    | NTC_OK => exists h' segs, h = Some h' /\ path_segs (cstr pattern) = Some segs /\
        routes r' = routes r ++ [Route (cstr method) (cstr pattern) segs h' u]
    | NTC_ERR_INVALID => routes r' = routes r /\ (h = None \/ path_segs (cstr pattern) = None)
    | NTC_ERR_OOM => routes r' = routes r /\ (realloc_ok = false \/ dup_ok = false)
    | _ => False
    end.
Proof. apply router_add_spec. Qed.

Lemma router_add_correct_witness :
  exists e r', ntc_router_add true true sample_router (bs "PUT") (bs "/x/:y") (Some 3%nat) 0%nat
               = Some (e, r') /\ router_wf r' /\
    match e with
    | NTC_OK => exists h' segs, Some 3%nat = Some h' /\ path_segs (cstr (bs "/x/:y")) = Some segs /\
        routes r' = routes sample_router ++ [Route (cstr (bs "PUT")) (cstr (bs "/x/:y")) segs h' 0%nat]
    | NTC_ERR_INVALID => routes r' = routes sample_router /\
        (Some 3%nat = None \/ path_segs (cstr (bs "/x/:y")) = None)
    | NTC_ERR_OOM => routes r' = routes sample_router /\ (true = false \/ true = false)
    | _ => False
    end.
Proof. exact (router_add_correct true true sample_router _ _ _ _ sample_router_wf). Defined.

(** What the router sees of a path is the list of its segments' texts: repeated and
    trailing slashes, a missing leading slash, and a colon before a segment of the request
    do not change the answer. *)
Theorem router_sees_texts {handler udata} (r : ntc_router handler udata) method p q :
  router_wf r ->
  fmap (M:=list) seg_s <$> path_segs p = fmap (M:=list) seg_s <$> path_segs q ->
  ntc_router_match r method p = ntc_router_match r method q.
Proof. intros Hwf E. rewrite !router_match_spec by done. by rewrite (route_spec_texts _ _ p q E). Qed.

Lemma router_sees_texts_witness :
  ntc_router_match sample_router (bs "GET") (bs "/:api//hello/") =
  ntc_router_match sample_router (bs "GET") (bs "/api/hello").
Proof.
  refine (router_sees_texts sample_router (bs "GET") _ _ sample_router_wf _). vm_compute. reflexivity.
Defined.
