(* ===== verification/Inflight.v ===== *)
(** * The in-flight slot table (src/core/server.c)

    A request handed to a controller carries a 32-bit id: a slot of a fixed table in its
    low 12 bits and 20 bits of the slot's generation above.  A slot's generation moves on
    when it is freed, so a late answer to a finished request finds nobody. *)
From S2P Require Import Prelude.
Open Scope Z_scope.

(** A connection is known to the table by its address. *)
Abbreviation conn_ptr := nat.

(** server.c:52-54 [NTC_INFLIGHT_BITS] *)
Definition NTC_INFLIGHT_BITS : Z := 12.
Definition NTC_MAX_INFLIGHT : nat := Nat.pow 2 12.
Definition NTC_INFLIGHT_MASK : Z := Z.of_nat NTC_MAX_INFLIGHT - 1.

(** server.c:183-186 [gateway]. The part of the gateway that is the table. *)
Record slots := Slots {
  pending : list (option conn_ptr); gen : list Z; free_slots : list nat; free_top : nat }.

(** server.c:260-263 [gw_slots_init]. The table is zeroed before. *)
Definition gw_slots_init : slots :=
  Slots (replicate NTC_MAX_INFLIGHT None) (replicate NTC_MAX_INFLIGHT 0)
    (seq 0 NTC_MAX_INFLIGHT) NTC_MAX_INFLIGHT.

(** server.c:264-270 [gw_alloc_id]. The inner [None] is the -1 result. *)
Definition gw_alloc_id (t : slots) (c : conn_ptr) : option (option (Z * slots)) :=
  if (free_top t =? 0)%nat then Some None else
  let top := (free_top t - 1)%nat in
  slot ← free_slots t !! top;
  _ ← pending t !! slot;
  g ← gen t !! slot;
  Some (Some (Z.lor (u32 (Z.land g 0xFFFFF ≪ NTC_INFLIGHT_BITS)) (Z.of_nat slot),
              Slots (<[slot := Some c]> (pending t)) (gen t) (free_slots t) top)).

(** server.c:271-275 [gw_free_slot]. [None] is an index outside one of the arrays. *)
Definition gw_free_slot (t : slots) (slot : nat) : option slots :=
  _ ← pending t !! slot;
  g ← gen t !! slot;
  _ ← free_slots t !! free_top t;
  Some (Slots (<[slot := None]> (pending t)) (<[slot := u32 (g + 1)]> (gen t))
          (<[free_top t := slot]> (free_slots t)) (free_top t + 1)).

(** server.c:433-433 [gw_conn_for_id, slot] *)
Definition slot_of (id : Z) : nat := Z.to_nat (Z.land id NTC_INFLIGHT_MASK).

(** server.c:432-438 [gw_conn_for_id]. The inner [None] is NULL. *)
Definition gw_conn_for_id (t : slots) (id : Z) : option (option conn_ptr) :=
  let slot := slot_of id in
  let g := id ≫ NTC_INFLIGHT_BITS in
  c ← pending t !! slot;
  g' ← gen t !! slot;
  Some (match c with
        | None => None
        | Some p => if negb (Z.land g' 0xFFFFF =? g) then None else Some p
        end).

(** ** The invariant

    The free list holds each slot with no pending connection exactly once. *)
Record slots_wf (t : slots) : Prop := SlotsWf {
  sw_pending : length (pending t) = NTC_MAX_INFLIGHT;
  sw_gen : length (gen t) = NTC_MAX_INFLIGHT /\ Forall (fun g => 0 <= g < 2 ^ 32) (gen t);
  sw_free : length (free_slots t) = NTC_MAX_INFLIGHT;
  sw_top : (free_top t <= NTC_MAX_INFLIGHT)%nat;
  sw_nodup : NoDup (take (free_top t) (free_slots t));
  sw_exact : forall s, s ∈ take (free_top t) (free_slots t) <-> pending t !! s = Some None }.

(** How the table evolves: any interleaving of allocations and frees of slots in use.
    [steps t n s t'] frees slot [s] exactly [n] times. *)
Inductive slot_steps (s : nat) : slots -> nat -> slots -> Prop :=
  | steps_refl t : slot_steps s t 0 t
  | steps_alloc t n t' c id t'' :
      slot_steps s t n t' -> gw_alloc_id t' c = Some (Some (id, t'')) -> slot_steps s t n t''
  | steps_free t n t' k c t'' :
      slot_steps s t n t' -> pending t' !! k = Some (Some c) -> gw_free_slot t' k = Some t'' ->
      slot_steps s t (if decide (k = s) then S n else n) t''.

(** ** Lemmas *)

Lemma max_inflight_Z : Z.of_nat NTC_MAX_INFLIGHT = 2 ^ 12.
Proof. reflexivity. Qed.

Lemma slot_of_mod id : 0 <= id -> slot_of id = Z.to_nat (id mod 2 ^ 12).
Proof.
  intros H. unfold slot_of, NTC_INFLIGHT_MASK. rewrite max_inflight_Z.
  change (2 ^ 12 - 1) with (Z.ones 12). by rewrite Z.land_ones by lia.
Qed.

Lemma land_gen g : Z.land g 0xFFFFF = g mod 2 ^ 20.
Proof. change 0xFFFFF with (Z.ones 20). by rewrite Z.land_ones by lia. Qed.

(** The fields of an id. *)
Lemma make_id g slot :
  (slot < NTC_MAX_INFLIGHT)%nat ->
  let id := Z.lor (u32 (Z.land g 0xFFFFF ≪ NTC_INFLIGHT_BITS)) (Z.of_nat slot) in
  id = g mod 2 ^ 20 * 2 ^ 12 + Z.of_nat slot /\ 0 <= id < 2 ^ 32 /\
  slot_of id = slot /\ id ≫ NTC_INFLIGHT_BITS = g mod 2 ^ 20.
Proof.
  intros Hs id. assert (Z.of_nat slot < 2 ^ 12) as Hs' by (rewrite <- max_inflight_Z; lia).
  pose proof (Z.mod_pos_bound g (2 ^ 20) ltac:(lia)) as Hg.
  assert (id = g mod 2 ^ 20 * 2 ^ 12 + Z.of_nat slot) as E.
  { unfold id, u32, NTC_INFLIGHT_BITS. rewrite land_gen, Z.shiftl_mul_pow2, Z.mod_small by lia.
    pose proof (lor_shiftl_add (g mod 2 ^ 20) (Z.of_nat slot) 12) as E.
    rewrite Z.shiftl_mul_pow2 in E by lia. apply E; lia. }
  rewrite E. split_and!; try lia.
  - rewrite slot_of_mod by lia. rewrite Z.add_comm, Z.mod_add, Z.mod_small by lia. lia.
  - unfold NTC_INFLIGHT_BITS. rewrite Z.shiftr_div_pow2 by lia.
    rewrite Z.div_add_l, Z.div_small by lia. lia.
Qed.

Lemma slots_init_wf : slots_wf gw_slots_init.
Proof.
  split; cbn [gw_slots_init pending gen free_slots free_top].
  - apply length_replicate.
  - split; [apply length_replicate|]. by apply Forall_replicate.
  - apply length_seq.
  - done.
  - rewrite take_ge by (rewrite length_seq; lia). apply NoDup_seq.
  - intros s. rewrite take_ge by (rewrite length_seq; lia).
    rewrite elem_of_seq, lookup_replicate. split; [intros []; split; [done|lia]|intros []; lia].
Qed.

Lemma slots_lookups t s :
  slots_wf t -> (s < NTC_MAX_INFLIGHT)%nat ->
  exists c g, pending t !! s = Some c /\ gen t !! s = Some g /\ 0 <= g < 2 ^ 32.
Proof.
  intros [Hp [Hg Hb] _ _ _ _] Hs.
  destruct (lookup_lt_is_Some_2 (pending t) s) as [c Hc]; [lia|].
  destruct (lookup_lt_is_Some_2 (gen t) s) as [g Hl]; [lia|].
  exists c, g. split_and!; try done; by eapply (Forall_lookup_1 _ _ _ _ Hb).
Qed.

Lemma pending_lt t s c : slots_wf t -> pending t !! s = Some c -> (s < NTC_MAX_INFLIGHT)%nat.
Proof. intros [Hp _ _ _ _ _] H. apply lookup_lt_Some in H. lia. Qed.

(** Allocation: it fails exactly when no slot is free; otherwise it takes a free one. *)
Lemma alloc_spec t c :
  slots_wf t ->
  if decide (free_top t = 0%nat) then gw_alloc_id t c = Some None
  else exists slot g t', gw_alloc_id t c = Some (Some (g mod 2 ^ 20 * 2 ^ 12 + Z.of_nat slot, t')) /\
    slots_wf t' /\ (slot < NTC_MAX_INFLIGHT)%nat /\
    pending t !! slot = Some None /\ gen t !! slot = Some g /\
    pending t' = <[slot := Some c]> (pending t) /\ gen t' = gen t.
Proof.
  intros Hwf. unfold gw_alloc_id. case_decide as H0; [by rewrite H0|].
  rewrite (proj2 (Nat.eqb_neq _ _)) by done. pose proof Hwf as [Hp [Hg Hgb] Hf Ht Hn He].
  set (top := (free_top t - 1)%nat).
  destruct (lookup_lt_is_Some_2 (free_slots t) top) as [slot Hs]; [unfold top; lia|].
  rewrite Hs. bind.
  assert (take (free_top t) (free_slots t) = take top (free_slots t) ++ [slot]) as Htake.
  { replace (free_top t) with (S top) by (unfold top; lia). by apply take_S_r. }
  assert (pending t !! slot = Some None) as Hnone.
  { apply He. rewrite Htake. apply elem_of_app. right. by left. }
  pose proof (pending_lt t slot _ Hwf Hnone) as Hlt.
  destruct (slots_lookups t slot Hwf Hlt) as (c' & g & Hc' & Hgl & Hgr).
  rewrite Hc', Hgl. bind. destruct (make_id g slot Hlt) as (-> & _).
  do 3 eexists. split; [done|]. rewrite Htake in Hn. apply list.NoDup_app in Hn as (Hn1 & Hn2 & _).
  split_and!; try done. split; cbn [pending gen free_slots free_top]; try done.
  - by rewrite length_insert.
  - unfold top. lia.
  - intros s. destruct (decide (s = slot)) as [->|Hne].
    + rewrite list_lookup_insert_eq by lia. split; [|done]. intros Hin.
      exfalso. apply (Hn2 _ Hin). by left.
    + rewrite list_lookup_insert_ne by done. rewrite <- He, Htake, elem_of_app.
      split; [by left|]. intros [|Hin]; [done|]. apply list_elem_of_singleton in Hin. done.
Qed.

(** Freeing a slot in use. *)
Lemma free_spec t slot c g :
  slots_wf t -> pending t !! slot = Some (Some c) -> gen t !! slot = Some g ->
  exists t', gw_free_slot t slot = Some t' /\ slots_wf t' /\
    pending t' = <[slot := None]> (pending t) /\ gen t' = <[slot := u32 (g + 1)]> (gen t).
Proof.
  intros Hwf Hc Hg. pose proof Hwf as [Hp [Hgl Hgb] Hf Ht Hn He].
  pose proof (pending_lt t slot _ Hwf Hc) as Hlt.
  assert (slot ∉ take (free_top t) (free_slots t)) as Hnin by (rewrite He, Hc; congruence).
  assert (free_top t < NTC_MAX_INFLIGHT)%nat as Htop.
  { destruct (decide (free_top t = NTC_MAX_INFLIGHT)) as [E|]; [|lia]. exfalso. apply Hnin.
    assert (seq 0 NTC_MAX_INFLIGHT ⊆ take (free_top t) (free_slots t)) as Hsub.
    { assert (take (free_top t) (free_slots t) ≡ₚ seq 0 NTC_MAX_INFLIGHT) as Hperm.
      { apply submseteq_length_Permutation.
        - apply NoDup_submseteq; [done|]. intros s Hs. apply elem_of_seq.
          apply He in Hs. apply (pending_lt t s _ Hwf) in Hs. lia.
        - rewrite length_take, length_seq. lia. }
      intros s. by rewrite Hperm. }
    apply Hsub, elem_of_seq. lia. }
  destruct (lookup_lt_is_Some_2 (free_slots t) (free_top t)) as [x Hx]; [lia|].
  unfold gw_free_slot. rewrite Hc, Hg, Hx. bind. eexists. split; [done|].
  split_and!; try done.
  assert (take (free_top t + 1) (<[free_top t:=slot]> (free_slots t)) =
          take (free_top t) (free_slots t) ++ [slot]) as Htake.
  { rewrite Nat.add_1_r, (take_S_r _ _ slot) by (apply list_lookup_insert_eq; lia).
    by rewrite take_insert_ge by lia. }
  split; cbn [pending gen free_slots free_top]; rewrite ?length_insert; try done; try lia.
  - split; [done|]. apply Forall_insert; [done|]. unfold u32. apply Z.mod_pos_bound. lia.
  - rewrite Htake. apply list.NoDup_app. split_and!; [done| |apply NoDup_singleton].
    intros s Hs Hin. apply list_elem_of_singleton in Hin as ->. done.
  - intros s. rewrite Htake, elem_of_app, He, list_elem_of_singleton.
    destruct (decide (s = slot)) as [->|Hne].
    + rewrite list_lookup_insert_eq by lia. tauto.
    + rewrite list_lookup_insert_ne by done. tauto.
Qed.

(** The state of one slot along any evolution of the table. *)
Lemma slot_steps_inv s t n t' c g :
  slot_steps s t n t' -> slots_wf t -> pending t !! s = Some (Some c) -> gen t !! s = Some g ->
  slots_wf t' /\ gen t' !! s = Some ((g + Z.of_nat n) mod 2 ^ 32) /\
  (n = 0%nat -> pending t' !! s = Some (Some c)).
Proof.
  intros H Hwf Hp Hg. induction H as [t|t n t' c' id t'' H IH Ha|t n t' k c' t'' H IH Hk Hf].
  - destruct (slots_lookups t s Hwf (pending_lt _ _ _ Hwf Hp)) as (? & g' & _ & Hg' & Hr).
    split_and!; [done| |done]. rewrite Hg. f_equal. rewrite Z.add_0_r, Z.mod_small by congruence. done.
  - destruct IH as (Hwf' & Hg' & Hp'); [done..|]. pose proof (alloc_spec t' c' Hwf') as Hs.
    case_decide; [congruence|]. destruct Hs as (slot & g1 & t1 & Ha' & Hwf1 & _ & Hnone & _ & Epend & Egen).
    rewrite Ha' in Ha. simplify_eq. split_and!; [done|by rewrite Egen|]. intros Hn.
    specialize (Hp' Hn). rewrite Epend, list_lookup_insert_ne by congruence. done.
  - destruct IH as (Hwf' & Hg' & Hp'); [done..|].
    destruct (slots_lookups t' k Hwf' (pending_lt _ _ _ Hwf' Hk)) as (? & g1 & _ & Hg1 & Hr).
    destruct (free_spec t' k c' g1 Hwf' Hk Hg1) as (t1 & Hf' & Hwf1 & Epend & Egen).
    rewrite Hf' in Hf. simplify_eq. split; [done|]. rewrite Epend, Egen. case_decide as Hks.
    + subst k. rewrite Hg' in Hg1. simplify_eq.
      rewrite list_lookup_insert_eq by (by apply lookup_lt_Some in Hg'). split; [|done].
      f_equal. unfold u32. rewrite Zplus_mod_idemp_l. f_equal. lia.
    + rewrite !list_lookup_insert_ne by done. done.
Qed.

Lemma conn_for_id_spec t g s c g' :
  (s < NTC_MAX_INFLIGHT)%nat -> pending t !! s = Some c -> gen t !! s = Some g' ->
  gw_conn_for_id t (g mod 2 ^ 20 * 2 ^ 12 + Z.of_nat s) =
  Some (if decide (g' mod 2 ^ 20 = g mod 2 ^ 20) then c else None).
Proof.
  intros Hs Hc Hg. destruct (make_id g s Hs) as (E & _ & Hslot & Hgen). rewrite E in *.
  unfold gw_conn_for_id. rewrite Hslot, Hc, Hg, Hgen. bind. rewrite land_gen. f_equal.
  destruct c as [p|]; [|by case_decide].
  destruct (Z.eqb_spec (g' mod 2 ^ 20) (g mod 2 ^ 20)); case_decide; done.
Qed.

(** ** The properties *)

(** The slot table: it starts well formed; an allocation fails exactly when all 4096
    slots are in use, and otherwise gives a fresh 32-bit id that resolves to its
    connection and disturbs no other slot; freeing a slot in use makes it available again.
    No operation indexes outside the arrays. *)
Theorem inflight_table_correct :
  slots_wf gw_slots_init /\
  (forall t c, slots_wf t ->
     if decide (free_top t = 0%nat) then gw_alloc_id t c = Some None
     else exists id t', gw_alloc_id t c = Some (Some (id, t')) /\ slots_wf t' /\ 0 <= id < 2 ^ 32 /\
       pending t !! slot_of id = Some None /\ gw_conn_for_id t' id = Some (Some c) /\
       forall s, s <> slot_of id -> pending t' !! s = pending t !! s) /\
  (forall t slot c, slots_wf t -> pending t !! slot = Some (Some c) ->
     exists t', gw_free_slot t slot = Some t' /\ slots_wf t' /\ pending t' !! slot = Some None /\
       forall s, s <> slot -> pending t' !! s = pending t !! s).
Proof.
  split_and!; [apply slots_init_wf| |].
  - intros t c Hwf. pose proof (alloc_spec t c Hwf) as H. case_decide; [done|].
    destruct H as (slot & g & t' & Ha & Hwf' & Hlt & Hnone & Hg & Ep & Eg).
    destruct (make_id g slot Hlt) as (E & Hr & Hs & _). rewrite E in *.
    eexists _, t'. split; [exact Ha|]. rewrite Hs. split_and!; try done; try lia.
    + rewrite (conn_for_id_spec t' g slot (Some c) g); [by rewrite decide_True|done| |by rewrite Eg].
      rewrite Ep. apply list_lookup_insert_eq. by apply lookup_lt_Some in Hnone.
    + intros s Hne. by rewrite Ep, list_lookup_insert_ne.
  - intros t slot c Hwf Hc.
    destruct (slots_lookups t slot Hwf (pending_lt _ _ _ Hwf Hc)) as (? & g & _ & Hg & _).
    destruct (free_spec t slot c g Hwf Hc Hg) as (t' & Hf & Hwf' & Ep & _).
    exists t'. split_and!; try done.
    + rewrite Ep. apply list_lookup_insert_eq. by apply lookup_lt_Some in Hc.
    + intros s Hne. by rewrite Ep, list_lookup_insert_ne.
Qed.


