(* ===== verification/Gzip.v ===== *)
(** * gzip containers (src/core/gzip.c)

    DEFLATE and CRC-32 are miniz's, parameters here; the source wraps the compressed bytes
    in the RFC 1952 container. *)
From S2P Require Import Prelude.
Open Scope Z_scope.

(** gzip.c:9-12 [put_le32] *)
Definition put_le32 (v : Z) : bytes := [u8 v; u8 (v ≫ 8); u8 (v ≫ 16); u8 (v ≫ 24)].

(** gzip.c:30-30 [ntc_gzip, hdr] *)
Definition gzip_hdr : bytes := [0x1f; 0x8b; 0x08; 0; 0; 0; 0; 0; 0; 0xff].

Section gzip.
  (** miniz: raw DEFLATE of a buffer ([None] is a failure) and the CRC-32 of one. *)
  Variable tdefl_compress : bytes -> option bytes.
  Variable mz_crc32 : bytes -> Z.

(** gzip.c:14-41 [ntc_gzip]. [malloc_ok] is the outcome of its allocation; [None] is NULL. *)
Definition ntc_gzip (malloc_ok : bool) (src : bytes) : option bytes :=
  if (length src =? 0)%nat then None else
  match tdefl_compress src with
  | None => None
  | Some deflated =>
      let total := (10 + length deflated + 8)%nat in
      if (length src <=? total)%nat then None else
      if negb malloc_ok then None else
      Some (gzip_hdr ++ deflated ++ put_le32 (u32 (mz_crc32 src)) ++
            put_le32 (Z.land (Z.of_nat (length src)) 0xFFFFFFFF))
  end.

(** ** The reference: reading the container back *)

Definition get_le32 (p : bytes) : option Z :=
  match p with
  | [a; b; c; d] => Some (a + b * 2 ^ 8 + c * 2 ^ 16 + d * 2 ^ 24)
  | _ => None
  end.

(** A reader of single-member gzip files without optional fields, over an inflater. *)
Definition gunzip (inflate : bytes -> option bytes) (f : bytes) : option bytes :=
  if negb (bool_decide (take 10 f = gzip_hdr) && (18 <=? length f)%nat) then None else
  crc ← get_le32 (take 4 (drop (length f - 8) f));
  size ← get_le32 (drop (length f - 4) f);
  s ← inflate (take (length f - 18) (drop 10 f));
  if (crc =? mz_crc32 s) && (size =? Z.of_nat (length s) mod 2 ^ 32) then Some s else None.

Lemma get_put_le32 v : 0 <= v < 2 ^ 32 -> get_le32 (put_le32 v) = Some v.
Proof.
  intros Hv. unfold get_le32, put_le32, u8. f_equal. rewrite !Z.shiftr_div_pow2 by lia.
  pose proof (div_mod_pow2_split v 8 8 ltac:(lia) ltac:(lia)) as H1.
  pose proof (div_mod_pow2_split v 16 8 ltac:(lia) ltac:(lia)) as H2.
  pose proof (div_mod_pow2_split v 24 8 ltac:(lia) ltac:(lia)) as H3.
  change (8 + 8) with 16 in H1. change (16 + 8) with 24 in H2. change (24 + 8) with 32 in H3.
  rewrite (Z.mod_small v (2 ^ 32)) in H3 by lia. lia.
Qed.

(** Compression is never lossy or larger: whenever [ntc_gzip] gives a buffer, it is
    strictly shorter than the source and a gzip reader recovers the source from it, given
    an inflater that inverts miniz's DEFLATE. *)
Theorem gzip_roundtrip inflate malloc_ok src out :
  (forall s d, tdefl_compress s = Some d -> inflate d = Some s) ->
  (forall s, 0 <= mz_crc32 s < 2 ^ 32) ->
  ntc_gzip malloc_ok src = Some out ->
  gunzip inflate out = Some src /\ (length out < length src)%nat.
Proof.
  intros Hinf Hcrc H. unfold ntc_gzip in H. destruct (length src =? 0)%nat; [done|].
  destruct (tdefl_compress src) as [d|] eqn:Ed; [|done].
  destruct (Nat.leb_spec (length src) (10 + length d + 8)); [done|].
  destruct malloc_ok; [|done]. cbn [negb] in H.
  set (crc := put_le32 (u32 (mz_crc32 src))).
  set (size := put_le32 (Z.land (Z.of_nat (length src)) 0xFFFFFFFF)).
  assert (length crc = 4 /\ length size = 4)%nat as [Lc Ls] by done.
  assert (out = gzip_hdr ++ d ++ crc ++ size) as -> by (unfold crc, size; congruence). clear H.
  assert (length (gzip_hdr ++ d ++ crc ++ size) = 18 + length d)%nat as Hl
    by (rewrite !length_app; unfold gzip_hdr; cbn [length]; lia).
  split; [|lia]. unfold gunzip. rewrite Hl.
  rewrite (take_app_length' gzip_hdr _ 10) by done. rewrite bool_decide_true by done.
  rewrite (proj2 (Nat.leb_le _ _)) by lia. cbn [negb andb].
  replace (18 + length d - 8)%nat with (10 + length d)%nat by lia.
  replace (18 + length d - 4)%nat with (10 + length d + 4)%nat by lia.
  replace (18 + length d - 18)%nat with (length d) by lia.
  assert (drop (10 + length d) (gzip_hdr ++ d ++ crc ++ size) = crc ++ size) as D1
    by (rewrite <- (drop_drop _ _ 10), (drop_app_length' gzip_hdr _ 10), drop_app_length by done; done).
  rewrite D1, <- drop_drop, D1. rewrite <- Lc. rewrite take_app_length, drop_app_length.
  unfold crc, size. change 0xFFFFFFFF with (Z.ones 32). rewrite Z.land_ones by lia.
  rewrite get_put_le32 by (apply Z.mod_pos_bound; lia). bind. rewrite get_put_le32 by (apply Z.mod_pos_bound; lia). bind.
  rewrite (drop_app_length' gzip_hdr _ 10) by done. rewrite take_app_length.
  rewrite (Hinf _ _ Ed). bind. unfold u32. rewrite Z.mod_small by apply Hcrc.
  by rewrite !Z.eqb_refl.
Qed.
End gzip.

(** Run-length coding of a constant buffer stands in for DEFLATE in the witness. *)
Lemma gzip_roundtrip_witness :
  let deflate s := if decide (s = replicate 20 97) then Some [1] else None in
  let inflate d := if decide (d = [1]) then Some (replicate 20 97) else None in
  exists out, ntc_gzip deflate (fun _ => 5) true (replicate 20 97) = Some out /\
    gunzip (fun _ => 5) inflate out = Some (replicate 20 97).
Proof.
  intros deflate inflate. eexists. split; [vm_compute; reflexivity|].
  refine (proj1 (gzip_roundtrip deflate (fun _ => 5) inflate true (replicate 20 97) _ _ _ _)).
  - intros s d H. unfold deflate in H. case_decide; [|discriminate]. injection H as <-. subst. reflexivity.
  - intros s. lia.
  - vm_compute. reflexivity.
Defined.
