(* ===== verification/Multipart.v ===== *)
(** * multipart/form-data (src/common/controller_sdk.c)

    The boundary of a [Content-Type] and the parts of a body.  The slices a part holds are
    views of the body; a position is what is left of the buffer from it on. *)
From S2P Require Import Prelude Slice.
Open Scope Z_scope.

(** controller.h:83-88 [ntc_multipart_part] *)
Record ntc_multipart_part := Part {
  p_name : ntc_slice; p_filename : ntc_slice; p_content_type : ntc_slice; p_data : ntc_slice }.

(** controller_sdk.c:168-179 [ntc_multipart_boundary]. [None] is [false]; otherwise what is
    left in [out], of [cap] bytes. *)
Definition ntc_multipart_boundary (content_type : ntc_slice) (cap : nat) : option bytes :=
  match memmem (bs "boundary=") content_type with
  | None => None
  | Some i =>
      let b := drop (i + 9) content_type in
      let token :=
        if bool_decide (head b = Some 34)
        then let b := drop 1 b in match memchr 34 b with Some q => take q b | None => b end
        else match memchr 59 b with Some semi => take semi b | None => b end in
      let n := length token in
      if (n =? 0)%nat || (cap <=? n)%nat then None else Some token
  end.

(** controller_sdk.c:181-189 [mp_quoted]. What [*slot] holds after it. *)
Definition mp_quoted (text key : bytes) (slot : ntc_slice) : ntc_slice :=
  match memmem key text with
  | None => slot
  | Some k =>
      let k := drop (k + length key) text in
      match memchr 34 k with Some q => take q k | None => slot end
  end.

(** controller_sdk.c:221-221 [ntc_multipart_parse, blanks] *)
Fixpoint skip_spaces (s : bytes) : bytes :=
  match s with c :: s' => if c =? 32 then skip_spaces s' else s | [] => [] end.

(** controller_sdk.c:211-227 [ntc_multipart_parse, part]. The part that stands in [text], the
    bytes from [cur] to [next]. *)
Definition part_of (text : bytes) : ntc_multipart_part :=
  match memmem (crlf ++ crlf) text with
  | None => Part [] [] [] text
  | Some h =>
      let hdr := take h text in
      let content_type :=
        match memmem (bs "Content-Type:") hdr with
        | None => []
        | Some ct =>
            let ct := skip_spaces (drop (ct + 13) hdr) in
            match memmem crlf ct with Some eol => take eol ct | None => ct end
        end in
      Part (mp_quoted hdr (qs "name='") []) (mp_quoted hdr (qs "filename='") [])
        content_type (drop (h + 4) text)
  end.

(** controller_sdk.c:205-206 [ntc_multipart_parse, the two bytes]. [cur + 2 <= end] and the two bytes at
    [cur]. *)
Definition stands_at (a b : Z) (cur : bytes) : bool :=
  match cur with x :: y :: _ => (x =? a) && (y =? b) | _ => false end.

(** controller_sdk.c:203-230 [ntc_multipart_parse, loop]. [room] is [max - count]. *)
Fixpoint parts_loop (sep : bytes) (room : nat) (cur : bytes) : list ntc_multipart_part :=
  match room, cur with
  | O, _ | _, [] => []
  | S room, _ =>
      if stands_at 45 45 cur then [] else
      if negb (stands_at 13 10 cur) then [] else
      let cur := drop 2 cur in
      match memmem sep cur with
      | None => []
      | Some next => part_of (take next cur) :: parts_loop sep room (drop (next + length sep) cur)
      end
  end.

(** controller_sdk.c:191-232 [ntc_multipart_parse]. [None] is -1; otherwise the [count] parts
    that were stored. [boundary] is a C string; the 264 bytes of [sep] hold what the 260 of
    [delim] leave room for. *)
Definition ntc_multipart_parse (body : ntc_slice) (boundary : bytes) (max : Z)
    : option (list ntc_multipart_part) :=
  let delim := bs "--" ++ boundary in
  let sep := crlf ++ bs "--" ++ boundary in
  if 260 <=? Z.of_nat (length delim) then None else
  match memmem delim body with
  | None => None
  | Some i => Some (parts_loop sep (Z.to_nat max) (drop (i + length delim) body))
  end.

(** ** The format

    What a browser writes: the parts between boundary lines, each with its disposition, the
    type of its contents when it has one, and its data. *)

Definition part_disposition (p : ntc_multipart_part) : bytes :=
  qs "Content-Disposition: form-data; name='" ++ p_name p ++ [34] ++
  (if decide (p_filename p = []) then [] else qs "; filename='" ++ p_filename p ++ [34]).

Definition part_head (p : ntc_multipart_part) : bytes :=
  part_disposition p ++
  (if decide (p_content_type p = []) then [] else crlf ++ bs "Content-Type: " ++ p_content_type p).

Definition part_text (p : ntc_multipart_part) : bytes := part_head p ++ crlf ++ crlf ++ p_data p.

Definition delimiter (boundary : bytes) : bytes := crlf ++ bs "--" ++ boundary.

Fixpoint parts_text (boundary : bytes) (ps : list ntc_multipart_part) (epilogue : bytes) : bytes :=
  match ps with
  | [] => bs "--" ++ epilogue
  | p :: ps => crlf ++ part_text p ++ delimiter boundary ++ parts_text boundary ps epilogue
  end.

Definition multipart_text (boundary preamble : bytes) (ps : list ntc_multipart_part) (epilogue : bytes)
    : bytes := preamble ++ bs "--" ++ boundary ++ parts_text boundary ps epilogue.

(** A value that may stand between quotes or on a header line. *)
Definition plain (s : bytes) : Prop := (13 ∉ s) /\ (34 ∉ s).

(** The parts the format carries: no value holds a quote, a line end or the parser's own
    keywords, and the data does not hold the delimiter. *)
Record part_ok (boundary : bytes) (p : ntc_multipart_part) : Prop := PartOk {
  po_name : plain (p_name p);
  po_filename : plain (p_filename p);
  po_type : plain (p_content_type p) /\ head (p_content_type p) <> Some 32;
  po_keys : ~ (bs "filename=" `suffix_of` p_name p) /\
    memmem (bs "Content-Type:") (p_name p) = None /\ memmem (bs "Content-Type:") (p_filename p) = None;
  po_data : memmem (delimiter boundary) (crlf ++ p_data p) = None }.

(** ** Searching a text *)

(** A needle that starts with a byte the prefix does not have starts behind the prefix. *)
Lemma memmem_skip c n a s : c ∉ a -> memmem (c :: n) (a ++ s) = Nat.add (length a) <$> memmem (c :: n) s.
Proof.
  induction a as [|x a IH]; intros Hc; [cbn [app]; by destruct (memmem (c :: n) s)|].
  apply not_elem_of_cons in Hc as [Hx Hc]. cbn [app memmem]. rewrite decide_False.
  - rewrite IH by done. by destruct (memmem (c :: n) s).
  - cbn. by intros [= <- _].
Qed.

Lemma memmem_absent c n s : c ∈ n -> c ∉ s -> memmem n s = None.
Proof.
  intros Hn Hs. destruct (memmem n s) as [i|] eqn:E; [|done]. exfalso. apply Hs.
  apply memmem_split in E as [-> _]. rewrite !elem_of_app. tauto.
Qed.

(** A needle that ends with [c] and has no other: behind text with no [c], it ends at the
    first [c] or comes after it. *)
Lemma take_lookup_eq (n s : bytes) k c : take k s = n ++ [c] -> s !! length n = Some c.
Proof.
  intros E. apply (f_equal (fun l => l !! length n)) in E. rewrite list_lookup_middle in E by done.
  apply lookup_take_Some in E. tauto.
Qed.

Lemma memmem_last_here c n a s :
  c ∉ n -> c ∉ a -> memmem (n ++ [c]) ((a ++ n) ++ c :: s) = Some (length a).
Proof.
  intros Hn Ha. apply memmem_Some. split; [exists a, s; by rewrite <- !app_assoc|].
  intros j Hj E. apply take_lookup_eq in E. rewrite lookup_drop, lookup_app_l in E
    by (rewrite length_app; lia).
  apply list_elem_of_lookup_2 in E. rewrite elem_of_app in E. tauto.
Qed.

Lemma memmem_last_later c n a s :
  c ∉ n -> c ∉ a -> ~ (n `suffix_of` a) ->
  memmem (n ++ [c]) (a ++ c :: s) = Nat.add (S (length a)) <$> memmem (n ++ [c]) s.
Proof.
  intros Hn. induction a as [|x a IH]; intros Ha Hs; cbn [app memmem].
  - rewrite decide_False; [by destruct (memmem _ s)|]. destruct n as [|y n]; [by destruct Hs; exists []|].
    cbn. intros [= <- _]. apply Hn. left.
  - rewrite decide_False.
    + apply not_elem_of_cons in Ha as [Hx Ha].
      rewrite IH; [by destruct (memmem _ s)|done|]. intros [k ->]. apply Hs. by exists (x :: k).
    + intros E. pose proof (take_lookup_eq _ _ _ _ E) as L.
      change (x :: a ++ c :: s) with ((x :: a) ++ c :: s) in L, E.
      destruct (Nat.lt_trichotomy (length n) (length (x :: a))) as [Hl|[Hl|Hl]].
      * rewrite lookup_app_l in L by done. by apply list_elem_of_lookup_2 in L.
      * apply Hs. exists []. apply (f_equal (take (length n))) in E.
        rewrite take_take, length_app, Nat.min_l in E by lia. rewrite take_app_length in E.
        by rewrite Hl, take_app_length in E.
      * apply (f_equal (fun l => l !! length (x :: a))) in E.
        rewrite lookup_take_lt, list_lookup_middle in E by (rewrite ?length_app; simpl in *; lia || done).
        symmetry in E. rewrite lookup_app_l in E by done. by apply list_elem_of_lookup_2 in E.
Qed.

Lemma memmem_next n x s : take (length n) (x :: s) <> n -> memmem n (x :: s) = S <$> memmem n s.
Proof. intros H. cbn [memmem]. by rewrite decide_False. Qed.

Lemma memmem_head n s : memmem n (n ++ s) = Some 0%nat.
Proof. apply memmem_Some. split; [by exists [], s|intros j Hj; lia]. Qed.

(** A byte the needle does not have cuts the text in two. *)
Lemma memmem_cut c n a s :
  c ∉ n -> n <> [] -> memmem n a = None -> memmem n (a ++ c :: s) = Nat.add (S (length a)) <$> memmem n s.
Proof.
  intros Hn Hne. induction a as [|x a IH]; intros Ha; cbn [app].
  - rewrite memmem_next; [by destruct (memmem n s)|]. destruct n as [|y n]; [done|].
    cbn. intros [= <- _]. apply Hn. left.
  - cbn [memmem] in Ha. case_decide as Hd; [done|]. apply fmap_None in Ha.
    rewrite memmem_next; [rewrite IH by done; by destruct (memmem n s)|].
    change (x :: a ++ c :: s) with ((x :: a) ++ c :: s). intros E. apply Hd.
    destruct (Nat.le_gt_cases (length n) (length (x :: a))) as [Hl|Hl]; [by rewrite take_app_le in E|].
    exfalso. apply Hn. rewrite <- E. rewrite take_app_ge by lia. apply elem_of_app. right.
    destruct (length n - length (x :: a))%nat eqn:El; [lia|]. left.
Qed.

(** A needle whose first byte does not come back is found where it is put. *)
Lemma memmem_end c n a s :
  c ∉ n -> memmem (c :: n) a = None -> memmem (c :: n) (a ++ (c :: n) ++ s) = Some (length a).
Proof.
  intros Hn Ha. rewrite memmem_None in Ha. apply memmem_Some. split; [by exists a, s|].
  intros j Hj E. destruct (Nat.le_gt_cases (j + length (c :: n)) (length a)) as [Hl|Hl].
  - apply (Ha j). rewrite <- E at 2. rewrite drop_app_le by lia. rewrite take_app_le; [done|].
    rewrite length_drop. lia.
  - assert ((c :: n) !! (length a - j)%nat = Some c) as L.
    { rewrite <- E at 1. rewrite lookup_take_lt by lia. rewrite lookup_drop.
      replace (j + (length a - j))%nat with (length a) by lia.
      rewrite lookup_app_r by done. by rewrite Nat.sub_diag. }
    destruct (length a - j)%nat as [|k] eqn:Ek; [lia|]. cbn in L.
    by apply list_elem_of_lookup_2 in L.
Qed.

(** ** Reading back what was written *)

Lemma mp_quoted_found text key k v rest slot :
  memmem key text = Some k -> drop (k + length key) text = v ++ 34 :: rest -> 34 ∉ v ->
  mp_quoted text key slot = v.
Proof.
  intros Ek Ed Hv. unfold mp_quoted. rewrite Ek, Ed, memchr_app by done. by rewrite take_app_length.
Qed.

Section round_trip.
Context (boundary : bytes) (Hb : 13 ∉ boundary).

Implicit Types p : ntc_multipart_part.

(** What follows the name on the first lines: the file name, and the type. *)
Definition file_clause p : bytes :=
  if decide (p_filename p = []) then [] else qs "; filename='" ++ p_filename p ++ [34].
Definition type_line p : bytes :=
  if decide (p_content_type p = []) then [] else crlf ++ bs "Content-Type: " ++ p_content_type p.

Lemma part_head_eq p :
  part_head p = (bs "Content-Disposition: form-data; " ++ bs "name=") ++
                34 :: p_name p ++ 34 :: file_clause p ++ type_line p.
Proof. unfold part_head, part_disposition. rewrite <- !app_assoc. reflexivity. Qed.

Ltac not_in := apply (bool_decide_unpack _); vm_compute; exact I.

Lemma type_line_plain p : plain (p_content_type p) -> 34 ∉ type_line p.
Proof.
  intros [_ H]. unfold type_line. case_decide; [not_in|]. rewrite !not_elem_of_app.
  split_and!; [not_in|not_in|done].
Qed.

Lemma quoted_name p slot : part_ok boundary p -> mp_quoted (part_head p) (qs "name='") slot = p_name p.
Proof.
  intros [[_ Hn] _ _ _ _]. rewrite part_head_eq.
  change (qs "name='") with (bs "name=" ++ [34]). eapply mp_quoted_found; [|idtac|done].
  - apply memmem_last_here; not_in.
  - reflexivity.
Qed.

Lemma quoted_filename p : part_ok boundary p -> mp_quoted (part_head p) (qs "filename='") [] = p_filename p.
Proof.
  intros [[_ Hn] [_ Hf] [Ht _] (Hk & _) _]. rewrite part_head_eq.
  change (qs "filename='") with (bs "filename=" ++ [34]).
  assert (~ (bs "filename=" `suffix_of` (bs "Content-Disposition: form-data; " ++ bs "name="))) as Hp by not_in.
  unfold file_clause. case_decide as Hd.
  - unfold mp_quoted. rewrite memmem_last_later by (done || not_in).
    rewrite memmem_last_later by (done || not_in). rewrite (memmem_absent 34); [done|not_in|].
    by apply type_line_plain.
  - eapply mp_quoted_found; [|idtac|exact Hf].
    + rewrite memmem_last_later by (done || not_in). rewrite memmem_last_later by (done || not_in).
      change (qs "; filename='") with ((bs "; " ++ bs "filename=") ++ [34]). rewrite <- !app_assoc.
      change ([34] ++ ?x) with (34 :: x). rewrite app_assoc.
      rewrite memmem_last_here by not_in. bind. reflexivity.
    + set (pre := (bs "Content-Disposition: form-data; " ++ bs "name=") ++
                  34 :: p_name p ++ 34 :: qs "; filename='").
      transitivity (drop (length pre) (pre ++ p_filename p ++ 34 :: type_line p)).
      * f_equal; [unfold pre; rewrite !length_app; simpl; rewrite !length_app; simpl; lia|].
        unfold pre. by rewrite <- !app_assoc; simpl; rewrite <- !app_assoc.
      * by rewrite drop_app_length.
Qed.

Lemma before_type_line p : part_ok boundary p ->
  exists pre, part_head p = pre ++ type_line p /\
    memmem (bs "Content-Type:") (part_head p) =
      Nat.add (length pre) <$> memmem (bs "Content-Type:") (type_line p).
Proof.
  intros [_ _ _ (_ & Hn & Hf) _]. rewrite part_head_eq. unfold file_clause.
  set (lead := bs "Content-Disposition: form-data; " ++ bs "name=").
  set (key := bs "Content-Type:") in *.
  assert (34 ∉ key) as Hk by not_in. assert (key <> []) as Hne by discriminate.
  assert (memmem key lead = None) as Hl by (vm_compute; reflexivity).
  assert (memmem key (bs "; filename=") = None) as Hm by (vm_compute; reflexivity).
  clearbody key lead.
  case_decide as Hd.
  - exists (lead ++ 34 :: p_name p ++ [34]). split; [by simplify_list_eq|]. simpl.
    rewrite memmem_cut by done. rewrite memmem_cut by done. rewrite <- option_fmap_compose.
    apply option_fmap_ext. intros n. rewrite length_app. simpl. rewrite length_app. simpl. lia.
  - exists (lead ++ 34 :: p_name p ++ 34 :: bs "; filename=" ++ 34 :: p_filename p ++ [34]).
    change (qs "; filename='") with (bs "; filename=" ++ [34]). split; [by simplify_list_eq|].
    replace (((bs "; filename=" ++ [34]) ++ p_filename p ++ [34]) ++ type_line p)
      with (bs "; filename=" ++ 34 :: p_filename p ++ 34 :: type_line p) by by simplify_list_eq.
    do 4 (rewrite memmem_cut by done). rewrite <- !option_fmap_compose.
    apply option_fmap_ext. intros n. rewrite length_app. simpl. rewrite length_app. simpl.
    rewrite length_app. simpl. lia.
Qed.

Lemma content_type_found p : part_ok boundary p ->
  match memmem (bs "Content-Type:") (part_head p) with
  | None => []
  | Some ct =>
      let ct := skip_spaces (drop (ct + 13) (part_head p)) in
      match memmem crlf ct with Some eol => take eol ct | None => ct end
  end = p_content_type p.
Proof.
  intros Hp. destruct (before_type_line p Hp) as (pre & -> & ->).
  destruct Hp as [_ _ [[Ht _] Hsp] _ _]. unfold type_line. case_decide as Hd; [done|].
  change (bs "Content-Type:") with (67 :: bs "ontent-Type:").
  rewrite memmem_skip by not_in.
  change (bs "Content-Type: " ++ ?t) with ((67 :: bs "ontent-Type:") ++ 32 :: t).
  rewrite memmem_head. bind. cbn zeta.
  replace (length pre + (length crlf + 0) + 13)%nat with (length pre + 15)%nat by (cbn; lia).
  rewrite <- drop_drop, drop_app_length. simpl.
  assert (skip_spaces (p_content_type p) = p_content_type p) as ->.
  { destruct (p_content_type p) as [|c t]; [done|]. cbn [skip_spaces].
    by rewrite (proj2 (Z.eqb_neq c 32)) by (intros ->; by apply Hsp). }
  rewrite (memmem_absent 13); [done|not_in|done].
Qed.

(** A line end that is not followed by a header is not in the head. *)
Lemma past_head p x n s : part_ok boundary p -> x <> 67 ->
  memmem (13 :: 10 :: x :: n) (part_head p ++ 13 :: s) =
  Nat.add (length (part_head p)) <$> memmem (13 :: 10 :: x :: n) (13 :: s).
Proof.
  intros [[Hn _] [Hf _] [[Ht _] _] _ _] Hx. unfold part_head. rewrite <- app_assoc.
  assert (13 ∉ part_disposition p) as Hd.
  { unfold part_disposition. case_decide; rewrite !not_elem_of_app; split_and!; done || not_in. }
  rewrite memmem_skip by done. case_decide as Ht'; [by rewrite app_nil_r|].
  change (crlf ++ bs "Content-Type: " ++ p_content_type p) with
    (13 :: 10 :: bs "Content-Type: " ++ p_content_type p). cbn [app].
  rewrite memmem_next by (intros [= E _]; apply Hx; symmetry; exact E). rewrite memmem_next by (by intros [=]).
  rewrite memmem_skip by (rewrite not_elem_of_app; split; [not_in|done]).
  rewrite <- !option_fmap_compose. apply option_fmap_ext. intros k. rewrite !length_app. simpl.
  rewrite !length_app. lia.
Qed.

Lemma head_end p s : part_ok boundary p ->
  memmem (crlf ++ crlf) (part_head p ++ crlf ++ crlf ++ s) = Some (length (part_head p)).
Proof.
  intros Hp. etransitivity; [by apply (past_head p 13)|].
  etransitivity; [apply (f_equal (fmap (Nat.add _))), (memmem_head (crlf ++ crlf) s)|].
  bind. f_equal. lia.
Qed.

Lemma part_of_text p : part_ok boundary p -> part_of (part_text p) = p.
Proof.
  intros Hp. unfold part_of, part_text. rewrite head_end by done.
  rewrite take_app_length. cbn zeta.
  rewrite content_type_found, quoted_name, quoted_filename by done.
  rewrite <- drop_drop, drop_app_length. by destruct p.
Qed.

Lemma delimiter_no_cr : 13 ∉ tail (delimiter boundary).
Proof. unfold delimiter. cbn. rewrite !not_elem_of_cons. split_and!; done. Qed.

Lemma text_end p s : part_ok boundary p ->
  memmem (delimiter boundary) (part_text p ++ delimiter boundary ++ s) = Some (length (part_text p)).
Proof.
  intros Hp. pose proof delimiter_no_cr as Hd.
  apply (memmem_end 13); [exact Hd|].
  change (memmem (delimiter boundary) (part_text p) = None).
  unfold part_text. etransitivity; [by apply (past_head p 45)|].
  change (13 :: [10] ++ crlf ++ p_data p) with (13 :: 10 :: crlf ++ p_data p).
  rewrite memmem_next by (by intros [=]). rewrite memmem_next by (by intros [=]).
  pose proof (po_data _ _ Hp) as E.
  etransitivity; [do 3 apply (f_equal (fmap _)); exact E|done].
Qed.

Lemma parts_loop_text ps epilogue room :
  Forall (part_ok boundary) ps ->
  parts_loop (delimiter boundary) room (parts_text boundary ps epilogue) = take room ps.
Proof.
  intros H. revert room. induction H as [|p ps Hp _ IH]; intros [|room]; [done..|].
  cbn [parts_text app crlf parts_loop take]. change (stands_at 45 45 (13 :: _)) with false.
  change (stands_at 13 10 (13 :: 10 :: _)) with true. cbn [negb drop]. rewrite drop_0.
  rewrite text_end, take_app_length, part_of_text by done. f_equal.
  rewrite <- drop_drop, drop_app_length, drop_app_length. apply IH.
Qed.
End round_trip.

Lemma boundary_found boundary cap :
  boundary <> [] -> 59 ∉ boundary -> head boundary <> Some 34 -> (length boundary < cap)%nat ->
  ntc_multipart_boundary (bs "multipart/form-data; boundary=" ++ boundary) cap = Some boundary.
Proof.
  intros Hne Hs Hq Hc. unfold ntc_multipart_boundary.
  change (bs "multipart/form-data; boundary=" ++ boundary)
    with (bs "multipart/form-data; " ++ bs "boundary=" ++ boundary).
  change (bs "boundary=") with (98 :: bs "oundary="). rewrite memmem_skip by
    (apply (bool_decide_unpack _); vm_compute; exact I).
  rewrite memmem_head. bind. cbn zeta.
  rewrite Nat.add_0_r, <- drop_drop, drop_app_length.
  change (drop 9 ((98 :: bs "oundary=") ++ boundary)) with boundary.
  rewrite bool_decide_false by done. rewrite (proj2 (memchr_None 59 boundary)) by done.
  rewrite (proj2 (Nat.eqb_neq (length boundary) 0)) by (by destruct boundary).
  by rewrite (proj2 (Nat.leb_gt cap (length boundary))) by done.
Qed.

Lemma multipart_read_back boundary cap preamble ps epilogue max :
  boundary <> [] -> 13 ∉ boundary -> 59 ∉ boundary -> head boundary <> Some 34 ->
  (length boundary < cap)%nat -> Z.of_nat (length boundary) < 258 -> 45 ∉ preamble ->
  Forall (part_ok boundary) ps ->
  ntc_multipart_boundary (bs "multipart/form-data; boundary=" ++ boundary) cap = Some boundary /\
  ntc_multipart_parse (multipart_text boundary preamble ps epilogue) boundary max =
    Some (take (Z.to_nat max) ps).
Proof.
  intros Hne Hcr Hs Hq Hcap Hlen Hpre Hps. split; [by apply boundary_found|].
  unfold ntc_multipart_parse, multipart_text.
  rewrite (proj2 (Z.leb_gt _ _)) by (simpl; lia).
  rewrite (app_assoc (bs "--") boundary).
  change (bs "--" ++ boundary) with (45 :: 45 :: boundary). rewrite memmem_skip by done.
  rewrite memmem_head. bind. rewrite Nat.add_0_r, <- drop_drop, !drop_app_length.
  f_equal. by apply parts_loop_text.
Qed.

(** C16. An upload is read back part for part: of a body written in the format, the boundary is
    found in its content type, and the parser stores the parts in their order, each with its
    name, file name, type and data, up to the caller's [max] of them. *)
Theorem multipart_roundtrip boundary cap preamble ps epilogue max :
  boundary <> [] -> 13 ∉ boundary -> 59 ∉ boundary -> head boundary <> Some 34 ->
  (length boundary < cap)%nat -> Z.of_nat (length boundary) < 258 -> 45 ∉ preamble ->
  Forall (part_ok boundary) ps ->
  ntc_multipart_boundary (bs "multipart/form-data; boundary=" ++ boundary) cap = Some boundary /\
  ntc_multipart_parse (multipart_text boundary preamble ps epilogue) boundary max =
    Some (take (Z.to_nat max) ps).
Proof. apply multipart_read_back. Qed.

Definition upload : list ntc_multipart_part :=
  [Part (bs "field") [] [] (bs "hello world");
   Part (bs "file") (bs "a.txt") (bs "text/plain") (bs "FILE" ++ crlf ++ bs "DATA")].

Lemma multipart_roundtrip_witness :
  Forall (part_ok (bs "X")) upload /\
  ntc_multipart_boundary (bs "multipart/form-data; boundary=" ++ bs "X") 64 = Some (bs "X") /\
  ntc_multipart_parse (multipart_text (bs "X") [] upload crlf) (bs "X") 8 = Some (take (Z.to_nat 8) upload).
Proof.
  assert (Forall (part_ok (bs "X")) upload) as H.
  { unfold upload. repeat constructor; try (apply (bool_decide_unpack _); vm_compute; exact I);
      try (vm_compute; reflexivity). }
  split; [exact H|].
  apply (multipart_roundtrip (bs "X") 64 [] upload crlf 8); try exact H;
    try (apply (bool_decide_unpack _); vm_compute; exact I); try (vm_compute; lia).
Defined.

(** The parser looks for [name=] anywhere on the line, and finds it inside [filename=] when
    that comes first: the part is then named after its file. *)
Example filename_first_names_part :
  ntc_multipart_parse
    (bs "--X" ++ crlf ++ qs "Content-Disposition: form-data; filename='a.txt'; name='file'" ++ crlf ++
     crlf ++ bs "DATA" ++ crlf ++ bs "--X--") (bs "X") 8 =
  Some [Part (bs "a.txt") (bs "a.txt") [] (bs "DATA")].
Proof. vm_compute. reflexivity. Qed.
