(* ===== verification/Sdk.v ===== *)
(** * The controller SDK (src/common/controller_sdk.c)

    The other end of the wire: a controller process reads frames from the descriptor it
    inherits, hands requests and WebSocket messages to its callbacks, and writes back what
    they answer.  A one-shot handler is a function; a streaming handler and a WebSocket
    callback are programs of calls to the SDK, so that they can do nothing with the
    descriptor but what the SDK offers. *)
From S2P Require Import Prelude Update Slice Posix Arena Http Wire.
Open Scope Z_scope.

(** ** Filling a response *)

(** http.h:48-48 [ntc_response, headers] *)
Definition RES_HEADERS_SIZE : nat := 512.

(** controller_sdk.c:12-27 [ntc_reply_json]. [text] is the formatted text; [got] says whether
    the arena gave the buffer for it. *)
Definition ntc_reply_json (res : ntc_response) (got : bool) (status : Z) (text : bytes)
    : Z * ntc_response :=
  if negb got then (-1, res) else
  (0, Response status (bs "application/json") text (res_headers res)).

(** controller_sdk.c:29-35 [ntc_res_header]. The arguments are C strings. A header that does
    not fit leaves [headers_len] as it was. *)
Definition ntc_res_header (res : ntc_response) (name value : bytes) : Z * ntc_response :=
  let line := name ++ bs ": " ++ value ++ crlf in
  if (RES_HEADERS_SIZE - length (res_headers res) <=? length line)%nat then (-1, res) else
  (0, Response (res_status res) (res_content_type res) (res_body res) (res_headers res ++ line)).

(** controller_sdk.c:37-42 [ntc_redirect] *)
Definition ntc_redirect (res : ntc_response) (status : Z) (location : bytes) : Z * ntc_response :=
  ntc_res_header (Response status (bs "text/html; charset=utf-8") [] (res_headers res))
    (bs "Location") location.

(** controller_sdk.c:44-46 [ntc_set_cookie] *)
Definition ntc_set_cookie (res : ntc_response) (set_cookie_value : bytes) : Z * ntc_response :=
  ntc_res_header res (bs "Set-Cookie") set_cookie_value.

(** ** The descriptor *)

(** controller_sdk.c:48-48 [NTC_CTL_MAX_PAYLOAD] *)
Definition NTC_CTL_MAX_PAYLOAD : Z := 256 * 1024.

(** controller_sdk.c:50-60 [read_full]. [got] are the bytes read so far; a [read] gives at
    most the bytes it is asked for. *)
Fixpoint ctl_read_full (ins : list rd_event) (n : nat) (got : bytes) : Z * bytes * list rd_event :=
  if (n <=? length got)%nat then (1, got, ins) else
  match ins with
  | [] => (0, got, [])
  | RdData d :: ins =>
      if (length d =? 0)%nat then (0, got, ins) else
      let k := (n - length got)%nat in
      if (length d <=? k)%nat then ctl_read_full ins n (got ++ d)
      else (1, got ++ take k d, RdData (drop k d) :: ins)
  | RdIntr :: ins => ctl_read_full ins n got
  | RdFail :: ins => (-1, got, ins)
  end.

(** controller_sdk.c:62-71 [write_full]. The result, what is left of the script, and the bytes
    that were written. *)
Fixpoint ctl_write_full (outs : list wr_event) (buf : bytes) : Z * list wr_event * bytes :=
  if (length buf =? 0)%nat then (1, outs, []) else
  match outs with
  | [] => (1, [], buf)
  | WrTakes n :: outs =>
      let w := Nat.min n (length buf) in
      if (w =? 0)%nat then (-1, outs, []) else
      let '(r, outs, sent) := ctl_write_full outs (drop w buf) in (r, outs, take w buf ++ sent)
  | WrIntr :: outs => ctl_write_full outs buf
  | WrFail :: outs => (-1, outs, [])
  end.

Definition fd_read (s : stream_fd) (n : nat) : Z * bytes * stream_fd :=
  let '(r, got, ins) := ctl_read_full (fd_in s) n [] in (r, got, StreamFd ins (fd_wr s) (fd_sent s)).
Definition fd_write (s : stream_fd) (buf : bytes) : Z * stream_fd :=
  let '(r, outs, sent) := ctl_write_full (fd_wr s) buf in (r, StreamFd (fd_in s) outs (fd_sent s ++ sent)).

(** controller_sdk.c:73-80 [send_frame] *)
Definition send_frame (s : stream_fd) (type rid : Z) (payload : bytes) (plen : Z) : Z * stream_fd :=
  let '(r, s) := fd_write s (ntc_wire_write_header type rid plen) in
  if r <=? 0 then (-1, s) else
  if plen =? 0 then (0, s) else
  let '(r, s) := fd_write s (take (Z.to_nat plen) payload) in
  if r <=? 0 then (-1, s) else (0, s).

(** ** Streaming responses *)

(** controller_sdk.c:83-83 [ntc_stream] *)
Record ntc_stream := Stream { st_rid : Z; st_begun : bool; st_ended : bool }.

(** controller_sdk.c:85-92 [stream_begin] *)
Definition stream_begin (s : stream_fd) (st : ntc_stream) (status flags : Z) (ctype : ntc_slice)
    : option (Z * stream_fd * ntc_stream) :=
  if st_begun st || st_ended st then Some (-1, s, st) else
  '(buf, n) ← ntc_wire_encode_response_begin status flags ctype (replicate 1024 0) 1024;
  if n <? 0 then Some (-1, s, st) else
  let st := Stream (st_rid st) true (st_ended st) in
  let '(r, s) := send_frame s NTC_MSG_RESPONSE_BEGIN (st_rid st) buf (u32 n) in
  Some (r, s, st).

(** controller_sdk.c:94-96 [ntc_stream_begin] *)
Definition ntc_stream_begin (s : stream_fd) (st : ntc_stream) (status : Z) (content_type : ntc_slice)
    : option (Z * stream_fd * ntc_stream) :=
  stream_begin s st status NTC_STREAM_FLAG_CHUNKED content_type.

(** controller_sdk.c:98-100 [ntc_sse_begin] *)
Definition ntc_sse_begin (s : stream_fd) (st : ntc_stream) : option (Z * stream_fd * ntc_stream) :=
  stream_begin s st 200 NTC_STREAM_FLAG_SSE (bs "text/event-stream").

(** controller_sdk.c:102-118 [ntc_stream_write] *)
Definition ntc_stream_write (s : stream_fd) (st : ntc_stream) (data : bytes) : Z * stream_fd :=
  let len := Z.of_nat (length data) in
  if negb (st_begun st) || st_ended st then (-1, s) else
  if len =? 0 then (0, s) else
  if 0xFFFFFFFF - 4 <? len then (-1, s) else
  let plen := u32 (u32 len + 4) in
  let hdr := ntc_wire_write_header NTC_MSG_RESPONSE_CHUNK (st_rid st) plen ++
             [u8 (len ≫ 24); u8 (len ≫ 16); u8 (len ≫ 8); u8 len] in
  let '(r, s) := fd_write s hdr in
  if r <=? 0 then (-1, s) else
  let '(r, s) := fd_write s data in
  if r <=? 0 then (-1, s) else (0, s).

(** controller_sdk.c:120-133 [ntc_sse_send]. [got] says whether [malloc] gave the buffer; the
    texts are C strings, [None] for NULL. *)
Definition ntc_sse_send (s : stream_fd) (st : ntc_stream) (got : bool) (event data : option bytes)
    : option (Z * stream_fd) :=
  if negb (st_begun st) || st_ended st then Some (-1, s) else
  let elen := length (default [] event) in
  let dlen := length (default [] data) in
  let cap := ((if (elen =? 0)%nat then 0 else 7 + elen + 1) + 6 + dlen + 2 + 1)%nat in
  if negb got then Some (-1, s) else
  let e := if (elen =? 0)%nat then [] else bs "event: " ++ default [] event ++ [10] in
  let d := bs "data: " ++ default [] data ++ [10; 10] in
  let o := length e in
  let buf := snprintf cap e ++ snprintf (cap - o) d in
  text ← mem_range buf 0 (o + length d);
  Some (ntc_stream_write s st text).

(** controller_sdk.c:135-139 [ntc_stream_end] *)
Definition ntc_stream_end (s : stream_fd) (st : ntc_stream) : Z * stream_fd * ntc_stream :=
  if st_ended st then (0, s, st) else
  let st := Stream (st_rid st) (st_begun st) true in
  let '(r, s) := send_frame s NTC_MSG_RESPONSE_END (st_rid st) [] 0 in
  (r, s, st).

(** ** WebSocket messages *)

(** controller_sdk.c:144-153 [ntc_ws_send] *)
Definition ntc_ws_send (s : stream_fd) (rid : Z) (got : bool) (opcode : Z) (data : bytes)
    : option (Z * stream_fd) :=
  let len := Z.of_nat (length data) in
  if 0xFFFFFFFF - 16 <? len then Some (-1, s) else
  let cap := (length data + 8)%nat in
  if negb got then Some (-1, s) else
  '(pl, pn) ← ntc_wire_encode_ws_msg (u8 opcode) data (replicate cap 0) cap;
  if negb (0 <? pn) then Some (-1, s) else
  Some (send_frame s NTC_MSG_WS_MSG rid pl (u32 pn)).

(** controller_sdk.c:155-157 [ntc_ws_send_text] *)
Definition ntc_ws_send_text (s : stream_fd) (rid : Z) (got : bool) (text : option bytes)
    : option (Z * stream_fd) :=
  ntc_ws_send s rid got 1 (default [] text).

(** controller_sdk.c:159-164 [ntc_ws_close] *)
Definition ntc_ws_close (s : stream_fd) (rid : Z) : option (Z * stream_fd) :=
  '(cb, pn) ← ntc_wire_encode_ws_close 1000 (replicate 2 0) 2;
  if pn <? 0 then Some (-1, s) else
  Some (send_frame s NTC_MSG_WS_CLOSE rid cb (u32 pn)).

(** ** Handlers

    A streaming handler: the calls it makes, each followed by what it does with the result,
    and the code it returns.  [got] is what [malloc] answers the call. *)
Inductive stream_prog (U : Type) :=
  | SDone (rc : Z) (u : U)
  | SBegin (status : Z) (ctype : ntc_slice) (k : Z -> stream_prog U)
  | SSseBegin (k : Z -> stream_prog U)
  | SWrite (data : bytes) (k : Z -> stream_prog U)
  | SSse (got : bool) (event data : option bytes) (k : Z -> stream_prog U)
  | SEnd (k : Z -> stream_prog U).
Arguments SDone {U}. Arguments SBegin {U}. Arguments SSseBegin {U}.
Arguments SWrite {U}. Arguments SSse {U}. Arguments SEnd {U}.

Fixpoint run_stream {U} (p : stream_prog U) (s : stream_fd) (st : ntc_stream)
    : option (Z * U * stream_fd * ntc_stream) :=
  match p with
  | SDone rc u => Some (rc, u, s, st)
  | SBegin status ctype k => '(r, s, st) ← ntc_stream_begin s st status ctype; run_stream (k r) s st
  | SSseBegin k => '(r, s, st) ← ntc_sse_begin s st; run_stream (k r) s st
  | SWrite data k => let '(r, s) := ntc_stream_write s st data in run_stream (k r) s st
  | SSse got event data k => '(r, s) ← ntc_sse_send s st got event data; run_stream (k r) s st
  | SEnd k => let '(r, s, st) := ntc_stream_end s st in run_stream (k r) s st
  end.

(** A WebSocket callback, likewise. *)
Inductive ws_prog (U : Type) :=
  | WDone (u : U)
  | WSend (got : bool) (opcode : Z) (data : bytes) (k : Z -> ws_prog U)
  | WText (got : bool) (text : option bytes) (k : Z -> ws_prog U)
  | WClose (k : Z -> ws_prog U).
Arguments WDone {U}. Arguments WSend {U}. Arguments WText {U}. Arguments WClose {U}.

Fixpoint run_ws {U} (p : ws_prog U) (s : stream_fd) (rid : Z) : option (U * stream_fd) :=
  match p with
  | WDone u => Some (u, s)
  | WSend got opcode data k => '(r, s) ← ntc_ws_send s rid got opcode data; run_ws (k r) s rid
  | WText got text k => '(r, s) ← ntc_ws_send_text s rid got text; run_ws (k r) s rid
  | WClose k => '(r, s) ← ntc_ws_close s rid; run_ws (k r) s rid
  end.

(** controller.h:35-43 [ntc_controller]. [None] is a NULL callback; the state a callback is
    given and gives back is what [udata] points at. *)
Record ntc_controller (U : Type) := Controller {
  ctl_name : option bytes;
  ctl_handle : option (ntc_request -> ntc_response -> ntc_arena -> U -> Z * ntc_response * ntc_arena * U);
  ctl_stream : option (ntc_request -> ntc_arena -> U -> stream_prog U * ntc_arena);
  ctl_ws_open : option (ntc_request -> U -> ws_prog U);
  ctl_ws_message : option (Z -> bytes -> U -> ws_prog U);
  ctl_ws_close : option (U -> ws_prog U) }.
Arguments Controller {U}. Arguments ctl_name {U}. Arguments ctl_handle {U}. Arguments ctl_stream {U}.
Arguments ctl_ws_open {U}. Arguments ctl_ws_message {U}. Arguments ctl_ws_close {U}.

(** ** The serve loop *)

Section run.
Context {U : Type} (malloc : Z -> option Z) (ctl : ntc_controller U).

(** controller_sdk.c:331-340 [ntc_controller_run, answer]. The answer of a streaming handler
    that never began, controller_sdk.c:307-312, has no headers and a slack of 64. *)
Definition send_response (s : stream_fd) (rid : Z) (a : ntc_arena) (res : ntc_response) (slack : nat)
    : option stream_fd :=
  let cap := (length (res_body res) + length (res_content_type res) + length (res_headers res) + slack)%nat in
  match fst (ntc_arena_alloc malloc a (Z.of_nat cap)) with
  | None => Some s
  | Some _ =>
      '(out, pl) ←
        (if (length (res_headers res) =? 0)%nat
         then ntc_wire_encode_response (res_status res) (res_content_type res) (res_body res)
                (replicate cap 0) cap
         else ntc_wire_encode_response_ex (res_status res) (res_content_type res) (res_body res)
                (res_headers res) (replicate cap 0) cap);
      Some (if 0 <? pl then snd (send_frame s NTC_MSG_RESPONSE rid out (u32 pl)) else s)
  end.

(** controller_sdk.c:303-306 [ntc_controller_run, streaming answer] *)
Definition unstreamed_response (ok : bool) (hrc : Z) : ntc_response :=
  Response (if ok then if hrc =? 0 then 204 else 500 else 400) (bs "text/plain")
    (if ok then if hrc =? 0 then [] else bs "stream error" else bs "bad request") [].

(** controller_sdk.c:295-316 [ntc_controller_run, streaming handler] *)
Definition serve_stream (handler : ntc_request -> ntc_arena -> U -> stream_prog U * ntc_arena)
    (rid : Z) (payload : bytes) (a : ntc_arena) (s : stream_fd) (u : U) : option (stream_fd * U) :=
  let st := Stream rid false false in
  d ← ntc_wire_decode_request payload;
  '(ok, hrc, u, s, st, a) ←
    match d with
    | Some req =>
        let '(p, a) := handler req a u in
        '(hrc, u, s, st) ← run_stream p s st; Some (true, hrc, u, s, st, a)
    | None => Some (false, 0, u, s, st, a)
    end;
  if st_begun st then
    Some (if st_ended st then s else let '(_, s, _) := ntc_stream_end s st in s, u)
  else
    s ← send_response s rid a (unstreamed_response ok hrc) 64; Some (s, u).

(** controller_sdk.c:318-329 [ntc_controller_run, one-shot handler]. A NULL handler that is
    called is a fault. *)
Definition one_shot_response (payload : bytes) (a : ntc_arena) (u : U) : option (ntc_response * ntc_arena * U) :=
  d ← ntc_wire_decode_request payload;
  let res := Response 200 (bs "application/json") [] [] in
  match d with
  | None => Some (Response 400 (bs "text/plain") (bs "bad request") (res_headers res), a, u)
  | Some req =>
      handle ← ctl_handle ctl;
      let '(r, res, a, u) := handle req res a u in
      if r =? 0 then Some (res, a, u)
      else Some (Response 500 (bs "application/json") (qs "{'error':'controller error'}") (res_headers res), a, u)
  end.

(** controller_sdk.c:290-341 [ntc_controller_run, request]. [None] inside is the [break] when
    there is no arena. *)
Definition serve_request (rid : Z) (payload : bytes) (s : stream_fd) (u : U)
    : option (option (stream_fd * U)) :=
  match ntc_arena_init malloc (16 * 1024) with
  | None => Some None
  | Some a =>
      match ctl_stream ctl with
      | Some handler => Some <$> serve_stream handler rid payload a s u
      | None =>
          '(res, a, u) ← one_shot_response payload a u;
          s ← send_response s rid a res 80;
          Some (Some (s, u))
      end
  end.

(** controller_sdk.c:262-341 [ntc_controller_run, dispatch]. What a frame makes the controller
    do; [None] inside leaves the loop. *)
Definition on_frame (h : ntc_wire_header) (payload : bytes) (s : stream_fd) (u : U)
    : option (option (stream_fd * U)) :=
  let rid := wh_request_id h in
  let t := wh_type h in
  if t =? NTC_MSG_WELCOME then Some (Some (s, u)) else
  if t =? NTC_MSG_PING then Some (Some (snd (send_frame s NTC_MSG_PONG rid [] 0), u)) else
  if t =? NTC_MSG_WS_OPEN then
    match ctl_ws_open ctl with
    | Some f =>
        d ← ntc_wire_decode_request payload;
        match d with
        | Some req => '(u, s) ← run_ws (f req u) s rid; Some (Some (s, u))
        | None => Some (Some (s, u))
        end
    | None => Some (Some (s, u))
    end
  else if t =? NTC_MSG_WS_MSG then
    match ctl_ws_message ctl with
    | Some f =>
        d ← ntc_wire_decode_ws_msg payload;
        match d with
        | Some (opcode, data) => '(u, s) ← run_ws (f opcode data u) s rid; Some (Some (s, u))
        | None => Some (Some (s, u))
        end
    | None => Some (Some (s, u))
    end
  else if t =? NTC_MSG_WS_CLOSE then
    match ctl_ws_close ctl with
    | Some f => '(u, s) ← run_ws (f u) s rid; Some (Some (s, u))
    | None => Some (Some (s, u))
    end
  else if negb (t =? NTC_MSG_REQUEST) then Some (Some (s, u))
  else serve_request rid payload s u.

(** controller_sdk.c:249-260 [ntc_controller_run, read]. A frame, or [None] inside for every
    reason to leave the loop. *)
Definition ctl_read_frame (s : stream_fd) : option (option (ntc_wire_header * bytes) * stream_fd) :=
  let '(r, hdr, s) := fd_read s NTC_WIRE_HEADER_LEN in
  if r <=? 0 then Some (None, s) else
  h ← ntc_wire_parse_header hdr;
  match h with
  | None => Some (None, s)
  | Some h =>
      if NTC_CTL_MAX_PAYLOAD <? wh_length h then Some (None, s) else
      if wh_length h =? 0 then Some (Some (h, []), s) else
      let '(r, payload, s) := fd_read s (Z.to_nat (wh_length h)) in
      Some (if r <=? 0 then None else Some (h, payload), s)
  end.

(** controller_sdk.c:249-342 [ntc_controller_run, loop]. Every turn reads a header. *)
Fixpoint ctl_loop (fuel : nat) (s : stream_fd) (u : U) : option (stream_fd * U) :=
  match fuel with
  | O => None
  | S f =>
      '(r, s) ← ctl_read_frame s;
      match r with
      | None => Some (s, u)
      | Some (h, payload) =>
          n ← on_frame h payload s u;
          match n with None => Some (s, u) | Some (s, u) => ctl_loop f s u end
      end
  end.

(** controller_sdk.c:234-344 [ntc_controller_run]. [fds] is the environment variable
    NTC_CONTROLLER_FD. *)
Definition ntc_controller_run (fuel : nat) (fds : option bytes) (s : stream_fd) (u : U)
    : option (Z * stream_fd * U) :=
  if negb (bool_decide (is_Some (ctl_handle ctl)) || bool_decide (is_Some (ctl_stream ctl)) ||
           bool_decide (is_Some (ctl_ws_open ctl)) || bool_decide (is_Some (ctl_ws_message ctl)))
  then Some (2, s, u) else
  match fds with
  | None => Some (2, s, u)
  | Some fds =>
      if atoi fds <? 0 then Some (2, s, u) else
      let name := default (bs "controller") (ctl_name ctl) in
      let '(r, s) := send_frame s NTC_MSG_HELLO 0 name (u32 (Z.of_nat (length name))) in
      if negb (r =? 0) then Some (1, s, u) else
      '(s, u) ← ctl_loop fuel s u;
      Some (0, s, u)
  end.
End run.

(** ** Frames *)

Definition ctl_frame : Type := Z * Z * bytes.
Definition wire_frame (f : ctl_frame) : bytes :=
  let '(t, rid, payload) := f in
  ntc_wire_write_header t rid (Z.of_nat (length payload)) ++ payload.
Definition wire_frames (fs : list ctl_frame) : bytes := concat (wire_frame <$> fs).

(** A frame of the gateway: its payload is one the controller has room for. *)
Definition frame_in (f : ctl_frame) : Prop :=
  let '(t, rid, payload) := f in
  is_byte t /\ 0 <= rid < 2 ^ 32 /\ Z.of_nat (length payload) <= NTC_CTL_MAX_PAYLOAD.

(** ** Reading and writing through a calm descriptor *)

Lemma ctl_read_full_bound ins n got r got' ins' :
  ctl_read_full ins n got = (r, got', ins') ->
  (length got' + length (rd_bytes ins') <= length got + length (rd_bytes ins))%nat /\
  (0 < r -> (length got <= n)%nat -> length got' = n).
Proof.
  revert got. induction ins as [|[d| |] ins IH]; intros got H; cbn [ctl_read_full rd_bytes] in *;
    rewrite ?length_app; (destruct (Nat.leb_spec n (length got)); [simplify_eq; cbn; rewrite ?length_app; lia|]).
  - simplify_eq. simpl. lia.
  - destruct (Nat.eqb_spec (length d) 0); simplify_eq; [lia|].
    destruct (Nat.leb_spec (length d) (n - length got)).
    + apply IH in H. rewrite length_app in H. lia.
    + simplify_eq. cbn [rd_bytes]. rewrite !length_app, length_take, length_drop. lia.
  - apply IH in H. lia.
  - simplify_eq. lia.
Qed.

Lemma ctl_read_full_calm ins n got :
  Forall rd_calm ins -> (length got <= n)%nat ->
  exists r got' ins', ctl_read_full ins n got = (r, got', ins') /\ Forall rd_calm ins' /\
    if (n <=? length (got ++ rd_bytes ins))%nat
    then r = 1 /\ got' = take n (got ++ rd_bytes ins) /\ rd_bytes ins' = drop n (got ++ rd_bytes ins)
    else r = 0.
Proof.
  intros Hc. revert got. induction Hc as [|e ins He Hc IH]; intros got Hg; cbn [ctl_read_full].
  all: destruct (Nat.leb_spec n (length got)) as [Hl|Hl].
  all: try (do 3 eexists; split; [done|]; split; [by try constructor|];
    rewrite (proj2 (Nat.leb_le _ _)) by (rewrite length_app; lia);
    rewrite take_app_le, drop_app_le, take_ge, (drop_ge got) by lia; done).
  - do 3 eexists. split; [done|]. split; [constructor|]. cbn [rd_bytes]. rewrite app_nil_r.
    by rewrite (proj2 (Nat.leb_gt _ _)) by done.
  - destruct e as [d| |]; [|by apply IH|done]. cbn in He. apply bool_decide_unpack in He.
    rewrite (proj2 (Nat.eqb_neq (length d) 0)) by (by destruct d). cbn [rd_bytes].
    destruct (Nat.leb_spec (length d) (n - length got)).
    + destruct (IH (got ++ d)) as (r & got' & ins' & -> & Hc' & H'); [rewrite length_app; lia|].
      do 3 eexists. split; [done|]. split; [done|]. by rewrite <- app_assoc in H'.
    + do 3 eexists. split; [done|]. split.
      { constructor; [|done]. cbn. apply bool_decide_pack. intros E.
        apply (f_equal length) in E. rewrite length_drop in E. simpl in E. lia. }
      rewrite (proj2 (Nat.leb_le _ _)) by (rewrite !length_app; lia). split; [done|].
      rewrite take_app_ge, drop_app_ge by lia. rewrite take_app_le, drop_app_le by lia. done.
Qed.

Lemma ctl_write_full_calm outs buf :
  Forall wr_calm outs -> exists outs', ctl_write_full outs buf = (1, outs', buf) /\ Forall wr_calm outs'.
Proof.
  intros Hc. revert buf. induction Hc as [|e outs He Hc IH]; intros buf; cbn [ctl_write_full].
  all: destruct (Nat.eqb_spec (length buf) 0) as [Hl|Hl];
    [apply nil_length_inv in Hl as ->; eexists; split; [done|by try constructor]|].
  - eexists. split; [done|constructor].
  - destruct e as [[|n]| |]; [done| |by apply IH|done].
    rewrite (proj2 (Nat.eqb_neq (Nat.min (S n) (length buf)) 0)) by lia.
    destruct (IH (drop (Nat.min (S n) (length buf)) buf)) as (outs' & -> & Hc').
    eexists. split; [by rewrite take_drop|done].
Qed.

Lemma fd_write_calm s buf : fd_calm s ->
  exists outs, fd_write s buf = (1, StreamFd (fd_in s) outs (fd_sent s ++ buf)) /\ Forall wr_calm outs.
Proof.
  intros [_ Hc]. unfold fd_write. destruct (ctl_write_full_calm (fd_wr s) buf Hc) as (outs & -> & H).
  by eexists.
Qed.

(** What an operation on a calm descriptor leaves: the same input, and so many bytes more. *)
Definition sent_more (s s' : stream_fd) (d : bytes) : Prop :=
  fd_calm s' /\ fd_in s' = fd_in s /\ fd_sent s' = fd_sent s ++ d.

Lemma send_frame_calm s t rid payload : fd_calm s -> ok32 payload = true ->
  exists s', send_frame s t rid payload (Z.of_nat (length payload)) = (0, s') /\
    sent_more s s' (wire_frame (t, rid, payload)).
Proof.
  intros Hs Hp. unfold send_frame.
  destruct (fd_write_calm s (ntc_wire_write_header t rid (Z.of_nat (length payload))) Hs) as (o1 & -> & H1).
  cbn [Z.leb]. change (1 <=? 0) with false. cbn match.
  destruct (Z.eqb_spec (Z.of_nat (length payload)) 0) as [Hz|Hz].
  - assert (payload = []) as -> by (destruct payload; [done|simpl in Hz; lia]).
    eexists. split; [done|]. split; [split; [apply Hs|done]|]. split; [done|]. cbn [wire_frame].
    by rewrite app_nil_r.
  - edestruct (fd_write_calm (StreamFd (fd_in s) o1 (fd_sent s ++ ntc_wire_write_header t rid (Z.of_nat (length payload))))
      (take (Z.to_nat (Z.of_nat (length payload))) payload)) as (o2 & -> & H2); [split; [apply Hs|done]|].
    change (1 <=? 0) with false. cbn match. eexists. split; [done|]. split; [split; [apply Hs|done]|].
    split; [done|]. cbn [fd_sent wire_frame]. by rewrite Nat2Z.id, firstn_all, <- app_assoc.
Qed.

Lemma ctl_read_frame_bound s r s' :
  ctl_read_frame s = Some (r, s') ->
  match r with
  | Some _ => (16 + length (rd_bytes (fd_in s')) <= length (rd_bytes (fd_in s)))%nat
  | None => True
  end.
Proof.
  unfold ctl_read_frame, fd_read. intros H.
  destruct (ctl_read_full (fd_in s) NTC_WIRE_HEADER_LEN []) as [[r1 got] ins] eqn:E1.
  apply ctl_read_full_bound in E1 as [B1 L1]. change NTC_WIRE_HEADER_LEN with 16%nat in *. cbn in B1.
  destruct (Z.leb_spec r1 0); simplify_eq; [done|]. specialize (L1 ltac:(lia) ltac:(cbn; lia)).
  binv H as [h|] E2; [|by simplify_eq].
  destruct (Z.ltb_spec NTC_CTL_MAX_PAYLOAD (wh_length h)); [by simplify_eq|].
  destruct (Z.eqb_spec (wh_length h) 0); [simplify_eq; cbn; lia|].
  destruct (ctl_read_full _ _ _) as [[r2 got2] ins2] eqn:E3. apply ctl_read_full_bound in E3 as [B2 _].
  cbn in B2. destruct (Z.leb_spec r2 0); simplify_eq; [done|]. cbn. lia.
Qed.

(** Reading what a peer wrote, however it is cut up. *)
Lemma fd_read_calm s d rest : fd_calm s -> rd_bytes (fd_in s) = d ++ rest ->
  exists ins, fd_read s (length d) = (1, d, StreamFd ins (fd_wr s) (fd_sent s)) /\
    Forall rd_calm ins /\ rd_bytes ins = rest.
Proof.
  intros [Hc _] Hd. unfold fd_read.
  destruct (ctl_read_full_calm (fd_in s) (length d) [] Hc ltac:(cbn; lia)) as (r & got & ins & -> & Hi & H).
  cbn [app] in H. rewrite Hd, length_app, (proj2 (Nat.leb_le _ _)) in H by lia.
  destruct H as (-> & -> & Hr). rewrite take_app_length, drop_app_length in *. by eexists.
Qed.

Lemma parse_written_header t rid payload :
  is_byte t -> 0 <= rid < 2 ^ 32 -> ok32 payload = true ->
  ntc_wire_parse_header (ntc_wire_write_header t rid (Z.of_nat (length payload))) =
  Some (Some (WireHeader NTC_WIRE_VERSION t rid (Z.of_nat (length payload)))).
Proof.
  intros Ht Hr Hp. apply Z.ltb_lt in Hp.
  set (h := ntc_wire_write_header t rid (Z.of_nat (length payload))). unfold ntc_wire_parse_header.
  rewrite (get_put_u32 NTC_WIRE_MAGIC h (drop 4 h) 0) by done. bind.
  assert (h !! 4%nat = Some NTC_WIRE_VERSION /\ h !! 5%nat = Some t) as [-> ->]
    by (split; [done|unfold h, ntc_wire_write_header; cbn; by rewrite u8_id]).
  rewrite (get_put_u32 rid h (drop 12 h) 8) by done.
  rewrite (get_put_u32 (Z.of_nat (length payload)) h [] 12) by (lia || done).
  reflexivity.
Qed.

Lemma ctl_read_frame_calm s f rest : fd_calm s -> frame_in f -> rd_bytes (fd_in s) = wire_frame f ++ rest ->
  exists h ins, ctl_read_frame s = Some (Some (h, f.2), StreamFd ins (fd_wr s) (fd_sent s)) /\
    wh_type h = f.1.1 /\ wh_request_id h = f.1.2 /\ Forall rd_calm ins /\ rd_bytes ins = rest.
Proof.
  destruct f as [[t rid] payload]. intros Hs (Ht & Hr & Hp) Hd. cbn [wire_frame] in Hd.
  assert (ok32 payload = true) as Hok by (apply Z.ltb_lt; unfold NTC_CTL_MAX_PAYLOAD in Hp; lia).
  rewrite <- app_assoc in Hd.
  destruct (fd_read_calm _ _ _ Hs Hd) as (i1 & E1 & C1 & R1). unfold ctl_read_frame.
  change NTC_WIRE_HEADER_LEN with (length (ntc_wire_write_header t rid (Z.of_nat (length payload)))).
  rewrite E1. change (1 <=? 0) with false. cbn match. rewrite parse_written_header by done. bind.
  cbn [wh_length]. rewrite (proj2 (Z.ltb_ge _ _)) by done.
  destruct (Z.eqb_spec (Z.of_nat (length payload)) 0) as [Hz|Hz].
  - assert (payload = []) as -> by (destruct payload; [done|simpl in Hz; lia]).
    do 2 eexists. split; [done|]. done.
  - rewrite Nat2Z.id.
    destruct (fd_read_calm (StreamFd i1 (fd_wr s) (fd_sent s)) _ _ (conj C1 (proj2 Hs)) R1)
      as (i2 & -> & C2 & R2).
    change (1 <=? 0) with false. cbn match. do 2 eexists. split; [done|]. done.
Qed.

(** ** What a controller says *)

(** A response the wire can carry. *)
Definition response_ok (res : ntc_response) : Prop :=
  0 <= res_status res < 2 ^ 16 /\ ok16 (res_content_type res) = true /\ ok16 (res_headers res) = true /\
  Z.of_nat (length (res_body res)) < 2 ^ 32 - 2 ^ 18.

Definition response_payload (res : ntc_response) : bytes :=
  if decide (res_headers res = [])
  then put_u16 (res_status res) ++ enc16 (res_content_type res) ++ enc32 (res_body res)
  else response_ex_spec (res_status res) (res_content_type res) (res_body res) (res_headers res).

Lemma response_ok_body res : response_ok res -> ok32 (res_body res) = true.
Proof. intros (_ & _ & _ & H). apply Z.ltb_lt. lia. Qed.

Lemma length_response_payload res :
  (length (response_payload res) <=
   10 + length (res_content_type res) + length (res_body res) + length (res_headers res))%nat.
Proof.
  unfold response_payload, response_ex_spec, enc16, enc32.
  case_decide; rewrite !length_app, !length_put_u16, length_put_u32; lia.
Qed.

Lemma response_payload_ok32 res : response_ok res -> ok32 (response_payload res) = true.
Proof.
  intros (_ & Hc & Hh & Hb). pose proof (length_response_payload res).
  apply Z.leb_le in Hc, Hh. apply Z.ltb_lt. lia.
Qed.

(** The gateway reads back the response the handler gave. *)
Lemma response_payload_decodes res : response_ok res ->
  ntc_wire_decode_response_ex (response_payload res) =
  Some (Some (res_status res, res_content_type res, res_body res, res_headers res)).
Proof.
  intros Hr. pose proof (response_ok_body res Hr) as Hb. destruct Hr as (Hs & Hc & Hh & _).
  destruct (decode_response_ex_spec _ _ _ _ Hs Hc Hb Hh) as (D1 & D2 & _).
  unfold response_payload. case_decide as E; [by rewrite E|exact D1].
Qed.

Section serving.
Context {U : Type} (malloc : Z -> option Z) (ctl : ntc_controller U).

(** The arena has memory for an answer. *)
Definition has_room (a : ntc_arena) : Prop :=
  forall n, 0 <= n < 2 ^ 33 -> is_Some (fst (ntc_arena_alloc malloc a n)).

Lemma malloc_has_room a :
  (forall n, 0 <= n < 2 ^ 34 -> is_Some (malloc n)) -> is_Some (a_blocks a !! a_cur a) ->
  0 <= a_block_size a < 2 ^ 33 -> has_room a.
Proof.
  intros Hm [b Hb] Hs n Hn. unfold ntc_arena_alloc. rewrite Hb. unfold SIZE_MAX, NTC_ARENA_ALIGN.
  set (m := if n =? 0 then 1 else n). assert (0 <= m < 2 ^ 33) by (unfold m; case_match; lia).
  rewrite (proj2 (Z.ltb_ge _ m)) by lia. case_match; [|by eexists].
  unfold block_new, BLOCK_HEADER, SIZE_MAX.
  set (cap := if a_block_size a <? m + (16 - 1) then m + (16 - 1) else a_block_size a).
  assert (0 <= cap < 2 ^ 34 - 32) by (unfold cap; case_match; lia).
  rewrite (proj2 (Z.ltb_ge _ cap)) by lia. destruct (Hm (32 + cap)) as [q ->]; [lia|].
  bind. by eexists.
Qed.

Lemma send_response_calm s rid a res slack :
  fd_calm s -> has_room a -> response_ok res -> (10 <= slack <= 80)%nat ->
  exists s', send_response malloc s rid a res slack = Some s' /\
    sent_more s s' (wire_frame (NTC_MSG_RESPONSE, rid, response_payload res)).
Proof.
  intros Hs Ha Hr Hsl. unfold send_response.
  set (cap := (length (res_body res) + length (res_content_type res) + length (res_headers res) + slack)%nat).
  destruct (Ha (Z.of_nat cap)) as [p ->].
  { destruct Hr as (_ & Hc & Hh & Hb). apply Z.leb_le in Hc, Hh. unfold cap. lia. }
  pose proof (response_payload_ok32 res Hr) as Hp. pose proof (length_response_payload res) as Hl.
  pose proof (response_ok_body res Hr) as Hb.
  assert (exists out, (if (length (res_headers res) =? 0)%nat
    then ntc_wire_encode_response (res_status res) (res_content_type res) (res_body res) (replicate cap 0) cap
    else ntc_wire_encode_response_ex (res_status res) (res_content_type res) (res_body res)
      (res_headers res) (replicate cap 0) cap) = Some (out, Z.of_nat (length (response_payload res))) /\
    take (length (response_payload res)) out = response_payload res) as (out & -> & Ho).
  { destruct Hr as (Hst & Hc & Hh & _).
    unfold response_payload in *. case_decide as E.
    - rewrite E. cbn [length Nat.eqb]. eapply encodes_take;
        [apply encode_response_encodes; [done|by rewrite length_replicate|done]|exact Hc|unfold cap; lia].
    - rewrite (proj2 (Nat.eqb_neq _ 0)) by (by destruct (res_headers res)). eapply encodes_take;
        [apply encode_response_ex_encodes; [done|by rewrite length_replicate|done]|by rewrite Hc, Hh|unfold cap; lia]. }
  bind. assert (0 < length (response_payload res))%nat.
  { unfold response_payload, response_ex_spec. case_decide; rewrite length_app, length_put_u16; lia. }
  rewrite (proj2 (Z.ltb_lt 0 _)) by lia. apply Z.ltb_lt in Hp as Hp'. rewrite u32_id by lia.
  unfold send_frame at 1.
  destruct (send_frame_calm s NTC_MSG_RESPONSE rid (response_payload res) Hs Hp) as (s' & E & Hm).
  exists s'. split; [|done]. unfold send_frame in E. rewrite Nat2Z.id in E |- *.
  rewrite Ho. rewrite firstn_all in E. by rewrite E.
Qed.

(** ** A one-shot controller *)

Context (name : option bytes).
Context (handle : ntc_request -> ntc_response -> ntc_arena -> U -> Z * ntc_response * ntc_arena * U).

Definition one_shot : ntc_controller U := Controller name (Some handle) None None None None.

Definition fresh_response : ntc_response := Response 200 (bs "application/json") [] [].
Definition bad_request : ntc_response := Response 400 (bs "text/plain") (bs "bad request") [].
Definition final_response (r : Z) (res : ntc_response) : ntc_response :=
  if r =? 0 then res
  else Response 500 (bs "application/json") (qs "{'error':'controller error'}") (res_headers res).

(** A handler that answers what the wire can carry, and leaves its arena usable. *)
Definition good_handler : Prop :=
  forall req a u, has_room a ->
    let '(r, res, a, u) := handle req fresh_response a u in response_ok res /\ has_room a.

(** The frames a one-shot controller sends for a frame it receives, and its state after. *)
Definition reply (a : ntc_arena) (u : U) (f : ctl_frame) : list ctl_frame * U :=
  let '(t, rid, payload) := f in
  if t =? NTC_MSG_PING then ([(NTC_MSG_PONG, rid, [])], u) else
  if t =? NTC_MSG_REQUEST then
    match ntc_wire_decode_request payload with
    | Some (Some req) =>
        let '(r, res, _, u) := handle req fresh_response a u in
        ([(NTC_MSG_RESPONSE, rid, response_payload (final_response r res))], u)
    | _ => ([(NTC_MSG_RESPONSE, rid, response_payload bad_request)], u)
    end
  else ([], u).

Fixpoint replies (a : ntc_arena) (u : U) (fs : list ctl_frame) : list ctl_frame * U :=
  match fs with
  | [] => ([], u)
  | f :: fs => let '(out, u) := reply a u f in let '(outs, u) := replies a u fs in (out ++ outs, u)
  end.

Lemma final_response_ok r res : response_ok res -> response_ok (final_response r res).
Proof.
  unfold final_response. intros H. case_match; [done|]. destruct H as (_ & _ & Hh & _).
  split_and!; [cbn; lia|cbn; lia|done|done|vm_compute; done].
Qed.

Lemma on_frame_replies a h payload s u :
  ntc_arena_init malloc (16 * 1024) = Some a -> has_room a -> good_handler -> fd_calm s ->
  exists s', on_frame malloc one_shot h payload s u =
      Some (Some (s', snd (reply a u (wh_type h, wh_request_id h, payload)))) /\
    sent_more s s' (wire_frames (fst (reply a u (wh_type h, wh_request_id h, payload)))).
Proof.
  intros Ha Hroom Hgood Hs. unfold on_frame, reply. cbn [ctl_ws_open ctl_ws_message ctl_ws_close one_shot].
  assert (sent_more s s []) as Hsame by (split; [done|]; split; [done|by rewrite app_nil_r]).
  destruct (Z.eqb_spec (wh_type h) NTC_MSG_WELCOME) as [->|_]; [by eexists|].
  destruct (Z.eqb_spec (wh_type h) NTC_MSG_PING) as [_|_].
  { destruct (send_frame_calm s NTC_MSG_PONG (wh_request_id h) [] Hs eq_refl) as (s' & E & Hm).
    change (Z.of_nat (length [])) with 0 in E. rewrite E. exists s'. split; [done|].
    unfold wire_frames. cbn [fmap list_fmap concat fst]. by rewrite app_nil_r. }
  destruct (Z.eqb_spec (wh_type h) NTC_MSG_WS_OPEN) as [->|_]; [by eexists|].
  destruct (Z.eqb_spec (wh_type h) NTC_MSG_WS_MSG) as [->|_]; [by eexists|].
  destruct (Z.eqb_spec (wh_type h) NTC_MSG_WS_CLOSE) as [->|_]; [by eexists|].
  destruct (Z.eqb_spec (wh_type h) NTC_MSG_REQUEST) as [_|_]; cbn [negb]; [|by eexists].
  unfold serve_request, one_shot_response. rewrite Ha. cbn [ctl_stream ctl_handle one_shot].
  destruct (decoders_safe payload) as ([d Hd] & _). rewrite Hd. bind.
  assert (forall res a' (u' : U), response_ok res -> has_room a' -> exists s',
    (s1 ← send_response malloc s (wh_request_id h) a' res 80; Some (Some (s1, u'))) = Some (Some (s', u')) /\
    sent_more s s' (wire_frames [(NTC_MSG_RESPONSE, wh_request_id h, response_payload res)])) as Hsend.
  { intros res a' u' Hr Ha'. destruct (send_response_calm s (wh_request_id h) a' res 80 Hs Ha' Hr)
      as (s' & -> & Hm); [lia|]. bind. exists s'. split; [done|].
    unfold wire_frames. cbn [fmap list_fmap concat]. by rewrite app_nil_r. }
  destruct d as [req|].
  - specialize (Hgood req a u Hroom). fold fresh_response.
    destruct (handle req fresh_response a u) as [[[r res] a'] u']. destruct Hgood as [Hr Ha'].
    destruct (Hsend (final_response r res) a' u') as (s' & E & Hm);
      [by apply final_response_ok|done|].
    unfold final_response in *. exists s'. destruct (r =? 0); by split.
  - apply (Hsend bad_request); [|done]. split_and!; cbn; lia || done.
Qed.

Lemma wire_frames_app fs gs : wire_frames (fs ++ gs) = wire_frames fs ++ wire_frames gs.
Proof. unfold wire_frames. by rewrite fmap_app, concat_app. Qed.

(** The loop answers every frame in turn, and stops where the stream does. *)
Lemma ctl_loop_replies a fs s u fuel :
  ntc_arena_init malloc (16 * 1024) = Some a -> has_room a -> good_handler -> fd_calm s ->
  Forall frame_in fs -> rd_bytes (fd_in s) = wire_frames fs -> (length fs < fuel)%nat ->
  exists s', ctl_loop malloc one_shot fuel s u = Some (s', snd (replies a u fs)) /\
    fd_sent s' = fd_sent s ++ wire_frames (fst (replies a u fs)).
Proof.
  intros Ha Hroom Hgood Hs Hfs. revert s u fuel Hs.
  induction Hfs as [|[[t rid] payload] fs Hf Hfs IH]; intros s u fuel Hs Hin Hfuel;
    (destruct fuel as [|fuel]; [simpl in Hfuel; lia|]); cbn [ctl_loop replies].
  - unfold ctl_read_frame, fd_read.
    destruct (ctl_read_full_calm (fd_in s) NTC_WIRE_HEADER_LEN [] (proj1 Hs)) as (r & got & ins & -> & _ & H);
      [unfold NTC_WIRE_HEADER_LEN; cbn; lia|].
    rewrite Hin in H. cbn in H. subst r. change (0 <=? 0) with true. bind.
    eexists. split; [done|]. by rewrite app_nil_r.
  - change (wire_frames ((t, rid, payload) :: fs)) with (wire_frame (t, rid, payload) ++ wire_frames fs) in Hin.
    destruct (ctl_read_frame_calm s _ _ Hs Hf Hin) as (h & ins & -> & Et & Er & Hc & Hr). bind. cbn [snd] in *.
    destruct (on_frame_replies a h payload (StreamFd ins (fd_wr s) (fd_sent s)) u Ha Hroom Hgood)
      as (s1 & E1 & Hs1 & Hi1 & Hsent1); [split; [done|apply Hs]|].
    cbn [fst snd] in Et, Er, E1, Hsent1. rewrite Et, Er in E1, Hsent1. rewrite E1. bind.
    destruct (reply a u (t, rid, payload)) as [out u1] eqn:Erep. cbn [fst snd] in *.
    destruct (IH s1 u1 fuel Hs1) as (s2 & E2 & Hsent2); [by rewrite Hi1|simpl in Hfuel; lia|].
    destruct (replies a u1 fs) as [outs u2]. cbn [fst snd] in *. exists s2. split; [done|].
    by rewrite Hsent2, Hsent1, wire_frames_app, app_assoc.
Qed.

End serving.

(** ** Every call returns

    No call to the SDK reads or writes outside a buffer, whatever it is given and however the
    descriptor answers, and none touches the input. *)

Lemma u16_idemp z : u16 (u16 z) = u16 z.
Proof. unfold u16. by rewrite Z.mod_mod. Qed.

Lemma u16_range z : 0 <= u16 z < 2 ^ 16.
Proof. unfold u16. by apply Z.mod_pos_bound. Qed.

Lemma fd_write_in s buf r s' : fd_write s buf = (r, s') -> fd_in s' = fd_in s.
Proof. unfold fd_write. destruct (ctl_write_full _ _) as [[? ?] ?]. by intros [= <- <-]. Qed.

Lemma send_frame_in s t rid payload n r s' :
  send_frame s t rid payload n = (r, s') -> fd_in s' = fd_in s.
Proof.
  unfold send_frame. destruct (fd_write s _) as [r1 s1] eqn:E1. apply fd_write_in in E1.
  case_match; [by intros [= <- <-]|]. case_match; [by intros [= <- <-]|].
  destruct (fd_write s1 _) as [r2 s2] eqn:E2. apply fd_write_in in E2.
  case_match; intros [= <- <-]; congruence.
Qed.

Lemma encodes_some result out cap ok d : encodes result out cap ok d -> is_Some result.
Proof. intros (o & n & -> & _). by eexists. Qed.

Lemma stream_begin_total s st status flags ctype : is_byte flags ->
  exists r s' st', stream_begin s st status flags ctype = Some (r, s', st') /\ fd_in s' = fd_in s.
Proof.
  intros Hf. unfold stream_begin. case_match; [by do 3 eexists|].
  replace (ntc_wire_encode_response_begin status) with (ntc_wire_encode_response_begin (u16 status))
    by (unfold ntc_wire_encode_response_begin; by rewrite u16_idemp).
  destruct (encodes_some _ _ _ _ _ (encode_response_begin_encodes (u16 status) flags ctype
    (replicate 1024 0) 1024 (u16_range _) Hf ltac:(by rewrite length_replicate))) as [[buf n] ->].
  bind. case_match; [by do 3 eexists|]. destruct (send_frame _ _ _ _ _) as [r s'] eqn:E.
  apply send_frame_in in E. by do 3 eexists.
Qed.

Lemma stream_write_in s st data r s' : ntc_stream_write s st data = (r, s') -> fd_in s' = fd_in s.
Proof.
  unfold ntc_stream_write. repeat (case_match; [by intros [= <- <-]|]).
  destruct (fd_write s _) as [r1 s1] eqn:E1. apply fd_write_in in E1. case_match; [by intros [= <- <-]|].
  destruct (fd_write s1 _) as [r2 s2] eqn:E2. apply fd_write_in in E2. case_match; intros [= <- <-]; congruence.
Qed.

(** The text of an event: the buffer of [ntc_sse_send] has room for all of it. *)
Definition sse_text (event data : option bytes) : bytes :=
  (if (length (default [] event) =? 0)%nat then [] else bs "event: " ++ default [] event ++ [10]) ++
  bs "data: " ++ default [] data ++ [10; 10].

Lemma sse_send_eq s st got event data :
  ntc_sse_send s st got event data =
  Some (if negb (st_begun st) || st_ended st || negb got then (-1, s)
        else ntc_stream_write s st (sse_text event data)).
Proof.
  unfold ntc_sse_send, sse_text. destruct (negb (st_begun st) || st_ended st); [done|]. cbn [orb].
  destruct got; [|done]. cbn [negb].
  set (e := if (length (default [] event) =? 0)%nat then [] else _).
  set (d := bs "data: " ++ default [] data ++ [10; 10]).
  set (cap := ((if (length (default [] event) =? 0)%nat then 0 else 7 + length (default [] event) + 1) +
               6 + length (default [] data) + 2 + 1)%nat).
  assert (length e + length d < cap)%nat as Hl.
  { unfold cap, e, d. destruct (length (default [] event) =? 0)%nat; rewrite ?length_app; simpl;
      rewrite ?length_app; simpl; lia. }
  rewrite !snprintf_fits by lia. rewrite mem_range_Some by (rewrite length_app; lia). bind.
  by rewrite drop_0, take_ge by (rewrite length_app; lia).
Qed.

Lemma stream_end_in s st r s' st' : ntc_stream_end s st = (r, s', st') -> fd_in s' = fd_in s.
Proof.
  unfold ntc_stream_end. case_match; [by intros [= <- <- <-]|].
  destruct (send_frame _ _ _ _ _) as [r1 s1] eqn:E. apply send_frame_in in E. by intros [= <- <- <-].
Qed.

Lemma run_stream_total {U} (p : stream_prog U) s st :
  exists rc u s' st', run_stream p s st = Some (rc, u, s', st') /\ fd_in s' = fd_in s.
Proof.
  revert s st. induction p as [rc u|status ctype k IH|k IH|data k IH|got event data k IH|k IH];
    intros s st; cbn [run_stream].
  - by do 4 eexists.
  - destruct (stream_begin_total s st status NTC_STREAM_FLAG_CHUNKED ctype) as (r & s1 & st1 & E & Hi);
      [by unfold is_byte, NTC_STREAM_FLAG_CHUNKED|]. unfold ntc_stream_begin. rewrite E, <- Hi. bind. apply IH.
  - destruct (stream_begin_total s st 200 NTC_STREAM_FLAG_SSE (bs "text/event-stream")) as (r & s1 & st1 & E & Hi);
      [by unfold is_byte, NTC_STREAM_FLAG_SSE|]. unfold ntc_sse_begin. rewrite E, <- Hi. bind. apply IH.
  - destruct (ntc_stream_write s st data) as [r s1] eqn:E. apply stream_write_in in E. rewrite <- E. apply IH.
  - rewrite sse_send_eq. bind. destruct (negb (st_begun st) || st_ended st || negb got); [apply IH|].
    destruct (ntc_stream_write s st (sse_text event data)) as [r s1] eqn:E1. apply stream_write_in in E1.
    rewrite <- E1. apply IH.
  - destruct (ntc_stream_end s st) as [[r s1] st1] eqn:E. apply stream_end_in in E. rewrite <- E. apply IH.
Qed.

Lemma ws_send_total s rid got opcode data :
  exists r s', ntc_ws_send s rid got opcode data = Some (r, s') /\ fd_in s' = fd_in s.
Proof.
  unfold ntc_ws_send. destruct (Z.ltb_spec (0xFFFFFFFF - 16) (Z.of_nat (length data))) as [|Hl]; [by do 2 eexists|].
  destruct got; [|by do 2 eexists]. cbn [negb].
  assert (ok32 data = true) as Hd by (apply Z.ltb_lt; lia).
  destruct (encodes_some _ _ _ _ _ (encode_ws_msg_encodes (u8 opcode) data (replicate (length data + 8) 0)
    (length data + 8) (u8_range _) Hd ltac:(by rewrite length_replicate))) as [[pl pn] ->].
  bind. case_match; [by do 2 eexists|]. destruct (send_frame _ _ _ _ _) as [r s'] eqn:E.
  apply send_frame_in in E. by do 2 eexists.
Qed.

Lemma ws_close_total s rid : exists r s', ntc_ws_close s rid = Some (r, s') /\ fd_in s' = fd_in s.
Proof.
  unfold ntc_ws_close.
  change (ntc_wire_encode_ws_close 1000 (replicate 2 0) 2) with (Some ([3; 232], 2)). bind.
  change (2 <? 0) with false. cbn match.
  destruct (send_frame _ _ _ _ _) as [r s'] eqn:E. apply send_frame_in in E. by do 2 eexists.
Qed.

Lemma run_ws_total {U} (p : ws_prog U) s rid :
  exists u s', run_ws p s rid = Some (u, s') /\ fd_in s' = fd_in s.
Proof.
  revert s. induction p as [u|got opcode data k IH|got text k IH|k IH]; intros s; cbn [run_ws].
  - by do 2 eexists.
  - destruct (ws_send_total s rid got opcode data) as (r & s1 & -> & <-). bind. apply IH.
  - unfold ntc_ws_send_text.
    destruct (ws_send_total s rid got 1 (default [] text)) as (r & s1 & -> & <-). bind. apply IH.
  - destruct (ws_close_total s rid) as (r & s1 & -> & <-). bind. apply IH.
Qed.

(** The encoders of the answers, at any status and any length. *)
Lemma response_encoders_total status ctype body headers out cap : (cap <= length out)%nat ->
  is_Some (ntc_wire_encode_response status ctype body out cap) /\
  is_Some (ntc_wire_encode_response_ex status ctype body headers out cap).
Proof.
  intros Hcap. split.
  - assert (exists ok d, encodes (ntc_wire_encode_response status ctype body out cap) out cap ok d)
      as (ok & d & H); [|by eapply encodes_some].
    do 2 eexists. unfold ntc_wire_encode_response.
    encoder (fun w => w_u16 w (u16 status)); reflexivity.
  - assert (exists ok d, encodes (ntc_wire_encode_response_ex status ctype body headers out cap) out cap ok d)
      as (ok & d & H); [|by eapply encodes_some].
    do 2 eexists. unfold ntc_wire_encode_response_ex.
    encoder (fun w => w_u16 w (u16 status)); reflexivity.
Qed.

Section total.
Context {U : Type} (malloc : Z -> option Z) (ctl : ntc_controller U).

Lemma send_response_total s rid a res slack :
  exists s', send_response malloc s rid a res slack = Some s' /\ fd_in s' = fd_in s.
Proof.
  unfold send_response. case_match; [|by eexists].
  set (cap := (length (res_body res) + length (res_content_type res) + length (res_headers res) + slack)%nat).
  destruct (response_encoders_total (res_status res) (res_content_type res) (res_body res) (res_headers res)
    (replicate cap 0) cap) as [[[o1 n1] E1] [[o2 n2] E2]]; [by rewrite length_replicate|].
  rewrite E1, E2.
  destruct (length (res_headers res) =? 0)%nat; bind; (case_match; [|by eexists]);
    (destruct (send_frame _ _ _ _ _) as [r s'] eqn:E; apply send_frame_in in E; by eexists).
Qed.

Lemma serve_stream_total (handler : ntc_request -> ntc_arena -> U -> stream_prog U * ntc_arena) rid payload a s u :
  exists s' u', serve_stream malloc handler rid payload a s u = Some (s', u') /\ fd_in s' = fd_in s.
Proof.
  unfold serve_stream. destruct (decoders_safe payload) as ([d ->] & _). bind.
  assert (forall hrc ok (u' : U) s1 st1 a1, fd_in s1 = fd_in s -> exists s' u'',
    (if st_begun st1
     then Some (if st_ended st1 then s1 else let '(_, s, _) := ntc_stream_end s1 st1 in s, u')
     else s2 ← send_response malloc s1 rid a1 (unstreamed_response ok hrc) 64; Some (s2, u')) = Some (s', u'') /\
    fd_in s' = fd_in s) as Hend.
  { intros hrc ok u' s1 st1 a1 Hi. destruct (st_begun st1).
    - do 2 eexists. split; [done|]. destruct (st_ended st1); [done|].
      destruct (ntc_stream_end s1 st1) as [[r s2] st2] eqn:E. apply stream_end_in in E. congruence.
    - destruct (send_response_total s1 rid a1 (unstreamed_response ok hrc) 64) as (s2 & -> & Hi2). bind.
      do 2 eexists. split; [done|]. congruence. }
  destruct d as [req|]; bind.
  - destruct (handler req a u) as [p a1].
    destruct (run_stream_total p s (Stream rid false false)) as (rc & u' & s1 & st1 & -> & Hi). bind.
    by apply Hend.
  - by apply Hend.
Qed.

Lemma on_frame_total h payload s u :
  is_Some (ctl_handle ctl) \/ is_Some (ctl_stream ctl) ->
  exists r, on_frame malloc ctl h payload s u = Some r /\
    match r with Some (s', _) => fd_in s' = fd_in s | None => True end.
Proof.
  intros Hctl. unfold on_frame. destruct (decoders_safe payload) as ([d Hd] & _ & _ & _ & _ & [w Hw] & _).
  rewrite Hd, Hw. case_match; [by eexists|].
  case_match. { destruct (send_frame _ _ _ _ _) as [r s'] eqn:E. apply send_frame_in in E. by eexists. }
  case_match. { destruct (ctl_ws_open ctl) as [f|]; [|by eexists]. bind. destruct d as [req|]; [|by eexists].
    destruct (run_ws_total (f req u) s (wh_request_id h)) as (u' & s' & -> & Hi). by eexists. }
  case_match. { destruct (ctl_ws_message ctl) as [f|]; [|by eexists]. bind. destruct w as [[o m]|]; [|by eexists].
    destruct (run_ws_total (f o m u) s (wh_request_id h)) as (u' & s' & -> & Hi). by eexists. }
  case_match. { destruct (ctl_ws_close ctl) as [f|]; [|by eexists].
    destruct (run_ws_total (f u) s (wh_request_id h)) as (u' & s' & -> & Hi). by eexists. }
  case_match; [by eexists|]. unfold serve_request.
  destruct (ntc_arena_init malloc (16 * 1024)) as [a|]; [|by eexists].
  destruct (ctl_stream ctl) as [handler|].
  - destruct (serve_stream_total handler (wh_request_id h) payload a s u) as (s' & u' & -> & Hi). by eexists.
  - unfold one_shot_response. rewrite Hd. bind. destruct d as [req|].
    + destruct Hctl as [[handle ->]|[? [=]]]. bind. destruct (handle req _ a u) as [[[r res] a'] u'].
      destruct (r =? 0); bind.
      * destruct (send_response_total s (wh_request_id h) a' res 80) as (s' & -> & Hi). by eexists.
      * edestruct (send_response_total s (wh_request_id h) a') as (s' & -> & Hi). by eexists.
    + bind. edestruct (send_response_total s (wh_request_id h) a) as (s' & -> & Hi). by eexists.
Qed.

Lemma ctl_read_frame_total s : is_Some (ctl_read_frame s).
Proof.
  unfold ctl_read_frame, fd_read. destruct (ctl_read_full _ _ _) as [[r got] ins] eqn:E.
  destruct (Z.leb_spec r 0); [by eexists|].
  apply ctl_read_full_bound in E as [_ Hl]. specialize (Hl ltac:(lia) ltac:(cbn; lia)).
  destruct (parse_header_total got) as [h ->]; [lia|]. bind. destruct h as [h|]; [|by eexists].
  case_match; [by eexists|]. case_match; [by eexists|].
  destruct (ctl_read_full _ _ _) as [[r2 got2] ins2]. by eexists.
Qed.

Lemma ctl_loop_total s u fuel :
  is_Some (ctl_handle ctl) \/ is_Some (ctl_stream ctl) ->
  (length (rd_bytes (fd_in s)) < fuel)%nat -> is_Some (ctl_loop malloc ctl fuel s u).
Proof.
  intros Hctl. revert s u. induction fuel as [|fuel IH]; intros s u Hf; [lia|]. cbn [ctl_loop].
  destruct (ctl_read_frame_total s) as [[r s1] E]. rewrite E. bind.
  pose proof (ctl_read_frame_bound _ _ _ E) as Hb. destruct r as [[h payload]|]; [|by eexists].
  destruct (on_frame_total h payload s1 u Hctl) as (n & -> & Hn). bind.
  destruct n as [[s2 u2]|]; [|by eexists]. apply IH. rewrite Hn. lia.
Qed.
End total.

(** ** The frames of a streaming handler

    A stream is begun, written and ended; the states are those of [ntc_stream], and a step is
    a frame that is sent. *)

Inductive stream_trace (rid : Z) : ntc_stream -> list ctl_frame -> ntc_stream -> Prop :=
  | trace_stay st : stream_trace rid st [] st
  | trace_begin status flags ctype fs st :
      stream_trace rid (Stream rid true false) fs st ->
      stream_trace rid (Stream rid false false)
        ((NTC_MSG_RESPONSE_BEGIN, rid, put_u16 (u16 status) ++ flags :: enc16 ctype) :: fs) st
  | trace_chunk data fs st :
      data <> [] -> stream_trace rid (Stream rid true false) fs st ->
      stream_trace rid (Stream rid true false) ((NTC_MSG_RESPONSE_CHUNK, rid, enc32 data) :: fs) st
  | trace_end b fs st :
      stream_trace rid (Stream rid b true) fs st ->
      stream_trace rid (Stream rid b false) ((NTC_MSG_RESPONSE_END, rid, []) :: fs) st.

Lemma trace_app rid st1 fs st2 gs st3 :
  stream_trace rid st1 fs st2 -> stream_trace rid st2 gs st3 -> stream_trace rid st1 (fs ++ gs) st3.
Proof. induction 1; intros; cbn; [done|..]; constructor; auto. Qed.

(** An operation's frames: what it sends, and the state it leaves. *)
Definition steps (rid : Z) (s : stream_fd) (st : ntc_stream) (s' : stream_fd) (st' : ntc_stream) : Prop :=
  exists fs, stream_trace rid st fs st' /\ sent_more s s' (wire_frames fs).

Lemma sent_more_nil s : fd_calm s -> sent_more s s (wire_frames []).
Proof. intros. split; [done|]. split; [done|]. by rewrite app_nil_r. Qed.

Lemma sent_more_one s s' f : sent_more s s' (wire_frame f) -> sent_more s s' (wire_frames [f]).
Proof. unfold wire_frames. cbn [fmap list_fmap concat]. by rewrite app_nil_r. Qed.

Lemma sent_more_trans s1 s2 s3 fs gs :
  sent_more s1 s2 (wire_frames fs) -> sent_more s2 s3 (wire_frames gs) -> sent_more s1 s3 (wire_frames (fs ++ gs)).
Proof.
  intros (_ & I1 & D1) (C2 & I2 & D2). split; [done|]. split; [congruence|].
  by rewrite D2, D1, wire_frames_app, app_assoc.
Qed.

Lemma steps_refl rid s st : fd_calm s -> steps rid s st s st.
Proof. intros. exists []. split; [constructor|by apply sent_more_nil]. Qed.

Lemma steps_trans rid s1 st1 s2 st2 s3 st3 :
  steps rid s1 st1 s2 st2 -> steps rid s2 st2 s3 st3 -> steps rid s1 st1 s3 st3.
Proof.
  intros (fs & T1 & M1) (gs & T2 & M2). exists (fs ++ gs).
  split; [by eapply trace_app|by eapply sent_more_trans].
Qed.

Lemma steps_calm rid s st s' st' : steps rid s st s' st' -> fd_calm s'.
Proof. intros (fs & _ & H & _). done. Qed.

(** Beginning a stream whose BEGIN fits, and writing to an open one. *)
Lemma stream_begin_fresh s rid status flags ctype : fd_calm s -> is_byte flags ->
  let payload := put_u16 (u16 status) ++ flags :: enc16 ctype in
  ok16 ctype && (length payload <=? 1024)%nat = true ->
  exists s', stream_begin s (Stream rid false false) status flags ctype = Some (0, s', Stream rid true false) /\
    sent_more s s' (wire_frame (NTC_MSG_RESPONSE_BEGIN, rid, payload)).
Proof.
  intros Hs Hf payload [Hc Hl]%andb_prop. apply Nat.leb_le in Hl. unfold stream_begin. cbn [st_begun st_ended st_rid orb].
  replace (ntc_wire_encode_response_begin status) with (ntc_wire_encode_response_begin (u16 status))
    by (unfold ntc_wire_encode_response_begin; by rewrite u16_idemp).
  pose proof (encode_response_begin_encodes (u16 status) flags ctype
    (replicate 1024 0) 1024 (u16_range _) Hf ltac:(by rewrite length_replicate)) as He.
  destruct (encodes_take _ _ _ _ _ He Hc Hl) as (out & -> & Ho). bind. fold payload in Ho |- *.
  rewrite (proj2 (Z.ltb_ge _ 0)) by lia. rewrite u32_id by lia.
  assert (ok32 payload = true) as Hp by (apply Z.ltb_lt; lia).
  destruct (send_frame_calm s NTC_MSG_RESPONSE_BEGIN rid payload Hs Hp) as (s' & E & Hm).
  assert (send_frame s NTC_MSG_RESPONSE_BEGIN rid out (Z.of_nat (length payload)) = (0, s')) as ->.
  { rewrite <- E. unfold send_frame. by rewrite Nat2Z.id, Ho, firstn_all. }
  by exists s'.
Qed.

Lemma stream_write_open s rid data : fd_calm s -> data <> [] -> Z.of_nat (length data) <= 0xFFFFFFFF - 4 ->
  exists s', ntc_stream_write s (Stream rid true false) data = (0, s') /\
    sent_more s s' (wire_frame (NTC_MSG_RESPONSE_CHUNK, rid, enc32 data)).
Proof.
  intros Hs Hne Hl. unfold ntc_stream_write. cbn [st_begun st_ended st_rid negb orb].
  assert (length data <> 0%nat) by (by destruct data). rewrite (proj2 (Z.eqb_neq _ _)) by lia. rewrite (proj2 (Z.ltb_ge _ _)) by lia.
  rewrite (u32_id (Z.of_nat (length data))), u32_id by lia.
  set (hdr := ntc_wire_write_header NTC_MSG_RESPONSE_CHUNK rid (Z.of_nat (length data) + 4)).
  destruct (fd_write_calm s (hdr ++ put_u32 (Z.of_nat (length data))) Hs) as (o1 & E1 & H1).
  unfold put_u32 in E1. rewrite E1. change (1 <=? 0) with false. cbn match.
  edestruct (fd_write_calm (StreamFd (fd_in s) o1 (fd_sent s ++ hdr ++ put_u32 (Z.of_nat (length data)))) data)
    as (o2 & E2 & H2); [split; [apply Hs|done]|]. unfold put_u32 in E2. rewrite E2.
  change (1 <=? 0) with false. cbn match. eexists. split; [done|].
  split; [split; [apply Hs|done]|]. split; [done|]. cbn [fd_sent wire_frame].
  unfold enc32. rewrite length_app, length_put_u32, Nat2Z.inj_add.
  unfold hdr. rewrite Z.add_comm. by rewrite <- !app_assoc.
Qed.

Lemma stream_begin_steps s st status flags ctype : fd_calm s -> is_byte flags ->
  exists r s' st', stream_begin s st status flags ctype = Some (r, s', st') /\
    steps (st_rid st) s st s' st' /\ st_rid st' = st_rid st.
Proof.
  intros Hs Hf. destruct st as [rid b e]. cbn [st_rid].
  destruct b; [do 3 eexists; split_and!; [done|by apply steps_refl|done]|].
  destruct e; [do 3 eexists; split_and!; [done|by apply steps_refl|done]|].
  set (payload := put_u16 (u16 status) ++ flags :: enc16 ctype).
  destruct (ok16 ctype && (length payload <=? 1024)%nat) eqn:Eok.
  - destruct (stream_begin_fresh s rid status flags ctype Hs Hf Eok) as (s' & -> & Hm).
    do 3 eexists. split_and!; [done| |done]. eexists [_]. split; [apply trace_begin; constructor|].
    apply sent_more_one, Hm.
  - unfold stream_begin. cbn [st_begun st_ended st_rid orb].
    replace (ntc_wire_encode_response_begin status) with (ntc_wire_encode_response_begin (u16 status))
      by (unfold ntc_wire_encode_response_begin; by rewrite u16_idemp).
    pose proof (encode_response_begin_encodes (u16 status) flags ctype
      (replicate 1024 0) 1024 (u16_range _) Hf ltac:(by rewrite length_replicate)) as He. fold payload in He.
    destruct He as (o & n & -> & _ & Hn). rewrite Eok in Hn. subst n. bind.
    change (-1 <? 0) with true. cbn match. do 3 eexists. split_and!; [done|by apply steps_refl|done].
Qed.

Lemma stream_write_steps s st data : fd_calm s ->
  exists r s', ntc_stream_write s st data = (r, s') /\ steps (st_rid st) s st s' st.
Proof.
  intros Hs. destruct st as [rid b e]. cbn [st_rid].
  destruct b, e; try by (do 2 eexists; split; [done|by apply steps_refl]).
  destruct (decide (data = [])) as [->|Hne]; [by do 2 eexists; split; [done|apply steps_refl]|].
  destruct (Z.leb_spec (Z.of_nat (length data)) (0xFFFFFFFF - 4)) as [Hl|Hl].
  - destruct (stream_write_open s rid data Hs Hne Hl) as (s' & -> & Hm). do 2 eexists. split; [done|].
    exists [(NTC_MSG_RESPONSE_CHUNK, rid, enc32 data)]. split; [constructor; [done|constructor]|]. by apply sent_more_one.
  - unfold ntc_stream_write. cbn [st_begun st_ended negb orb]. assert (length data <> 0%nat) by (by destruct data).
    rewrite (proj2 (Z.eqb_neq _ _)) by lia. rewrite (proj2 (Z.ltb_lt _ _)) by lia.
    do 2 eexists. split; [done|by apply steps_refl].
Qed.

Lemma stream_end_steps s st : fd_calm s ->
  exists r s' st', ntc_stream_end s st = (r, s', st') /\ steps (st_rid st) s st s' st' /\
    st_rid st' = st_rid st /\ st_ended st' = true.
Proof.
  intros Hs. destruct st as [rid b e]. unfold ntc_stream_end. cbn [st_begun st_ended st_rid].
  destruct e; [do 3 eexists; split_and!; [done|by apply steps_refl|done..]|].
  destruct (send_frame_calm s NTC_MSG_RESPONSE_END rid [] Hs eq_refl) as (s' & E & Hm).
  change (Z.of_nat (length [])) with 0 in E. rewrite E. do 3 eexists. split_and!; [done| |done..].
  eexists [_]. split; [apply trace_end; constructor|by apply sent_more_one].
Qed.

Lemma run_stream_steps {U} (p : stream_prog U) s st : fd_calm s ->
  exists rc u s' st', run_stream p s st = Some (rc, u, s', st') /\
    steps (st_rid st) s st s' st' /\ st_rid st' = st_rid st.
Proof.
  revert s st. induction p as [rc u|status ctype k IH|k IH|data k IH|got event data k IH|k IH];
    intros s st Hs; cbn [run_stream].
  - do 4 eexists. split_and!; [done|by apply steps_refl|done].
  - destruct (stream_begin_steps s st status NTC_STREAM_FLAG_CHUNKED ctype Hs) as (r & s1 & st1 & E & T & R);
      [by unfold is_byte, NTC_STREAM_FLAG_CHUNKED|]. unfold ntc_stream_begin. rewrite E. bind.
    destruct (IH r s1 st1 (steps_calm _ _ _ _ _ T)) as (rc & u & s2 & st2 & E2 & T2 & R2).
    do 4 eexists. split_and!; [exact E2| |congruence]. rewrite R in T2. by eapply steps_trans.
  - destruct (stream_begin_steps s st 200 NTC_STREAM_FLAG_SSE (bs "text/event-stream") Hs)
      as (r & s1 & st1 & E & T & R); [by unfold is_byte, NTC_STREAM_FLAG_SSE|].
    unfold ntc_sse_begin. rewrite E. bind.
    destruct (IH r s1 st1 (steps_calm _ _ _ _ _ T)) as (rc & u & s2 & st2 & E2 & T2 & R2).
    do 4 eexists. split_and!; [exact E2| |congruence]. rewrite R in T2. by eapply steps_trans.
  - destruct (stream_write_steps s st data Hs) as (r & s1 & -> & T).
    destruct (IH r s1 st (steps_calm _ _ _ _ _ T)) as (rc & u & s2 & st2 & E2 & T2 & R2).
    do 4 eexists. split_and!; [exact E2| |done]. by eapply steps_trans.
  - rewrite sse_send_eq. bind. destruct (negb (st_begun st) || st_ended st || negb got); [by apply IH|].
    destruct (stream_write_steps s st (sse_text event data) Hs) as (r & s1 & -> & T).
    destruct (IH r s1 st (steps_calm _ _ _ _ _ T)) as (rc & u & s2 & st2 & E2 & T2 & R2).
    do 4 eexists. split_and!; [exact E2| |done]. by eapply steps_trans.
  - destruct (stream_end_steps s st Hs) as (r & s1 & st1 & -> & T & R & _).
    destruct (IH r s1 st1 (steps_calm _ _ _ _ _ T)) as (rc & u & s2 & st2 & E2 & T2 & R2).
    do 4 eexists. split_and!; [exact E2| |congruence]. rewrite R in T2. by eapply steps_trans.
Qed.

(** A whole answer: one response, or a stream from its BEGIN to its END.  A handler that ends
    a stream it did not begin sends the END, and then the response. *)
Inductive stream_answer (rid : Z) : list ctl_frame -> Prop :=
  | answer_once res : response_ok res ->
      stream_answer rid [(NTC_MSG_RESPONSE, rid, response_payload res)]
  | answer_stream status flags ctype chunks : Forall (fun d => d <> []) chunks ->
      stream_answer rid ((NTC_MSG_RESPONSE_BEGIN, rid, put_u16 (u16 status) ++ flags :: enc16 ctype) ::
        ((fun d => (NTC_MSG_RESPONSE_CHUNK, rid, enc32 d)) <$> chunks) ++ [(NTC_MSG_RESPONSE_END, rid, [])])
  | answer_ended res : response_ok res ->
      stream_answer rid [(NTC_MSG_RESPONSE_END, rid, []); (NTC_MSG_RESPONSE, rid, response_payload res)].

Lemma trace_ended rid b fs st : stream_trace rid (Stream rid b true) fs st -> fs = [] /\ st = Stream rid b true.
Proof. by inversion 1. Qed.

Lemma trace_open rid fs st : stream_trace rid (Stream rid true false) fs st ->
  exists chunks, Forall (fun d => d <> []) chunks /\
    let cs := (fun d => (NTC_MSG_RESPONSE_CHUNK, rid, enc32 d)) <$> chunks in
    (fs = cs /\ st = Stream rid true false) \/
    (fs = cs ++ [(NTC_MSG_RESPONSE_END, rid, [])] /\ st = Stream rid true true).
Proof.
  intros H. remember (Stream rid true false) as st0 eqn:E.
  induction H as [|status flags ctype fs st _ _|data fs st Hd _ IH|b fs st H _]; simplify_eq.
  - exists []. split; [constructor|by left].
  - destruct (IH eq_refl) as (chunks & Hc & [[-> ->]|[-> ->]]); exists (data :: chunks);
      (split; [by constructor|]); [by left|by right].
  - apply trace_ended in H as [-> ->]. exists []. split; [constructor|by right].
Qed.

(** What a handler has sent when it returns, and what is left to send. *)
Lemma trace_fresh rid fs st : stream_trace rid (Stream rid false false) fs st ->
  (fs = [] /\ st_begun st = false) \/ (fs = [(NTC_MSG_RESPONSE_END, rid, [])] /\ st_begun st = false) \/
  (st_begun st = true /\ if st_ended st then stream_answer rid fs
                        else stream_answer rid (fs ++ [(NTC_MSG_RESPONSE_END, rid, [])])).
Proof.
  inversion 1 as [|status flags ctype fs' st' T| |b fs' st' T]; subst.
  - by left.
  - right; right. destruct (trace_open _ _ _ T) as (chunks & Hc & [[-> ->]|[-> ->]]);
      (split; [done|]); by apply answer_stream.
  - apply trace_ended in T as [-> ->]. right; by left.
Qed.

Lemma unstreamed_response_ok ok hrc : response_ok (unstreamed_response ok hrc).
Proof.
  unfold unstreamed_response. destruct ok; [destruct (hrc =? 0)|];
    (split_and!; cbn; lia || done).
Qed.

(** C9. The two ends of the wire agree: whatever the way the stream is cut up and interrupted, a
    controller greets the gateway and answers every frame in order, a request with one RESPONSE
    of the same id; and for a request the gateway encoded, the handler is called with that
    request and the gateway decodes the status, type, body and headers it returned. *)
Theorem sdk_serves {U} malloc name
    (handle : ntc_request -> ntc_response -> ntc_arena -> U -> Z * ntc_response * ntc_arena * U)
    a fs fds s u fuel :
  ntc_arena_init malloc (16 * 1024) = Some a -> has_room malloc a -> good_handler malloc handle ->
  0 <= atoi fds -> ok32 (default (bs "controller") name) = true ->
  fd_calm s -> fd_sent s = [] -> Forall frame_in fs -> rd_bytes (fd_in s) = wire_frames fs ->
  (length fs < fuel)%nat ->
  (exists s', ntc_controller_run malloc (one_shot name handle) fuel (Some fds) s u =
      Some (0, s', snd (replies handle a u fs)) /\
    fd_sent s' = wire_frames ((NTC_MSG_HELLO, 0, default (bs "controller") name) ::
                              fst (replies handle a u fs))) /\
  forall rid req, wire_request req = true -> exists r res a' u',
    handle (received req) fresh_response a u = (r, res, a', u') /\
    reply handle a u (NTC_MSG_REQUEST, rid, request_spec req) =
      ([(NTC_MSG_RESPONSE, rid, response_payload (final_response r res))], u') /\
    let res := final_response r res in
    ntc_wire_decode_response_ex (response_payload res) =
      Some (Some (res_status res, res_content_type res, res_body res, res_headers res)).
Proof.
  intros Ha Hroom Hgood Hfd Hname Hs Hsent Hfs Hin Hfuel. split.
  - unfold ntc_controller_run. cbn [ctl_handle ctl_name one_shot]. rewrite (proj2 (Z.ltb_ge _ 0)) by done.
    rewrite bool_decide_true by by eexists. cbn [orb negb].
    destruct (send_frame_calm s NTC_MSG_HELLO 0 _ Hs Hname) as (s1 & E & Hc & Hi & Hd).
    apply Z.ltb_lt in Hname. rewrite u32_id by lia. rewrite E. cbn [negb Z.eqb].
    destruct (ctl_loop_replies malloc name handle a fs s1 u fuel) as (s2 & E2 & Hd2); try done.
    { by rewrite Hi. }
    rewrite E2. bind. exists s2. split; [done|]. rewrite Hd2, Hd, Hsent. done.
  - intros rid req Hw. specialize (Hgood (received req) a u Hroom).
    destruct (handle (received req) fresh_response a u) as [[[r res] a'] u'] eqn:E.
    do 4 eexists. split; [done|]. cbn [reply Z.eqb Pos.eqb].
    rewrite <- (app_nil_r (request_spec req)), decode_request_spec by done. rewrite E. split; [done|].
    apply response_payload_decodes, final_response_ok, Hgood.
Qed.

(** C11. No peer can bring a controller down: whatever bytes arrive, whatever the reads and
    writes answer and whatever its callbacks do, a controller with a request handler returns,
    after at most one turn of its loop per byte, without an access outside a buffer. *)
Theorem controller_total {U} malloc (ctl : ntc_controller U) fds s u :
  is_Some (ctl_handle ctl) \/ is_Some (ctl_stream ctl) ->
  is_Some (ntc_controller_run malloc ctl (S (length (rd_bytes (fd_in s)))) fds s u).
Proof.
  intros Hctl. unfold ntc_controller_run. case_match; [by eexists|]. destruct fds as [fds|]; [|by eexists].
  case_match; [by eexists|]. destruct (send_frame _ _ _ _ _) as [r s1] eqn:E. apply send_frame_in in E.
  case_match; [by eexists|].
  destruct (ctl_loop_total malloc ctl s1 u (S (length (rd_bytes (fd_in s)))) Hctl) as [[s2 u2] ->];
    [rewrite E; lia|]. bind. by eexists.
Qed.


(** A controller that answers with the path it was asked for, and counts. *)
Definition echo_handler (req : ntc_request) (res : ntc_response) (a : ntc_arena) (u : nat)
    : Z * ntc_response * ntc_arena * nat :=
  let res := Response 200 (bs "text/plain") (take 1000 (path req)) (res_headers res) in
  let '(_, res) := ntc_res_header res (bs "X-Echo") (bs "1") in (0, res, a, S u).

Definition echo_input : list rd_event :=
  let d := wire_frames [(NTC_MSG_WELCOME, 0, []); (NTC_MSG_REQUEST, 7, request_spec sample_request)] in
  [RdData (take 10 d); RdIntr; RdData (drop 10 d)].

Definition some_malloc (n : Z) : option Z := Some 4096.

Lemma controller_total_witness :
  is_Some (ctl_handle (one_shot None echo_handler)) /\
  is_Some (ntc_controller_run some_malloc (one_shot None echo_handler) (S 3) (Some (bs "3"))
    (StreamFd [RdData (bs "bad")] [WrTakes 3; WrFail] []) 0%nat).
Proof.
  split; [by eexists|].
  apply (controller_total some_malloc (one_shot None echo_handler) (Some (bs "3"))
    (StreamFd [RdData (bs "bad")] [WrTakes 3; WrFail] []) 0%nat). left. by eexists.
Defined.

(** A handler that streams two chunks, with an empty write between them that sends nothing. *)
Definition two_chunks (req : ntc_request) (a : ntc_arena) (u : nat) : stream_prog nat * ntc_arena :=
  (SBegin 200 (bs "text/plain") (fun _ => SWrite (bs "one") (fun _ => SWrite [] (fun _ =>
   SSse true (Some (bs "tick")) None (fun _ => SDone 0 (S u))))), a).


(** A controller that only has WebSocket callbacks passes the test at the start, and calls a
    NULL handler when a request comes. *)
Definition ws_only : ntc_controller nat :=
  Controller None None None None (Some (fun _ _ u => WDone u)) None.

Example ws_only_request_faults :
  ntc_controller_run some_malloc ws_only 5 (Some (bs "3"))
    (StreamFd [RdData (wire_frame (NTC_MSG_REQUEST, 7, request_spec sample_request))] [] []) 0%nat = None.
Proof. vm_compute. reflexivity. Qed.

Lemma sdk_serves_witness :
  let fs := [(NTC_MSG_WELCOME, 0, []); (NTC_MSG_REQUEST, 7, request_spec sample_request)] in
  let s := StreamFd echo_input [WrTakes 3; WrIntr] [] in
  exists a, ntc_arena_init some_malloc (16 * 1024) = Some a /\ fd_calm s /\
  ((exists s', ntc_controller_run some_malloc (one_shot None echo_handler) 3 (Some (bs "3")) s 0%nat =
      Some (0, s', snd (replies echo_handler a 0%nat fs)) /\
    fd_sent s' = wire_frames ((NTC_MSG_HELLO, 0, default (bs "controller") None) ::
                              fst (replies echo_handler a 0%nat fs))) /\
  forall rid req, wire_request req = true -> exists r res a' u',
    echo_handler (received req) fresh_response a 0%nat = (r, res, a', u') /\
    reply echo_handler a 0%nat (NTC_MSG_REQUEST, rid, request_spec req) =
      ([(NTC_MSG_RESPONSE, rid, response_payload (final_response r res))], u') /\
    let res := final_response r res in
    ntc_wire_decode_response_ex (response_payload res) =
      Some (Some (res_status res, res_content_type res, res_body res, res_headers res))).
Proof.
  intros fs s. eexists. split; [reflexivity|].
  assert (fd_calm s) as Hs by (split; repeat constructor). split; [exact Hs|].
  apply (sdk_serves some_malloc None echo_handler _ fs (bs "3") s 0%nat 3).
  - reflexivity.
  - apply malloc_has_room; [intros; by eexists|by eexists|vm_compute; split; [discriminate|reflexivity]].
  - intros req x u Hx. unfold echo_handler. change (ntc_res_header _ _ _) with
      (0, Response 200 (bs "text/plain") (take 1000 (path req)) (bs "X-Echo: 1" ++ crlf)). split; [|exact Hx].
    split_and!; [cbn; lia|cbn; lia|reflexivity|reflexivity|]. cbn [res_body]. rewrite length_take. lia.
  - vm_compute. discriminate.
  - reflexivity.
  - exact Hs.
  - reflexivity.
  - repeat constructor; try reflexivity; try (vm_compute; discriminate); lia.
  - reflexivity.
  - cbn. lia.
Defined.
