(* ===== verification/HttpsClient.v ===== *)
(** * The HTTPS client (src/core/https_client.c)

    How the gateway fetches a key set and exchanges a code: the URL, the bounded connect, the
    request text, the response and the body taken out of it.  TLS is BearSSL's: what its calls
    answer is an argument, and so are the resolver and the kernel. *)
From S2P Require Import Prelude Update Slice Posix.
Open Scope Z_scope.

(** ** The URL *)

(** [strchr] on a C string. *)
Definition strchr (c : Z) (s : bytes) : option nat := memchr c s.

(** https_client.c:180-199 [parse_https_url]. [url] is a C string; the result is what is left in
    [host], [port] and [path]. *)
Definition parse_https_url (url : bytes) (hcap pcap pathcap : nat) : option (bytes * bytes * bytes) :=
  if negb (memeq (take 8 url) (bs "https://")) then None else
  let h := drop 8 url in
  let slash := strchr 47 h in
  let hostend := default (length h) slash in
  let colon := memchr 58 (take hostend h) in
  let hlen := default hostend colon in
  if (hlen =? 0)%nat || (hcap <=? hlen)%nat then None else
  let host := take hlen h in
  port ← match colon with
         | Some c =>
             let plen := (hostend - (c + 1))%nat in
             if (plen =? 0)%nat || (pcap <=? plen)%nat then None else Some (take plen (drop (c + 1) h))
         | None => Some (snprintf pcap (bs "443"))
         end;
  Some (host, port, snprintf pathcap (match slash with Some i => drop i h | None => bs "/" end)).

(** ** The connection *)

(** https_client.c:210-225 [connect_timeout, one address]. What the calls for an address
    answer: [socket], and whether [connect] is done at once, or finishes in time without an
    error. *)
Record conn_try := ConnTry { ct_socket : Z; ct_now : bool; ct_in_progress : bool; ct_ready : bool; ct_so_error : Z }.

(** Descriptors that are opened and closed. *)
Inductive fd_event := FdOpen (fd : Z) | FdClose (fd : Z).

(** https_client.c:209-227 [connect_timeout, loop] *)
Fixpoint connect_loop (ais : list conn_try) (log : list fd_event) : Z * list fd_event :=
  match ais with
  | [] => (-1, log)
  | ai :: ais =>
      let fd := ct_socket ai in
      if fd <? 0 then connect_loop ais log else
      let log := log ++ [FdOpen fd] in
      if ct_now ai then (fd, log) else
      if ct_in_progress ai && ct_ready ai && (ct_so_error ai =? 0) then (fd, log) else
      connect_loop ais (log ++ [FdClose fd])
  end.

(** https_client.c:201-235 [connect_timeout]. [addrs] is what the resolver answers. *)
Definition connect_timeout (addrs : option (list conn_try)) (log : list fd_event) : Z * list fd_event :=
  match addrs with None => (-1, log) | Some ais => connect_loop ais log end.

(** ** The response *)

(** https_client.c:280-281 [extract_body, chunked]. From [i] on, while [i + 7 < hdr_len]. *)
Fixpoint has_chunked (hdr : bytes) : bool :=
  match hdr with
  | [] => false
  | _ :: hdr' =>
      (7 <? length hdr)%nat && (memeq (to_lower <$> take 7 hdr) (bs "chunked") || has_chunked hdr')
  end.

(** https_client.c:293-306 [extract_body, loop]. [p] is what is left of the response and
    [beyond] the memory behind it; [out] has [w] bytes of the body. The result is [out] and
    [w], or the error. An address and a [long] do not wrap, so [p + sz > end] compares the
    length. *)
Fixpoint dechunk (fuel : nat) (p beyond out : bytes) (w cap : nat) : option (bytes * (bytes + nat)) :=
  match fuel with
  | O => None
  | S f =>
      if (length p =? 0)%nat then Some (out, inr w) else
      match memchr 10 p with
      | None => Some (out, inr w)
      | Some eol =>
          sz ← strtol16_at (p ++ beyond);
          let p := drop (eol + 1) p in
          if sz <=? 0 then Some (out, inr w) else
          if Z.of_nat (length p) <? sz then Some (out, inr w) else
          if Z.of_nat cap <=? Z.of_nat w + sz then Some (out, inl (bs "body too large")) else
          let n := Z.to_nat sz in
          out ← mem_write out w (take n p);
          let p := drop n p in
          let p := if memeq (take 2 p) crlf then drop 2 p else p in
          dechunk f p beyond out (w + n) cap
      end
  end.

(** https_client.c:260-308 [extract_body]. [resp] are the [rlen] bytes received and [beyond]
    the memory behind them; [out] is the caller's buffer, of at least [cap] bytes. The result
    is the returned length, [out], and the error text, empty when none is set. *)
Definition extract_body (resp beyond out : bytes) (cap : nat) : option (Z * bytes * bytes) :=
  if (length resp <? 12)%nat || negb (memeq (take 7 resp) (bs "HTTP/1."))
  then Some (-1, out, bs "bad response") else
  status ← atoi_at (drop 9 resp ++ beyond);
  match memmem (crlf ++ crlf) resp with
  | None => Some (-1, out, bs "no header terminator")
  | Some i =>
      if negb (status =? 200)
      then Some (-1, out, snprintf 64 (bs "http status " ++ fmt_d status)) else
      let hdr_len := (i + 4)%nat in
      let body := drop hdr_len resp in
      if negb (has_chunked (take hdr_len resp)) then
        if (cap <=? length body)%nat then Some (-1, out, bs "body too large") else
        out ← mem_write out 0 (body ++ [0]);
        Some (int_of (Z.of_nat (length body)), out, [])
      else
        '(out, r) ← dechunk (S (length body)) body beyond out 0 cap;
        match r with
        | inl err => Some (-1, out, err)
        | inr w => out ← mem_write out w [0]; Some (int_of (Z.of_nat w), out, [])
        end
  end.

(** ** The exchange *)

(** What the world answers one call of [https_do]: the resolver, the memory allocators, the
    entropy descriptor, and BearSSL's calls. [x_block] is the block [malloc] gives for the
    response, with what is in it; [x_reads] is what [br_sslio_read] gives, one element a call,
    until it fails. *)
Record https_env := HttpsEnv {
  x_addrs : bytes -> bytes -> option (list conn_try);
  x_box : bool; x_rfd : Z; x_reset : bool;
  x_write : bytes -> bool; x_flush : bool;
  x_block : option bytes; x_reads : list bytes; x_error : Z }.

(** What a call leaves: the result, the caller's buffers, the descriptors it used, and the
    plain text it gave to TLS. *)
Record https_result := HttpsResult {
  hr_ret : Z; hr_out : bytes; hr_err : bytes; hr_log : list fd_event; hr_sent : bytes }.

(** https_client.c:369-369 [https_do, response] *)
Definition RESPONSE_BLOCK : Z := 256 * 1024.

(** https_client.c:371-376 [https_do, read loop]. [room] is what is left of the block but for
    its last byte. *)
Fixpoint read_response (reads : list bytes) (room : Z) : bytes :=
  match reads with
  | [] => []
  | d :: reads =>
      if room <=? 0 then [] else
      if (length d =? 0)%nat then [] else
      let d := take (Z.to_nat room) d in
      d ++ read_response reads (room - Z.of_nat (length d))
  end.

(** https_client.c:352-362 [https_do, request]. The text in [req], and [rn]: when the text does
    not fit, what follows is not appended. *)
Definition request_text (method path host : bytes) (body : option (bytes * bytes)) : bytes * Z :=
  let cap := 1400%nat in
  let line := method ++ bs " " ++ path ++ bs " HTTP/1.1" ++ crlf ++ bs "Host: " ++ host ++ crlf ++
    bs "User-Agent: naitron-c" ++ crlf ++ bs "Accept: application/json" ++ crlf ++ bs "Connection: close" ++ crlf in
  let add := fun '(req, rn) text =>
    if (0 <? rn) && (rn <? Z.of_nat cap)
    then (req ++ snprintf (cap - length req) text, rn + Z.of_nat (length text)) else (req, rn) in
  let r := (snprintf cap line, Z.of_nat (length line)) in
  let r := match body with
           | Some (ctype, body) =>
               add r (bs "Content-Type: " ++ ctype ++ crlf ++ bs "Content-Length: " ++
                      fmt_u (Z.of_nat (length body)) ++ crlf)
           | None => r
           end in
  add r crlf.

(** https_client.c:256-258 [set_err]. [errcap] is 0 when there is no buffer. *)
Definition set_err (errcap : nat) (msg : bytes) : bytes := if (errcap =? 0)%nat then [] else snprintf errcap msg.

(** https_client.c:363-396 [https_do, exchange]. The result, [out], the error text, and what was
    sent. *)
Definition https_exchange (x : https_env) (req : bytes * Z) (body : option (bytes * bytes))
    (out : bytes) (cap : nat) : option (Z * bytes * bytes * bytes) :=
  let '(text, rn) := req in
  let fits := (0 <? rn) && (rn <? 1400) in
  let sent1 := if fits then text else [] in
  let ok1 := fits && x_write x text in
  let payload := match body with Some (_, b) => b | None => [] end in
  let sent2 := if ok1 then payload else [] in
  let ok2 := ok1 && match body with Some _ => x_write x (text ++ payload) | None => true end in
  if negb (ok2 && x_flush x) then Some (-1, out, bs "tls handshake/write failed", sent1 ++ sent2) else
  match x_block x with
  | None => Some (-1, out, bs "oom", sent1 ++ sent2)
  | Some block =>
      let resp := read_response (x_reads x) (RESPONSE_BLOCK - 1) in
      if (0 <? length resp)%nat then
        '(r, out, err) ← extract_body resp (drop (length resp) block) out cap;
        Some (r, out, err, sent1 ++ sent2)
      else if negb (x_error x =? 0) then
        Some (-1, out, snprintf 64 (bs "tls error " ++ fmt_d (x_error x)), sent1 ++ sent2)
      else Some (-1, out, bs "empty response", sent1 ++ sent2)
  end.

(** https_client.c:310-401 [https_do]. [anchors] is the number of trust anchors, 0 without a
    [ca]; [url] and the buffer [out] are [None] for NULL; [body] is the type and the bytes of
    the entity. *)
Definition https_do (x : https_env) (anchors : Z) (method : bytes) (url : option bytes)
    (body : option (bytes * bytes)) (out : option bytes) (cap errcap : nat) : option https_result :=
  let fail := fun out msg log => Some (HttpsResult (-1) out (set_err errcap msg) log []) in
  if anchors =? 0 then fail (default [] out) (bs "no trust anchors (fail closed)") [] else
  match url, out with
  | None, _ | _, None => fail (default [] out) (bs "bad args") []
  | Some url, Some out =>
      if (cap =? 0)%nat then fail out (bs "bad args") [] else
      match parse_https_url url 256 16 1024 with
      | None => fail out (bs "bad https url") []
      | Some (host, port, path) =>
          let '(fd, log) := connect_timeout (x_addrs x host port) [] in
          if fd <? 0 then fail out (bs "connect failed") log else
          if negb (x_box x) then fail out (bs "oom") (log ++ [FdClose fd]) else
          let log := if x_rfd x <? 0 then log else log ++ [FdOpen (x_rfd x); FdClose (x_rfd x)] in
          if negb (x_reset x) then fail out (bs "tls reset failed") (log ++ [FdClose fd]) else
          '(r, out, err, sent) ← https_exchange x (request_text method path host body) body out cap;
          Some (HttpsResult r out (set_err errcap err) (log ++ [FdClose fd]) sent)
      end
  end.

(** https_client.c:403-406 [ntc_https_get] *)
Definition ntc_https_get (x : https_env) (anchors : Z) (url out : option bytes) (cap errcap : nat)
    : option https_result := https_do x anchors (bs "GET") url None out cap errcap.

(** https_client.c:408-413 [ntc_https_post]. A NULL type is the form type. *)
Definition ntc_https_post (x : https_env) (anchors : Z) (url content_type body out : option bytes)
    (cap errcap : nat) : option https_result :=
  https_do x anchors (bs "POST") url
    (Some (default (bs "application/x-www-form-urlencoded") content_type, default [] body)) out cap errcap.

(** ** Numbers in a text *)

Lemma hex_value_digit d : 0 <= d < 16 -> hex_value (digit_char d) = Some d.
Proof.
  intros Hd. assert (forallb (fun d => bool_decide (hex_value (digit_char d) = Some d)) (seqZ 0 16) = true) as H
    by (vm_compute; reflexivity).
  rewrite forallb_forall in H. specialize (H d). eapply bool_decide_eq_true_1, H.
  apply list_elem_of_In, elem_of_seqZ. lia.
Qed.

Lemma hex_at_digits fuel z t acc : 0 <= z < 2 ^ (4 * Z.of_nat fuel) ->
  exists k, hex_at (digits_fuel fuel 16 z ++ t) acc = hex_at t (acc * k + z).
Proof.
  revert z t acc. induction fuel as [|f IH]; intros z t acc Hz; cbn [digits_fuel].
  { exists 1. cbn [app]. f_equal. cbn in Hz. lia. }
  pose proof (Z.mod_pos_bound z 16 ltac:(lia)) as Hm. pose proof (Z.div_mod z 16 ltac:(lia)) as Hd.
  destruct (Z.ltb_spec z 16).
  - exists 16. cbn [app hex_at]. rewrite hex_value_digit by lia. by rewrite Z.mod_small by lia.
  - destruct (IH (z / 16) (digit_char (z mod 16) :: t) acc) as [k Hk].
    { split; [apply Z.div_pos; lia|]. apply Z.div_lt_upper_bound; [lia|].
      replace (4 * Z.of_nat (S f)) with (4 + 4 * Z.of_nat f) in Hz by lia.
      rewrite Z.pow_add_r in Hz by lia. lia. }
    exists (k * 16). rewrite <- app_assoc. cbn [app]. rewrite Hk. cbn [hex_at].
    rewrite hex_value_digit by lia. f_equal. lia.
Qed.

Lemma fmt_x_hex n : 0 <= n -> Forall (fun c => is_Some (hex_value c)) (fmt_x n) /\ fmt_x n <> [].
Proof.
  intros Hn. unfold fmt_x, digits.
  set (fuel := Z.to_nat (Z.log2 n)). clearbody fuel.
  assert (forall f z, 0 <= z -> Forall (fun c => is_Some (hex_value c)) (digits_fuel f 16 z)) as H.
  { induction f as [|f IH]; intros z Hz; cbn [digits_fuel]; [constructor|].
    apply list.Forall_app. split.
    - case_match; [constructor|]. apply IH, Z.div_pos; lia.
    - constructor; [|constructor]. rewrite hex_value_digit by (apply Z.mod_pos_bound; lia). by eexists. }
  split; [by apply H|]. cbn [digits_fuel]. by destruct (if n <? 16 then [] else _).
Qed.

Lemma hex_value_range c : is_Some (hex_value c) -> 48 <= c <= 57 \/ 97 <= c <= 102 \/ 65 <= c <= 70.
Proof.
  unfold hex_value. intros [v H].
  destruct ((48 <=? c) && (c <=? 57)) eqn:E1; [apply andb_prop in E1 as [?%Z.leb_le ?%Z.leb_le]; lia|].
  destruct ((97 <=? c) && (c <=? 102)) eqn:E2; [apply andb_prop in E2 as [?%Z.leb_le ?%Z.leb_le]; lia|].
  destruct ((65 <=? c) && (c <=? 70)) eqn:E3; [apply andb_prop in E3 as [?%Z.leb_le ?%Z.leb_le]; lia|done].
Qed.

Lemma is_space_low c : is_space c = true -> 0 < c <= 32.
Proof.
  unfold is_space. intros H. repeat (apply orb_prop in H as [H|H]); apply Z.eqb_eq in H; lia.
Qed.

(** The size line of a chunk. *)
Lemma strtol16_fmt_x n t : 0 <= n < 2 ^ 63 -> strtol16_at (fmt_x n ++ 13 :: t) = Some n.
Proof.
  intros Hn. destruct (fmt_x_hex n ltac:(lia)) as [Hall Hne].
  assert (hex_at (fmt_x n ++ 13 :: t) 0 = Some n) as Hhex.
  { unfold fmt_x, digits. destruct (hex_at_digits (S (Z.to_nat (Z.log2 n))) n (13 :: t) 0) as [k ->]; [|done].
    split; [lia|]. pose proof (Z.log2_nonneg n). destruct (decide (n = 0)) as [->|]; [done|].
    destruct (Z.log2_spec n ltac:(lia)) as [_ Hl]. eapply Z.lt_le_trans; [exact Hl|].
    apply Z.pow_le_mono_r; lia. }
  destruct (fmt_x n) as [|c s]; [done|]. apply list.Forall_cons in Hall as [Hc Hs].
  pose proof (hex_value_range _ Hc) as Rc. unfold strtol16_at. cbn [app skip_white].
  destruct (is_space c) eqn:Es; [apply is_space_low in Es; lia|].
  rewrite (proj2 (Z.eqb_neq c 45)), (proj2 (Z.eqb_neq c 43)) by lia.
  cbn [app] in Hhex. destruct (s ++ 13 :: t) as [|x s'] eqn:E; [by destruct s|].
  assert (x <> 120 /\ x <> 88) as [N1 N2].
  { destruct s as [|y s]; cbn in E; injection E as <- _; [lia|].
    apply list.Forall_cons in Hs as [Hy _]. pose proof (hex_value_range _ Hy). lia. }
  rewrite (proj2 (Z.eqb_neq x 120)), (proj2 (Z.eqb_neq x 88)), andb_false_r by done. cbn [orb andb].
  replace (match s' with [] => _ | _ :: _ => _ end) with (hex_at (c :: x :: s') 0) by by destruct s'.
  rewrite Hhex. bind. f_equal. lia.
Qed.

(** A NUL ends every scan. *)
Lemma hex_at_nul s acc : (0 ∈ s) -> is_Some (hex_at s acc).
Proof.
  revert acc. induction s as [|c s IH]; intros acc H; [by apply not_elem_of_nil in H|]. cbn [hex_at].
  destruct (hex_value c) as [v|] eqn:E; [|by eexists]. apply IH.
  apply elem_of_cons in H as [<-|H]; [discriminate E|done].
Qed.

Lemma skip_white_nul s : (0 ∈ s) -> (0 ∈ skip_white s).
Proof.
  induction s as [|c s IH]; intros H; [done|]. cbn [skip_white]. destruct (is_space c) eqn:E; [|done].
  apply IH. apply elem_of_cons in H as [<-|H]; [discriminate E|done].
Qed.

Lemma strtol16_nul s : (0 ∈ s) -> is_Some (strtol16_at s).
Proof.
  intros H%skip_white_nul. unfold strtol16_at.
  assert (forall s', 0 ∈ s' -> is_Some (match s' with
    | z :: x :: d :: s'' => if (z =? 48) && ((x =? 120) || (x =? 88)) && bool_decide (is_Some (hex_value d))
        then hex_at (d :: s'') 0 else hex_at s' 0
    | _ => hex_at s' 0 end)) as Hn.
  { intros [|z [|x [|d s']]] H'; try by apply hex_at_nul. case_match eqn:E; [|by apply hex_at_nul].
    apply hex_at_nul. apply andb_prop in E as [[Ez Ex]%andb_prop Ed].
    apply Z.eqb_eq in Ez as ->. apply orb_prop in Ex.
    apply elem_of_cons in H' as [|H']; [done|]. apply elem_of_cons in H' as [<-|H']; [|done].
    by destruct Ex. }
  destruct (skip_white s) as [|c s'] eqn:E; [by apply not_elem_of_nil in H|].
  assert ((c =? 45) = true \/ (c =? 43) = true -> (0 ∈ s')) as Hsign.
  { intros Hc. apply elem_of_cons in H as [<-|H]; [by destruct Hc|done]. }
  destruct (c =? 45); [destruct (Hn s') as [v ->]; [auto|by eexists]|].
  destruct (c =? 43); [destruct (Hn s') as [v ->]; [auto|by eexists]|].
  destruct (Hn (c :: s') H) as [v ->]. by eexists.
Qed.

Lemma atoi_nul s : (0 ∈ s) -> is_Some (atoi_at s).
Proof.
  intros H%skip_white_nul. unfold atoi_at, atoi_ends.
  set (go := fix go (s : bytes) : bool :=
    match s with c :: s => if (48 <=? c) && (c <=? 57) then go s else true | [] => false end).
  assert (forall s', (0 ∈ s') -> go s' = true) as Hgo.
  { induction s' as [|c s' IH]; intros H'; [by apply not_elem_of_nil in H'|]. cbn.
    apply elem_of_cons in H' as [<-|H']; [done|]. by destruct ((48 <=? c) && (c <=? 57)); [apply IH|]. }
  destruct (skip_white s) as [|c s'] eqn:E; [by apply not_elem_of_nil in H|].
  destruct ((c =? 45) || (c =? 43)) eqn:Ec.
  - rewrite Hgo; [by eexists|]. apply elem_of_cons in H as [<-|H]; [discriminate Ec|exact H].
  - change (is_Some (if go (c :: s') then Some (atoi s) else None)).
    rewrite Hgo by done. by eexists.
Qed.

(** ** Taking the body out *)

Lemma take_write (out d : bytes) w out' :
  mem_write out w d = Some out' ->
  (w + length d <= length out)%nat /\ length out' = length out /\ take (w + length d) out' = take w out ++ d.
Proof.
  unfold mem_write. case_decide as H; [|done]. intros [= <-]. split; [done|]. split.
  - rewrite !length_app, length_take, length_drop. lia.
  - rewrite app_assoc. apply take_app_length'. rewrite length_app, length_take. lia.
Qed.

(** With memory that ends in a NUL the loop ends, inside the buffer. *)
Lemma dechunk_total fuel p beyond out w cap :
  (0 ∈ beyond) -> (cap <= length out)%nat -> (w < cap)%nat -> (length p < fuel)%nat ->
  exists out' r, dechunk fuel p beyond out w cap = Some (out', r) /\ length out' = length out /\
    match r with inl err => err <> [] | inr w' => (w' < cap)%nat /\ (w' <= w + length p)%nat end.
Proof.
  intros Hb. revert p out w. induction fuel as [|f IH]; intros p out w Hout Hw Hf; [lia|]. cbn [dechunk].
  destruct (Nat.eqb_spec (length p) 0); [exists out, (inr w); split_and!; [done|done|lia|lia]|].
  destruct (memchr 10 p) as [eol|] eqn:Eeol; [|exists out, (inr w); split_and!; [done|done|lia|lia]].
  apply memchr_Some in Eeol as (_ & _ & Heol).
  destruct (strtol16_nul (p ++ beyond)) as [sz ->]; [rewrite elem_of_app; by right|]. bind.
  destruct (Z.leb_spec sz 0); [exists out, (inr w); split_and!; [done|done|lia|lia]|].
  destruct (Z.ltb_spec (Z.of_nat (length (drop (eol + 1) p))) sz) as [|Hsz];
    [exists out, (inr w); split_and!; [done|done|lia|lia]|].
  destruct (Z.leb_spec (Z.of_nat cap) (Z.of_nat w + sz)) as [|Hcap]; [by exists out, (inl (bs "body too large"))|].
  rewrite length_drop in Hsz. set (q := drop (eol + 1) p) in *.
  assert (length (take (Z.to_nat sz) q) = Z.to_nat sz) as Hl
    by (rewrite length_take; unfold q; rewrite length_drop; lia).
  destruct (mem_write out w (take (Z.to_nat sz) q)) as [out1|] eqn:Ew;
    [|unfold mem_write in Ew; rewrite decide_True in Ew by lia; done].
  bind. apply take_write in Ew as (_ & Lo & _).
  set (p' := if memeq _ _ then _ else _).
  assert (length p' + Z.to_nat sz < length p)%nat as Hp'.
  { unfold p'. case_match; rewrite ?length_drop; unfold q; rewrite ?length_drop; lia. }
  destruct (IH p' out1 (w + Z.to_nat sz)%nat) as (out' & r & -> & Lo' & Hr); [lia..|].
  do 2 eexists. split; [done|]. split; [congruence|]. destruct r; [done|]. lia.
Qed.

(** A chunked body, as a server writes it. *)
Fixpoint chunked_text (ds : list bytes) : bytes :=
  match ds with
  | [] => bs "0" ++ crlf ++ crlf
  | d :: ds => fmt_x (Z.of_nat (length d)) ++ crlf ++ d ++ crlf ++ chunked_text ds
  end.

Lemma not_in_fmt_x n : 0 <= n -> 10 ∉ fmt_x n.
Proof.
  intros Hn Hin. destruct (fmt_x_hex n Hn) as [H _]. rewrite list.Forall_forall in H.
  apply H, hex_value_range in Hin. lia.
Qed.

Lemma dechunk_text ds fuel beyond out w cap :
  Forall (fun d => d <> []) ds -> (w + length (concat ds) < cap)%nat -> (cap <= length out)%nat ->
  Z.of_nat cap < 2 ^ 63 -> (length ds < fuel)%nat ->
  exists out', dechunk fuel (chunked_text ds) beyond out w cap =
      Some (out', inr (w + length (concat ds))%nat) /\
    length out' = length out /\ take (w + length (concat ds)) out' = take w out ++ concat ds.
Proof.
  intros Hds. revert fuel out w. induction Hds as [|d ds Hd Hds IH]; intros fuel out w Hw Hout Hcap Hf;
    (destruct fuel as [|fuel]; [simpl in Hf; lia|]); cbn [dechunk chunked_text concat] in *.
  - change (dechunk (S fuel) (chunked_text []) beyond out w cap) with (dechunk (S fuel) [48; 13; 10; 13; 10] beyond out w cap).
    eexists. cbn. rewrite Nat.add_0_r, app_nil_r. by split.
  - set (n := Z.of_nat (length d)) in *. rewrite length_app in Hw.
    assert (0 < n) as Hn by (unfold n; destruct d; [done|cbn; lia]).
    destruct (fmt_x_hex n ltac:(lia)) as [_ Hne].
    rewrite (proj2 (Nat.eqb_neq _ 0)) by (rewrite length_app; destruct (fmt_x n); [done|cbn; lia]).
    replace (fmt_x n ++ crlf ++ d ++ crlf ++ chunked_text ds)
      with ((fmt_x n ++ [13]) ++ 10 :: d ++ crlf ++ chunked_text ds) by by rewrite <- app_assoc.
    rewrite memchr_app by (rewrite not_elem_of_app; split; [apply not_in_fmt_x; lia|apply (bool_decide_unpack _); vm_compute; exact I]).
    rewrite <- !app_assoc. cbn [app]. rewrite strtol16_fmt_x by (unfold n; lia). bind.
    replace (drop (length (fmt_x n ++ [13]) + 1) (fmt_x n ++ 13 :: 10 :: d ++ crlf ++ chunked_text ds))
      with (d ++ crlf ++ chunked_text ds).
    2: { rewrite length_app. cbn [length]. rewrite <- Nat.add_assoc, <- drop_drop, drop_app_length. done. }
    rewrite (proj2 (Z.leb_gt n 0)) by lia. rewrite (proj2 (Z.ltb_ge _ n)) by (rewrite length_app; lia).
    rewrite (proj2 (Z.leb_gt (Z.of_nat cap) _)) by lia.
    unfold n at 1 2 3 4 5. rewrite Nat2Z.id, take_app_length, drop_app_length.
    rewrite (mem_write_Some out w d) by lia. bind.
    assert (memeq (take 2 (crlf ++ chunked_text ds)) crlf = true) as -> by by apply memeq_true.
    change (drop 2 (crlf ++ chunked_text ds)) with (drop 0 (chunked_text ds)). rewrite drop_0.
    edestruct (take_write out d w) as (_ & L1 & T1); [by apply mem_write_Some; lia|].
    set (out1 := take w out ++ d ++ drop (w + length d) out) in *.
    destruct (IH fuel out1 (w + length d)%nat) as (out' & E & L2 & T2); [lia|lia|lia|simpl in Hf; lia|].
    exists out'. rewrite length_app, Nat.add_assoc. split; [done|]. split; [congruence|].
    by rewrite T2, T1, <- app_assoc.
Qed.

Lemma memmem_app_found n s t i : memmem n s = Some i -> memmem n (s ++ t) = Some i.
Proof.
  intros H. pose proof (memmem_split _ _ _ H) as [_ Hl]. apply memmem_Some in H as [(a & b & -> & <-) Hn].
  apply memmem_Some. split; [exists a, (b ++ t); by rewrite <- !app_assoc|].
  intros j Hj E. apply (Hn j Hj). rewrite drop_app_le, take_app_le in E by (rewrite ?length_drop; lia).
  exact E.
Qed.

Lemma int_of_small z : 0 <= z < 2 ^ 31 -> int_of z = z.
Proof. intros Hz. unfold int_of. rewrite u32_id by lia. by rewrite (proj2 (Z.ltb_lt _ _)) by lia. Qed.

(** What [extract_body] promises: a length below the capacity with a terminated body and no error,
    of a response whose status is 200, or -1 and an error. *)
Definition extracted (resp beyond : bytes) (cap : nat) (r : Z) (out err : bytes) : Prop :=
  (r = -1 /\ err <> []) \/
  (0 <= r < Z.of_nat cap /\ r <= Z.of_nat (length resp) /\ err = [] /\ out !! Z.to_nat r = Some 0 /\
   take 7 resp = bs "HTTP/1." /\ atoi_at (drop 9 resp ++ beyond) = Some 200).

Lemma last_written (out : bytes) w out' : mem_write out w [0] = Some out' -> out' !! w = Some 0.
Proof.
  intros H. apply take_write in H as (Hl & Hlen & E). simpl in Hl, E.
  rewrite <- (lookup_take_lt out' (w + 1) w) by lia. rewrite E, lookup_app_r by (rewrite length_take; lia).
  by rewrite length_take, Nat.min_l, Nat.sub_diag by lia.
Qed.

Lemma extract_failed resp beyond cap out err n :
  err <> [] -> length out = n -> exists r out' err', Some (-1, out, err) = Some (r, out', err') /\
    length out' = n /\ extracted resp beyond cap r out' err'.
Proof.
  intros He Hn. do 3 eexists. split; [reflexivity|]. split; [done|]. left. by split.
Qed.

Lemma extract_body_total resp beyond out cap :
  (0 ∈ beyond) -> (0 < cap <= length out)%nat -> Z.of_nat (length resp) < 2 ^ 31 ->
  exists r out' err, extract_body resp beyond out cap = Some (r, out', err) /\ length out' = length out /\
    extracted resp beyond cap r out' err.
Proof.
  intros Hb Hcap Hlen. unfold extract_body.
  destruct ((length resp <? 12)%nat || negb (memeq (take 7 resp) (bs "HTTP/1."))) eqn:Eh;
    [by apply extract_failed|].
  apply orb_false_elim in Eh as [_ Hpre]. apply negb_false_iff, memeq_true in Hpre.
  destruct (atoi_nul (drop 9 resp ++ beyond)) as [status Hst]; [rewrite elem_of_app; by right|].
  rewrite Hst. bind.
  destruct (memmem (crlf ++ crlf) resp) as [i|] eqn:Ei; [|by apply extract_failed].
  destruct (Z.eqb_spec status 200) as [->|]; cbn [negb]; [|by apply extract_failed].
  set (body := drop (i + 4) resp).
  assert (length body <= length resp)%nat by (unfold body; rewrite length_drop; lia).
  assert (forall out w, (w < cap)%nat -> (w <= length resp)%nat -> (cap <= length out)%nat ->
    forall out', mem_write out w [0] = Some out' ->
    extracted resp beyond cap (int_of (Z.of_nat w)) out' []) as Hok.
  { intros o w Hw Hwr Ho o' Ew. rewrite int_of_small by lia. right. rewrite Nat2Z.id.
    split_and!; try done; try lia. by eapply last_written. }
  destruct (has_chunked (take (i + 4) resp)); cbn [negb].
  - destruct (dechunk_total (S (length body)) body beyond out 0 cap) as (out1 & r & -> & Lo & Hr); [done|lia..|].
    bind. destruct r as [err|w]; [by apply extract_failed|]. destruct Hr as [Hw Hwl].
    destruct (mem_write out1 w [0]) as [out2|] eqn:Ew; [|unfold mem_write in Ew; rewrite decide_True in Ew by (cbn; lia); done].
    bind. do 3 eexists. split; [reflexivity|]. pose proof (take_write _ _ _ _ Ew) as (_ & L2 & _).
    split; [congruence|]. eapply Hok; [| | |exact Ew]; lia.
  - destruct (Nat.leb_spec cap (length body)); [by apply extract_failed|].
    destruct (mem_write out 0 (body ++ [0])) as [out2|] eqn:Ew;
      [|unfold mem_write in Ew; rewrite decide_True in Ew by (rewrite length_app; cbn; lia); done].
    bind. do 3 eexists. split; [reflexivity|]. pose proof (take_write _ _ _ _ Ew) as (_ & L2 & T2).
    split; [congruence|]. rewrite int_of_small by lia. right. rewrite Nat2Z.id.
    split_and!; try done; try lia. rewrite length_app in T2. cbn [length Nat.add] in T2.
    rewrite <- (lookup_take_lt out2 (length body + 1) (length body)) by lia.
    rewrite T2, take_0. cbn [app]. by rewrite lookup_app_r, Nat.sub_diag by lia.
Qed.

(** A response with status 200, as a server writes it. *)
Definition response_text (rest body : bytes) : bytes :=
  bs "HTTP/1.1 200 " ++ rest ++ crlf ++ crlf ++ body.

(** The head: no empty line before its end. *)
Definition head_ok (rest : bytes) : Prop :=
  memmem (crlf ++ crlf) (bs "HTTP/1.1 200 " ++ rest ++ crlf ++ crlf) = Some (length (bs "HTTP/1.1 200 " ++ rest)).

Lemma extract_body_head rest body beyond out cap :
  head_ok rest ->
  extract_body (response_text rest body) beyond out cap =
  if negb (has_chunked (bs "HTTP/1.1 200 " ++ rest ++ crlf ++ crlf)) then
    if (cap <=? length body)%nat then Some (-1, out, bs "body too large") else
    out ← mem_write out 0 (body ++ [0]); Some (int_of (Z.of_nat (length body)), out, [])
  else
    '(out, r) ← dechunk (S (length body)) body beyond out 0 cap;
    match r with
    | inl err => Some (-1, out, err)
    | inr w => out ← mem_write out w [0]; Some (int_of (Z.of_nat w), out, [])
    end.
Proof.
  intros Hh. unfold extract_body.
  assert (response_text rest body = (bs "HTTP/1.1 200 " ++ rest ++ crlf ++ crlf) ++ body) as Er
    by (unfold response_text; by rewrite <- !app_assoc).
  assert (memmem (crlf ++ crlf) (response_text rest body) = Some (length (bs "HTTP/1.1 200 " ++ rest))) as Hm
    by (rewrite Er; by apply memmem_app_found).
  change ((length (response_text rest body) <? 12)%nat || negb (memeq (take 7 (response_text rest body)) (bs "HTTP/1."))) with false.
  change (atoi_at (drop 9 (response_text rest body) ++ beyond)) with (Some 200). bind. rewrite Hm.
  change (negb (200 =? 200)) with false. cbn match.
  assert (length (bs "HTTP/1.1 200 " ++ rest) + 4 = length (bs "HTTP/1.1 200 " ++ rest ++ crlf ++ crlf))%nat as ->
    by (rewrite !length_app; cbn; lia).
  by rewrite Er, take_app_length, drop_app_length.
Qed.

Lemma length_chunked_text ds : (length ds <= length (chunked_text ds))%nat.
Proof.
  induction ds as [|d ds IH]; [cbn; lia|]. cbn [chunked_text]. rewrite !length_app. cbn [length crlf]. lia.
Qed.

(** ** The whole exchange *)

(** Every descriptor that is opened is closed, once, after it was opened. *)
Inductive balanced : list fd_event -> Prop :=
  | balanced_nil : balanced []
  | balanced_pair fd l1 l2 :
      balanced l1 -> balanced l2 -> balanced (FdOpen fd :: l1 ++ FdClose fd :: l2).

Lemma balanced_app l1 l2 : balanced l1 -> balanced l2 -> balanced (l1 ++ l2).
Proof.
  induction 1 as [|fd k1 k2 H1 _ H2 IH]; intros Hl; [done|].
  cbn [app]. rewrite <- app_assoc. cbn [app]. constructor; auto.
Qed.

Lemma balanced_one fd l : balanced l -> balanced (FdOpen fd :: l ++ [FdClose fd]).
Proof. intros. constructor; [done|constructor]. Qed.

Lemma connect_loop_balanced ais log fd log' :
  balanced log -> connect_loop ais log = (fd, log') ->
  if fd <? 0 then balanced log' else exists l, balanced l /\ log' = l ++ [FdOpen fd].
Proof.
  revert log. induction ais as [|ai ais IH]; intros log Hl H; cbn [connect_loop] in H.
  { by simplify_eq. }
  destruct (Z.ltb_spec (ct_socket ai) 0); [by eapply IH|].
  assert (forall l, (ct_socket ai, log ++ [FdOpen (ct_socket ai)]) = (fd, l) ->
    if fd <? 0 then balanced l else exists l0, balanced l0 /\ l = l0 ++ [FdOpen fd]) as Hdone.
  { intros l [= <- <-]. rewrite (proj2 (Z.ltb_ge _ 0)) by done. by exists log. }
  destruct (ct_now ai); [by apply Hdone|].
  destruct (ct_in_progress ai && ct_ready ai && (ct_so_error ai =? 0)); [by apply Hdone|].
  eapply IH; [|exact H]. rewrite <- app_assoc. apply balanced_app; [done|].
  apply (balanced_one (ct_socket ai) []). constructor.
Qed.

Lemma length_read_response reads room : 0 <= room -> Z.of_nat (length (read_response reads room)) <= room.
Proof.
  revert room. induction reads as [|d reads IH]; intros room Hr; cbn [read_response]; [cbn; lia|].
  case_match; [cbn; lia|]. case_match; [cbn; lia|]. rewrite length_app.
  specialize (IH (room - Z.of_nat (length (take (Z.to_nat room) d)))). rewrite length_take in *. lia.
Qed.

(** What the client relies on of [malloc]: the block is of the size asked for, and its last
    byte, which no read reaches, is 0. *)
Definition block_zeroed (x : https_env) : Prop :=
  forall block, x_block x = Some block ->
    Z.of_nat (length block) = RESPONSE_BLOCK /\ block !! Z.to_nat (RESPONSE_BLOCK - 1) = Some 0.

(** What a call promises to the code that waits for a document. *)
Record https_answer (x : https_env) (anchors : Z) (method : bytes) (url : option bytes)
    (body : option (bytes * bytes)) (cap : nat) (r : https_result) : Prop := HttpsAnswer {
  ha_balanced : balanced (hr_log r);
  ha_closed : anchors = 0 -> hr_log r = [] /\ hr_sent r = [] /\ hr_ret r = -1;
  ha_ret : (hr_ret r = -1 /\ hr_err r <> []) \/
    (0 <= hr_ret r < Z.of_nat cap /\ hr_err r = [] /\ hr_out r !! Z.to_nat (hr_ret r) = Some 0 /\
     exists u host port path, url = Some u /\ parse_https_url u 256 16 1024 = Some (host, port, path) /\
       hr_sent r = fst (request_text method path host body) ++ default [] (snd <$> body) /\
       let resp := read_response (x_reads x) (RESPONSE_BLOCK - 1) in
       take 7 resp = bs "HTTP/1." /\
       exists block, x_block x = Some block /\ atoi_at (drop 9 resp ++ drop (length resp) block) = Some 200) }.

Lemma https_exchange_total x req body out cap :
  block_zeroed x -> (0 < cap <= length out)%nat ->
  exists r out' err sent, https_exchange x req body out cap = Some (r, out', err, sent) /\
    ((r = -1 /\ err <> []) \/
     (0 <= r < Z.of_nat cap /\ err = [] /\ out' !! Z.to_nat r = Some 0 /\
      sent = fst req ++ default [] (snd <$> body) /\
      let resp := read_response (x_reads x) (RESPONSE_BLOCK - 1) in
      take 7 resp = bs "HTTP/1." /\
      exists block, x_block x = Some block /\ atoi_at (drop 9 resp ++ drop (length resp) block) = Some 200)).
Proof.
  intros Hblock Hcap. unfold https_exchange. destruct req as [text rn].
  set (fits := (0 <? rn) && (rn <? 1400)). set (ok1 := fits && x_write x text).
  set (payload := match body with Some (_, b) => b | None => [] end).
  set (ok2 := ok1 && match body with Some _ => x_write x (text ++ payload) | None => true end).
  destruct (ok2 && x_flush x) eqn:Eok; cbn [negb]; [|by do 4 eexists; split; [done|left]].
  apply andb_prop in Eok as [E2 _]. apply andb_prop in E2 as [E1 _]. unfold ok1.
  apply andb_prop in E1 as E1'. destruct E1' as [-> ->]. cbn [andb].
  destruct (x_block x) as [block|] eqn:Eb; [|by do 4 eexists; split; [done|left]].
  destruct (Hblock block Eb) as [Hlen Hlast]. set (resp := read_response _ _).
  pose proof (length_read_response (x_reads x) (RESPONSE_BLOCK - 1) ltac:(unfold RESPONSE_BLOCK; lia)) as Hresp.
  fold resp in Hresp. destruct (Nat.ltb_spec 0 (length resp)).
  - destruct (extract_body_total resp (drop (length resp) block) out cap) as (r & out' & err & -> & _ & Hx);
      [|done|unfold RESPONSE_BLOCK in *; lia|].
    { apply (list_elem_of_lookup_2 _ (Z.to_nat (RESPONSE_BLOCK - 1) - length resp)). rewrite lookup_drop.
      rewrite <- Hlast. f_equal. lia. }
    bind. do 4 eexists. split; [done|]. destruct Hx as [Hx|(H1 & _ & H3 & H4 & H5 & H6)]; [by left|].
    right. split; [exact H1|]. split_and!; [done|done| |done|by exists block].
    unfold payload. by destruct body as [[? ?]|].
  - case_match; by do 4 eexists; split; [done|left].
Qed.

(** C13. A body is taken out whole: of a response with status 200, plain or in chunks, the caller
    gets exactly the bytes the server sent, terminated, whatever lies in the memory behind it. *)
Theorem extract_body_roundtrip rest ds beyond out cap :
  head_ok rest -> Forall (fun d => d <> []) ds ->
  (length (concat ds) < cap <= length out)%nat -> Z.of_nat cap < 2 ^ 31 ->
  let chunked := has_chunked (bs "HTTP/1.1 200 " ++ rest ++ crlf ++ crlf) in
  let body := if chunked then chunked_text ds else concat ds in
  exists out', extract_body (response_text rest body) beyond out cap =
      Some (Z.of_nat (length (concat ds)), out', []) /\
    length out' = length out /\ take (length (concat ds) + 1) out' = concat ds ++ [0].
Proof.
  intros Hh Hds Hl Hcap chunked body. unfold body. rewrite extract_body_head by done. fold chunked.
  destruct chunked; cbn [negb].
  - destruct (dechunk_text ds (S (length (chunked_text ds))) beyond out 0 cap Hds) as (out1 & -> & L1 & T1);
      [pose proof (length_chunked_text ds); lia..|].
    bind. cbn [Nat.add] in *. destruct (mem_write out1 (length (concat ds)) [0]) as [out2|] eqn:Ew;
      [|unfold mem_write in Ew; rewrite decide_True in Ew by (cbn; lia); done].
    bind. apply take_write in Ew as (_ & L2 & T2). rewrite int_of_small by lia.
    eexists. split; [reflexivity|]. split; [congruence|]. cbn [length] in T2. by rewrite T2, T1, take_0.
  - rewrite (proj2 (Nat.leb_gt _ _)) by lia.
    destruct (mem_write out 0 (concat ds ++ [0])) as [out2|] eqn:Ew;
      [|unfold mem_write in Ew; rewrite decide_True in Ew by (rewrite length_app; cbn; lia); done].
    bind. apply take_write in Ew as (_ & L2 & T2). rewrite int_of_small by lia.
    eexists. split; [reflexivity|]. split; [congruence|]. rewrite length_app in T2. exact T2.
Qed.

Lemma extract_body_roundtrip_witness :
  let rest := bs "OK" ++ crlf ++ bs "Transfer-Encoding: Chunked" in
  let ds := [bs "Wiki"; bs "pedia in"; bs "0123456789abcdef0"] in
  has_chunked (bs "HTTP/1.1 200 " ++ rest ++ crlf ++ crlf) = true /\
  exists out', extract_body (response_text rest (chunked_text ds)) [] (replicate 64 7) 64 =
      Some (Z.of_nat (length (concat ds)), out', []) /\
    length out' = length (replicate 64 7) /\ take (length (concat ds) + 1) out' = concat ds ++ [0].
Proof.
  intros rest ds. split; [vm_compute; reflexivity|].
  apply (extract_body_roundtrip rest ds [] (replicate 64 7) 64).
  - vm_compute. reflexivity.
  - repeat constructor; discriminate.
  - cbn. lia.
  - vm_compute. reflexivity.
Defined.


(** The memory of a fresh mapping. *)
Definition zero_memory : bytes := replicate (Z.to_nat RESPONSE_BLOCK) 0.

(** A server that answers over the second address, in two pieces. *)
Definition sample_env : https_env :=
  HttpsEnv (fun _ _ => Some [ConnTry 5 false false false 0; ConnTry 5 false true true 0])
    true 6 true (fun _ => true) true (Some zero_memory)
    [bs "HTTP/1.1 200 OK" ++ crlf ++ crlf; bs "{}"] 0.

Lemma zero_block n k : 0 <= k < n ->
  Z.of_nat (length (replicate (Z.to_nat n) (0 : Z))) = n /\ replicate (Z.to_nat n) (0 : Z) !! Z.to_nat k = Some 0.
Proof.
  intros Hk. rewrite length_replicate. split; [lia|]. apply lookup_replicate_2. lia.
Qed.

Lemma sample_block_zeroed : block_zeroed sample_env.
Proof.
  intros block H. change (Some zero_memory = Some block) in H. injection H as <-.
  apply (zero_block RESPONSE_BLOCK (RESPONSE_BLOCK - 1)). unfold RESPONSE_BLOCK. lia.
Qed.


Example sample_fetch :
  (fun r => (hr_ret r, take 3 (hr_out r), hr_err r, hr_log r)) <$>
    ntc_https_get sample_env 1 (Some (bs "https://idp.example/jwks")) (Some (replicate 16 0)) 16 64 =
  Some (2, bs "{}" ++ [0], [],
    [FdOpen 5; FdClose 5; FdOpen 5; FdOpen 6; FdClose 6; FdClose 5]).
Proof. vm_compute. reflexivity. Qed.

(** A response that stops in the middle of its chunks is handed on as if it were whole. *)
Example truncated_chunks_accepted :
  exists out', extract_body
      (response_text (bs "OK" ++ crlf ++ bs "Transfer-Encoding: chunked")
         (bs "4" ++ crlf ++ bs "Wiki" ++ crlf ++ bs "5" ++ crlf ++ bs "ped")) [0] (replicate 64 0) 64 =
    Some (4, out', []) /\ take 5 out' = bs "Wiki" ++ [0].
Proof. eexists. vm_compute. split; reflexivity. Qed.

(** The response is not terminated, and the scans go by its digits: a status that ends the
    response is read on in the memory behind it. *)
Example unterminated_status_runs_on :
  extract_body (bs "HTTP/1.1 200") [] (replicate 64 0) 64 = None.
Proof. vm_compute. reflexivity. Qed.
