(* ===== verification/Pem.v ===== *)
(** * PEM files, and what is loaded from them (src/core/tls.c, src/core/https_client.c)

    A certificate chain with its key for the gateway's own TLS, and a set of trust anchors for
    the HTTPS client.  The PEM and X.509 decoders are BearSSL's: an interface, with what the
    loops that drive them rely on as its laws. *)
From S2P Require Import Prelude Slice.
Open Scope Z_scope.

(** ** BearSSL's decoders *)

Inductive pem_ev := PemNone | PemBegin | PemEnd | PemError.

(** A PEM decoder: [br_pem_decoder_push] gives how many bytes it took and the pieces of decoded
    data it handed out; [br_pem_decoder_event] gives the event that stopped it, and clears it. *)
Class PemDecoder (P : Type) := {
  pem_init : P;
  pem_push : P -> bytes -> nat * P * list bytes;
  pem_event : P -> pem_ev * P;
  pem_name : P -> bytes }.

(** It takes no more than it is given; when it takes nothing it does not report an object; and
    it holds back less than a kilobyte. *)
Class PemLaws (P : Type) {PD : PemDecoder P} : Prop := {
  pem_push_bound p s n p' o : pem_push p s = (n, p', o) -> (n <= length s)%nat;
  pem_progress p s p' o : pem_push p s = (0%nat, p', o) ->
    fst (pem_event p') <> PemBegin /\ fst (pem_event p') <> PemEnd;
  pem_held p s n p' o : pem_push p s = (n, p', o) -> (length (concat o) <= n + 1024)%nat }.

(** The key types of a certificate. *)
Inductive pkey := KeyRSA (n e : bytes) | KeyEC (curve : Z) (q : bytes) | KeyOther (type : Z).

(** What the X.509 decoder says of a certificate: its key, its last error, the pieces of the
    subject's name, and whether it is a CA. *)
Record x509_answer := X509Answer { x5_pkey : option pkey; x5_error : Z; x5_dn : list bytes; x5_ca : bool }.

(** What the private-key decoder says of what was pushed into it. *)
Record skey_answer := SkeyAnswer { sk_error : Z; sk_rsa_type : bool; sk_rsa : option bytes }.

(** ** A buffer that grows *)

(** https_client.c:27-27 [growbuf]; [derbuf] of tls.c is the same. *)
Record growbuf := Growbuf { gb_data : bytes; gb_cap : Z; gb_oom : bool }.

(** https_client.c:34-34 [gb_append, doubling]. A [size_t] that wraps never gets there. *)
Fixpoint gb_grow (fuel : nat) (nc need : Z) : option Z :=
  match fuel with
  | O => None
  | S f => if nc <? need then gb_grow f (u64 (nc * 2)) need else Some nc
  end.

(** The append of both files, which differ in the first capacity. *)
Definition buf_append (first : Z) (realloc : Z -> bool) (g : growbuf) (src : bytes) : option growbuf :=
  if gb_oom g then Some g else
  let need := Z.of_nat (length (gb_data g)) + Z.of_nat (length src) in
  if gb_cap g <? need then
    nc ← gb_grow 64 (if gb_cap g =? 0 then first else gb_cap g) need;
    if realloc nc then Some (Growbuf (gb_data g ++ src) nc false)
    else Some (Growbuf (gb_data g) (gb_cap g) true)
  else Some (Growbuf (gb_data g ++ src) (gb_cap g) false).

(** https_client.c:29-41 [gb_append] *)
Definition gb_append := buf_append 256.
(** tls.c:40-52 [der_append] *)
Definition der_append := buf_append 1024.

Fixpoint append_all (append : growbuf -> bytes -> option growbuf) (g : growbuf) (ps : list bytes)
    : option growbuf :=
  match ps with [] => Some g | p :: ps => g ← append g p; append_all append g ps end.

Definition no_buf : growbuf := Growbuf [] 0 false.
Definition clear_buf (g : growbuf) : growbuf := Growbuf [] (gb_cap g) false.

(** ** Files *)

(** tls.c:54-71 [read_text_file]; the one of https_client.c, lines 43-59, has a limit of 4 MiB.
    [file] is what is read of the file, [None] when a call fails. *)
Definition read_text_file (limit : Z) (file : option bytes) : option bytes :=
  f ← file;
  if limit <? Z.of_nat (length f) then None else
  Some (if (length f =? 0)%nat || negb (bool_decide (f !! (length f - 1)%nat = Some 10)) then f ++ [10] else f).

(** [strstr(name, ...) != NULL] *)
Definition strstr (s sub : bytes) : bool := bool_decide (is_Some (memmem sub s)).

(** [alloc] says which sizes [malloc] and [realloc] give. *)
Section loops.
Context {P : Type} {PD : PemDecoder P} (alloc : Z -> bool) (anchor_size : Z).

(** tls.c:84-105 [pem_each, loop]. [on_obj] folds over the objects; [dest] is set from the
    first object on. *)
Fixpoint pem_each_loop {S} (on_obj : S -> bytes -> bytes -> S) (fuel : nat) (pc : P) (pem : bytes)
    (d : growbuf) (name : bytes) (dest in_obj : bool) (u : S) : option (bool * S) :=
  match fuel with
  | O => None
  | Datatypes.S f =>
      if (length pem =? 0)%nat then Some (true, u) else
      let '(pushed, pc, pieces) := pem_push pc pem in
      d ← append_all (der_append alloc) d (if dest then pieces else []);
      let pem := drop pushed pem in
      let '(ev, pc) := pem_event pc in
      match ev with
      | PemBegin => pem_each_loop on_obj f pc pem (clear_buf d) (snprintf 80 (pem_name pc)) true true u
      | PemEnd =>
          if in_obj then
            if gb_oom d then Some (false, u)
            else pem_each_loop on_obj f pc pem d name dest false (on_obj u name (gb_data d))
          else pem_each_loop on_obj f pc pem d name dest false u
      | PemError => Some (false, u)
      | PemNone => if (pushed =? 0)%nat then Some (true, u) else pem_each_loop on_obj f pc pem d name dest in_obj u
      end
  end.

(** tls.c:73-108 [pem_each] *)
Definition pem_each {S} (on_obj : S -> bytes -> bytes -> S) (pem : bytes) (u : S) : option (bool * S) :=
  pem_each_loop on_obj (Datatypes.S (length pem)) pem_init pem no_buf [] false false u.

(** ** The gateway's certificate and key *)

(** tls.c:19-19 [NTC_TLS_MAX_CERTS] *)
Definition NTC_TLS_MAX_CERTS : nat := 8.

(** tls.c:21-27 [ntc_tls_conf]. [cf_skey] is what was pushed into the key decoder. *)
Record ntc_tls_conf := TlsConf { cf_chain : list bytes; cf_skey : list bytes; cf_have_key : bool }.

(** tls.c:110-127 [collect_obj] *)
Definition collect_obj (c : ntc_tls_conf) (name der : bytes) : ntc_tls_conf :=
  if strstr name (bs "CERTIFICATE") then
    if (NTC_TLS_MAX_CERTS <=? length (cf_chain c))%nat then c else
    if negb (alloc (if (length der =? 0)%nat then 1 else Z.of_nat (length der))) then c else
    TlsConf (cf_chain c ++ [der]) (cf_skey c) (cf_have_key c)
  else if strstr name (bs "PRIVATE KEY") && negb (cf_have_key c) then
    TlsConf (cf_chain c) (cf_skey c ++ [der]) true
  else c.

(** tls.c:129-161 [ntc_tls_conf_new]. [skey] is the key decoder; the result is the
    configuration with its RSA key. *)
Definition ntc_tls_conf_new (skey : list bytes -> skey_answer) (cert_file key_file : option bytes)
    : option (option (ntc_tls_conf * bytes)) :=
  let c := TlsConf [] [] false in
  match read_text_file (2 ^ 20) cert_file, read_text_file (2 ^ 20) key_file with
  | Some cert, Some key =>
      '(ok, c) ← pem_each collect_obj cert c;
      if negb ok then Some None else
      '(ok, c) ← pem_each collect_obj key c;
      if negb ok then Some None else
      if (length (cf_chain c) =? 0)%nat then Some None else
      if negb (cf_have_key c) then Some None else
      let k := skey (cf_skey c) in
      if negb (sk_error k =? 0) then Some None else
      if negb (sk_rsa_type k) then Some None else
      Some (match sk_rsa k with Some rsa => Some (c, rsa) | None => None end)
  | _, _ => Some None
  end.

(** ** Trust anchors

    [anchor_size] is the size of one in memory. *)

Record trust_anchor := Anchor { ta_dn : bytes; ta_ca : bool; ta_key : pkey }.

(** https_client.c:21-25 [ntc_ca] *)
Record ntc_ca := Ca { ca_ta : list trust_anchor; ca_cap : Z }.

(** https_client.c:62-109 [ca_add_cert]. The anchor array is grown before the key is copied. *)
Definition ca_add_cert (x509 : bytes -> x509_answer) (ca : ntc_ca) (der : bytes) : option (bool * ntc_ca) :=
  let a := x509 der in
  dn ← append_all (gb_append alloc) no_buf (x5_dn a);
  match x5_pkey a with
  | None => Some (false, ca)
  | Some key =>
      if negb (x5_error a =? 0) || gb_oom dn || (length (gb_data dn) =? 0)%nat then Some (false, ca) else
      let num := Z.of_nat (length (ca_ta ca)) in
      let grown :=
        if ca_cap ca <=? num then
          let nc := if ca_cap ca =? 0 then 8 else ca_cap ca * 2 in
          if alloc (nc * anchor_size) then Some (Ca (ca_ta ca) nc) else None
        else Some ca in
      match grown with
      | None => Some (false, ca)
      | Some ca =>
          let size := fun s : bytes => if (length s =? 0)%nat then 1 else Z.of_nat (length s) in
          let ok := match key with
                    | KeyRSA n e => alloc (size n) && alloc (size e)
                    | KeyEC _ q => alloc (size q)
                    | KeyOther _ => false
                    end in
          if ok then Some (true, Ca (ca_ta ca ++ [Anchor (gb_data dn) (x5_ca a) key]) (ca_cap ca))
          else Some (false, ca)
      end
  end.

(** https_client.c:118-135 [ca_load_pem_buf, loop] *)
Fixpoint ca_load_loop (x509 : bytes -> x509_answer) (fuel : nat) (pc : P) (pem : bytes) (der : growbuf)
    (in_cert dest : bool) (ca : ntc_ca) : option (bool * ntc_ca) :=
  match fuel with
  | O => None
  | Datatypes.S f =>
      if (length pem =? 0)%nat then Some (true, ca) else
      let '(pushed, pc, pieces) := pem_push pc pem in
      der ← append_all (gb_append alloc) der (if dest then pieces else []);
      let pem := drop pushed pem in
      let '(ev, pc) := pem_event pc in
      match ev with
      | PemBegin =>
          let in_cert := strstr (pem_name pc) (bs "CERTIFICATE") in
          ca_load_loop x509 f pc pem (clear_buf der) in_cert in_cert ca
      | PemEnd =>
          if in_cert && negb (gb_oom der) && negb (length (gb_data der) =? 0)%nat then
            '(_, ca) ← ca_add_cert x509 ca (gb_data der); ca_load_loop x509 f pc pem der false dest ca
          else ca_load_loop x509 f pc pem der false dest ca
      | PemError => Some (false, ca)
      | PemNone => if (pushed =? 0)%nat then Some (true, ca) else ca_load_loop x509 f pc pem der in_cert dest ca
      end
  end.

(** https_client.c:111-138 [ca_load_pem_buf] *)
Definition ca_load_pem_buf (x509 : bytes -> x509_answer) (ca : ntc_ca) (pem : bytes) : option (bool * ntc_ca) :=
  ca_load_loop x509 (Datatypes.S (length pem)) pem_init pem no_buf false false ca.

(** https_client.c:140-155 [ntc_ca_load_pem]. [file] gives the contents of a path, and [got]
    says whether [calloc] gave the set. *)
Definition ntc_ca_load_pem (x509 : bytes -> x509_answer) (file : bytes -> option bytes) (got : bool)
    (path : option bytes) : option (option ntc_ca) :=
  match path with
  | None | Some [] => Some None
  | Some path =>
      match read_text_file (2 ^ 22) (file path) with
      | None => Some None
      | Some pem =>
          if negb got then Some None else
          '(ok, ca) ← ca_load_pem_buf x509 (Ca [] 0) pem;
          Some (if negb ok || (length (ca_ta ca) =? 0)%nat then None else Some ca)
      end
  end.

(** https_client.c:157-161 [ntc_ca_default]. [env] is NTC_CA_BUNDLE. *)
Definition ntc_ca_default (x509 : bytes -> x509_answer) (file : bytes -> option bytes) (got : bool)
    (env : option bytes) : option (option ntc_ca) :=
  match env with
  | Some (c :: p) => ntc_ca_load_pem x509 file got (Some (c :: p))
  | _ => ntc_ca_load_pem x509 file got (Some (bs "third_party/ca/roots.pem"))
  end.
End loops.

(** ** Growing *)

Lemma gb_grow_total fuel nc need :
  0 < nc < 2 ^ 63 -> need <= 2 ^ 62 -> need <= nc * 2 ^ Z.of_nat fuel ->
  exists c, gb_grow (S fuel) nc need = Some c /\ need <= c /\ 0 < c < 2 ^ 63.
Proof.
  revert nc. induction fuel as [|f IH]; intros nc Hnc Hneed Hf.
  - cbn [gb_grow]. change (2 ^ Z.of_nat 0) with 1 in Hf. rewrite (proj2 (Z.ltb_ge nc need)) by lia. exists nc. split; [done|lia].
  - change (gb_grow (S (S f)) nc need) with (if nc <? need then gb_grow (S f) (u64 (nc * 2)) need else Some nc).
    destruct (Z.ltb_spec nc need); [|exists nc; split; [done|lia]]. unfold u64. rewrite (Z.mod_small (nc * 2)) by lia. apply IH; [lia|done|].
    rewrite Nat2Z.inj_succ, Z.pow_succ_r in Hf by lia. lia.
Qed.

(** A buffer with at most [n] bytes. *)
Definition buf_ok (n : Z) (g : growbuf) : Prop :=
  0 <= gb_cap g < 2 ^ 63 /\ Z.of_nat (length (gb_data g)) <= n.

Lemma buf_append_ok first alloc g src n :
  0 < first < 2 ^ 63 -> buf_ok n g -> n + Z.of_nat (length src) <= 2 ^ 62 ->
  exists g', buf_append first alloc g src = Some g' /\ buf_ok (n + Z.of_nat (length src)) g' /\
    (gb_oom g' = false -> gb_data g' = gb_data g ++ src /\ gb_oom g = false).
Proof.
  intros Hf [Hc Hl] Hn. unfold buf_append. destruct (gb_oom g) eqn:Eo.
  { exists g. split; [done|]. split; [split; lia|]. by rewrite Eo. }
  assert (forall cap, 0 <= cap < 2 ^ 63 -> buf_ok (n + Z.of_nat (length src)) (Growbuf (gb_data g ++ src) cap false)) as Hok
    by (intros; split; cbn; [done|rewrite length_app; lia]).
  case_match.
  - destruct (gb_grow_total 63 (if gb_cap g =? 0 then first else gb_cap g)
      (Z.of_nat (length (gb_data g)) + Z.of_nat (length src))) as (c & E & _ & Hc');
      [destruct (Z.eqb_spec (gb_cap g) 0); lia|lia| |].
    { change (2 ^ Z.of_nat 63) with (2 ^ 63). destruct (Z.eqb_spec (gb_cap g) 0); lia. }
    rewrite E. bind. destruct (alloc c).
    + eexists. split; [done|]. split; [apply Hok; lia|done].
    + eexists. split; [done|]. split; [split; cbn; lia|done].
  - eexists. split; [done|]. split; [by apply Hok|done].
Qed.

Lemma append_all_ok first alloc g ps n :
  0 < first < 2 ^ 63 -> buf_ok n g -> n + Z.of_nat (length (concat ps)) <= 2 ^ 62 ->
  exists g', append_all (buf_append first alloc) g ps = Some g' /\
    buf_ok (n + Z.of_nat (length (concat ps))) g' /\
    (gb_oom g' = false -> gb_data g' = gb_data g ++ concat ps /\ gb_oom g = false).
Proof.
  intros Hf. revert g n. induction ps as [|p ps IH]; intros g n Hg Hn; cbn [append_all concat] in *.
  - exists g. rewrite app_nil_r, Z.add_0_r. done.
  - rewrite length_app in *. destruct (buf_append_ok first alloc g p n Hf Hg) as (g1 & E & H1 & D1); [lia|].
    rewrite E. bind. destruct (IH g1 _ H1) as (g2 & -> & H2 & D2); [lia|].
    exists g2. split; [done|]. split; [destruct H2; split; [done|lia]|].
    intros Ho. destruct (D2 Ho) as [-> Ho1]. destruct (D1 Ho1) as [-> Ho0]. by rewrite <- app_assoc.
Qed.

Lemma buf_ok_clear n g : 0 <= n -> buf_ok n g -> buf_ok n (clear_buf g).
Proof. intros ? []. by split. Qed.

Lemma read_text_file_bound limit file s : read_text_file limit file = Some s -> Z.of_nat (length s) <= limit + 1.
Proof.
  unfold read_text_file. intros H. binv H as f Hf. destruct (Z.ltb_spec limit (Z.of_nat (length f))); [done|].
  injection H as <-. case_match; rewrite ?length_app; cbn [length]; lia.
Qed.

(** ** The loops end, and fold over objects only *)

Section laws.
Context {P : Type} {PD : PemDecoder P} {PL : PemLaws P} (alloc : Z -> bool) (anchor_size : Z).

(** One push: what is left is shorter, or no object event follows. *)
Lemma push_step (pc : P) pem pushed pc' pieces (dest : bool) n first d :
  pem_push pc pem = (pushed, pc', pieces) -> 0 < first < 2 ^ 63 ->
  buf_ok n d -> 0 <= n -> n + 1025 * Z.of_nat (length pem) + 1024 <= 2 ^ 62 ->
  exists d', append_all (buf_append first alloc) d (if dest then pieces else []) = Some d' /\
    buf_ok (n + Z.of_nat pushed + 1024) d' /\ (pushed <= length pem)%nat.
Proof.
  intros E Hf Hd Hn Hb. pose proof (pem_push_bound _ _ _ _ _ E) as Hl. pose proof (pem_held _ _ _ _ _ E) as Hp.
  assert (length (concat (if dest then pieces else [])) <= pushed + 1024)%nat as Hq by (destruct dest; [done|cbn; lia]).
  destruct (append_all_ok first alloc d (if dest then pieces else []) n Hf Hd) as (d' & -> & [? ?] & _); [lia|].
  exists d'. split; [done|]. split; [split; [done|lia]|done].
Qed.

Lemma pem_each_inv {S} (on_obj : S -> bytes -> bytes -> S) (I : S -> Prop) fuel pc pem d name dest in_obj u n :
  (forall u name der, I u -> I (on_obj u name der)) -> I u ->
  (length pem < fuel)%nat -> buf_ok n d -> 0 <= n -> n + 1025 * Z.of_nat (length pem) + 1024 <= 2 ^ 62 ->
  exists ok u', pem_each_loop alloc on_obj fuel pc pem d name dest in_obj u = Some (ok, u') /\ I u'.
Proof.
  intros HI. revert pc pem d name dest in_obj u n.
  induction fuel as [|f IH]; intros pc pem d name dest in_obj u n Hu Hf Hd Hn Hb; [lia|]. cbn [pem_each_loop].
  destruct (Nat.eqb_spec (length pem) 0); [by do 2 eexists|].
  destruct (pem_push pc pem) as [[pushed pc'] pieces] eqn:E.
  destruct (push_step pc pem pushed pc' pieces dest n 1024 d E) as (d' & Ed & Hd' & Hl); [lia|done|done|done|].
  unfold der_append. rewrite Ed. bind. pose proof (fun H => pem_progress pc pem pc' pieces (eq_trans E H)) as Hprog.
  destruct (pem_event pc') as [ev pc''] eqn:Eev. cbn [fst] in Hprog.
  assert (pushed <> 0%nat -> forall d2 name dest in_obj u, I u -> buf_ok (n + Z.of_nat pushed + 1024) d2 ->
    exists ok u', pem_each_loop alloc on_obj f pc'' (drop pushed pem) d2 name dest in_obj u = Some (ok, u') /\ I u') as Hrec.
  { intros Hp d2 nm ds io u2 Hu2 Hd2. apply (IH _ _ _ _ _ _ _ (n + Z.of_nat pushed + 1024)); try done;
      rewrite ?length_drop; lia. }
  destruct (Nat.eqb_spec pushed 0) as [->|Hp].
  { destruct (Hprog eq_refl). destruct ev; try done; by do 2 eexists. }
  destruct ev; [by apply Hrec| | |by do 2 eexists].
  - apply Hrec; [done|done|]. apply buf_ok_clear; [lia|done].
  - destruct in_obj; [|by apply Hrec]. destruct (gb_oom d'); [by do 2 eexists|]. apply Hrec; auto.
Qed.

Lemma pem_each_total {S} (on_obj : S -> bytes -> bytes -> S) (I : S -> Prop) pem u :
  (forall u name der, I u -> I (on_obj u name der)) -> I u -> Z.of_nat (length pem) <= 2 ^ 30 ->
  exists ok u', pem_each alloc on_obj pem u = Some (ok, u') /\ I u'.
Proof.
  intros HI Hu Hl. apply (pem_each_inv on_obj I _ _ _ _ _ _ _ _ 0);
    [done|done|lia|split; cbn; lia|lia|lia].
Qed.

(** The configuration that is being filled. *)
Definition conf_filling (c : ntc_tls_conf) : Prop :=
  (length (cf_chain c) <= NTC_TLS_MAX_CERTS)%nat /\
  if cf_have_key c then exists der, cf_skey c = [der] else cf_skey c = [].

Lemma collect_obj_filling c name der : conf_filling c -> conf_filling (collect_obj alloc c name der).
Proof.
  intros [Hl Hk]. unfold collect_obj. destruct (strstr name (bs "CERTIFICATE")).
  - destruct (Nat.leb_spec NTC_TLS_MAX_CERTS (length (cf_chain c))); [done|].
    destruct (negb (alloc _)); [done|]. split; [|done]. cbn. rewrite length_app. cbn [length]. lia.
  - destruct (strstr name (bs "PRIVATE KEY") && negb (cf_have_key c)) eqn:E; [|done].
    apply andb_prop in E as [_ E%negb_true_iff]. rewrite E in Hk. split; [done|]. cbn. rewrite Hk. by eexists.
Qed.

(** The trust anchors come from certificates the X.509 decoder accepted. *)
Definition from_cert (x509 : bytes -> x509_answer) (t : trust_anchor) : Prop :=
  exists der, x5_error (x509 der) = 0 /\ x5_pkey (x509 der) = Some (ta_key t) /\
    x5_ca (x509 der) = ta_ca t /\ ta_dn t = concat (x5_dn (x509 der)) /\ ta_dn t <> [] /\
    forall type, ta_key t <> KeyOther type.

Lemma ca_add_cert_sound x509 ca der :
  Z.of_nat (length (concat (x5_dn (x509 der)))) <= 2 ^ 60 -> Forall (from_cert x509) (ca_ta ca) ->
  exists ok ca', ca_add_cert alloc anchor_size x509 ca der = Some (ok, ca') /\ Forall (from_cert x509) (ca_ta ca').
Proof.
  intros Hl Hca. unfold ca_add_cert, gb_append.
  destruct (append_all_ok 256 alloc no_buf (x5_dn (x509 der)) 0) as (dn & -> & _ & Hdn); [lia|split; cbn; lia|lia|].
  bind. destruct (x5_pkey (x509 der)) as [key|] eqn:Ek; [|by do 2 eexists].
  destruct (negb (x5_error (x509 der) =? 0) || gb_oom dn || (length (gb_data dn) =? 0)%nat) eqn:E; [by do 2 eexists|].
  apply orb_false_elim in E as [[Ee Eo]%orb_false_elim El]. apply negb_false_iff, Z.eqb_eq in Ee.
  destruct (Hdn Eo) as [Ed _]. cbn in Ed.
  set (grown := if ca_cap ca <=? _ then _ else _).
  assert (match grown with Some ca1 => ca_ta ca1 = ca_ta ca | None => True end) as Hg
    by (unfold grown; repeat case_match; simplify_eq; done).
  destruct grown as [ca1|]; [|by do 2 eexists]. case_match eqn:Eok; [|do 2 eexists; split; [done|by rewrite Hg]].
  do 2 eexists. split; [done|]. cbn [ca_ta]. rewrite Hg. apply list.Forall_app. split; [done|].
  constructor; [|constructor]. exists der. cbn. split_and!; try done.
  - intros Hn. by rewrite Hn in El.
  - intros type Hty. by rewrite Hty in Eok.
Qed.

Lemma ca_load_inv x509 fuel pc pem d in_cert dest ca n :
  (forall der, Z.of_nat (length (concat (x5_dn (x509 der)))) <= 2 ^ 60) -> Forall (from_cert x509) (ca_ta ca) ->
  (length pem < fuel)%nat -> buf_ok n d -> 0 <= n -> n + 1025 * Z.of_nat (length pem) + 1024 <= 2 ^ 62 ->
  exists ok ca', ca_load_loop alloc anchor_size x509 fuel pc pem d in_cert dest ca = Some (ok, ca') /\
    Forall (from_cert x509) (ca_ta ca').
Proof.
  intros Hx. revert pc pem d in_cert dest ca n.
  induction fuel as [|f IH]; intros pc pem d in_cert dest ca n Hca Hf Hd Hn Hb; [lia|]. cbn [ca_load_loop].
  destruct (Nat.eqb_spec (length pem) 0); [by do 2 eexists|].
  destruct (pem_push pc pem) as [[pushed pc'] pieces] eqn:E.
  destruct (push_step pc pem pushed pc' pieces dest n 256 d E) as (d' & Ed & Hd' & Hl); [lia|done|done|done|].
  unfold gb_append. rewrite Ed. bind. pose proof (fun H => pem_progress pc pem pc' pieces (eq_trans E H)) as Hprog.
  destruct (pem_event pc') as [ev pc''] eqn:Eev. cbn [fst] in Hprog.
  assert (pushed <> 0%nat -> forall d2 in_cert dest ca, Forall (from_cert x509) (ca_ta ca) ->
    buf_ok (n + Z.of_nat pushed + 1024) d2 ->
    exists ok ca', ca_load_loop alloc anchor_size x509 f pc'' (drop pushed pem) d2 in_cert dest ca = Some (ok, ca') /\
      Forall (from_cert x509) (ca_ta ca')) as Hrec.
  { intros Hp d2 ic ds ca2 Hu2 Hd2. apply (IH _ _ _ _ _ _ (n + Z.of_nat pushed + 1024)); try done;
      rewrite ?length_drop; lia. }
  destruct (Nat.eqb_spec pushed 0) as [->|Hp].
  { destruct (Hprog eq_refl). destruct ev; try done; by do 2 eexists. }
  destruct ev; [by apply Hrec| | |by do 2 eexists].
  - apply Hrec; [done|done|]. apply buf_ok_clear; [lia|done].
  - destruct (in_cert && negb (gb_oom d') && negb (length (gb_data d') =? 0)%nat); [|by apply Hrec].
    destruct (ca_add_cert_sound x509 ca (gb_data d') (Hx _) Hca) as (ok & ca' & -> & Hca'). bind. by apply Hrec.
Qed.
End laws.

(** ** Loading ends, and what it gives *)
Section loading.
Context {P : Type} {PD : PemDecoder P} {PL : PemLaws P} (alloc : Z -> bool) (anchor_size : Z).

Lemma tls_conf_new_total (skey : list bytes -> skey_answer) cert key :
  exists r, ntc_tls_conf_new alloc skey cert key = Some r /\
    match r with
    | Some (c, rsa) =>
        (1 <= length (cf_chain c) <= NTC_TLS_MAX_CERTS)%nat /\ exists der, cf_skey c = [der] /\
        sk_error (skey [der]) = 0 /\ sk_rsa_type (skey [der]) = true /\ sk_rsa (skey [der]) = Some rsa
    | None => True
    end.
Proof.
  unfold ntc_tls_conf_new. destruct (read_text_file (2 ^ 20) cert) as [ct|] eqn:E1; [|by eexists].
  destruct (read_text_file (2 ^ 20) key) as [kt|] eqn:E2; [|by eexists].
  apply read_text_file_bound in E1, E2.
  destruct (pem_each_total alloc (collect_obj alloc) conf_filling ct (TlsConf [] [] false))
    as (ok1 & c1 & -> & H1); [by apply collect_obj_filling|by split; [cbn; lia|]|lia|].
  bind. destruct ok1; [|by eexists]. cbn [negb].
  destruct (pem_each_total alloc (collect_obj alloc) conf_filling kt c1) as (ok2 & c & -> & [Hl Hk]);
    [by apply collect_obj_filling|done|lia|].
  bind. destruct ok2; [|by eexists]. cbn [negb].
  destruct (Nat.eqb_spec (length (cf_chain c)) 0); [by eexists|].
  destruct (cf_have_key c); [|by eexists]. destruct Hk as [der Hk]. rewrite Hk. cbn [negb].
  destruct (Z.eqb_spec (sk_error (skey [der])) 0); [|by eexists].
  destruct (sk_rsa_type (skey [der])) eqn:Et; [|by eexists]. cbn [negb].
  destruct (sk_rsa (skey [der])) as [rsa|] eqn:Er; [|by eexists].
  eexists. split; [reflexivity|]. split; [lia|]. by exists der.
Qed.

Lemma ca_load_pem_total (x509 : bytes -> x509_answer) file got path :
  (forall der, Z.of_nat (length (concat (x5_dn (x509 der)))) <= 2 ^ 60) ->
  exists r, ntc_ca_load_pem alloc anchor_size x509 file got path = Some r /\
    match r with
    | Some ca => ca_ta ca <> [] /\ Forall (from_cert x509) (ca_ta ca)
    | None => True
    end.
Proof.
  intros Hx.
  unfold ntc_ca_load_pem. destruct path as [[|x p]|]; [by eexists| |by eexists].
  destruct (read_text_file (2 ^ 22) (file (x :: p))) as [pem|] eqn:E; [|by eexists].
  apply read_text_file_bound in E. destruct got; [|by eexists]. cbn [negb]. unfold ca_load_pem_buf.
  destruct (ca_load_inv alloc anchor_size x509 (S (length pem)) pem_init pem no_buf false false (Ca [] 0) 0 Hx)
    as (ok & ca & -> & Hca); [constructor|lia|split; cbn; lia|lia|lia|].
  bind. destruct ok; [|by eexists]. destruct (Nat.eqb_spec (length (ca_ta ca)) 0); [by eexists|].
  eexists. split; [reflexivity|]. split; [|done]. intros H. by rewrite H in *.
Qed.
End loading.


(** A decoder of a format with the same events: a letter opens or closes an object, and every
    other byte is data. *)
#[export] Instance letters : PemDecoder (pem_ev * bytes) := {
  pem_init := (PemNone, []);
  pem_push p s :=
    match s with
    | [] => (0%nat, (PemNone, snd p), [])
    | c :: _ =>
        if c =? 67 then (1%nat, (PemBegin, bs "CERTIFICATE"), [])
        else if c =? 75 then (1%nat, (PemBegin, bs "PRIVATE KEY"), [])
        else if c =? 69 then (1%nat, (PemEnd, snd p), [])
        else (1%nat, (PemNone, snd p), [[c]])
    end;
  pem_event p := (fst p, (PemNone, snd p));
  pem_name p := snd p }.

#[export] Instance letters_laws : PemLaws (pem_ev * bytes).
Proof.
  split; cbn; intros p s; repeat case_match; intros; simplify_eq; cbn; try lia; done.
Qed.

