(* ===== verification/ServerState.v ===== *)
(** * The gateway's state (src/core/server.c)

    Connections and controllers live on a heap: an address is a [nat], and an access to an
    address that holds nothing is a fault of the monad of [Update].  What the operating
    system and the allocator answer is read from lists the state carries; a list that has
    run out answers EAGAIN for the sockets and success for the others.  The TLS engine
    (tls.c, over BearSSL) is an interface. *)
From stdpp Require Export gmap.
From S2P Require Import Prelude Update Inflight.
Open Scope Z_scope.

(** server.c:50-59 [NTC_MAX_EVENTS] *)
Definition NTC_MAX_EVENTS : nat := 256.
Definition NTC_CONN_RBUF : nat := Nat.mul 64 1024.
Definition NTC_CTRL_MAX_RBUF : Z := 4 * 1024 * 1024.
Definition NTC_BACKOFF_BASE : Z := 200.
Definition NTC_BACKOFF_MAX : Z := 5000.
Definition NTC_STABLE_MS : Z := 5000.
Definition NTC_MAX_SERVICES : nat := 256.
(** server.c:130-130 [NTC_MAX_REPLICAS] *)
Definition NTC_MAX_REPLICAS : nat := 8.
(** server.c:69-69 [NTC_STREAM_MAX_BUF] *)
Definition NTC_STREAM_MAX_BUF : Z := 4 * 1024 * 1024.

(** server.c:64-64 [CS_READ] *)
Inductive conn_state := CS_READ | CS_WAIT | CS_WRITE | CS_STREAM | CS_WS.
#[export] Instance conn_state_eq_dec : EqDecision conn_state.
Proof. solve_decision. Defined.

Abbreviation ctrl_ptr := nat.

(** The TLS engine of a connection: sending and receiving plaintext, moving records to and
    from the socket, and its two status flags. *)
Class TlsEngine (tls : Type) := {
  ntc_tls_send : tls -> bytes -> Z * tls;
  ntc_tls_recv : tls -> nat -> option bytes * tls;
  ntc_tls_flush : tls -> tls;
  ntc_tls_close_notify : tls -> tls;
  ntc_tls_pump_socket : tls -> bool * tls;
  ntc_tls_closed : tls -> bool;
  ntc_tls_wants_write : tls -> bool }.

(** What [send] and [recv] answer. *)
Inductive send_outcome := SendN (n : nat) | SendEINTR | SendEAGAIN | SendError.
Inductive recv_outcome := RecvData (d : bytes) | RecvEINTR | RecvEAGAIN | RecvError.

Section state.
  Context {tls : Type}.

(** server.c:83-118 [conn]. A buffer's contents stand for the buffer and its used length:
    [c_rbuf] is the first [rlen] bytes of the fixed array, [c_swbuf] the first [swlen] of
    an allocation of [c_swcap]. *)
Record conn := Conn {
  c_fd : Z; c_state : conn_state; c_is_admin : bool; c_tls : option tls;
  c_inflight : bool; c_req_id : Z; c_wait_ctrl : option ctrl_ptr;
  c_client_ip : bytes; c_request_id : bytes; c_extra_headers : bytes;
  c_log_method : bytes; c_log_path : bytes; c_auth_sub : bytes; c_auth_scope : bytes;
  c_req_start : Z; c_logged : bool; c_accept_gzip : bool;
  c_rbuf : bytes; c_wbuf : bytes; c_wsent : nat;
  c_streaming : bool; c_stream_sse : bool; c_stream_head_sent : bool; c_stream_ended : bool;
  c_is_ws : bool; c_swbuf : bytes; c_swsent : nat; c_swcap : Z }.

#[export] Instance conn_settable : Settable conn := fun r =>
  Conn (c_fd r) (c_state r) (c_is_admin r) (c_tls r) (c_inflight r) (c_req_id r) (c_wait_ctrl r)
    (c_client_ip r) (c_request_id r) (c_extra_headers r) (c_log_method r) (c_log_path r)
    (c_auth_sub r) (c_auth_scope r) (c_req_start r) (c_logged r) (c_accept_gzip r)
    (c_rbuf r) (c_wbuf r) (c_wsent r) (c_streaming r) (c_stream_sse r) (c_stream_head_sent r)
    (c_stream_ended r) (c_is_ws r) (c_swbuf r) (c_swsent r) (c_swcap r).

(** server.c:120-128 [ctrl]. [k_svc] is the index of its service. *)
Record ctrl := Ctrl {
  k_fd : Z; k_pid : Z; k_svc : option nat;
  k_rbuf : bytes; k_rcap : Z; k_wbuf : bytes; k_wsent : nat; k_wcap : Z }.

#[export] Instance ctrl_settable : Settable ctrl := fun r =>
  Ctrl (k_fd r) (k_pid r) (k_svc r) (k_rbuf r) (k_rcap r) (k_wbuf r) (k_wsent r) (k_wcap r).

(** server.c:132-145 [service]. The per-replica arrays are lists of length 8. *)
Record service := Service {
  s_name : bytes; s_bin : bytes; s_conns : list (option ctrl_ptr); s_replicas : Z; s_rr : Z;
  s_disabled : bool; s_restart_count : Z; s_restart_at : list Z; s_spawned_at : list Z;
  s_backoff_ms : list Z; s_bin_mtime : Z }.

#[export] Instance service_settable : Settable service := fun r =>
  Service (s_name r) (s_bin r) (s_conns r) (s_replicas r) (s_rr r) (s_disabled r)
    (s_restart_count r) (s_restart_at r) (s_spawned_at r) (s_backoff_ms r) (s_bin_mtime r).

(** server.c:156-161 [metrics] *)
Record metrics := Metrics {
  m_start_ms : Z; m_requests_total : Z; m_status_2xx : Z; m_status_4xx : Z; m_status_5xx : Z;
  m_forwarded : Z; m_builtin : Z }.

#[export] Instance metrics_settable : Settable metrics := fun r =>
  Metrics (m_start_ms r) (m_requests_total r) (m_status_2xx r) (m_status_4xx r) (m_status_5xx r)
    (m_forwarded r) (m_builtin r).

(** One access-log line: method, path, request id, status. *)
Record log_entry := LogEntry { l_method : bytes; l_path : bytes; l_request_id : bytes; l_status : Z }.

(** Who an armed descriptor belongs to. *)
Inductive poll_target := PConn (p : conn_ptr) | PCtrl (k : ctrl_ptr).

(** server.c:163-208 [gateway]. The part the connections, controllers and services use,
    with the heap, the poller's interest sets, the bytes handed to each socket so far, the
    clock and the answers of the environment. *)
Record gateway := Gateway {
  g_slots : slots; g_conns : gmap conn_ptr conn; g_ctrls : gmap ctrl_ptr ctrl;
  g_services : list service; g_m : metrics; g_access_log : option bool;
  g_interest : gmap Z (Z * poll_target);
  g_log : list log_entry; g_sent : gmap conn_ptr bytes; g_ctrl_sent : gmap ctrl_ptr bytes;
  g_now : Z; g_sends : list send_outcome; g_recvs : list recv_outcome;
  g_allocs : list bool; g_polls : list bool }.

#[export] Instance gateway_settable : Settable gateway := fun r =>
  Gateway (g_slots r) (g_conns r) (g_ctrls r) (g_services r) (g_m r) (g_access_log r)
    (g_interest r) (g_log r) (g_sent r) (g_ctrl_sent r) (g_now r) (g_sends r) (g_recvs r)
    (g_allocs r) (g_polls r).
End state.
Arguments conn : clear implicits.
Arguments gateway : clear implicits.

Section ops.
  Context {tls : Type}.
  Local Abbreviation G := (gateway tls).
  Local Abbreviation M := (St (gateway tls)).

(** Dereferencing and updating what an address holds. *)
Definition get_conn (p : conn_ptr) : M (conn tls) := load (fun g => g_conns g !! p).
Definition put_conn (p : conn_ptr) (c : conn tls) : M unit :=
  store (fun g => _ ← g_conns g !! p; Some (g <| g_conns := <[p := c]> (g_conns g) |>)).
Definition upd_conn (p : conn_ptr) (f : conn tls -> conn tls) : M unit :=
  let* c := get_conn p in put_conn p (f c).
Definition get_ctrl (k : ctrl_ptr) : M ctrl := load (fun g => g_ctrls g !! k).
Definition put_ctrl (k : ctrl_ptr) (c : ctrl) : M unit :=
  store (fun g => _ ← g_ctrls g !! k; Some (g <| g_ctrls := <[k := c]> (g_ctrls g) |>)).

(** The next answer of the allocator and of the poller. *)
Definition ask_alloc : M bool :=
  let* l := gets g_allocs in
  match l with [] => ret true | b :: l => modify (fun g => g <| g_allocs := l |>) ;;; ret b end.
Definition ask_poll : M bool :=
  let* l := gets g_polls in
  match l with [] => ret true | b :: l => modify (fun g => g <| g_polls := l |>) ;;; ret b end.

(** poller.h:22-23 [NTC_POLL_READ] *)
Definition NTC_POLL_READ : Z := 1.
Definition NTC_POLL_WRITE : Z := 2.

(** [ntc_poller_mod]: it replaces the interest of a descriptor, or fails. *)
Definition ntc_poller_mod (fd ev : Z) (t : poll_target) : M bool :=
  let* ok := ask_poll in
  if ok : bool then modify (fun g => g <| g_interest := <[fd := (ev, t)]> (g_interest g) |>) ;;; ret true
  else ret false.
Definition ntc_poller_add (fd ev : Z) (t : poll_target) : M bool := ntc_poller_mod fd ev t.
Definition ntc_poller_del (fd : Z) : M unit :=
  modify (fun g => g <| g_interest := delete fd (g_interest g) |>).

(** How a loop of [send] over a buffer ends. *)
Inductive drain_end := DrainDone | DrainAgain | DrainError.

(** server.c:388-395 [on_writable, send loop]. From [sent], over a buffer of [len] bytes:
    how it ended, the new count, and the answers that are left. [send] accepts at most what
    it was given. *)
Fixpoint send_loop (outs : list send_outcome) (len sent : nat)
    : drain_end * nat * list send_outcome :=
  if (len <=? sent)%nat then (DrainDone, sent, outs) else
  match outs with
  | [] => (DrainAgain, sent, [])
  | SendN n :: outs =>
      let r := Nat.min n (len - sent) in
      if (0 <? r)%nat then send_loop outs len (sent + r) else (DrainError, sent, outs)
  | SendEINTR :: outs => send_loop outs len sent
  | SendEAGAIN :: outs => (DrainAgain, sent, outs)
  | SendError :: outs => (DrainError, sent, outs)
  end.

(** How a loop of [recv] ends. *)
Inductive recv_end := RecvEndAgain | RecvEndFull | RecvEndEof | RecvEndError.

(** server.c:1408-1416 [on_readable, recv loop]. Into a buffer of [cap] bytes that holds
    [buf]: how it ended, the contents, and the answers that are left. *)
Fixpoint recv_loop (ins : list recv_outcome) (buf : bytes) (cap : nat)
    : recv_end * bytes * list recv_outcome :=
  if (cap <=? length buf)%nat then (RecvEndFull, buf, ins) else
  match ins with
  | [] => (RecvEndAgain, buf, [])
  | RecvData d :: ins =>
      let d := take (cap - length buf) d in
      if (0 <? length d)%nat then recv_loop ins (buf ++ d) cap else (RecvEndEof, buf, ins)
  | RecvEINTR :: ins => recv_loop ins buf cap
  | RecvEAGAIN :: ins => (RecvEndAgain, buf, ins)
  | RecvError :: ins => (RecvEndError, buf, ins)
  end.

(** server.c:252-253 [buf_reserve, doubling loop] *)
Fixpoint grow_cap (fuel : nat) (ncap need : Z) : option Z :=
  match fuel with
  | O => None
  | S f => if ncap <? need then grow_cap f (u64 (ncap * 2)) need else Some ncap
  end.

(** No allocation is larger than the user address space. *)
Definition ADDRESS_SPACE : Z := 2 ^ 47.

(** server.c:249-258 [buf_reserve]. The new capacity, or [None] for -1; [realloc]'s outcome
    is the allocator's next answer, and a failure beyond the address space. *)
Definition buf_reserve (cap need : Z) : M (option Z) :=
  if need <=? cap then ret (Some cap) else
  let* ncap := load (fun _ => grow_cap 64 (if cap =? 0 then 4096 else cap) need) in
  let* ok := ask_alloc in
  ret (if ok && (ncap <=? ADDRESS_SPACE) then Some ncap else None).

(** server.c:277-282 [rec_status] *)
Definition rec_status (status : Z) : M unit :=
  modify (fun g =>
    let m := (g_m g) <| m_requests_total := u64 (m_requests_total (g_m g) + 1) |> in
    g <| g_m :=
      if 500 <=? status then m <| m_status_5xx := u64 (m_status_5xx m + 1) |>
      else if 400 <=? status then m <| m_status_4xx := u64 (m_status_4xx m + 1) |>
      else if (200 <=? status) && (status <? 300) then m <| m_status_2xx := u64 (m_status_2xx m + 1) |>
      else m |>).

(** server.c:271-275 [gw_free_slot] on the gateway's table. *)
Definition free_slot (slot : nat) : M unit :=
  store (fun g => t ← gw_free_slot (g_slots g) slot; Some (g <| g_slots := t |>)).

(** middleware.c:228-233 [ntc_mw_after]. One access-log line, when there is a middleware
    and its access log is on. *)
Definition ntc_mw_after (method path request_id : bytes) (status : Z) : M unit :=
  modify (fun g => match g_access_log g with
    | Some true => g <| g_log := g_log g ++ [LogEntry method path request_id status] |>
    | _ => g
    end).
End ops.
