(* ===== verification/ServerConn.v ===== *)
(** * Client connections (src/core/server.c)

    Opening, answering, streaming to and closing a client connection.  Operations that can
    close their connection return -1 exactly when they did: the caller must not touch it
    any more. *)
From S2P Require Import Prelude Update Err Slice Http Wire Ws Gzip Inflight ServerState.
Open Scope Z_scope.

Section conn_ops.
  Context {tls : Type} {TE : TlsEngine tls}.
  (** miniz, as in [Gzip]. *)
  Variable tdefl_compress : bytes -> option bytes.
  Variable mz_crc32 : bytes -> Z.
  Local Abbreviation M := (St (gateway tls)).

(** server.c:61-61 [JSON] *)
Definition JSON : ntc_slice := bs "application/json".

(** ** Controllers' output *)

(** server.c:415-423 [ctrl_queue]. [true] is 0. The frame is appended only within the
    capacity that was reserved. *)
Definition ctrl_queue (k : ctrl_ptr) (type rid : Z) (payload : bytes) : M bool :=
  let* ct := get_ctrl k in
  let plen := u32 (Z.of_nat (length payload)) in
  let need := Z.of_nat (length (k_wbuf ct)) + Z.of_nat NTC_WIRE_HEADER_LEN + plen in
  let* cap := buf_reserve (k_wcap ct) need in
  match cap with
  | None => ret false
  | Some ncap =>
      let frame := ntc_wire_write_header type rid plen ++ take (Z.to_nat plen) payload in
      ensure (Z.of_nat (length (k_wbuf ct) + length frame) <=? ncap) ;;;
      put_ctrl k (ct <| k_wcap := ncap |> <| k_wbuf := k_wbuf ct ++ frame |>) ;;;
      ret true
  end.

(** server.c:425-429 [ctrl_update_poll] *)
Definition ctrl_update_poll (k : ctrl_ptr) : M bool :=
  let* ct := get_ctrl k in
  let ev := if (k_wsent ct <? length (k_wbuf ct))%nat then Z.lor NTC_POLL_READ NTC_POLL_WRITE
            else NTC_POLL_READ in
  ntc_poller_mod (k_fd ct) ev (PCtrl k).

(** ** Opening and closing *)

(** server.c:285-295 [conn_new]. [p] is the address [calloc] returns; [None] is NULL. *)
Definition conn_new (p : conn_ptr) (fd : Z) : M (option conn_ptr) :=
  let* ok := ask_alloc in
  if negb ok then ret None else
  let* now := gets g_now in
  let* arena_ok := ask_alloc in
  if negb arena_ok then ret None else
  let c := Conn fd CS_READ false None false 0 None [] [] [] [] [] [] [] now false false
             [] [] 0 false false false false false [] 0 0 in
  modify (fun g => g <| g_conns := <[p := c]> (g_conns g) |>
                     <| g_sent := <[p := []]> (g_sent g) |>) ;;; ret (Some p).

(** server.c:300-305 [conn_close, WebSocket notice] *)
Definition ws_close_notice (c : conn tls) : M unit :=
  match c_wait_ctrl c with
  | Some k =>
      if c_is_ws c && c_inflight c then
        let* r := load (fun _ => ntc_wire_encode_ws_close 1000 (replicate 2 0) 2) in
        let '(cb, pl) := r in
        if 0 <? pl then
          let* ok := ctrl_queue k NTC_MSG_WS_CLOSE (c_req_id c) (take (Z.to_nat pl) cb) in
          if ok : bool then let* _ := ctrl_update_poll k in ret tt else ret tt
        else ret tt
      else ret tt
  | None => ret tt
  end.

(** server.c:297-313 [conn_close]. The connection's address is free afterwards. *)
Definition conn_close (p : conn_ptr) : M unit :=
  let* c := get_conn p in
  ws_close_notice c ;;;
  (if c_inflight c then free_slot (slot_of (c_req_id c)) else ret tt) ;;;
  ntc_poller_del (c_fd c) ;;;
  modify (fun g => g <| g_conns := delete p (g_conns g) |>).

(** The bytes handed to a connection's socket, or to its TLS engine, are remembered. *)
Definition record_sent (p : conn_ptr) (d : bytes) : M unit :=
  modify (fun g => g <| g_sent := <[p := default [] (g_sent g !! p) ++ d]> (g_sent g) |>).

(** ** Writing *)

(** server.c:1447-1451 [tls_drive_write, send loop] *)
Fixpoint tls_send_loop (fuel : nat) (t : tls) (buf : bytes) (sent : nat) : option (tls * nat) :=
  match fuel with
  | O => None
  | S f =>
      if (sent <? length buf)%nat then
        let '(n, t) := ntc_tls_send t (drop sent buf) in
        if n <=? 0 then Some (t, sent) else tls_send_loop f t buf (sent + Z.to_nat n)
      else Some (t, sent)
  end.

(** server.c:1440-1467 [tls_drive_write]. Each pass around the loop that does not return
    has sent something, so the bytes left bound the passes. *)
Fixpoint tls_drive_loop (fuel : nat) (p : conn_ptr) (streaming : bool) : M Z :=
  match fuel with
  | O => fault
  | S f =>
      let* c := get_conn p in
      let* t := load (fun _ => c_tls c) in
      let buf := if streaming then c_swbuf c else c_wbuf c in
      let before := if streaming then c_swsent c else c_wsent c in
      let* r := load (fun _ => tls_send_loop (S (length buf)) t buf before) in
      let '(t, sent) := r in
      let fin := (length buf <=? sent)%nat in
      let t := if fin then
                 let t := ntc_tls_flush t in
                 if negb streaming || c_stream_ended c then ntc_tls_close_notify t else t
               else t in
      let '(ok, t) := ntc_tls_pump_socket t in
      put_conn p (let c := c <| c_tls := Some t |> in
                  if streaming then c <| c_swsent := sent |> else c <| c_wsent := sent |>) ;;;
      record_sent p (take (sent - before) (drop before buf)) ;;;
      if negb ok then conn_close p ;;; ret (-1) else
      if ntc_tls_closed t then conn_close p ;;; ret (-1) else
      if ntc_tls_wants_write t then ret 0 else
      if fin then
        if negb streaming || c_stream_ended c then conn_close p ;;; ret (-1) else
        upd_conn p (fun c => c <| c_swbuf := [] |> <| c_swsent := 0%nat |>) ;;; ret 0
      else if (sent =? before)%nat then ret 0 else tls_drive_loop f p streaming
  end.

(** server.c:1440-1441 [tls_drive_write] *)
Definition tls_drive_write (p : conn_ptr) : M Z :=
  let* c := get_conn p in
  tls_drive_loop (S (length (if c_streaming c then c_swbuf c else c_wbuf c))) p (c_streaming c).

(** server.c:1427-1434 [tls_set_interest] *)
Definition tls_set_interest (p : conn_ptr) : M Z :=
  let* c := get_conn p in
  let* t := load (fun _ => c_tls c) in
  let w := ntc_tls_wants_write t
           || (bool_decide (c_state c = CS_WRITE) && (c_wsent c <? length (c_wbuf c))%nat)
           || (bool_decide (c_state c = CS_STREAM) && (c_swsent c <? length (c_swbuf c))%nat) in
  let ev := if w then Z.lor NTC_POLL_READ NTC_POLL_WRITE else NTC_POLL_READ in
  let* ok := ntc_poller_mod (c_fd c) ev (PConn p) in
  if negb ok then conn_close p ;;; ret (-1) else ret 0.

(** server.c:385-412 [on_writable] *)
Definition on_writable (p : conn_ptr) : M Z :=
  let* c := get_conn p in
  match c_tls c with Some _ => tls_drive_write p | None =>
  let* outs := gets g_sends in
  let buf := if c_streaming c then c_swbuf c else c_wbuf c in
  let from := if c_streaming c then c_swsent c else c_wsent c in
  let '(how, sent, outs) := send_loop outs (length buf) from in
  modify (fun g => g <| g_sends := outs |>) ;;;
  record_sent p (take (sent - from) (drop from buf)) ;;;
  upd_conn p (fun c => if c_streaming c then c <| c_swsent := sent |> else c <| c_wsent := sent |>) ;;;
  match how with
  | DrainAgain => ret 0
  | DrainError => conn_close p ;;; ret (-1)
  | DrainDone =>
      if c_streaming c then
        upd_conn p (fun c => c <| c_swbuf := [] |> <| c_swsent := 0%nat |>) ;;;
        if c_stream_ended c then conn_close p ;;; ret (-1) else
        let* ok := ntc_poller_mod (c_fd c) NTC_POLL_READ (PConn p) in
        if negb ok then conn_close p ;;; ret (-1) else ret 0
      else conn_close p ;;; ret (-1)
  end end.

(** server.c:363-371 [conn_flush] *)
Definition conn_flush (p : conn_ptr) : M Z :=
  let* c := get_conn p in
  match c_tls c with
  | Some _ =>
      let* rc := tls_drive_write p in
      if rc <? 0 then ret rc else tls_set_interest p
  | None =>
      let* ok := ntc_poller_mod (c_fd c) NTC_POLL_WRITE (PConn p) in
      if negb ok then conn_close p ;;; ret (-1) else on_writable p
  end.

(** ** Answering *)

(** server.c:315-321 [slice_has] *)
Definition slice_has (hay : ntc_slice) (needle : bytes) : bool :=
  let m := length (cstr needle) in
  if (m =? 0)%nat || (length hay <? m)%nat then false else
  match memmem (cstr needle) hay with Some _ => true | None => false end.

(** server.c:324-328 [ctype_compressible] *)
Definition ctype_compressible (ct : ntc_slice) : bool :=
  ntc_slice_starts_with ct (bs "text/") || slice_has ct (bs "json") ||
  slice_has ct (bs "javascript") || slice_has ct (bs "xml") || slice_has ct (bs "svg").

(** server.c:330-330 [NTC_GZIP_MIN] *)
Definition NTC_GZIP_MIN : nat := 256.

(** server.c:334-350 [conn_respond, compression]. The body to send, and the extra headers
    with the encoding appended, cut at the 512-byte array. *)
Definition compress_body (c : conn tls) (ctype body : ntc_slice) : M (ntc_slice * bytes) :=
  if c_accept_gzip c && (NTC_GZIP_MIN <=? length body)%nat && ctype_compressible ctype &&
     bool_decide (memmem (bs "Content-Encoding") (c_extra_headers c) = None)
  then
    let* malloc_ok := ask_alloc in
    match ntc_gzip tdefl_compress mz_crc32 malloc_ok body with
    | None => ret (body, c_extra_headers c)
    | Some gz =>
        let* arena_ok := ask_alloc in
        if negb arena_ok then ret (body, c_extra_headers c) else
        let el := length (c_extra_headers c) in
        ret (gz, c_extra_headers c ++ snprintf (512 - el) (bs "Content-Encoding: gzip" ++ crlf))
    end
  else ret (body, c_extra_headers c).

(** server.c:332-361 [conn_respond] *)
Definition conn_respond (p : conn_ptr) (status : Z) (ctype body : ntc_slice) : M Z :=
  let* c := get_conn p in
  let* r := compress_body c ctype body in
  let '(body, extra) := r in
  put_conn p (c <| c_extra_headers := extra |>) ;;;
  let* arena_ok := ask_alloc in
  let '(e, resp) := ntc_http_format_response_ex arena_ok status (ntc_http_status_text status) ctype
                      (if (length extra =? 0)%nat then None else Some extra) body in
  if bool_decide (e <> NTC_OK) then ret (-1) else
  upd_conn p (fun c => c <| c_wbuf := resp |> <| c_wsent := 0%nat |> <| c_state := CS_WRITE |>) ;;;
  let* mw := gets g_access_log in
  if negb (c_is_admin c) && negb (c_logged c) && bool_decide (mw <> None) then
    ntc_mw_after (c_log_method c) (c_log_path c) (c_request_id c) status ;;;
    upd_conn p (fun c => c <| c_logged := true |>) ;;; ret 0
  else ret 0.

(** server.c:380-383 [send_resp] *)
Definition send_resp (p : conn_ptr) (status : Z) (ctype body : ntc_slice) : M Z :=
  let* r := conn_respond p status ctype body in
  if negb (r =? 0) then conn_close p ;;; ret (-1) else conn_flush p.

(** server.c:373-377 [respond_and_flush] *)
Definition respond_and_flush (p : conn_ptr) (status : Z) (json : ntc_slice) : M Z :=
  let* c := get_conn p in
  (if negb (c_is_admin c) then rec_status status else ret tt) ;;;
  send_resp p status JSON json.

(** ** Streaming *)

(** server.c:467-475 [stream_kick] *)
Definition stream_kick (p : conn_ptr) : M Z :=
  let* c := get_conn p in
  match c_tls c with
  | Some _ =>
      let* rc := tls_drive_write p in
      if rc <? 0 then ret (-1) else tls_set_interest p
  | None =>
      let* ok := ntc_poller_mod (c_fd c) (Z.lor NTC_POLL_READ NTC_POLL_WRITE) (PConn p) in
      if negb ok then conn_close p ;;; ret (-1) else on_writable p
  end.

(** server.c:480-492 [stream_push]. The append stays within the reserved capacity. *)
Definition stream_push (p : conn_ptr) (data : bytes) : M Z :=
  let n := length data in
  if (n =? 0)%nat then stream_kick p else
  (let* c := get_conn p in
   if (0 <? c_swsent c)%nat
   then put_conn p (c <| c_swbuf := drop (c_swsent c) (c_swbuf c) |> <| c_swsent := 0%nat |>)
   else ret tt) ;;;
  let* c := get_conn p in
  let need := Z.of_nat (length (c_swbuf c) + n) in
  if NTC_STREAM_MAX_BUF <? need then conn_close p ;;; ret (-1) else
  let* cap := buf_reserve (c_swcap c) need in
  match cap with
  | None => conn_close p ;;; ret (-1)
  | Some ncap =>
      ensure (need <=? ncap) ;;;
      put_conn p (c <| c_swcap := ncap |> <| c_swbuf := c_swbuf c ++ data |>) ;;;
      stream_kick p
  end.
End conn_ops.
