(* ===== verification/ServerRelay.v ===== *)
(** * Relaying between clients and controllers (src/core/server.c)

    Requests and WebSocket messages go to a controller under an in-flight id; its frames
    come back by id and become an atomic response, a streamed one, or WebSocket frames. *)
From S2P Require Import Prelude Update Err Slice Http HttpRequest Wire Ws Inflight ServerState.
From S2P Require Import ServerConn.
Open Scope Z_scope.

Section relay.
  Context {tls : Type} {TE : TlsEngine tls}.
  Variable tdefl_compress : bytes -> option bytes.
  Variable mz_crc32 : bytes -> Z.
  (** BearSSL's SHA-1, as in [Ws]. *)
  Variable br_sha1 : bytes -> bytes.
  Local Abbreviation M := (St (gateway tls)).
  Local Abbreviation conn_respond := (conn_respond tdefl_compress mz_crc32).
  Local Abbreviation respond_and_flush := (respond_and_flush tdefl_compress mz_crc32).

(** server.c:432-438 [gw_conn_for_id] on the gateway's table. *)
Definition conn_for_id (id : Z) : M (option conn_ptr) :=
  load (fun g => gw_conn_for_id (g_slots g) id).

(** server.c:443-444 [gw_deliver]. The request of an id is done: its slot is free, its
    connection no longer in flight. *)
Definition release_id (id : Z) (p : conn_ptr) : M unit :=
  free_slot (slot_of id) ;;; upd_conn p (fun c => c <| c_inflight := false |>).

(** server.c:453-459 [gw_deliver, header merge]. As much of the controller's headers as the
    512-byte array has room for. *)
Definition merge_headers (extra hdrs : bytes) : M bytes :=
  if (length hdrs =? 0)%nat then ret extra else
  let el := Z.of_nat (length extra) in
  let room := u64 (512 - el) in
  let n := if Z.of_nat (length hdrs) <? u64 (room - 1) then Z.of_nat (length hdrs)
           else if 0 <? room then room - 1 else 0 in
  ensure (el + n + 1 <=? 512) ;;;
  ret (cstr (extra ++ take (Z.to_nat n) hdrs)).

(** server.c:440-463 [gw_deliver] *)
Definition gw_deliver (id : Z) (payload : bytes) : M unit :=
  let* c := conn_for_id id in
  match c with None => ret tt | Some p =>
  release_id id p ;;;
  let* d := load (fun _ => ntc_wire_decode_response_ex payload) in
  match d with
  | None => let* _ := respond_and_flush p 502 (qs "{'error':'bad upstream response'}") in ret tt
  | Some (status, ctype, body, hdrs) =>
      rec_status status ;;;
      let* c := get_conn p in
      let* extra := merge_headers (c_extra_headers c) hdrs in
      put_conn p (c <| c_extra_headers := extra |>) ;;;
      let* r := conn_respond p status ctype body in
      if negb (r =? 0) then conn_close p else
      let* _ := conn_flush p in ret tt
  end end.

(** server.c:494-519 [gw_deliver_begin] *)
Definition gw_deliver_begin (id : Z) (payload : bytes) : M unit :=
  let* c := conn_for_id id in
  match c with None => ret tt | Some p =>
  let* d := load (fun _ => ntc_wire_decode_response_begin payload) in
  match d with
  | None =>
      release_id id p ;;;
      let* _ := respond_and_flush p 502 (qs "{'error':'bad stream begin'}") in ret tt
  | Some (status, flags, ctype) =>
      rec_status status ;;;
      let sse := negb (Z.land flags NTC_STREAM_FLAG_SSE =? 0) in
      upd_conn p (fun c => c <| c_streaming := true |> <| c_stream_sse := sse |>
                             <| c_state := CS_STREAM |>) ;;;
      let* c := get_conn p in
      let* arena_ok := ask_alloc in
      let '(e, head) := ntc_http_format_stream_head arena_ok status (ntc_http_status_text status) ctype sse
                          (if (length (c_extra_headers c) =? 0)%nat then None
                           else Some (c_extra_headers c)) in
      if bool_decide (e <> NTC_OK) then conn_close p else
      let* mw := gets g_access_log in
      (if negb (c_is_admin c) && negb (c_logged c) && bool_decide (mw <> None) then
         ntc_mw_after (c_log_method c) (c_log_path c) (c_request_id c) status ;;;
         upd_conn p (fun c => c <| c_logged := true |>)
       else ret tt) ;;;
      upd_conn p (fun c => c <| c_stream_head_sent := true |>) ;;;
      let* _ := stream_push p head in ret tt
  end end.

(** server.c:521-536 [gw_deliver_chunk] *)
Definition gw_deliver_chunk (id : Z) (payload : bytes) : M unit :=
  let* c := conn_for_id id in
  match c with None => ret tt | Some p =>
  let* c := get_conn p in
  if negb (c_streaming c) then ret tt else
  let* d := load (fun _ => ntc_wire_decode_chunk payload) in
  match d with
  | None => ret tt
  | Some data =>
      if (length data =? 0)%nat then ret tt else
      if c_stream_sse c then let* _ := stream_push p data in ret tt else
      let* r := stream_push p (snprintf 32 (fmt_x (Z.of_nat (length data)) ++ crlf)) in
      if r <? 0 then ret tt else
      let* r := stream_push p data in
      if r <? 0 then ret tt else
      let* _ := stream_push p crlf in ret tt
  end end.

(** server.c:538-547 [gw_deliver_end] *)
Definition gw_deliver_end (id : Z) : M unit :=
  let* c := conn_for_id id in
  match c with None => ret tt | Some p =>
  release_id id p ;;;
  let* c := get_conn p in
  if negb (c_streaming c) then conn_close p else
  upd_conn p (fun c => c <| c_stream_ended := true |>) ;;;
  let* _ := stream_push p (if c_stream_sse c then [] else bs "0" ++ crlf ++ crlf) in ret tt
  end.

(** server.c:552-565 [gw_ws_deliver] *)
Definition gw_ws_deliver (id : Z) (payload : bytes) : M unit :=
  let* c := conn_for_id id in
  match c with None => ret tt | Some p =>
  let* c := get_conn p in
  if negb (c_is_ws c) then ret tt else
  let* d := load (fun _ => ntc_wire_decode_ws_msg payload) in
  match d with
  | None => ret tt
  | Some (opcode, data) =>
      let wsop := if opcode =? NTC_WS_BIN then NTC_WS_BIN else NTC_WS_TEXT in
      let* ok := ask_alloc in
      if negb ok then ret tt else
      let cap := (length data + 16)%nat in
      let* r := load (fun _ => ntc_ws_encode wsop data (replicate cap 0) cap) in
      let '(frame, fn) := r in
      if 0 <? fn then let* _ := stream_push p (take (Z.to_nat fn) frame) in ret tt else ret tt
  end end.

(** server.c:568-581 [gw_ws_deliver_close] *)
Definition gw_ws_deliver_close (id : Z) : M unit :=
  let* c := conn_for_id id in
  match c with None => ret tt | Some p =>
  release_id id p ;;;
  let* r := load (fun _ => ntc_ws_encode NTC_WS_CLOSE [] (replicate 4 0) 4) in
  let '(cf, cn) := r in
  if 0 <? cn then
    upd_conn p (fun c => c <| c_stream_ended := true |>) ;;;
    let* _ := stream_push p (take (Z.to_nat cn) cf) in ret tt
  else conn_close p
  end.

(** server.c:615-624 [on_ws_readable, relay]. One data message to the controller. *)
Definition ws_relay (c : conn tls) (op : Z) (pay : bytes) : M unit :=
  match c_wait_ctrl c with
  | Some k =>
      if negb (c_inflight c) then ret tt else
      let opcode := if op =? NTC_WS_BIN then NTC_WS_BIN else NTC_WS_TEXT in
      let cap := (length pay + 16)%nat in
      let* ok := ask_alloc in
      if negb ok then ret tt else
      let* r := load (fun _ => ntc_wire_encode_ws_msg opcode pay (replicate cap 0) cap) in
      let '(enc, pn) := r in
      if 0 <? pn then
        let* ok := ctrl_queue k NTC_MSG_WS_MSG (c_req_id c) (take (Z.to_nat pn) enc) in
        if ok : bool then let* _ := ctrl_update_poll k in ret tt else ret tt
      else ret tt
  | None => ret tt
  end.

(** server.c:597-626 [on_ws_readable, frame loop]. [None] is the -1 result: the connection
    was closed. *)
Fixpoint ws_frames (fuel : nat) (p : conn_ptr) (off : nat) : M (option nat) :=
  match fuel with
  | O => fault
  | S f =>
      let* c := get_conn p in
      if negb (off <? length (c_rbuf c))%nat then ret (Some off) else
      let* r := load (fun _ => ntc_ws_decode (drop off (c_rbuf c))) in
      match r with
      | WsMore => ret (Some off)
      | WsError => conn_close p ;;; ret None
      | WsFrame buf consumed op fin pay =>
          put_conn p (c <| c_rbuf := take off (c_rbuf c) ++ buf |>) ;;;
          if op =? NTC_WS_CLOSE then conn_close p ;;; ret None
          else if op =? NTC_WS_PING then
            let pl := if (125 <? length pay)%nat then 0%nat else length pay in
            let* e := load (fun _ => ntc_ws_encode NTC_WS_PONG (take pl pay) (replicate 160 0) 160) in
            let '(pong, pn) := e in
            if 0 <? pn then
              let* r := stream_push p (take (Z.to_nat pn) pong) in
              if r <? 0 then ret None else ws_frames f p (off + consumed)
            else ws_frames f p (off + consumed)
          else if op =? NTC_WS_PONG then ws_frames f p (off + consumed)
          else ws_relay c op pay ;;; ws_frames f p (off + consumed)
      end
  end.

(** server.c:585-630 [on_ws_readable] *)
Definition on_ws_readable (p : conn_ptr) : M Z :=
  let* c := get_conn p in
  let* ins := gets g_recvs in
  let '(how, buf, ins) := recv_loop ins (c_rbuf c) NTC_CONN_RBUF in
  modify (fun g => g <| g_recvs := ins |>) ;;;
  put_conn p (c <| c_rbuf := buf |>) ;;;
  match how with
  | RecvEndFull | RecvEndEof | RecvEndError => conn_close p ;;; ret (-1)
  | RecvEndAgain =>
      let* r := ws_frames (S (length buf)) p 0 in
      match r with
      | None => ret (-1)
      | Some off =>
          if (0 <? off)%nat then
            upd_conn p (fun c => c <| c_rbuf := drop off (c_rbuf c) |>) ;;; ret 0
          else ret 0
      end
  end.

(** ** Services *)

(** server.c:1585-1588 [svc_pick, loop] *)
Fixpoint svc_pick_loop (ks : list nat) (svc : service) (n : Z) : option (option ctrl_ptr * service) :=
  match ks with
  | [] => Some (None, svc)
  | k :: ks =>
      let i := Z.rem (s_rr svc + Z.of_nat k) n in
      if i <? 0 then None else
      c ← s_conns svc !! Z.to_nat i;
      match c with
      | Some ct => Some (Some ct, svc <| s_rr := Z.rem (i + 1) n |>)
      | None => svc_pick_loop ks svc n
      end
  end.

(** server.c:1584-1584 [svc_pick, n] *)
Definition svc_n (svc : service) : Z := if 0 <? s_replicas svc then s_replicas svc else 1.

(** server.c:1583-1590 [svc_pick] *)
Definition svc_pick (svc : service) : option (option ctrl_ptr * service) :=
  let n := svc_n svc in svc_pick_loop (seq 0 (Z.to_nat n)) svc n.

Definition get_service (i : nat) : M service := load (fun g => g_services g !! i).
Definition put_service (i : nat) (svc : service) : M unit :=
  store (fun g => _ ← g_services g !! i; Some (g <| g_services := <[i := svc]> (g_services g) |>)).

(** server.c:771-771 [gw_forward, target]. The replica a request goes to. *)
Definition pick_target (i : nat) : M (option ctrl_ptr) :=
  let* svc := get_service i in
  if s_disabled svc then ret None else
  let* r := load (fun _ => svc_pick svc) in
  let '(target, svc) := r in
  put_service i svc ;;; ret target.

(** server.c:264-270 [gw_alloc_id] on the gateway's table. *)
Definition alloc_id (p : conn_ptr) : M (option Z) :=
  let* r := load (fun g => gw_alloc_id (g_slots g) p) in
  match r with
  | None => ret None
  | Some (id, t) => modify (fun g => g <| g_slots := t |>) ;;; ret (Some id)
  end.

(** server.c:770-793 [gw_forward] *)
Definition gw_forward (p : conn_ptr) (req : ntc_request) (svc : nat) : M Z :=
  let* target := pick_target svc in
  match target with
  | None => respond_and_flush p 503 (qs "{'error':'service unavailable'}")
  | Some k =>
      let* ok := ask_alloc in
      if negb ok then respond_and_flush p 500 (qs "{'error':'oom'}") else
      let cap := (NTC_CONN_RBUF + 1024)%nat in
      let* e := load (fun _ => ntc_wire_encode_request req (replicate cap 0) cap) in
      let '(enc, pl) := e in
      if pl <? 0 then respond_and_flush p 500 (qs "{'error':'encode failed'}") else
      let* id := alloc_id p in
      match id with
      | None => respond_and_flush p 503 (qs "{'error':'too many in-flight'}")
      | Some id =>
          let* ok := ctrl_queue k NTC_MSG_REQUEST id (take (Z.to_nat pl) enc) in
          if negb ok then
            free_slot (slot_of id) ;;; respond_and_flush p 503 (qs "{'error':'queue full'}")
          else
            upd_conn p (fun c => c <| c_state := CS_WAIT |> <| c_req_id := id |>
                                   <| c_inflight := true |> <| c_wait_ctrl := Some k |>) ;;;
            let* _ := ctrl_update_poll k in ret 0
      end
  end.

(** server.c:668-672 [gw_ws_upgrade, head]. [head] is a 256-byte array. *)
Definition ws_upgrade_head (accept : bytes) : bytes :=
  snprintf 256 (bs "HTTP/1.1 101 Switching Protocols" ++ crlf ++ bs "Upgrade: websocket" ++ crlf ++
                bs "Connection: Upgrade" ++ crlf ++ bs "Sec-WebSocket-Accept: " ++ cstr accept ++
                crlf ++ crlf).

(** server.c:633-676 [gw_ws_upgrade] *)
Definition gw_ws_upgrade (p : conn_ptr) (req : ntc_request) (svc : nat) : M Z :=
  let* c := get_conn p in
  match c_tls c with Some _ => respond_and_flush p 400 (qs "{'error':'wss not supported yet'}") | None =>
  let* target := pick_target svc in
  match target with None => respond_and_flush p 503 (qs "{'error':'service unavailable'}") | Some k =>
  let key := default [] (ntc_http_header req (bs "sec-websocket-key")) in
  if (length key =? 0)%nat || (64 <? length key)%nat
  then respond_and_flush p 400 (qs "{'error':'missing Sec-WebSocket-Key'}") else
  let* accept := load (fun _ => ntc_ws_accept_key br_sha1 key 40) in
  let* ok := ask_alloc in
  if negb ok then respond_and_flush p 500 (qs "{'error':'oom'}") else
  let cap := (NTC_CONN_RBUF + 1024)%nat in
  let* e := load (fun _ => ntc_wire_encode_request req (replicate cap 0) cap) in
  let '(enc, pl) := e in
  if pl <? 0 then respond_and_flush p 500 (qs "{'error':'encode failed'}") else
  let* id := alloc_id p in
  match id with None => respond_and_flush p 503 (qs "{'error':'too many in-flight'}") | Some id =>
  let* ok := ctrl_queue k NTC_MSG_WS_OPEN id (take (Z.to_nat pl) enc) in
  if negb ok then
    free_slot (slot_of id) ;;; respond_and_flush p 503 (qs "{'error':'queue full'}")
  else
  let* _ := ctrl_update_poll k in
  upd_conn p (fun c => c <| c_req_id := id |> <| c_inflight := true |> <| c_wait_ctrl := Some k |>
    <| c_is_ws := true |> <| c_streaming := true |> <| c_stream_head_sent := true |>
    <| c_state := CS_WS |> <| c_rbuf := [] |>) ;;;
  let* mw := gets g_access_log in
  (if negb (c_is_admin c) && negb (c_logged c) && bool_decide (mw <> None) then
     ntc_mw_after (c_log_method c) (c_log_path c) (c_request_id c) 101 ;;;
     upd_conn p (fun c => c <| c_logged := true |>)
   else ret tt) ;;;
  stream_push p (ws_upgrade_head accept)
  end end end.

(** ** Controllers *)

(** server.c:688-697 [controller_died, in-flight loop]. The same loop is in
    [dev_teardown_slot], with another body. *)
Fixpoint fail_inflight (slots : list nat) (k : ctrl_ptr) (json : bytes) : M unit :=
  match slots with
  | [] => ret tt
  | i :: slots =>
      let* c := load (fun g => pending (g_slots g) !! i) in
      match c with
      | None => fail_inflight slots k json
      | Some p =>
          let* c := get_conn p in
          if negb (bool_decide (c_wait_ctrl c = Some k)) then fail_inflight slots k json else
          free_slot i ;;;
          upd_conn p (fun c => c <| c_inflight := false |>) ;;;
          (if c_stream_head_sent c then conn_close p
           else let* _ := respond_and_flush p 502 json in ret tt) ;;;
          fail_inflight slots k json
      end
  end.

(** server.c:1604-1607 [svc_slot_of]. [None] is -1. *)
Fixpoint svc_slot_of (conns : list (option ctrl_ptr)) (k : ctrl_ptr) : option nat :=
  match conns with
  | [] => None
  | c :: conns => if bool_decide (c = Some k) then Some 0%nat else S <$> svc_slot_of conns k
  end.

(** server.c:704-706 [controller_died, backoff] *)
Definition next_backoff (b : Z) : Z :=
  let b := if b =? 0 then NTC_BACKOFF_BASE else b * 2 in
  if NTC_BACKOFF_MAX <? b then NTC_BACKOFF_MAX else b.

(** server.c:699-709 [controller_died, service] *)
Definition slot_died (i : nat) (k : ctrl_ptr) : M unit :=
  let* svc := get_service i in
  match svc_slot_of (s_conns svc) k with
  | None => ret tt
  | Some s =>
      let* b := load (fun _ => s_backoff_ms svc !! s) in
      let* _ := load (fun _ => s_restart_at svc !! s) in
      let* now := gets g_now in
      put_service i (svc <| s_conns := <[s := None]> (s_conns svc) |>
        <| s_restart_count := s_restart_count svc + 1 |>
        <| s_backoff_ms := <[s := next_backoff b]> (s_backoff_ms svc) |>
        <| s_restart_at := <[s := now + next_backoff b]> (s_restart_at svc) |>)
  end.

(** server.c:711-712 [controller_died, free]. The address is free afterwards. *)
Definition free_ctrl (k : ctrl_ptr) : M unit :=
  let* _ := get_ctrl k in modify (fun g => g <| g_ctrls := delete k (g_ctrls g) |>).

(** server.c:680-713 [controller_died] *)
Definition controller_died (k : ctrl_ptr) : M unit :=
  let* ct := get_ctrl k in
  ntc_poller_del (k_fd ct) ;;;
  fail_inflight (seq 0 NTC_MAX_INFLIGHT) k (qs "{'error':'controller died'}") ;;;
  (match k_svc ct with Some i => slot_died i k | None => ret tt end) ;;;
  free_ctrl k.

(** server.c:715-726 [on_ctrl_writable] *)
Definition on_ctrl_writable (k : ctrl_ptr) : M unit :=
  let* ct := get_ctrl k in
  let* outs := gets g_sends in
  let '(how, sent, outs) := send_loop outs (length (k_wbuf ct)) (k_wsent ct) in
  modify (fun g => g <| g_sends := outs |>
    <| g_ctrl_sent := <[k := default [] (g_ctrl_sent g !! k) ++
                             take (sent - k_wsent ct) (drop (k_wsent ct) (k_wbuf ct))]> (g_ctrl_sent g) |>) ;;;
  put_ctrl k (ct <| k_wsent := sent |>) ;;;
  match how with
  | DrainError => controller_died k
  | _ =>
      (if (length (k_wbuf ct) <=? sent)%nat
       then put_ctrl k (ct <| k_wsent := 0%nat |> <| k_wbuf := [] |>) else ret tt) ;;;
      let* _ := ctrl_update_poll k in ret tt
  end.

(** server.c:729-743 [on_ctrl_readable, recv loop] *)
Fixpoint ctrl_recv (ins : list recv_outcome) (k : ctrl_ptr) : M recv_end :=
  let* ct := get_ctrl k in
  let* cap := buf_reserve (k_rcap ct) (Z.of_nat (length (k_rbuf ct)) + 16384) in
  match cap with
  | None => modify (fun g => g <| g_recvs := ins |>) ;;; ret RecvEndError
  | Some ncap =>
      put_ctrl k (ct <| k_rcap := ncap |>) ;;;
      match ins with
      | [] => modify (fun g => g <| g_recvs := [] |>) ;;; ret RecvEndAgain
      | RecvData d :: ins =>
          let d := take (Z.to_nat ncap - length (k_rbuf ct)) d in
          if (length d =? 0)%nat then modify (fun g => g <| g_recvs := ins |>) ;;; ret RecvEndEof else
          put_ctrl k (ct <| k_rcap := ncap |> <| k_rbuf := k_rbuf ct ++ d |>) ;;;
          if NTC_CTRL_MAX_RBUF <? Z.of_nat (length (k_rbuf ct ++ d))
          then modify (fun g => g <| g_recvs := ins |>) ;;; ret RecvEndFull
          else ctrl_recv ins k
      | RecvEINTR :: ins => ctrl_recv ins k
      | RecvEAGAIN :: ins => modify (fun g => g <| g_recvs := ins |>) ;;; ret RecvEndAgain
      | RecvError :: ins => modify (fun g => g <| g_recvs := ins |>) ;;; ret RecvEndError
      end
  end.

(** server.c:750-758 [on_ctrl_readable, switch] *)
Definition deliver_frame (h : ntc_wire_header) (pl : bytes) : M unit :=
  let id := wh_request_id h in
  if wh_type h =? NTC_MSG_RESPONSE then gw_deliver id pl
  else if wh_type h =? NTC_MSG_RESPONSE_BEGIN then gw_deliver_begin id pl
  else if wh_type h =? NTC_MSG_RESPONSE_CHUNK then gw_deliver_chunk id pl
  else if wh_type h =? NTC_MSG_RESPONSE_END then gw_deliver_end id
  else if wh_type h =? NTC_MSG_WS_MSG then gw_ws_deliver id pl
  else if wh_type h =? NTC_MSG_WS_CLOSE then gw_ws_deliver_close id
  else ret tt.

(** server.c:744-760 [on_ctrl_readable, frame loop]. [None] is the -1 result: the
    controller is gone. *)
Fixpoint ctrl_frames (fuel : nat) (k : ctrl_ptr) (off : nat) : M (option nat) :=
  match fuel with
  | O => fault
  | S f =>
      let* ct := get_ctrl k in
      let* r := load (fun _ => ntc_wire_read_frame (drop off (k_rbuf ct))) in
      match r with
      | FrameIncomplete => ret (Some off)
      | FrameMalformed => controller_died k ;;; ret None
      | FrameOk h pl consumed => deliver_frame h pl ;;; ctrl_frames f k (off + consumed)
      end
  end.

(** server.c:728-763 [on_ctrl_readable] *)
Definition on_ctrl_readable (k : ctrl_ptr) : M Z :=
  let* ins := gets g_recvs in
  let* how := ctrl_recv ins k in
  match how with
  | RecvEndFull | RecvEndEof | RecvEndError => controller_died k ;;; ret (-1)
  | RecvEndAgain =>
      let* ct := get_ctrl k in
      let* r := ctrl_frames (S (length (k_rbuf ct))) k 0 in
      match r with
      | None => ret (-1)
      | Some off =>
          if (0 <? off)%nat then
            let* ct := get_ctrl k in
            put_ctrl k (ct <| k_rbuf := drop off (k_rbuf ct) |>) ;;; ret 0
          else ret 0
      end
  end.

(** server.c:1498-1504 [on_wait_readable]. [n > 0] bytes are discarded. *)
Definition on_wait_readable (p : conn_ptr) : M unit :=
  let* ins := gets g_recvs in
  match ins with
  | [] => ret tt
  | o :: ins =>
      modify (fun g => g <| g_recvs := ins |>) ;;;
      match o with
      | RecvData d => if (length d =? 0)%nat then conn_close p else ret tt
      | RecvEINTR | RecvEAGAIN => ret tt
      | RecvError => conn_close p
      end
  end.
End relay.
