(* ===== verification/ServerInv.v ===== *)
(** * The gateway's invariant

    What holds between events: the slot table and the connections agree on who is in
    flight, every in-flight connection waits for a controller that exists, services only
    name controllers that exist, and every buffer is within its bounds.  The rules below
    carry it through the primitives; [ServerConn] and [ServerRelay] are verified with them. *)
From S2P Require Import Prelude Update Err Slice Http Wire Inflight ServerState ServerConn.
Open Scope Z_scope.

Create HintDb noise.

(** What the gateway relies on of the TLS engine: it consumes at most what it is given, and
    returns at most the bytes it was asked for. *)
Class TlsLaws (tls : Type) {TE : TlsEngine tls} : Prop := {
  tls_send_bound t d : fst (ntc_tls_send t d) <= Z.of_nat (length d);
  tls_recv_bound t n d t' : ntc_tls_recv t n = (Some d, t') -> (length d <= n)%nat /\ bytes_ok d }.

Lemma conn_rbuf_Z : Z.of_nat NTC_CONN_RBUF = 65536.
Proof. unfold NTC_CONN_RBUF. rewrite Nat2Z.inj_mul. reflexivity. Qed.
#[global] Opaque NTC_CONN_RBUF.

Section inv.
  Context {tls : Type}.
  Implicit Types (g : gateway tls) (c : conn tls) (ct : ctrl) (p q : conn_ptr) (k : ctrl_ptr).

(** A connection's buffers; one that is reading its request is idle. *)
Record conn_ok c : Prop := ConnOk {
  ok_extra : (length (c_extra_headers c) <= 511)%nat;
  ok_rbuf : (length (c_rbuf c) <= NTC_CONN_RBUF)%nat /\ bytes_ok (c_rbuf c);
  ok_swsent : (c_swsent c <= length (c_swbuf c))%nat;
  ok_swcap : Z.of_nat (length (c_swbuf c)) <= c_swcap c <= ADDRESS_SPACE;
  ok_backpressure : Z.of_nat (length (c_swbuf c)) <= NTC_STREAM_MAX_BUF;
  ok_reading : c_state c = CS_READ -> c_inflight c = false /\ c_streaming c = false }.

(** A controller's buffers. *)
Record ctrl_ok ct : Prop := CtrlOk {
  ok_krbuf : Z.of_nat (length (k_rbuf ct)) <= k_rcap ct <= ADDRESS_SPACE;
  ok_kbytes : bytes_ok (k_rbuf ct);
  ok_kwbuf : Z.of_nat (length (k_wbuf ct)) <= k_wcap ct <= ADDRESS_SPACE }.

(** A service: eight replica slots, of which at most [replicas] are in use by [svc_pick],
    each its own controller; a slot's backoff is none or within its bounds. *)
Record service_ok (svc : service) : Prop := ServiceOk {
  ok_shape : length (s_conns svc) = NTC_MAX_REPLICAS /\ length (s_restart_at svc) = NTC_MAX_REPLICAS /\
             length (s_spawned_at svc) = NTC_MAX_REPLICAS /\ length (s_backoff_ms svc) = NTC_MAX_REPLICAS;
  ok_replicas : s_replicas svc <= Z.of_nat NTC_MAX_REPLICAS;
  ok_rr : 0 <= s_rr svc < 2 ^ 30;
  ok_backoff : Forall (fun b => b = 0 \/ NTC_BACKOFF_BASE <= b <= NTC_BACKOFF_MAX) (s_backoff_ms svc);
  ok_unique : forall s s' k, s_conns svc !! s = Some (Some k) -> s_conns svc !! s' = Some (Some k) -> s = s' }.

Definition recv_ok (o : recv_outcome) : Prop :=
  match o with RecvData d => bytes_ok d | _ => True end.

Definition waits_live g c : Prop := exists k, c_wait_ctrl c = Some k /\ is_Some (g_ctrls g !! k).

Record gw_wf g : Prop := GwWf {
  wf_slots : slots_wf (g_slots g);
  wf_linked : forall s p, pending (g_slots g) !! s = Some (Some p) <->
    exists c, g_conns g !! p = Some c /\ c_inflight c = true /\ slot_of (c_req_id c) = s;
  wf_waits : map_Forall (fun _ c => c_inflight c = true -> waits_live g c) (g_conns g);
  wf_conns : map_Forall (fun _ c => conn_ok c) (g_conns g);
  wf_ctrls : map_Forall (fun _ ct => ctrl_ok ct) (g_ctrls g);
  wf_services : Forall service_ok (g_services g);
  wf_replicas : forall i svc s k, g_services g !! i = Some svc -> s_conns svc !! s = Some (Some k) ->
    exists ct, g_ctrls g !! k = Some ct /\ k_svc ct = Some i;
  wf_owned : forall k ct i, g_ctrls g !! k = Some ct -> k_svc ct = Some i -> is_Some (g_services g !! i);
  wf_recvs : Forall recv_ok (g_recvs g) }.

(** What an operation on one connection leaves alone: the other connections and what was
    sent to them, the services,
    and of each controller everything but its output. *)
Definition same_ctrl ct ct' : Prop :=
  k_fd ct' = k_fd ct /\ k_pid ct' = k_pid ct /\ k_svc ct' = k_svc ct /\ k_rbuf ct' = k_rbuf ct /\
  k_rcap ct' = k_rcap ct /\ k_wsent ct' = k_wsent ct /\ k_wbuf ct `prefix_of` k_wbuf ct'.
Definition ctrls_frame g g' : Prop :=
  g_services g' = g_services g /\
  (forall k, is_Some (g_ctrls g' !! k) -> is_Some (g_ctrls g !! k)) /\
  (forall k ct, g_ctrls g !! k = Some ct -> exists ct', g_ctrls g' !! k = Some ct' /\ same_ctrl ct ct').
Definition others_frame p g g' : Prop :=
  (forall q, q <> p -> g_conns g' !! q = g_conns g !! q /\ g_sent g' !! q = g_sent g !! q) /\
  ctrls_frame g g'.

(** Whether a connection is encrypted, which never changes. *)
Definition has_tls c : bool := match c_tls c with Some _ => true | None => false end.

(** Fields that tie a connection to the table and to a controller. *)
Definition same_link c c' : Prop :=
  c_inflight c' = c_inflight c /\ c_req_id c' = c_req_id c /\ c_wait_ctrl c' = c_wait_ctrl c /\
  c_fd c' = c_fd c /\ has_tls c' = has_tls c.

(** And of the connection itself, its ties; closing it is the one way to cut them. *)
Definition conn_frame p g g' : Prop :=
  others_frame p g g' /\
  (forall c', g_conns g' !! p = Some c' -> exists c, g_conns g !! p = Some c /\ same_link c c').

(** Connection [p] is [c] and has been sent [s], or is gone, in a well-formed state reached
    from [g0] by operations on it alone. *)
Record live p c s g0 g : Prop := Live {
  lv_wf : gw_wf g; lv_conn : g_conns g !! p = Some c; lv_sent : default [] (g_sent g !! p) = s;
  lv_frame : conn_frame p g0 g; lv_slots : g_slots g = g_slots g0 }.
Record dead p s g0 g : Prop := Dead {
  dd_wf : gw_wf g; dd_conn : g_conns g !! p = None; dd_sent : default [] (g_sent g !! p) = s;
  dd_frame : conn_frame p g0 g }.

(** The contract of the operations that may close their connection: 0 and it is still
    there, or -1 and it is gone. *)
Definition open_or_closed p g0 (r : Z) g : Prop :=
  (r = 0 /\ exists c s, live p c s g0 g) \/ (r = -1 /\ exists s, dead p s g0 g).

(** The states an operation may not change at all. *)
Record same_core g g' : Prop := SameCore {
  sc_slots : g_slots g' = g_slots g; sc_conns : g_conns g' = g_conns g;
  sc_ctrls : g_ctrls g' = g_ctrls g; sc_services : g_services g' = g_services g;
  sc_sent : g_sent g' = g_sent g;
  sc_recvs : Forall recv_ok (g_recvs g) -> Forall recv_ok (g_recvs g') }.

(** An operation on the clock, the environment's answers, the poller, the log or the
    metrics only. *)
Definition noise {A} (m : St (gateway tls) A) : Prop :=
  forall g, exists a g', m g = Some (a, g') /\ same_core g g'.

(** ** Frames *)

Lemma same_ctrl_refl ct : same_ctrl ct ct.
Proof. done. Qed.

Lemma same_ctrl_trans ct1 ct2 ct3 : same_ctrl ct1 ct2 -> same_ctrl ct2 ct3 -> same_ctrl ct1 ct3.
Proof.
  intros (?&?&?&?&?&?&?) (?&?&?&?&?&?&?). split_and!; try congruence. by etrans.
Qed.

Lemma ctrls_frame_refl g : ctrls_frame g g.
Proof. split_and!; [done|done|]. intros k ct ->. by exists ct. Qed.

Lemma ctrls_frame_trans g1 g2 g3 : ctrls_frame g1 g2 -> ctrls_frame g2 g3 -> ctrls_frame g1 g3.
Proof.
  intros (S1 & D1 & F1) (S2 & D2 & F2). split_and!; [congruence|auto|].
  intros k ct H. destruct (F1 k ct H) as (ct' & H' & E). destruct (F2 k ct' H') as (ct'' & H'' & E').
  exists ct''. split; [done|]. by eapply same_ctrl_trans.
Qed.

Lemma same_link_refl c : same_link c c.
Proof. done. Qed.

Lemma same_link_trans c1 c2 c3 : same_link c1 c2 -> same_link c2 c3 -> same_link c1 c3.
Proof. unfold same_link. intuition congruence. Qed.

Lemma others_frame_refl p g : others_frame p g g.
Proof. split; [done|apply ctrls_frame_refl]. Qed.

Lemma others_frame_trans p g1 g2 g3 :
  others_frame p g1 g2 -> others_frame p g2 g3 -> others_frame p g1 g3.
Proof.
  intros [C1 F1] [C2 F2]. split; [|by eapply ctrls_frame_trans].
  intros q Hq. destruct (C1 q Hq), (C2 q Hq). split; congruence.
Qed.

Lemma conn_frame_refl p g : conn_frame p g g.
Proof. split; [apply others_frame_refl|]. intros c ->. by exists c. Qed.

Lemma conn_frame_trans p g1 g2 g3 : conn_frame p g1 g2 -> conn_frame p g2 g3 -> conn_frame p g1 g3.
Proof.
  intros [O1 L1] [O2 L2]. split; [by eapply others_frame_trans|].
  intros c3 H3. destruct (L2 c3 H3) as (c2 & H2 & E2). destruct (L1 c2 H2) as (c1 & H1 & E1).
  exists c1. split; [done|]. by eapply same_link_trans.
Qed.

Lemma same_core_frame p g g' : same_core g g' -> conn_frame p g g'.
Proof.
  intros [_ Hc Hk Hs He _]. split; [split; [by rewrite Hc, He|]|intros c'; rewrite Hc; by exists c'].
  split_and!; [done|by rewrite Hk|]. intros k ct. rewrite Hk. intros H. by exists ct.
Qed.

Lemma same_core_wf g g' : same_core g g' -> gw_wf g -> gw_wf g'.
Proof.
  intros [Es Ec Ek Ev _ Er] []. split; try (rewrite ?Es, ?Ec, ?Ek, ?Ev; done); [|auto].
  rewrite Ec. intros p c Hc Hi. unfold waits_live. rewrite Ek. by apply (wf_waits0 p c).
Qed.

Lemma live_start p c g :
  gw_wf g -> g_conns g !! p = Some c -> live p c (default [] (g_sent g !! p)) g g.
Proof. intros. split; [done..|apply conn_frame_refl|done]. Qed.

Lemma live_core p c s g0 g g' : live p c s g0 g -> same_core g g' -> live p c s g0 g'.
Proof.
  intros [W C E F] S.
  split; [by eapply same_core_wf|by rewrite (sc_conns _ _ S)|by rewrite (sc_sent _ _ S)| |].
  - eapply conn_frame_trans; [done|by apply same_core_frame].
  - by rewrite (sc_slots _ _ S).
Qed.

Lemma live_ok p c s g0 g : live p c s g0 g -> conn_ok c.
Proof. intros [W C _]. exact (wf_conns _ W p c C). Qed.

(** ** Rules for the primitives *)

Lemma wp_noise {A} (m : St (gateway tls) A) p c s g0 g Q :
  noise m -> live p c s g0 g -> (forall a g', live p c s g0 g' -> Q a g') -> wp m Q g.
Proof.
  intros Hn Hl HQ. destruct (Hn g) as (a & g' & E & S). exists a, g'. split; [done|].
  apply HQ. by eapply live_core.
Qed.

Lemma wp_get_conn p c s g0 g Q : live p c s g0 g -> Q c g -> wp (get_conn p) Q g.
Proof. intros [_ E _ _] HQ. by eapply wp_load. Qed.

(** Replacing a connection by one with the same ties and sound buffers. *)
Lemma wf_put_conn g p c c' :
  gw_wf g -> g_conns g !! p = Some c -> conn_ok c' -> same_link c c' ->
  gw_wf (g <| g_conns := <[p := c']> (g_conns g) |>).
Proof.
  intros [] Hc Hok (Hi & Hr & Hw & _). split; cbn; try done.
  - intros s q. rewrite wf_linked0. destruct (decide (q = p)) as [->|Hne].
    + rewrite lookup_insert_eq. split.
      * intros (c1 & E & ? & ?). exists c'. rewrite Hc in E. injection E as <-.
        split_and!; [done|congruence|congruence].
      * intros (c1 & [= <-] & ? & ?). exists c. split_and!; [done|congruence|congruence].
    + by rewrite lookup_insert_ne.
  - apply map_Forall_insert_2; [|done]. intros Hi'. rewrite Hi in Hi'.
    destruct (wf_waits0 p c Hc Hi') as (k & ? & ?). exists k. split; [congruence|done].
  - by apply map_Forall_insert_2.
Qed.

Lemma wp_put_conn p c c' s g0 g (Q : unit -> gateway tls -> Prop) :
  live p c s g0 g -> conn_ok c' -> same_link c c' ->
  (forall g', live p c' s g0 g' -> Q tt g') -> wp (put_conn p c') Q g.
Proof.
  intros [W C E F] Hok Hl HQ.
  apply (wp_store _ (g <| g_conns := <[p := c']> (g_conns g) |>)); [cbv beta; by rewrite C|]. apply HQ. split.
  - by eapply wf_put_conn.
  - cbn. apply lookup_insert_eq.
  - done.
  - eapply conn_frame_trans; [eassumption|]. split; [split; [|exact (ctrls_frame_refl g)]|].
    + intros q Hq. cbn. by rewrite lookup_insert_ne.
    + cbn. intros c1. rewrite lookup_insert_eq. intros [= <-]. by exists c.
  - done.
Qed.

Lemma wp_upd_conn p c f s g0 g (Q : unit -> gateway tls -> Prop) :
  live p c s g0 g -> conn_ok (f c) -> same_link c (f c) ->
  (forall g', live p (f c) s g0 g' -> Q tt g') -> wp (upd_conn p f) Q g.
Proof.
  intros H Hok Hl HQ. apply wp_bnd. eapply wp_get_conn; [done|]. by eapply wp_put_conn.
Qed.

(** A controller's output may change while everything else it is stays. *)
Lemma wf_put_ctrl g k ct ct' :
  gw_wf g -> g_ctrls g !! k = Some ct -> ctrl_ok ct' -> k_svc ct' = k_svc ct ->
  gw_wf (g <| g_ctrls := <[k := ct']> (g_ctrls g) |>).
Proof.
  intros [] Hk Hok Hs. split; cbn; try done.
  - intros p c Hc Hi. destruct (wf_waits0 p c Hc Hi) as (k' & Ek & Hex). exists k'. split; [done|].
    cbn. destruct (decide (k' = k)) as [->|]; [by rewrite lookup_insert_eq|by rewrite lookup_insert_ne].
  - by apply map_Forall_insert_2.
  - intros i svc s k' Hsvc Hsk. destruct (wf_replicas0 i svc s k' Hsvc Hsk) as (ct1 & E1 & E2).
    destruct (decide (k' = k)) as [->|]; [|exists ct1; by rewrite lookup_insert_ne].
    exists ct'. rewrite lookup_insert_eq. split; [done|]. congruence.
  - intros k1 ct1 i. destruct (decide (k1 = k)) as [->|].
    + rewrite lookup_insert_eq. intros [= <-]. rewrite Hs. by eapply wf_owned0.
    + rewrite lookup_insert_ne by done. apply (wf_owned0 k1).
Qed.

Lemma put_ctrl_frame g k ct ct' :
  g_ctrls g !! k = Some ct -> same_ctrl ct ct' ->
  ctrls_frame g (g <| g_ctrls := <[k := ct']> (g_ctrls g) |>).
Proof.
  intros Hk Hs. split_and!; [done| |].
  - intros k'. cbn. destruct (decide (k' = k)) as [->|]; [by rewrite Hk|by rewrite lookup_insert_ne].
  - intros k' ct1 H1. cbn. destruct (decide (k' = k)) as [->|].
    + rewrite lookup_insert_eq. rewrite H1 in Hk. injection Hk as ->. by exists ct'.
    + rewrite lookup_insert_ne by done. by exists ct1.
Qed.

Lemma wp_get_ctrl k ct g Q : g_ctrls g !! k = Some ct -> Q ct g -> wp (get_ctrl k) Q g.
Proof. intros. by eapply wp_load. Qed.

(** ** Operations that change nothing of the core *)

Lemma wp_noise_core {A} (m : St (gateway tls) A) g Q :
  noise m -> (forall a g', same_core g g' -> Q a g') -> wp m Q g.
Proof. intros Hn HQ. destruct (Hn g) as (a & g' & E & S). exists a, g'. auto. Qed.

Lemma noise_modify (f : gateway tls -> gateway tls) :
  (forall g, same_core g (f g)) -> noise (modify f).
Proof. intros H g. by exists tt, (f g). Qed.

Lemma noise_ask_alloc : noise (ask_alloc : St (gateway tls) _).
Proof.
  intros g. unfold ask_alloc, bnd, gets. destruct (g_allocs g) as [|b l].
  - by exists true, g.
  - by exists b, (g <| g_allocs := l |>).
Qed.

Lemma noise_ask_poll : noise (ask_poll : St (gateway tls) _).
Proof.
  intros g. unfold ask_poll, bnd, gets. destruct (g_polls g) as [|b l].
  - by exists true, g.
  - by exists b, (g <| g_polls := l |>).
Qed.

Lemma noise_poller_mod fd ev t : noise (ntc_poller_mod fd ev t : St (gateway tls) _).
Proof.
  intros g. destruct (noise_ask_poll g) as (b & g' & E & [S C K V T R]).
  unfold ntc_poller_mod, bnd. rewrite E. destruct b.
  - by exists true, (g' <| g_interest := <[fd := (ev, t)]> (g_interest g') |>).
  - by exists false, g'.
Qed.

Lemma noise_poller_del fd : noise (ntc_poller_del fd : St (gateway tls) _).
Proof. by apply noise_modify. Qed.

Lemma noise_rec_status st : noise (rec_status st : St (gateway tls) _).
Proof. by apply noise_modify. Qed.

Lemma noise_mw_after m u r st : noise (ntc_mw_after m u r st : St (gateway tls) _).
Proof. apply noise_modify. intros g. by destruct (g_access_log g) as [[]|]. Qed.

Lemma noise_set_sends l : noise (modify (fun g => g <| g_sends := l |>) : St (gateway tls) _).
Proof. by apply noise_modify. Qed.

(** Bytes given to the connection's socket or TLS engine. *)
Lemma wp_record_sent p c s g0 g d (Q : unit -> gateway tls -> Prop) :
  live p c s g0 g -> (forall g', live p c (s ++ d) g0 g' -> Q tt g') -> wp (record_sent p d) Q g.
Proof.
  intros [W C E F] HQ. apply wp_modify, HQ. split; [by destruct W|done| | |done].
  - cbn. by rewrite lookup_insert_eq, E.
  - eapply conn_frame_trans; [eassumption|].
    split; [split; [|exact (ctrls_frame_refl g)]|by eauto using same_link_refl].
    intros q Hq. cbn. by rewrite lookup_insert_ne.
Qed.

(** ** Buffers *)

Lemma grow_cap_spec fuel ncap need :
  0 < ncap -> need <= 2 ^ 49 -> need <= ncap * 2 ^ Z.of_nat fuel -> (0 < fuel)%nat ->
  exists n, grow_cap (S fuel) ncap need = Some n /\ need <= n /\ ncap <= n.
Proof.
  revert ncap. induction fuel as [|fuel IH]; intros ncap Hn Hneed Hf Hfuel; [lia|].
  cbn [grow_cap]. destruct (Z.ltb_spec ncap need) as [Hlt|Hge]; [|eexists; split; [done|lia]].
  assert (u64 (ncap * 2) = ncap * 2) as Hu by (unfold u64; rewrite Z.mod_small; lia).
  rewrite Hu. destruct fuel as [|fuel].
  - cbn [grow_cap]. change (2 ^ Z.of_nat 1) with 2 in Hf.
    rewrite (proj2 (Z.ltb_ge _ _)) by lia. eexists. split; [done|lia].
  - rewrite (Nat2Z.inj_succ (S fuel)), Z.pow_succ_r in Hf by lia.
    destruct (IH (ncap * 2)) as (n & E & ? & ?); [lia|lia|lia|lia|].
    exists n. split; [exact E|lia].
Qed.

(** Growing a buffer: what it gives covers the need and is an allocation that exists. *)
Lemma wp_buf_reserve cap need g (Q : option Z -> gateway tls -> Prop) :
  0 <= cap <= ADDRESS_SPACE -> need <= 2 ^ 48 ->
  (forall r l, match r with Some n => need <= n <= ADDRESS_SPACE /\ cap <= n | None => True end ->
    Q r (g <| g_allocs := l |>)) -> wp (buf_reserve cap need) Q g.
Proof.
  intros Hc Hn HQ. unfold buf_reserve. destruct (Z.leb_spec need cap) as [Hle|Hgt].
  { apply wp_ret. destruct g. apply (HQ (Some cap)). lia. }
  assert (exists n, grow_cap 64 (if cap =? 0 then 4096 else cap) need = Some n /\ need <= n /\ cap <= n)
    as (n & E & ? & ?).
  { unfold ADDRESS_SPACE in Hc.
    destruct (grow_cap_spec 63 (if cap =? 0 then 4096 else cap) need) as (n & E & ? & ?).
    all: try (destruct (Z.eqb_spec cap 0); cbn; lia).
    exists n. split; [exact E|]. destruct (Z.eqb_spec cap 0); lia. }
  apply wp_bnd, (wp_load _ n); [exact E|]. apply wp_bnd.
  assert (exists b l, ask_alloc g = Some (b, g <| g_allocs := l |>)) as (b & l & Ea).
  { unfold ask_alloc, bnd, gets. destruct g as [? ? ? ? ? ? ? ? ? ? ? ? ? [|b l] ?]; cbn; by eauto. }
  exists b, (g <| g_allocs := l |>). split; [exact Ea|]. apply wp_ret, HQ.
  destruct (Z.leb_spec n ADDRESS_SPACE); destruct b; cbn; try done.
Qed.

Lemma length_write_header ty rid n : length (ntc_wire_write_header ty rid n) = NTC_WIRE_HEADER_LEN.
Proof. reflexivity. Qed.

(** Queueing a frame: on success it is behind what was queued. *)
Lemma wp_ctrl_queue k ct type rid pl g (Q : bool -> gateway tls -> Prop) :
  g_ctrls g !! k = Some ct -> ctrl_ok ct ->
  (forall b ct' l, ctrl_ok ct' -> same_ctrl ct ct' ->
    (b = true -> Z.of_nat (length pl) < 2 ^ 32 -> k_wsent ct' = k_wsent ct /\ k_wbuf ct' = k_wbuf ct ++
       ntc_wire_write_header type rid (Z.of_nat (length pl)) ++ pl) ->
    (b = false -> ct' = ct) ->
    Q b (g <| g_allocs := l |> <| g_ctrls := <[k := ct']> (g_ctrls g) |>)) ->
  wp (ctrl_queue k type rid pl) Q g.
Proof.
  intros Hk Hok HQ. pose proof Hok as [Hr Hb Hw].
  assert (0 <= u32 (Z.of_nat (length pl)) < 2 ^ 32) as Hp by (apply Z.mod_pos_bound; lia).
  assert (Z.to_nat (u32 (Z.of_nat (length pl))) <= length pl)%nat as Hle.
  { unfold u32. pose proof (Z.mod_le (Z.of_nat (length pl)) (2 ^ 32)). lia. }
  unfold ctrl_queue. apply wp_bnd, (wp_get_ctrl k ct); [done|]. apply wp_bnd.
  apply wp_buf_reserve; [lia|unfold ADDRESS_SPACE, NTC_WIRE_HEADER_LEN in *; lia|].
  intros [n|] l Hn; [|apply wp_ret].
  - apply wp_bnd, wp_ensure.
    { apply Z.leb_le. rewrite length_app, length_write_header, length_take. lia. }
    apply wp_bnd. eapply (wp_store _ (_ <| g_ctrls := _ |>)); [cbv beta; cbn; by rewrite Hk|].
    apply wp_ret. apply HQ; [|split_and!; try done; by eapply prefix_app_r| |done].
    + split; cbn; [done|done|]. rewrite !length_app, length_write_header, length_take. lia.
    + intros _ Hlt. cbn. split; [done|]. unfold u32. rewrite Z.mod_small by lia.
      by rewrite Nat2Z.id, firstn_all.
  - replace (g <| g_allocs := l |>) with (g <| g_allocs := l |> <| g_ctrls := <[k := ct]> (g_ctrls g) |>).
    + by apply HQ.
    + cbn. by rewrite insert_id.
Qed.

(** ** Connections coming and going *)

(** [conns'] differs from the table of connections at [p] only, where it holds nothing or a
    connection that is not in flight. *)
Definition idle_change g p (conns' : gmap conn_ptr (conn tls)) : Prop :=
  (forall q, q <> p -> conns' !! q = g_conns g !! q) /\
  (forall c', conns' !! p = Some c' -> c_inflight c' = false /\ conn_ok c').

Lemma wf_idle g p conns' :
  gw_wf g -> (forall c, g_conns g !! p = Some c -> c_inflight c = false) ->
  idle_change g p conns' -> gw_wf (g <| g_conns := conns' |>).
Proof.
  intros [] Hidle [Ho Hp]. split; cbn; try done.
  - intros s q. rewrite wf_linked0. destruct (decide (q = p)) as [->|Hne]; [|by rewrite Ho].
    split; intros (c & Hc & Hi & _); exfalso.
    + rewrite (Hidle c Hc) in Hi. done.
    + rewrite (proj1 (Hp c Hc)) in Hi. done.
  - intros q c Hc Hi. destruct (decide (q = p)) as [->|Hne].
    + rewrite (proj1 (Hp c Hc)) in Hi. done.
    + rewrite Ho in Hc by done. by apply (wf_waits0 q c).
  - intros q c Hc. destruct (decide (q = p)) as [->|Hne]; [by apply Hp|].
    rewrite Ho in Hc by done. by apply (wf_conns0 q c).
Qed.

(** Freeing the slot of an in-flight connection that goes, or is in flight no more. *)
Lemma wf_unlink g p c conns' :
  gw_wf g -> g_conns g !! p = Some c -> c_inflight c = true -> idle_change g p conns' ->
  exists t, gw_free_slot (g_slots g) (slot_of (c_req_id c)) = Some t /\
    gw_wf (g <| g_slots := t |> <| g_conns := conns' |>).
Proof.
  intros W Hc Hi [Ho Hp]. pose proof W as [].
  assert (pending (g_slots g) !! slot_of (c_req_id c) = Some (Some p)) as Hpend
    by (apply wf_linked0; by exists c).
  destruct (slots_lookups _ _ wf_slots0 (pending_lt _ _ _ wf_slots0 Hpend)) as (? & gn & _ & Hg & _).
  destruct (free_spec _ _ _ _ wf_slots0 Hpend Hg) as (t & Ef & Wt & Ep & _).
  exists t. split; [done|]. split; cbn; try done.
  - intros s q. rewrite Ep. destruct (decide (s = slot_of (c_req_id c))) as [->|Hs].
    + rewrite list_lookup_insert_eq by (by apply lookup_lt_Some in Hpend). split; [done|].
      intros (c1 & Hc1 & Hi1 & Hs1). exfalso. destruct (decide (q = p)) as [->|Hne].
      * rewrite (proj1 (Hp c1 Hc1)) in Hi1. done.
      * rewrite Ho in Hc1 by done. assert (pending (g_slots g) !! slot_of (c_req_id c) = Some (Some q))
          by (apply wf_linked0; by exists c1). congruence.
    + rewrite list_lookup_insert_ne by done. rewrite wf_linked0.
      destruct (decide (q = p)) as [->|Hne]; [|by rewrite Ho].
      split; intros (c1 & Hc1 & Hi1 & Hs1); exfalso; [congruence|].
      rewrite (proj1 (Hp c1 Hc1)) in Hi1. done.
  - intros q c1 Hc1 Hi1. destruct (decide (q = p)) as [->|Hne].
    + rewrite (proj1 (Hp c1 Hc1)) in Hi1. done.
    + rewrite Ho in Hc1 by done. by apply (wf_waits0 q c1).
  - intros q c1 Hc1. destruct (decide (q = p)) as [->|Hne]; [by apply Hp|].
    rewrite Ho in Hc1 by done. by apply (wf_conns0 q c1).
Qed.

(** Taking a slot for an idle connection that goes in flight under its id. *)
Lemma wf_link g p c c' id t k ct :
  gw_wf g -> g_conns g !! p = Some c -> c_inflight c = false ->
  gw_alloc_id (g_slots g) p = Some (Some (id, t)) -> g_ctrls g !! k = Some ct ->
  c_inflight c' = true -> c_req_id c' = id -> c_wait_ctrl c' = Some k -> conn_ok c' ->
  gw_wf (g <| g_slots := t |> <| g_conns := <[p := c']> (g_conns g) |>).
Proof.
  intros [] Hc Hi Ha Hk Hi' Hid Hw Hok. pose proof (alloc_spec _ p wf_slots0) as H.
  case_decide; [congruence|]. destruct H as (slot & gn & t1 & Ha' & Wt & Hlt & Hnone & _ & Ep & _).
  destruct (make_id gn slot Hlt) as (Eid & _ & Hslot & _). rewrite Ha' in Ha.
  injection Ha as <- <-. rewrite <- Eid in Hid. rewrite <- Hid in Hslot. clear Ha' Eid.
  split; cbn; try done.
  - intros s q. rewrite Ep. destruct (decide (s = slot)) as [->|Hs].
    + rewrite list_lookup_insert_eq by (by apply lookup_lt_Some in Hnone). split.
      * intros [= <-]. exists c'. by rewrite lookup_insert_eq.
      * intros (c1 & Hc1 & Hi1 & Hs1). destruct (decide (q = p)) as [->|Hne]; [done|].
        rewrite lookup_insert_ne in Hc1 by done.
        assert (pending (g_slots g) !! slot = Some (Some q)) by (apply wf_linked0; by exists c1).
        congruence.
    + rewrite list_lookup_insert_ne by done. rewrite wf_linked0.
      destruct (decide (q = p)) as [->|Hne]; [|by rewrite lookup_insert_ne].
      rewrite lookup_insert_eq. split; [intros (c1 & Hc1 & Hi1 & _); congruence|].
      intros (c1 & [= <-] & _ & Hs1). congruence.
  - apply map_Forall_insert_2; [|done]. intros _. exists k. split; [done|]. cbn. by exists ct.
  - by apply map_Forall_insert_2.
Qed.

(** A slot taken and given back leaves the table of pending requests as it was. *)
Lemma alloc_free g p id t :
  gw_wf g -> gw_alloc_id (g_slots g) p = Some (Some (id, t)) ->
  exists t', gw_free_slot t (slot_of id) = Some t' /\ gw_wf (g <| g_slots := t' |>).
Proof.
  intros [] Ha. pose proof (alloc_spec _ p wf_slots0) as H. case_decide; [congruence|].
  destruct H as (slot & gn & t1 & Ha' & Wt & Hlt & Hnone & Hg & Ep & Eg).
  destruct (make_id gn slot Hlt) as (Eid & _ & Hslot & _). rewrite Ha' in Ha.
  injection Ha as <- <-. rewrite <- Eid, Hslot. rewrite <- Eg in Hg.
  assert (pending t1 !! slot = Some (Some p)) as Hp1
    by (rewrite Ep; apply list_lookup_insert_eq; by apply lookup_lt_Some in Hnone).
  destruct (free_spec _ _ _ _ Wt Hp1 Hg) as (t' & Ef & Wt' & Ep' & _).
  exists t'. split; [done|]. split; cbn; try done.
  intros s q. rewrite Ep', Ep, list_insert_insert_eq, <- wf_linked0.
  destruct (decide (s = slot)) as [->|Hs]; [|by rewrite list_lookup_insert_ne].
  rewrite list_lookup_insert_eq by (by apply lookup_lt_Some in Hnone). rewrite Hnone. done.
Qed.

(** ** Closing *)

Lemma live_ctrl p c s g0 g k : live p c s g0 g -> is_Some (g_ctrls g0 !! k) -> is_Some (g_ctrls g !! k).
Proof. intros [_ _ _ [[_ (_ & _ & F)] _]] [ct Hk]. destruct (F k ct Hk) as (ct' & ? & _). by exists ct'. Qed.

Lemma live_waits p c s g0 g : live p c s g0 g -> c_inflight c = true ->
  exists k, c_wait_ctrl c = Some k /\ is_Some (g_ctrls g0 !! k).
Proof.
  intros [W C _ [[_ (_ & D & _)] _]] Hi. destruct (wf_waits _ W p c C Hi) as (k & E & H).
  exists k. auto.
Qed.

(** Queueing for a controller does not change the connection. *)
Lemma wp_ctrl_queue_live p c s g0 g k type rid pl (Q : bool -> gateway tls -> Prop) :
  live p c s g0 g -> is_Some (g_ctrls g0 !! k) -> (forall b g', live p c s g0 g' -> Q b g') ->
  wp (ctrl_queue k type rid pl) Q g.
Proof.
  intros L Hk HQ. destruct (live_ctrl _ _ _ _ _ _ L Hk) as [ct Hct].
  pose proof L as [W C E F]. pose proof (wf_ctrls _ W k ct Hct) as Hok.
  eapply wp_ctrl_queue; [done..|]. intros b ct' l Hok' Hs _ _. apply HQ.
  assert (gw_wf (g <| g_allocs := l |>)) as W' by (by apply (same_core_wf g)).
  split; [|done|done| |done].
  - refine (wf_put_ctrl (g <| g_allocs := l |>) k ct ct' W' Hct Hok' _). apply Hs.
  - eapply conn_frame_trans; [eassumption|]. split; [split; [done|]|by eauto using same_link_refl].
    exact (put_ctrl_frame g k ct ct' Hct Hs).
Qed.

Lemma wp_update_poll p c s g0 g k (Q : bool -> gateway tls -> Prop) :
  live p c s g0 g -> is_Some (g_ctrls g0 !! k) -> (forall b g', live p c s g0 g' -> Q b g') ->
  wp (ctrl_update_poll k) Q g.
Proof.
  intros L Hk HQ. destruct (live_ctrl _ _ _ _ _ _ L Hk) as [ct Hct].
  apply wp_bnd, (wp_get_ctrl k ct); [done|]. eapply wp_noise; [apply noise_poller_mod|done|done].
Qed.

Lemma wp_ws_close_notice p c s g0 g (Q : unit -> gateway tls -> Prop) :
  live p c s g0 g -> (forall g', live p c s g0 g' -> Q tt g') -> wp (ws_close_notice c) Q g.
Proof.
  intros L HQ. unfold ws_close_notice. destruct (c_wait_ctrl c) as [k|] eqn:Ew; [|by apply wp_ret, HQ].
  destruct (c_is_ws c && c_inflight c) eqn:Eb; [|by apply wp_ret, HQ].
  apply andb_true_iff in Eb as [_ Hi]. destruct (live_waits _ _ _ _ _ L Hi) as (k' & Ew' & Hk).
  assert (k' = k) as -> by congruence. apply wp_bnd.
  eapply wp_load; [vm_compute; reflexivity|]. cbv beta iota zeta.
  destruct (0 <? _); [|by apply wp_ret, HQ]. apply wp_bnd.
  eapply wp_ctrl_queue_live; [done..|]. intros [] g' L'; [|by apply wp_ret, HQ].
  apply wp_bnd. eapply wp_update_poll; [done..|]. intros b g'' L''. by apply wp_ret, HQ.
Qed.

(** Closing a connection: nothing faults, and the address is free. *)
Lemma wp_conn_close p c s g0 g (Q : unit -> gateway tls -> Prop) :
  live p c s g0 g -> (forall g', dead p s g0 g' -> Q tt g') -> wp (conn_close p) Q g.
Proof.
  intros L HQ. unfold conn_close. apply wp_bnd. eapply wp_get_conn; [done|]. apply wp_bnd.
  eapply wp_ws_close_notice; [done|]. clear g L. intros g [W C E F]. apply wp_bnd.
  assert (idle_change g p (delete p (g_conns g))) as Hidle.
  { split; [intros q Hq; by apply lookup_delete_ne|]. intros c'. by rewrite lookup_delete_eq. }
  assert (forall g', same_core (g <| g_slots := g_slots g' |>) g' ->
            gw_wf (g <| g_slots := g_slots g' |> <| g_conns := delete p (g_conns g) |>) ->
            dead p s g0 (g' <| g_conns := delete p (g_conns g') |>)) as Hdead.
  { intros g' [_ Ec Ek Ev Et Er] W'. cbn in *. split; cbn.
    - refine (same_core_wf _ _ _ W'). split; cbn; [done|by rewrite Ec|done..].
    - apply lookup_delete_eq.
    - by rewrite Et.
    - eapply conn_frame_trans; [eassumption|]. split; [|intros c'; cbn; by rewrite lookup_delete_eq].
      split; [intros q Hq; cbn; rewrite Ec, Et; by rewrite lookup_delete_ne|].
      split_and!; cbn; [done|by rewrite Ek|]. rewrite Ek. intros k ct Hk. by exists ct. }
  destruct (c_inflight c) eqn:Hi.
  - destruct (wf_unlink g p c _ W C Hi Hidle) as (t & Ef & W').
    eapply (wp_store _ (g <| g_slots := t |>)); [cbv beta; by rewrite Ef|]. apply wp_bnd.
    eapply wp_noise_core; [apply noise_poller_del|]. intros [] g' S. apply wp_modify, HQ.
    assert (g_slots g' = t) as Et by apply S. apply Hdead; by rewrite Et.
  - apply wp_ret, wp_bnd. eapply wp_noise_core; [apply noise_poller_del|]. intros [] g' S.
    apply wp_modify, HQ. assert (g_slots g' = g_slots g) as Et by apply S. apply Hdead; rewrite Et.
    + destruct g. exact S.
    + assert (gw_wf (g <| g_conns := delete p (g_conns g) |>)) as W'.
      { apply (wf_idle g p); [done| |done]. intros c' Hc'. congruence. }
      destruct g. exact W'.
Qed.

(** An id resolves only to the connection in flight under its slot. *)
Lemma wp_conn_for_id id g (Q : option conn_ptr -> gateway tls -> Prop) :
  gw_wf g ->
  Q None g ->
  (forall p c, g_conns g !! p = Some c -> c_inflight c = true -> slot_of (c_req_id c) = slot_of id ->
    Q (Some p) g) ->
  wp (load (fun g => gw_conn_for_id (g_slots g) id)) Q g.
Proof.
  intros W HN HS. pose proof W as [].
  assert (slot_of id < NTC_MAX_INFLIGHT)%nat as Hlt.
  { unfold slot_of, NTC_INFLIGHT_MASK. rewrite max_inflight_Z. change (2 ^ 12 - 1) with (Z.ones 12).
    rewrite Z.land_ones by lia. pose proof (Z.mod_pos_bound id (2 ^ 12)). pose proof max_inflight_Z. lia. }
  destruct (slots_lookups _ _ wf_slots0 Hlt) as (c & gn & Hc & Hg & _).
  unfold wp, load, gw_conn_for_id. rewrite Hc, Hg. bind.
  destruct c as [p|]; [|by exists None, g].
  apply wf_linked0 in Hc as (c & Hc & Hi & Hs). case_match; [by exists None, g|].
  exists (Some p), g. split; [done|]. by eapply HS.
Qed.
End inv.

#[export] Hint Resolve noise_ask_alloc noise_ask_poll noise_poller_mod noise_poller_del
  noise_rec_status noise_mw_after noise_set_sends : noise.
