(* ===== verification/Tls.v ===== *)
(** * TLS termination (src/core/tls.c)

    The engine of a connection, over BearSSL's: records move between the engine and the
    socket, plain text between the engine and the HTTP layer.  With its socket it is a
    [TlsEngine], and keeps the laws the gateway's theorems ask of one. *)
From S2P Require Import Prelude Update Err Slice Http HttpRequest Wire Ws Gzip Inflight.
From S2P Require Import ServerState ServerConn ServerRelay ServerInv.
Open Scope Z_scope.

(** ** BearSSL's engine

    The state flags, the four buffers with their acknowledgements, flushing and closing. A
    buffer that is written is given by its room and acknowledged with what was put into it. *)
Class BrEngine (E : Type) := {
  br_current_state : E -> Z;
  br_sendrec_buf : E -> option bytes; br_sendrec_ack : E -> nat -> E;
  br_recvrec_buf : E -> option nat; br_recvrec_ack : E -> bytes -> E;
  br_recvapp_buf : E -> option bytes; br_recvapp_ack : E -> nat -> E;
  br_sendapp_buf : E -> option nat; br_sendapp_ack : E -> bytes -> E;
  br_flush : E -> E; br_close : E -> E }.

Definition BR_SSL_CLOSED : Z := 0x0001.
Definition BR_SSL_SENDREC : Z := 0x0002.
Definition BR_SSL_RECVREC : Z := 0x0004.

(** Its records are queues: what is to be sent is handed out from the front and leaves when it
    is acknowledged; what is received is taken in order; application data are bytes. *)
Class BrLaws (E : Type) {BE : BrEngine E} := {
  br_out : E -> bytes;
  br_fed : E -> bytes;
  br_out_buf e b : br_sendrec_buf e = Some b -> exists rest, br_out e = b ++ rest;
  br_out_ack e b n : br_sendrec_buf e = Some b -> (n <= length b)%nat ->
    br_out (br_sendrec_ack e n) = drop n (br_out e) /\ br_fed (br_sendrec_ack e n) = br_fed e;
  br_fed_ack e d : br_fed (br_recvrec_ack e d) = br_fed e ++ d /\
    exists more, br_out (br_recvrec_ack e d) = br_out e ++ more;
  br_app_bytes e b : br_recvapp_buf e = Some b -> bytes_ok b }.

(** The socket: what its calls answer, an exhausted list being a full or drained socket, and what
    went out. *)
Record tls_sock := TlsSock { so_send : list send_outcome; so_recv : list recv_outcome; so_wire : bytes }.

Section engine.
Context {E : Type} {BE : BrEngine E}.

(** tls.c:29-34 [ntc_tls]. The I/O buffer is the engine's. *)
Record ntc_tls := Tls { t_eng : E; t_eof : bool; t_close_sent : bool }.

Definition br_flag (st flag : Z) : bool := negb (Z.land st flag =? 0).

(** What one direction did: moved bytes, nothing, was interrupted, or failed. *)
Inductive io := IoProgress | IoNone | IoRetry | IoFail.

(** tls.c:200-210 [ntc_tls_pump_socket, sending] *)
Definition pump_send (st : Z) (t : ntc_tls) (s : tls_sock) : io * ntc_tls * tls_sock :=
  if negb (br_flag st BR_SSL_SENDREC) then (IoNone, t, s) else
  match br_sendrec_buf (t_eng t) with
  | None | Some [] => (IoNone, t, s)
  | Some buf =>
      match so_send s with
      | [] => (IoNone, t, s)
      | SendN n :: r =>
          let n := Nat.min n (length buf) in
          let s' := TlsSock r (so_recv s) (so_wire s ++ take n buf) in
          if (n =? 0)%nat then (IoFail, t, s')
          else (IoProgress, Tls (br_sendrec_ack (t_eng t) n) (t_eof t) (t_close_sent t), s')
      | SendEINTR :: r => (IoRetry, t, TlsSock r (so_recv s) (so_wire s))
      | SendEAGAIN :: r => (IoNone, t, TlsSock r (so_recv s) (so_wire s))
      | SendError :: r => (IoFail, t, TlsSock r (so_recv s) (so_wire s))
      end
  end.

(** tls.c:212-223 [ntc_tls_pump_socket, receiving]. A [recv] of 0 is the end of the stream;
    what does not fit into the engine's buffer stays in the socket. *)
Definition pump_recv (st : Z) (t : ntc_tls) (s : tls_sock) : io * ntc_tls * tls_sock :=
  if negb (br_flag st BR_SSL_RECVREC) then (IoNone, t, s) else
  match br_recvrec_buf (t_eng t) with
  | None | Some O => (IoNone, t, s)
  | Some room =>
      match so_recv s with
      | [] => (IoNone, t, s)
      | RecvData [] :: r => (IoNone, Tls (t_eng t) true (t_close_sent t), TlsSock (so_send s) r (so_wire s))
      | RecvData d :: r =>
          let r := if (length d <=? room)%nat then r else RecvData (drop room d) :: r in
          (IoProgress, Tls (br_recvrec_ack (t_eng t) (take room d)) (t_eof t) (t_close_sent t),
           TlsSock (so_send s) r (so_wire s))
      | RecvEINTR :: r => (IoRetry, t, TlsSock (so_send s) r (so_wire s))
      | RecvEAGAIN :: r => (IoNone, t, TlsSock (so_send s) r (so_wire s))
      | RecvError :: r => (IoFail, t, TlsSock (so_send s) r (so_wire s))
      end
  end.

(** tls.c:193-228 [ntc_tls_pump_socket] *)
Fixpoint pump_socket (fuel : nat) (t : ntc_tls) (s : tls_sock) : option (Z * ntc_tls * tls_sock) :=
  match fuel with
  | O => None
  | S f =>
      let st := br_current_state (t_eng t) in
      if br_flag st BR_SSL_CLOSED then Some (-1, t, s) else
      let '(r1, t, s) := pump_send st t s in
      match r1 with
      | IoRetry => pump_socket f t s
      | IoFail => Some (-1, t, s)
      | _ =>
          let '(r2, t, s) := pump_recv st t s in
          match r1, r2 with
          | _, IoRetry => pump_socket f t s
          | _, IoFail => Some (-1, t, s)
          | IoProgress, _ | _, IoProgress => pump_socket f t s
          | _, _ => Some (0, t, s)
          end
      end
  end.

(** tls.c:230-240 [ntc_tls_recv]. [None] is -1. *)
Definition tls_recv (t : ntc_tls) (len : nat) : option bytes * ntc_tls :=
  if br_flag (br_current_state (t_eng t)) BR_SSL_CLOSED then (None, t) else
  match br_recvapp_buf (t_eng t) with
  | None | Some [] => (Some [], t)
  | Some src =>
      let n := if (length src <? len)%nat then length src else len in
      (Some (take n src), Tls (br_recvapp_ack (t_eng t) n) (t_eof t) (t_close_sent t))
  end.

(** tls.c:242-251 [ntc_tls_send] *)
Definition tls_send (t : ntc_tls) (buf : bytes) : Z * ntc_tls :=
  match br_sendapp_buf (t_eng t) with
  | None | Some O => (0, t)
  | Some room =>
      let n := if (room <? length buf)%nat then room else length buf in
      (Z.of_nat n, Tls (br_sendapp_ack (t_eng t) (take n buf)) (t_eof t) (t_close_sent t))
  end.

(** tls.c:253-253 [ntc_tls_flush] *)
Definition tls_flush (t : ntc_tls) : ntc_tls := Tls (br_flush (t_eng t)) (t_eof t) (t_close_sent t).

(** tls.c:255-257 [ntc_tls_close_notify] *)
Definition tls_close_notify (t : ntc_tls) : ntc_tls :=
  if t_close_sent t then t else Tls (br_close (t_eng t)) (t_eof t) true.

(** tls.c:259-261 [ntc_tls_wants_write] *)
Definition tls_wants_write (t : ntc_tls) : bool := br_flag (br_current_state (t_eng t)) BR_SSL_SENDREC.

(** tls.c:263-265 [ntc_tls_closed] *)
Definition tls_closed (t : ntc_tls) : bool := t_eof t || br_flag (br_current_state (t_eng t)) BR_SSL_CLOSED.

(** How much the socket can still answer. *)
Definition sock_size (s : tls_sock) : nat :=
  length (so_send s) + sum_list ((fun o => match o with RecvData d => S (length d) | _ => 1%nat end) <$> so_recv s).

(** An engine with its socket, as the gateway uses it. *)
#[export] Instance tls_c : TlsEngine (ntc_tls * tls_sock) := {
  ntc_tls_send t d := let '(n, e) := tls_send (fst t) d in (n, (e, snd t));
  ntc_tls_recv t n := let '(d, e) := tls_recv (fst t) n in (d, (e, snd t));
  ntc_tls_flush t := (tls_flush (fst t), snd t);
  ntc_tls_close_notify t := (tls_close_notify (fst t), snd t);
  ntc_tls_pump_socket t :=
    match pump_socket (S (sock_size (snd t))) (fst t) (snd t) with
    | Some (r, e, s) => (r =? 0, (e, s))
    | None => (false, t)
    end;
  ntc_tls_closed t := tls_closed (fst t);
  ntc_tls_wants_write t := tls_wants_write (fst t) }.
End engine.
Arguments ntc_tls : clear implicits.

(** ** The pump *)

Section pump.
Context {E : Type} {BE : BrEngine E} {BL : BrLaws E}.
Implicit Types (t : ntc_tls E) (s : tls_sock).

Definition recv_bytes (os : list recv_outcome) : bytes :=
  concat ((fun o => match o with RecvData d => d | _ => [] end) <$> os).

(** Nothing is lost, repeated or reordered: what went out continues what had gone out with what
    the engine has to send, and what the engine was fed is what left the socket. *)
Record in_order t s t' s' : Prop := InOrder {
  io_out : exists more, so_wire s' ++ br_out (t_eng t') = so_wire s ++ br_out (t_eng t) ++ more;
  io_in : exists d, br_fed (t_eng t') = br_fed (t_eng t) ++ d /\
    recv_bytes (so_recv s) = d ++ recv_bytes (so_recv s') }.

Lemma in_order_refl t s : in_order t s t s.
Proof. split; exists []; by rewrite ?app_nil_r. Qed.

Lemma in_order_trans t1 s1 t2 s2 t3 s3 :
  in_order t1 s1 t2 s2 -> in_order t2 s2 t3 s3 -> in_order t1 s1 t3 s3.
Proof.
  intros [(m1 & O1) (d1 & F1 & R1)] [(m2 & O2) (d2 & F2 & R2)]. split.
  - exists (m1 ++ m2). by rewrite O2, app_assoc, O1, <- !app_assoc.
  - exists (d1 ++ d2). by rewrite F2, F1, R1, R2, <- !app_assoc.
Qed.

Lemma pump_send_step st t s r t' s' :
  pump_send st t s = (r, t', s') -> in_order t s t' s' /\ (sock_size s' <= sock_size s)%nat /\
  (r = IoProgress \/ r = IoRetry -> (sock_size s' < sock_size s)%nat).
Proof.
  unfold pump_send. intros H.
  assert (forall r0, (r0, t, s) = (r, t', s') -> r0 = IoNone -> in_order t s t' s' /\ (sock_size s' <= sock_size s)%nat /\
    (r = IoProgress \/ r = IoRetry -> (sock_size s' < sock_size s)%nat)) as Hnone.
  { intros r0 [= <- <- <-] ->. split; [apply in_order_refl|]. split; [done|]. by intros [|]. }
  destruct (negb (br_flag st BR_SSL_SENDREC)); [by eapply Hnone|].
  destruct (br_sendrec_buf (t_eng t)) as [[|x b]|] eqn:Eb; [by eapply Hnone| |by eapply Hnone].
  destruct (so_send s) as [|[n| | |] os] eqn:Es; [by eapply Hnone|..].
  all: try (simplify_eq; split; [by split; exists []; rewrite ?app_nil_r|]; unfold sock_size; rewrite Es; cbn; lia).
  set (k := Nat.min n (length (x :: b))) in *.
  destruct (br_out_buf _ _ Eb) as [rest Er]. destruct (Nat.eqb_spec k 0) as [Hk|Hk].
  - simplify_eq. rewrite Hk. cbn [take]. rewrite app_nil_r.
    split; [by split; exists []; rewrite ?app_nil_r|]. unfold sock_size. rewrite Es. cbn. lia.
  - simplify_eq. destruct (br_out_ack _ _ k Eb) as [Ho Hfed]; [unfold k; lia|].
    split; [split|unfold sock_size; rewrite Es; cbn; lia].
    + exists []. cbn [so_wire t_eng]. rewrite Ho, Er, app_nil_r, <- app_assoc. f_equal.
      rewrite drop_app_le by (unfold k; lia). by rewrite app_assoc, take_drop.
    + exists []. cbn. by rewrite Hfed, app_nil_r.
Qed.

Lemma pump_recv_step st t s r t' s' :
  pump_recv st t s = (r, t', s') -> in_order t s t' s' /\ (sock_size s' <= sock_size s)%nat /\
  (r = IoProgress \/ r = IoRetry -> (sock_size s' < sock_size s)%nat).
Proof.
  unfold pump_recv. intros H.
  assert (forall r0, (r0, t, s) = (r, t', s') -> r0 = IoNone -> in_order t s t' s' /\ (sock_size s' <= sock_size s)%nat /\
    (r = IoProgress \/ r = IoRetry -> (sock_size s' < sock_size s)%nat)) as Hnone.
  { intros r0 [= <- <- <-] ->. split; [apply in_order_refl|]. split; [done|]. by intros [|]. }
  destruct (negb (br_flag st BR_SSL_RECVREC)); [by eapply Hnone|].
  destruct (br_recvrec_buf (t_eng t)) as [[|room]|]; [by eapply Hnone| |by eapply Hnone].
  destruct (so_recv s) as [|[[|x d]| | |] os] eqn:Es; [by eapply Hnone|..].
  all: try (simplify_eq; split; [split; exists []; rewrite ?app_nil_r; [done|cbn [so_recv]; by rewrite Es]|];
    unfold sock_size; rewrite Es; cbn; lia).
  set (dd := x :: d) in *. set (room' := S room) in *.
  destruct (br_fed_ack (t_eng t) (take room' dd)) as [Hf (more & Ho)]. simplify_eq.
  split; [split|].
  - exists more. cbn [so_wire t_eng]. by rewrite Ho.
  - exists (take room' dd). cbn [so_recv t_eng]. split; [done|]. rewrite Es. unfold recv_bytes.
    destruct (Nat.leb_spec (length dd) room') as [Hl|Hl]; cbn [fmap list_fmap concat].
    + by rewrite take_ge.
    + by rewrite app_assoc, take_drop.
  - assert (0 < length dd)%nat by (cbn; lia). unfold sock_size. cbn [so_send so_recv]. rewrite Es.
    destruct (Nat.leb_spec (length dd) room') as [Hl|Hl]; cbn [fmap list_fmap sum_list sum_list_with];
      rewrite ?length_drop; unfold room' in *; cbn in *; lia.
Qed.

Lemma pump_socket_spec fuel t s :
  (sock_size s < fuel)%nat ->
  exists r t' s', pump_socket fuel t s = Some (r, t', s') /\ (r = 0 \/ r = -1) /\ in_order t s t' s'.
Proof.
  revert t s. induction fuel as [|f IH]; intros t s Hf; [lia|]. cbn [pump_socket].
  destruct (br_flag (br_current_state (t_eng t)) BR_SSL_CLOSED).
  { do 3 eexists. split; [done|]. split; [auto|apply in_order_refl]. }
  destruct (pump_send _ t s) as [[r1 t1] s1] eqn:E1. apply pump_send_step in E1 as (O1 & L1 & P1).
  destruct (pump_recv (br_current_state (t_eng t)) t1 s1) as [[r2 t2] s2] eqn:E2.
  apply pump_recv_step in E2 as (O2 & L2 & P2).
  pose proof (in_order_trans _ _ _ _ _ _ O1 O2) as O.
  assert (forall t0 s0, in_order t s t0 s0 -> (sock_size s0 < sock_size s)%nat ->
    exists r t' s', pump_socket f t0 s0 = Some (r, t', s') /\ (r = 0 \/ r = -1) /\ in_order t s t' s') as Hrec.
  { intros t0 s0 H0 Hl. destruct (IH t0 s0) as (r & t' & s' & Ep & Hr & Ho); [lia|].
    do 3 eexists. split; [exact Ep|]. split; [done|by eapply in_order_trans]. }
  assert (forall r t0 s0, r = 0 \/ r = -1 -> in_order t s t0 s0 ->
    exists r' t' s', Some (r, t0, s0) = Some (r', t', s') /\ (r' = 0 \/ r' = -1) /\ in_order t s t' s') as Hdone.
  { intros r t0 s0 Hr Ho. by do 3 eexists. }
  destruct r1; [destruct r2|destruct r2| |]; try (by apply Hdone; auto); apply Hrec; try done;
    try (specialize (P1 ltac:(auto)); lia); specialize (P2 ltac:(auto)); lia.
Qed.

#[export] Instance tls_c_laws : TlsLaws (ntc_tls E * tls_sock).
Proof.
  split.
  - intros [t s] d. cbn. unfold tls_send. destruct (br_sendapp_buf (t_eng t)) as [[|room]|];
      cbn [fst]; try lia. destruct (Nat.ltb_spec (S room) (length d)); lia.
  - intros [t s] n d [t' s'] H. cbn in H. unfold tls_recv in H.
    destruct (br_flag _ _); [done|].
    destruct (br_recvapp_buf (t_eng t)) as [[|x b]|] eqn:Eb; cbn in H; [simplify_eq; cbn; split; [lia|constructor]| |
      simplify_eq; cbn; split; [lia|constructor]].
    injection H as <- _ _. pose proof (br_app_bytes _ _ Eb) as Hb. split; [|by apply Forall_take].
    change (take _ (x :: b)) with (take (if (length (x :: b) <? n)%nat then length (x :: b) else n) (x :: b)).
    rewrite length_take. destruct (Nat.ltb_spec (length (x :: b)) n); lia.
Qed.
End pump.

(** C14. The TLS layer neither loses nor invents a byte, whatever the engine is and whatever the
    socket answers: the pump always ends; what it wrote to the socket continues the engine's
    records in order, and what it fed to the engine is what arrived, in order; a send takes at
    most what it is given; closing twice is closing once; and with its socket the engine keeps
    the laws under which the gateway is safe. *)
Theorem tls_engine_correct {E} {BE : BrEngine E} {BL : BrLaws E} (t : ntc_tls E) (s : tls_sock) :
  (exists r t' s', pump_socket (S (sock_size s)) t s = Some (r, t', s') /\ (r = 0 \/ r = -1) /\
     (exists more, so_wire s' ++ br_out (t_eng t') = so_wire s ++ br_out (t_eng t) ++ more) /\
     (exists d, br_fed (t_eng t') = br_fed (t_eng t) ++ d /\
        recv_bytes (so_recv s) = d ++ recv_bytes (so_recv s'))) /\
  (forall d, 0 <= fst (tls_send t d) <= Z.of_nat (length d)) /\
  tls_close_notify (tls_close_notify t) = tls_close_notify t /\
  TlsLaws (ntc_tls E * tls_sock).
Proof.
  split_and!; [| | |apply _].
  - destruct (pump_socket_spec (S (sock_size s)) t s) as (r & t' & s' & Ep & Hr & [Ho Hi]); [lia|].
    by exists r, t', s'.
  - intros d. pose proof (tls_send_bound (t, s) d) as Hb. cbn in Hb.
    assert (0 <= fst (tls_send t d)) as H0
      by (unfold tls_send; destruct (br_sendapp_buf (t_eng t)) as [[|room]|]; cbn; lia).
    destruct (tls_send t d) as [n e]. cbn in *. lia.
  - unfold tls_close_notify at 2 3. destruct (t_close_sent t) eqn:Ec; unfold tls_close_notify; [by rewrite Ec|done].
Qed.

(** An engine that does not encrypt: records are the text itself. *)
Record null_engine := NullEngine { ne_out : bytes; ne_app : bytes; ne_fed : bytes; ne_closed : bool }.

#[export] Instance null_br : BrEngine null_engine := {
  br_current_state e :=
    (if ne_closed e then 1 else 0) + (if (length (ne_out e) =? 0)%nat then 0 else 2) + 4;
  br_sendrec_buf e := Some (ne_out e);
  br_sendrec_ack e n := NullEngine (drop n (ne_out e)) (ne_app e) (ne_fed e) (ne_closed e);
  br_recvrec_buf e := Some 4%nat;
  br_recvrec_ack e d := NullEngine (ne_out e) (ne_app e ++ d) (ne_fed e ++ d) (ne_closed e);
  br_recvapp_buf e := Some (u8 <$> ne_app e);
  br_recvapp_ack e n := NullEngine (ne_out e) (drop n (ne_app e)) (ne_fed e) (ne_closed e);
  br_sendapp_buf e := Some 8%nat;
  br_sendapp_ack e d := NullEngine (ne_out e ++ d) (ne_app e) (ne_fed e) (ne_closed e);
  br_flush e := e;
  br_close e := NullEngine (ne_out e) (ne_app e) (ne_fed e) true }.

#[export] Instance null_br_laws : BrLaws null_engine.
Proof.
  refine {| br_out := ne_out; br_fed := ne_fed |}; cbn.
  - intros e b [= <-]. exists []. by rewrite app_nil_r.
  - by intros e b n [= <-].
  - intros e d. split; [done|]. exists []. by rewrite app_nil_r.
  - intros e b [= <-]. apply Forall_fmap, list.Forall_forall. intros x _. apply u8_range.
Defined.

Lemma tls_engine_correct_witness :
  let t := Tls (NullEngine (bs "hello world") [] [] false) false false in
  let s := TlsSock [SendN 3; SendEINTR; SendN 20] [RecvData (bs "request"); RecvEAGAIN] [] in
  (exists r t' s', pump_socket (S (sock_size s)) t s = Some (r, t', s') /\ (r = 0 \/ r = -1) /\
     (exists more, so_wire s' ++ br_out (t_eng t') = so_wire s ++ br_out (t_eng t) ++ more) /\
     (exists d, br_fed (t_eng t') = br_fed (t_eng t) ++ d /\
        recv_bytes (so_recv s) = d ++ recv_bytes (so_recv s'))) /\
  (forall d, 0 <= fst (tls_send t d) <= Z.of_nat (length d)) /\
  tls_close_notify (tls_close_notify t) = tls_close_notify t /\
  TlsLaws (ntc_tls null_engine * tls_sock).
Proof.
  intros t s. apply (tls_engine_correct t s).
Defined.

Example pump_sample :
  (fun '(r, t, s) => (r, ne_app (t_eng t), so_wire s)) <$>
    pump_socket 20 (Tls (NullEngine (bs "hello world") [] [] false) false false)
      (TlsSock [SendN 3; SendEINTR; SendN 20] [RecvData (bs "request"); RecvEAGAIN] []) =
  Some (0, bs "request", bs "hello world").
Proof. vm_compute. reflexivity. Qed.
