(* ===== verification/ServerSafe.v ===== *)
(** * Connections: memory safety and the close contract

    Every operation of [ServerConn] on a live connection of a well-formed gateway returns
    without a fault; it returns -1 exactly when it closed the connection, and never touches
    another one. *)
From S2P Require Import Prelude Update Err Slice Http Wire Ws Gzip Inflight ServerState.
From S2P Require Import ServerConn ServerInv.
Open Scope Z_scope.

(** One step of a computation on the live connection of the context. *)
Ltac live_fresh L :=
  let g' := fresh "g" in let L' := fresh "L" in
  intros g' L'; clear L; rename L' into L.
Ltac live_ok_solve L :=
  let H1 := fresh in let H2 := fresh in let H3 := fresh in let H4 := fresh in let H5 := fresh in let H6 := fresh in
  destruct (live_ok _ _ _ _ _ L) as [H1 H2 H3 H4 H5 H6];
  first [solve [split; [exact H1|exact H2|exact H3|exact H4|exact H5|first [exact H6|discriminate]]]|idtac];
  unfold update in H1, H2, H3, H4, H5, H6;
  cbn in H1, H2, H3, H4, H5, H6; split; unfold update; cbn; first [assumption | lia | done].
Ltac live_step1 :=
  cbv beta iota zeta;
  lazymatch goal with
  | |- wp (bnd _ _) _ _ => apply wp_bnd
  | |- wp (ret _) _ _ => apply wp_ret
  | |- wp (gets _) _ _ => apply wp_gets
  | |- wp (ensure true) _ _ => apply wp_ensure; [reflexivity|]
  | L : live ?p _ _ _ ?g |- wp (get_conn ?p) _ ?g => eapply (wp_get_conn _ _ _ _ _ _ L)
  | L : live ?p _ _ _ ?g |- wp (put_conn ?p _) _ ?g =>
      eapply (wp_put_conn _ _ _ _ _ _ _ L); [solve [assumption | live_ok_solve L]|solve [assumption | done]|live_fresh L]
  | L : live ?p _ _ _ ?g |- wp (upd_conn ?p _) _ ?g =>
      eapply (wp_upd_conn _ _ _ _ _ _ _ L); [solve [assumption | live_ok_solve L]|solve [assumption | done]|live_fresh L]
  | L : live ?p _ _ _ ?g |- wp (record_sent ?p _) _ ?g =>
      eapply (wp_record_sent _ _ _ _ _ _ _ L); live_fresh L
  | L : live ?p _ _ _ ?g |- wp (conn_close ?p) _ ?g =>
      eapply (wp_conn_close _ _ _ _ _ _ L); intros ? ?
  | L : live _ _ _ _ ?g |- wp _ _ ?g =>
      eapply wp_noise; [solve [auto with noise]|exact L|let a := fresh "a" in intros a; live_fresh L]
  end.
Ltac live_steps := repeat live_step1.

Section safe.
  Context {tls : Type} {TE : TlsEngine tls} {TL : TlsLaws tls}.
  Implicit Types (g : gateway tls) (c : conn tls) (p q : conn_ptr).

(** What a connection's client has been given, and what is queued behind it: for an atomic
    response and for a stream. *)
Definition resp_out c (s : bytes) : bytes := s ++ drop (c_wsent c) (c_wbuf c).
Definition stream_out c (s : bytes) : bytes := s ++ drop (c_swsent c) (c_swbuf c).

Definition given c (s : bytes) : bytes := if c_streaming c then stream_out c s else resp_out c s.

(** Sending keeps the mode of a connection and moves bytes from what is queued to what was
    sent. *)
Definition same_flags c c' : Prop :=
  c_stream_ended c' = c_stream_ended c /\ c_stream_sse c' = c_stream_sse c /\ c_is_ws c' = c_is_ws c /\
  c_rbuf c' = c_rbuf c /\ c_is_admin c' = c_is_admin c.
Definition drained c s c' s' : Prop :=
  c_streaming c' = c_streaming c /\ same_flags c c' /\
  given c' s' = given c s.

(** ** Draining *)

Lemma same_flags_trans c1 c2 c3 : same_flags c1 c2 -> same_flags c2 c3 -> same_flags c1 c3.
Proof. unfold same_flags. intuition congruence. Qed.

Lemma drained_refl c s : drained c s c s.
Proof. done. Qed.

Lemma given_prefix c s : s `prefix_of` given c s.
Proof. unfold given, stream_out, resp_out. destruct (c_streaming c); by apply prefix_app_r. Qed.

(** What was sent is the front of what was queued before. *)
Lemma drained_prefix c s c' s' : drained c s c' s' -> s' `prefix_of` given c s.
Proof. intros (_ & _ & <-). apply given_prefix. Qed.

Lemma drained_trans c1 s1 c2 s2 c3 s3 :
  drained c1 s1 c2 s2 -> drained c2 s2 c3 s3 -> drained c1 s1 c3 s3.
Proof. unfold drained, same_flags. intuition congruence. Qed.

(** Taking bytes off a queue. *)
Lemma take_drop_queue (s buf : bytes) a b :
  (a <= b)%nat -> (s ++ take (b - a) (drop a buf)) ++ drop b buf = s ++ drop a buf.
Proof.
  intros H. rewrite <- app_assoc. f_equal. rewrite <- (take_drop (b - a) (drop a buf)) at 2.
  rewrite drop_drop. do 2 f_equal. lia.
Qed.

Lemma send_loop_bounds outs len sent how sent' outs' :
  send_loop outs len sent = (how, sent', outs') ->
  (sent <= sent')%nat /\ ((sent <= len)%nat -> (sent' <= len)%nat) /\
  (how = DrainDone -> (len <= sent')%nat).
Proof.
  revert sent. induction outs as [|o outs IH]; intros sent; cbn [send_loop];
    destruct (Nat.leb_spec len sent) as [Hle|Hlt].
  1-3: intros [= <- <- <-]; split_and!; auto; lia || done.
  destruct o as [n| | |].
  - destruct (Nat.ltb_spec 0 (Nat.min n (len - sent))).
    + intros E. apply IH in E as (? & ? & ?). split_and!; [lia|lia|done].
    + intros [= <- <- <-]. split_and!; [lia|lia|done].
  - apply IH.
  - intros [= <- <- <-]. split_and!; [lia|lia|done].
  - intros [= <- <- <-]. split_and!; [lia|lia|done].
Qed.

Lemma tls_send_loop_spec fuel t buf sent :
  (length buf - sent < fuel)%nat ->
  exists t' sent', tls_send_loop fuel t buf sent = Some (t', sent') /\ (sent <= sent')%nat /\
    ((sent <= length buf)%nat -> (sent' <= length buf)%nat).
Proof.
  revert t sent. induction fuel as [|fuel IH]; intros t sent Hf; [lia|]. cbn [tls_send_loop].
  destruct (Nat.ltb_spec sent (length buf)) as [Hlt|]; [|by eauto].
  pose proof (tls_send_bound t (drop sent buf)) as Hb.
  destruct (ntc_tls_send t (drop sent buf)) as [n t1]. cbn in Hb. rewrite length_drop in Hb.
  destruct (Z.leb_spec n 0); [by eauto|].
  destruct (IH t1 (sent + Z.to_nat n)%nat) as (t' & sent' & E & ? & ?); [lia|].
  exists t', sent'. split_and!; [done|lia|lia].
Qed.

(** The buffer an operation drains. *)
Definition out_buf c : bytes := if c_streaming c then c_swbuf c else c_wbuf c.
Definition out_sent c : nat := if c_streaming c then c_swsent c else c_wsent c.
Definition set_out_sent (n : nat) c : conn tls :=
  if c_streaming c then c <| c_swsent := n |> else c <| c_wsent := n |>.

Lemma out_sent_ok c n :
  conn_ok c -> ((out_sent c <= length (out_buf c))%nat -> (n <= length (out_buf c))%nat) ->
  conn_ok (set_out_sent n c).
Proof.
  unfold set_out_sent, out_sent, out_buf. intros [] Hn. destruct (c_streaming c) eqn:E; split; cbn; rewrite ?E; auto.
Qed.

Lemma drained_set c s n :
  (out_sent c <= n)%nat ->
  drained c s (set_out_sent n c) (s ++ take (n - out_sent c) (drop (out_sent c) (out_buf c))).
Proof.
  unfold drained, given, set_out_sent, out_sent, out_buf, stream_out, resp_out. intros Hn.
  destruct (c_streaming c) eqn:E; cbn; rewrite E; split_and!; try done; by apply take_drop_queue.
Qed.

Lemma drained_reset c s :
  c_streaming c = true -> (length (c_swbuf c) <= c_swsent c)%nat ->
  drained c s (c <| c_swbuf := [] |> <| c_swsent := 0%nat |>) s.
Proof.
  unfold drained, given, stream_out. intros E Hn. cbn. rewrite E. split_and!; try done.
  by rewrite (drop_ge (c_swbuf c)).
Qed.

Lemma wp_tls_drive_loop fuel p c s g0 g t (Q : Z -> gateway tls -> Prop) :
  live p c s g0 g -> c_tls c = Some t ->
  (length (out_buf c) - out_sent c < fuel)%nat ->
  (forall s' g', dead p s' g0 g' -> s' `prefix_of` given c s -> Q (-1) g') ->
  (forall c' s' g', live p c' s' g0 g' -> drained c s c' s' -> is_Some (c_tls c') -> Q 0 g') ->
  wp (tls_drive_loop fuel p (c_streaming c)) Q g.
Proof.
  revert p c s g t. induction fuel as [|fuel IH]; intros p c s g t L Ht Hf HD HL; [lia|].
  cbn [tls_drive_loop]. live_steps. rewrite Ht. eapply wp_load; [done|]. live_steps.
  fold (out_buf c). fold (out_sent c).
  destruct (tls_send_loop_spec (S (length (out_buf c))) t (out_buf c) (out_sent c))
    as (t' & sent & E & Hs & Hb); [lia|].
  eapply wp_load; [done|]. cbv beta iota zeta.
  set (t2 := if (length (out_buf c) <=? sent)%nat then _ else _).
  destruct (ntc_tls_pump_socket t2) as [ok t3]. apply wp_bnd.
  set (c1 := if c_streaming c then _ else _).
  assert (c1 = set_out_sent sent (c <| c_tls := Some t3 |>)) as Ec1.
  { unfold c1, set_out_sent, update. cbn. by destruct (c_streaming c). }
  assert (conn_ok c1) as Hok1.
  { rewrite Ec1. apply out_sent_ok; [destruct (live_ok _ _ _ _ _ L); split; assumption|done]. }
  assert (same_link c c1) as Hl1
    by (rewrite Ec1; unfold same_link, has_tls, set_out_sent, update; rewrite Ht; by destruct (c_streaming c)).
  assert (drained c s c1 (s ++ take (sent - out_sent c) (drop (out_sent c) (out_buf c)))) as Hdr
    by (rewrite Ec1; generalize (drained_set (c <| c_tls := Some t3 |>) s sent Hs);
        unfold drained, given, stream_out, resp_out, set_out_sent, out_buf, out_sent, update; cbn;
        by destruct (c_streaming c)).
  assert (c_tls c1 = Some t3) as Ht1 by (unfold c1; by destruct (c_streaming c)).
  assert (out_buf c1 = out_buf c /\ out_sent c1 = sent) as [Eb Eo].
  { unfold c1, out_buf, out_sent, update. by destruct (c_streaming c) eqn:E'; cbn; rewrite ?E'. }
  assert (c_streaming c1 = c_streaming c) as Est by apply Hdr.
  clearbody c1. clear Ec1. live_steps.
  destruct (negb ok); [live_steps; eauto using drained_prefix, given_prefix|]. destruct (ntc_tls_closed t3); [live_steps; eauto using drained_prefix, given_prefix|].
  destruct (ntc_tls_wants_write t3); [live_steps; eauto|].
  destruct (Nat.leb_spec (length (out_buf c)) sent) as [Hfin|Hnot].
  - destruct (negb (c_streaming c) || c_stream_ended c) eqn:Eend; [live_steps; eauto using drained_prefix, given_prefix|].
    apply orb_false_iff in Eend as [Eend _]. apply negb_false_iff in Eend.
    unfold out_buf, out_sent in Eb, Eo. rewrite Est, Eend in Eb, Eo.
    unfold out_buf in Hfin. rewrite Eend in Hfin. live_steps. eapply HL; [eassumption| |].
    + eapply drained_trans; [done|]. apply drained_reset; [congruence|]. by rewrite Eb, Eo.
    + by eexists.
  - destruct (Nat.eqb_spec sent (out_sent c)) as [|Hne]; [live_steps; eauto|].
    rewrite <- Est. eapply IH; [done..| | |].
    + rewrite Eb, Eo. lia.
    + intros s' g' D Hp. eapply HD; [done|]. by rewrite <- (proj2 (proj2 Hdr)).
    + intros c' s' g' L' Hdr' Ht'. eapply HL; [done| |done]. by eapply drained_trans.
Qed.

Lemma wp_tls_drive_write p c s g0 g (Q : Z -> gateway tls -> Prop) :
  live p c s g0 g -> is_Some (c_tls c) ->
  (forall s' g', dead p s' g0 g' -> s' `prefix_of` given c s -> Q (-1) g') ->
  (forall c' s' g', live p c' s' g0 g' -> drained c s c' s' -> is_Some (c_tls c') -> Q 0 g') ->
  wp (tls_drive_write p) Q g.
Proof.
  intros L [t Ht] HD HL. unfold tls_drive_write. live_steps. fold (out_buf c).
  eapply wp_tls_drive_loop; [done..| |done|done]. lia.
Qed.

Lemma wp_tls_set_interest p c s g0 g (Q : Z -> gateway tls -> Prop) :
  live p c s g0 g -> is_Some (c_tls c) ->
  (forall s' g', dead p s' g0 g' -> s' `prefix_of` given c s -> Q (-1) g') ->
  (forall g', live p c s g0 g' -> Q 0 g') -> wp (tls_set_interest p) Q g.
Proof.
  intros L [t Ht] HD HL. unfold tls_set_interest. live_steps. rewrite Ht. eapply wp_load; [done|].
  live_steps. destruct (negb _); live_steps; eauto using drained_prefix, given_prefix.
Qed.

Lemma wp_on_writable p c s g0 g (Q : Z -> gateway tls -> Prop) :
  live p c s g0 g ->
  (forall s' g', dead p s' g0 g' -> s' `prefix_of` given c s -> Q (-1) g') ->
  (forall c' s' g', live p c' s' g0 g' -> drained c s c' s' -> Q 0 g') ->
  wp (on_writable p) Q g.
Proof.
  intros L HD HL. unfold on_writable. live_steps. destruct (c_tls c) as [t|] eqn:Ht.
  { eapply wp_tls_drive_write; [done| |done|]; eauto. }
  live_steps. fold (out_buf c). fold (out_sent c).
  destruct (send_loop (g_sends g) (length (out_buf c)) (out_sent c)) as [[how sent] outs] eqn:E.
  destruct (send_loop_bounds _ _ _ _ _ _ E) as (Hs & Hb & Hd). live_steps.
  eapply (wp_upd_conn _ _ _ _ _ _ _ L); [|by destruct (c_streaming c)|].
  { exact (out_sent_ok c sent (live_ok _ _ _ _ _ L) Hb). }
  clear L. intros h L. pose proof (drained_set c s sent Hs) as Hdr. unfold set_out_sent in Hdr.
  destruct how; live_steps; eauto using drained_prefix, given_prefix. specialize (Hd eq_refl).
  destruct (c_streaming c) eqn:Est; [|live_steps; eauto using drained_prefix, given_prefix]. live_steps.
  destruct (c_stream_ended c); [live_steps; eauto using drained_prefix, given_prefix|]. live_steps. destruct (negb _); live_steps; eauto using drained_prefix, given_prefix.
  eapply HL; [eassumption|]. eapply drained_trans; [done|]. apply drained_reset; [done|].
  unfold out_buf in Hd. by rewrite Est in Hd.
Qed.

Lemma wp_conn_flush p c s g0 g (Q : Z -> gateway tls -> Prop) :
  live p c s g0 g ->
  (forall s' g', dead p s' g0 g' -> s' `prefix_of` given c s -> Q (-1) g') ->
  (forall c' s' g', live p c' s' g0 g' -> drained c s c' s' -> Q 0 g') ->
  wp (conn_flush p) Q g.
Proof.
  intros L HD HL. unfold conn_flush. live_steps. destruct (c_tls c) as [t|] eqn:Ht.
  - live_steps. eapply wp_tls_drive_write; [done|by eexists|intros s' g' D Hp; change (-1 <? 0) with true; live_steps; eauto|].
    intros c' s' g' L' Hdr Ht'. change (0 <? 0) with false. cbv iota.
    eapply wp_tls_set_interest; [done..| |eauto].
    intros s2 g2 D Hp. eapply HD; [done|]. by rewrite <- (proj2 (proj2 Hdr)).
  - live_steps. destruct (negb _); [live_steps; eauto using drained_prefix, given_prefix|]. by eapply wp_on_writable.
Qed.

Lemma wp_stream_kick p c s g0 g (Q : Z -> gateway tls -> Prop) :
  live p c s g0 g ->
  (forall s' g', dead p s' g0 g' -> s' `prefix_of` given c s -> Q (-1) g') ->
  (forall c' s' g', live p c' s' g0 g' -> drained c s c' s' -> Q 0 g') ->
  wp (stream_kick p) Q g.
Proof.
  intros L HD HL. unfold stream_kick. live_steps. destruct (c_tls c) as [t|] eqn:Ht.
  - live_steps. eapply wp_tls_drive_write; [done|by eexists|intros s' g' D Hp; change (-1 <? 0) with true; live_steps; eauto|].
    intros c' s' g' L' Hdr Ht'. change (0 <? 0) with false. cbv iota.
    eapply wp_tls_set_interest; [done..| |eauto].
    intros s2 g2 D Hp. eapply HD; [done|]. by rewrite <- (proj2 (proj2 Hdr)).
  - live_steps. destruct (negb _); [live_steps; eauto using drained_prefix, given_prefix|]. by eapply wp_on_writable.
Qed.

Lemma stream_prefix c s d : s `prefix_of` stream_out c s ++ d.
Proof. unfold stream_out. rewrite <- app_assoc. by apply prefix_app_r. Qed.

(** Pushing to a stream: the client gets the bytes behind all that was pushed before, or the
    connection is closed. *)
Lemma wp_stream_push p c s g0 g d (Q : Z -> gateway tls -> Prop) :
  live p c s g0 g -> (forall s' g', dead p s' g0 g' ->
     (c_streaming c = true -> s' `prefix_of` stream_out c s ++ d) -> Q (-1) g') ->
  (forall c' s' g', live p c' s' g0 g' -> c_streaming c' = c_streaming c ->
     same_flags c c' ->
     (c_streaming c = true -> stream_out c' s' = stream_out c s ++ d) -> Q 0 g') ->
  wp (stream_push p d) Q g.
Proof.
  intros L HD HL. unfold stream_push. destruct (Nat.eqb_spec (length d) 0) as [H0|H0].
  { assert (d = []) as -> by (by apply nil_length_inv). eapply wp_stream_kick; [done|..].
    - intros s' g' D Hp. eapply HD; [done|]. intros Es. unfold given in Hp.
      by rewrite Es in Hp; rewrite app_nil_r.
    - intros c' s' g' L' (E1 & E2 & E3). eapply HL; [done..|]. intros Es. unfold given in E3.
      rewrite E1, Es in E3. by rewrite E3, app_nil_r. }
  live_steps. apply (wp_mono _ (fun _ g' => exists c1, live p c1 s g0 g' /\ c_swsent c1 = 0%nat /\
    c_streaming c1 = c_streaming c /\ same_flags c c1 /\
    c_swbuf c1 = drop (c_swsent c) (c_swbuf c))).
  { pose proof (live_ok _ _ _ _ _ L) as []. destruct (Nat.ltb_spec 0 (c_swsent c)).
    - eapply (wp_put_conn _ _ _ _ _ _ _ L); [|done|].
      + split; cbn; rewrite ?length_drop; done || lia.
      + intros g' L'. eexists. split; [exact L'|]. done.
    - apply wp_ret. exists c. replace (c_swsent c) with 0%nat by lia. by rewrite drop_0. }
  clear g L. intros [] g (c1 & L & E0 & Est & Een & Ebuf). live_steps.
  pose proof (live_ok _ _ _ _ _ L) as [].
  destruct (Z.ltb_spec NTC_STREAM_MAX_BUF (Z.of_nat (length (c_swbuf c1) + length d))) as [|Hcap];
    [live_steps; eauto using stream_prefix|].
  apply wp_bnd, wp_buf_reserve; [lia|unfold NTC_STREAM_MAX_BUF in *; lia|]. intros [n|] l Hn.
  all: apply (live_core _ _ _ _ _ (g <| g_allocs := l |>)) in L; [|done].
  2: live_steps; eauto using stream_prefix.
  apply wp_bnd, wp_ensure; [apply Z.leb_le; lia|]. apply wp_bnd.
  eapply (wp_put_conn _ _ _ _ _ _ _ L); [|done|].
  { split; unfold update; cbn; rewrite ?length_app; assumption || lia. }
  clear L g. intros g L.
  set (c2 := c1 <| c_swcap := n |> <| c_swbuf := c_swbuf c1 ++ d |>) in *.
  assert (c_streaming c = true -> given c2 s = stream_out c s ++ d) as Hgiven.
  { intros Es. unfold given, c2, stream_out, update. cbn.
    by rewrite Est, Es, E0, drop_0, Ebuf, app_assoc. }
  eapply wp_stream_kick; [done|..].
  - intros s' g' D Hp. eapply HD; [done|]. intros Es. by rewrite <- Hgiven.
  - intros c' s' g' L' (E1 & E2 & E3). eapply HL; [done|by rewrite E1|by eapply same_flags_trans|].
    intros Es. rewrite <- Hgiven, <- E3 by done. unfold given. rewrite E1. unfold c2, update. cbn.
    by rewrite Est, Es.
Qed.

End safe.

Section answer_safe.
  Context {tls : Type} {TE : TlsEngine tls} {TL : TlsLaws tls}.
  Variable tdefl_compress : bytes -> option bytes.
  Variable mz_crc32 : bytes -> Z.
  Implicit Types (g : gateway tls) (c : conn tls) (p q : conn_ptr).

(** ** Answering *)

(** What [conn_respond] puts on the wire: the response in full, its body as given or, for a
    client that accepts it, as its gzip container. *)
Inductive body_sent c (ctype body : bytes) : bytes -> bytes -> Prop :=
  | sent_plain : body_sent c ctype body body (c_extra_headers c)
  | sent_gzip gz :
      c_accept_gzip c = true -> (NTC_GZIP_MIN <= length body)%nat -> ctype_compressible ctype = true ->
      ntc_gzip tdefl_compress mz_crc32 true body = Some gz ->
      body_sent c ctype body gz (c_extra_headers c ++
        snprintf (512 - length (c_extra_headers c)) (bs "Content-Encoding: gzip" ++ crlf)).

Definition response_sent c (status : Z) (ctype body resp : bytes) : Prop :=
  exists b extra, body_sent c ctype body b extra /\
    ntc_http_format_response_ex true status (ntc_http_status_text status) ctype
      (if (length extra =? 0)%nat then None else Some extra) b = (NTC_OK, resp).

Lemma wp_compress_body p c s g0 g ctype body (Q : bytes * bytes -> gateway tls -> Prop) :
  live p c s g0 g ->
  (forall b extra g', live p c s g0 g' -> body_sent c ctype body b extra -> Q (b, extra) g') ->
  wp (compress_body tdefl_compress mz_crc32 c ctype body) Q g.
Proof.
  intros L HQ. unfold compress_body. pose proof (sent_plain c ctype body) as Hplain.
  destruct (_ && _) eqn:Eb; [|live_steps; eauto using drained_prefix, given_prefix].
  apply andb_true_iff in Eb as [[[E1 E2%Nat.leb_le]%andb_true_iff E3]%andb_true_iff _]. live_steps.
  destruct (ntc_gzip _ _ a body) as [gz|] eqn:Egz; [|live_steps; eauto using drained_prefix, given_prefix]. live_steps.
  destruct (negb _); live_steps; [eauto|]. apply HQ; [done|]. apply sent_gzip; try done.
  destruct a; [done|]. unfold ntc_gzip in Egz. repeat case_match; done.
Qed.

Lemma body_sent_fits c ctype body b extra :
  conn_ok c -> body_sent c ctype body b extra -> (length extra <= 511)%nat.
Proof.
  intros [] []; [done|]. rewrite length_app. unfold snprintf. rewrite length_take. lia.
Qed.

(** Preparing a response: -1 leaves the connection open, for the caller to close. *)
Lemma wp_conn_respond p c s g0 g status ctype body (Q : Z -> gateway tls -> Prop) :
  live p c s g0 g ->
  (forall c' g', live p c' s g0 g' -> Q (-1) g') ->
  (forall c' g', live p c' s g0 g' -> c_streaming c' = c_streaming c ->
     response_sent c status ctype body (c_wbuf c') -> c_wsent c' = 0%nat -> Q 0 g') ->
  wp (conn_respond tdefl_compress mz_crc32 p status ctype body) Q g.
Proof.
  intros L HF HQ. unfold conn_respond. live_steps. eapply wp_compress_body; [done|].
  clear g L. intros b extra g L Hb. live_steps.
  pose proof (body_sent_fits _ _ _ _ _ (live_ok _ _ _ _ _ L) Hb).
  eapply (wp_put_conn _ _ _ _ _ _ _ L); [destruct (live_ok _ _ _ _ _ L); by split|done|].
  clear g L. intros g L. live_steps.
  destruct (ntc_http_format_response_ex _ _ _ _ _ _) as [e resp] eqn:Ef.
  destruct (decide (e = NTC_OK)) as [->|He];
    [rewrite bool_decide_false by (intros Hn; by apply Hn)|rewrite bool_decide_true by done; live_steps; eauto using drained_prefix, given_prefix].
  assert (response_sent c status ctype body resp) as Hr.
  { exists b, extra. split; [done|]. destruct a; [done|].
    unfold ntc_http_format_response_ex in Ef. cbn [negb] in Ef. repeat case_match; by simplify_eq. }
  live_steps. destruct (negb (c_is_admin c) && _ && _); live_steps;
    (eapply HQ; [eassumption|reflexivity|exact Hr|reflexivity]).
Qed.

(** The whole of what a client was sent, if it had been sent [s] before: nothing more, or
    the front of a response. *)
Definition answered c s (status : Z) (ctype body s' : bytes) : Prop :=
  s' = s \/ exists resp, response_sent c status ctype body resp /\ s' `prefix_of` s ++ resp.

(** A response given to its client: as far as it went, it is the front of [resp]. *)
Lemma wp_send_resp p c s g0 g status ctype body (Q : Z -> gateway tls -> Prop) :
  live p c s g0 g ->
  (forall s' g', dead p s' g0 g' -> (c_streaming c = false -> answered c s status ctype body s') -> Q (-1) g') ->
  (forall c' s' g', live p c' s' g0 g' ->
     (c_streaming c = false -> exists resp, response_sent c status ctype body resp /\
        resp_out c' s' = s ++ resp) -> Q 0 g') ->
  wp (send_resp tdefl_compress mz_crc32 p status ctype body) Q g.
Proof.
  intros L HD HL. unfold send_resp. apply wp_bnd. eapply wp_conn_respond; [done|..].
  - intros c' g' L'. change (negb (-1 =? 0)) with true. live_steps. eapply HD; [done|]. by left.
  - intros c' g' L' Est Hr Hw. change (negb (0 =? 0)) with false. cbv iota.
    assert (c_streaming c = false -> given c' s = s ++ c_wbuf c') as Hg.
    { intros Es. unfold given, resp_out. by rewrite Est, Es, Hw, drop_0. }
    eapply wp_conn_flush; [done|..].
    + intros s2 g2 D Hp. eapply HD; [done|]. intros Es. right. exists (c_wbuf c').
      split; [done|]. by rewrite <- Hg.
    + intros c2 s2 g2 L2 (E1 & _ & Hd). eapply HL; [done|].
      intros Es. exists (c_wbuf c'). split; [done|]. rewrite <- Hg, <- Hd by done.
      unfold given. by rewrite E1, Est, Es.
Qed.

Lemma wp_respond_and_flush p c s g0 g status body (Q : Z -> gateway tls -> Prop) :
  live p c s g0 g ->
  (forall s' g', dead p s' g0 g' -> (c_streaming c = false -> answered c s status JSON body s') -> Q (-1) g') ->
  (forall c' s' g', live p c' s' g0 g' ->
     (c_streaming c = false -> exists resp, response_sent c status JSON body resp /\
        resp_out c' s' = s ++ resp) -> Q 0 g') ->
  wp (respond_and_flush tdefl_compress mz_crc32 p status body) Q g.
Proof.
  intros L HD HL. unfold respond_and_flush. live_steps. destruct (negb _); live_steps;
    eapply wp_send_resp; eauto.
Qed.
End answer_safe.
