(* ===== verification/ServerRelaySafe.v ===== *)
(** * Relaying: memory safety and isolation

    Every frame a controller sends, and every byte a WebSocket client sends, is handled
    without a fault from a well-formed gateway and leaves a well-formed gateway; a frame
    touches at most the one connection in flight under its id. *)
From S2P Require Import Prelude Update Err Slice Http Wire Ws Gzip Inflight ServerState.
From S2P Require Import ServerConn ServerRelay ServerInv ServerSafe.
Open Scope Z_scope.

Section relay_safe.
  Context {tls : Type} {TE : TlsEngine tls} {TL : TlsLaws tls}.
  Variable tdefl_compress : bytes -> option bytes.
  Variable mz_crc32 : bytes -> Z.
  Variable br_sha1 : bytes -> bytes.
  Implicit Types (g : gateway tls) (c : conn tls) (p q : conn_ptr).
  Local Abbreviation response_sent := (response_sent tdefl_compress mz_crc32).
  Local Abbreviation answered := (answered tdefl_compress mz_crc32).

(** A frame under [id] changed nothing, or only the connection in flight under [id]. *)
Definition relay_frame (id : Z) g g' : Prop :=
  gw_wf g' /\ (g' = g \/ exists p c, g_conns g !! p = Some c /\ c_inflight c = true /\
                  slot_of (c_req_id c) = slot_of id /\ others_frame p g g').

(** A connection's outcome: gone, or still there and sound. *)
Lemma dead_wf p s g0 g : dead p s g0 g -> gw_wf g /\ others_frame p g0 g.
Proof. intros [W _ _ [F _]]. done. Qed.
Lemma live_wf p c s g0 g : live p c s g0 g -> gw_wf g /\ others_frame p g0 g.
Proof. intros [W _ _ [F _]]. done. Qed.

(** ** Releasing an id *)

Lemma wp_release_id id p c g (Q : unit -> gateway tls -> Prop) :
  gw_wf g -> g_conns g !! p = Some c -> c_inflight c = true -> slot_of (c_req_id c) = slot_of id ->
  (forall g1, live p (c <| c_inflight := false |>) (default [] (g_sent g !! p)) g1 g1 ->
     others_frame p g g1 -> Q tt g1) ->
  wp (release_id id p) Q g.
Proof.
  intros W Hc Hi Hs HQ. unfold release_id. set (c' := c <| c_inflight := false |>).
  assert (idle_change g p (<[p := c']> (g_conns g))) as Hidle.
  { split; [intros q Hq; by rewrite lookup_insert_ne|]. rewrite lookup_insert_eq. intros ? [= <-].
    split; [done|]. destruct (wf_conns _ W p c Hc) as [H1 H2 H3 H4 H5 H6]. split; try done.
    intros Hr. split; [done|]. by apply H6. }
  destruct (wf_unlink g p c _ W Hc Hi Hidle) as (t & Ef & W'). rewrite Hs in Ef.
  apply wp_bnd. eapply (wp_store _ (g <| g_slots := t |>)); [cbv beta; by rewrite Ef|].
  apply wp_bnd. eapply wp_load; [exact Hc|].
  apply (wp_store _ (g <| g_slots := t |> <| g_conns := <[p := c']> (g_conns g) |>)).
  { cbv beta. unfold update. cbn. by rewrite Hc. }
  apply HQ.
  - split; [exact W'| |done|apply conn_frame_refl|done]. cbn. apply lookup_insert_eq.
  - split; [|exact (ctrls_frame_refl g)]. intros q Hq. cbn. by rewrite lookup_insert_ne.
Qed.

(** Merging a controller's headers: what fits the 512-byte array, and never outside it. *)
Definition merged (extra hdrs : bytes) : bytes :=
  if (length hdrs =? 0)%nat then extra else cstr (extra ++ take (511 - length extra) hdrs).

Lemma wp_merge_headers c hdrs g (Q : bytes -> gateway tls -> Prop) :
  conn_ok c ->
  ((length (merged (c_extra_headers c) hdrs) <= 511)%nat -> Q (merged (c_extra_headers c) hdrs) g) ->
  wp (merge_headers (c_extra_headers c) hdrs) Q g.
Proof.
  intros [Hx _ _ _ _] HQ. unfold merge_headers, merged in *.
  destruct (length hdrs =? 0)%nat; [apply wp_ret; auto|]. set (el := length (c_extra_headers c)) in *.
  assert (u64 (512 - Z.of_nat el) = 512 - Z.of_nat el) as -> by (unfold u64; rewrite Z.mod_small; lia).
  replace (512 - Z.of_nat el - 1) with (511 - Z.of_nat el) by lia.
  assert (u64 (511 - Z.of_nat el) = 511 - Z.of_nat el) as -> by (unfold u64; rewrite Z.mod_small; lia).
  rewrite (proj2 (Z.ltb_lt 0 (512 - Z.of_nat el))) by lia.
  set (n := if _ <? _ then _ else _).
  assert (0 <= n <= 511 - Z.of_nat el /\ take (Z.to_nat n) hdrs = take (511 - el) hdrs) as [Hn Et].
  { unfold n. destruct (Z.ltb_spec (Z.of_nat (length hdrs)) (511 - Z.of_nat el)).
    - split; [lia|]. by rewrite !take_ge by lia.
    - split; [lia|]. f_equal. lia. }
  apply wp_bnd, wp_ensure; [apply Z.leb_le; lia|]. rewrite Et. apply wp_ret, HQ.
  pose proof (length_cstr (c_extra_headers c ++ take (511 - el) hdrs)) as Hl.
  rewrite length_app, length_take in Hl. fold el in Hl. lia.
Qed.

(** ** Responses *)

Lemma response_sent_ext c c' status ctype body resp :
  c_accept_gzip c' = c_accept_gzip c -> c_extra_headers c' = c_extra_headers c ->
  response_sent c status ctype body resp -> response_sent c' status ctype body resp.
Proof.
  intros Eg Ex (b & extra & Hb & Hf). exists b, extra. split; [|done].
  destruct Hb; rewrite <- Ex; constructor; congruence.
Qed.

Lemma answered_ext c c' s status ctype body s' :
  c_accept_gzip c' = c_accept_gzip c -> c_extra_headers c' = c_extra_headers c ->
  answered c s status ctype body s' -> answered c' s status ctype body s'.
Proof.
  intros Eg Ex [->|(resp & Hr & Hp)]; [by left|]. right. exists resp. split; [|done].
  by eapply response_sent_ext.
Qed.

(** The outcome of a delivery that ends the request of [p]: it is in flight no more, and
    what its client was sent satisfies [R]. *)
Definition finished p g (R : bytes -> Prop) g' : Prop :=
  gw_wf g' /\ others_frame p g g' /\
  (forall c', g_conns g' !! p = Some c' -> c_inflight c' = false) /\
  R (default [] (g_sent g' !! p)).

Lemma finished_dead p g g1 c s s' g' (R : bytes -> Prop) :
  others_frame p g g1 -> live p c s g1 g1 -> dead p s' g1 g' -> R s' -> finished p g R g'.
Proof.
  intros F L [W Hc Es [F' _]] HR. split_and!; [done| |congruence|by rewrite Es].
  by eapply others_frame_trans.
Qed.

Lemma finished_live p g g1 c s c' s' g' (R : bytes -> Prop) :
  others_frame p g g1 -> live p c s g1 g1 -> c_inflight c = false -> live p c' s' g1 g' -> R s' ->
  finished p g R g'.
Proof.
  intros F [_ Hc1 _ _] Hi [W Hc Es [F' Hl]] HR. split_and!; [done| | |by rewrite Es].
  - by eapply others_frame_trans.
  - intros c2 Hc2. destruct (Hl c2 Hc2) as (c3 & Hc3 & E & _). congruence.
Qed.

(** What the gateway makes of a RESPONSE frame: the response of the controller, or 502. *)
Definition delivers c (payload s s' : bytes) : Prop :=
  match ntc_wire_decode_response_ex payload with
  | Some (Some (status, ctype, body, hdrs)) =>
      answered (c <| c_extra_headers := merged (c_extra_headers c) hdrs |>) s status ctype body s'
  | _ => answered c s 502 JSON (qs "{'error':'bad upstream response'}") s'
  end.

Lemma wp_gw_deliver id payload p c g (Q : unit -> gateway tls -> Prop) :
  gw_wf g -> g_conns g !! p = Some c -> c_inflight c = true -> slot_of (c_req_id c) = slot_of id ->
  gw_conn_for_id (g_slots g) id = Some (Some p) ->
  (forall g', finished p g (fun s' => c_streaming c = false ->
       delivers c payload (default [] (g_sent g !! p)) s') g' -> Q tt g') ->
  wp (gw_deliver tdefl_compress mz_crc32 id payload) Q g.
Proof.
  intros W Hc Hi Hs Hid HQ. unfold gw_deliver. apply wp_bnd. eapply wp_load; [exact Hid|].
  cbv beta iota. apply wp_bnd. eapply wp_release_id; [done..|]. intros g1 L F.
  set (s := default [] (g_sent g !! p)) in *. pose proof L as L1. apply wp_bnd.
  destruct (decoders_safe payload) as (_ & _ & [d Ed] & _). eapply wp_load; [exact Ed|].
  unfold delivers in HQ. rewrite Ed in HQ. set (c1 := c <| c_inflight := false |>) in *.
  destruct d as [[[[status ctype] body] hdrs]|].
  - apply wp_bnd. eapply wp_noise; [apply noise_rec_status|exact L|]. clear L. intros _ g2 L.
    apply wp_bnd. eapply wp_get_conn; [exact L|]. apply wp_bnd.
    eapply wp_merge_headers; [by eapply live_ok|]. intros Hm.
    change (c_extra_headers c1) with (c_extra_headers c) in *.
    set (c2 := c1 <| c_extra_headers := merged (c_extra_headers c) hdrs |>).
    apply wp_bnd. eapply (wp_put_conn _ _ _ _ _ _ _ L); [destruct (live_ok _ _ _ _ _ L); by split|done|].
    clear L. intros g3 L. fold c2 in L. apply wp_bnd. eapply wp_conn_respond; [exact L|..].
    + intros c' g' L'. change (negb (-1 =? 0)) with true. cbv iota. eapply wp_conn_close; [exact L'|].
      intros g'' D. eapply HQ, finished_dead; [done..|]. by left.
    + intros c' g' L' Est Hr Hw. change (negb (0 =? 0)) with false. cbv iota. apply wp_bnd.
      assert (c_streaming c = false -> given c' s = s ++ c_wbuf c') as Hg.
      { intros Es. unfold given, resp_out. rewrite Est. change (c_streaming c2) with (c_streaming c).
        by rewrite Es, Hw, drop_0. }
      assert (forall s', c_streaming c = false -> s' `prefix_of` given c' s ->
        answered (c <| c_extra_headers := merged (c_extra_headers c) hdrs |>) s status ctype body s') as Ha.
      { intros s' Es Hp. right. exists (c_wbuf c'). split; [|by rewrite <- Hg].
        by apply (response_sent_ext c2). }
      eapply wp_conn_flush; [exact L'|..].
      * intros s' g'' D Hp. apply wp_ret. eapply HQ, finished_dead; eauto.
      * intros c'' s' g'' L'' Hd. apply wp_ret. eapply HQ, finished_live; [done..|].
        intros Es. apply Ha; [done|]. by eapply drained_prefix.
  - apply wp_bnd. eapply wp_respond_and_flush; [exact L|..].
    + intros s' g' D Ha. apply wp_ret. eapply HQ, finished_dead; [done..|]. intros Es.
      apply (answered_ext c1); [done..|by apply Ha].
    + intros c' s' g' L' Ha. apply wp_ret. eapply HQ, finished_live; [done..|]. intros Es.
      destruct (Ha Es) as (resp & Hr & Ho). right. exists resp. split; [by apply (response_sent_ext c1)|].
      rewrite <- Ho. unfold resp_out. by apply prefix_app_r.
Qed.

(** ** Streams *)

(** The outcome of pushing [d] to the stream of [p]: the client's stream is longer by [d],
    or the connection is gone and its client got no more than the front of that. *)
Definition pushed p g (d : bytes) g' : Prop :=
  gw_wf g' /\ others_frame p g g' /\
  exists c, g_conns g !! p = Some c /\
  let full := stream_out c (default [] (g_sent g !! p)) ++ d in
  match g_conns g' !! p with
  | Some c' => same_link c c' /\ c_streaming c' = c_streaming c /\ same_flags c c' /\
      g_slots g' = g_slots g /\ (c_streaming c = true -> stream_out c' (default [] (g_sent g' !! p)) = full)
  | None => c_streaming c = true -> default [] (g_sent g' !! p) `prefix_of` full
  end.

Lemma pushed_push p c g d (Q : Z -> gateway tls -> Prop) :
  gw_wf g -> g_conns g !! p = Some c ->
  (forall g', pushed p g d g' -> g_conns g' !! p = None -> Q (-1) g') ->
  (forall g', pushed p g d g' -> is_Some (g_conns g' !! p) -> Q 0 g') ->
  wp (stream_push p d) Q g.
Proof.
  intros W Hc HD HL. eapply wp_stream_push; [by apply live_start|..].
  - intros s' g' [W' Hc' Es [F _]] Hp. apply HD; [|done]. split_and!; [done..|].
    exists c. split; [done|]. cbv zeta. by rewrite Hc', Es.
  - intros c' s' g' [W' Hc' Es [F Hl] Esl] Est Efl Ho. apply HL; [|by eexists]. split_and!; [done..|].
    exists c. split; [done|]. cbv zeta. rewrite Hc', Es. split_and!; try done.
    destruct (Hl c' Hc') as (c0 & Hc0 & E). congruence.
Qed.

Lemma pushed_trans p g d g' e g'' :
  pushed p g d g' -> is_Some (g_conns g' !! p) -> pushed p g' e g'' -> pushed p g (d ++ e) g''.
Proof.
  intros (W & F & c & Hc & H) [c' Hc'] (W' & F' & c0 & Hc0 & H').
  assert (c0 = c') as -> by congruence. rewrite Hc' in H. destruct H as (El & Es & Ef & Esl & Ho).
  split_and!; [done|by eapply others_frame_trans|]. exists c. split; [done|]. cbv zeta in *.
  destruct (g_conns g'' !! p) as [c''|].
  - destruct H' as (El' & Es' & Ef' & Esl' & Ho'). split_and!.
    + by eapply same_link_trans.
    + congruence.
    + by eapply same_flags_trans.
    + congruence.
    + intros Hs. rewrite Ho', Ho by congruence. by rewrite app_assoc.
  - intros Hs. rewrite app_assoc, <- Ho by done. apply H'. congruence.
Qed.

Lemma pushed_weaken p g d e g' :
  pushed p g d g' -> g_conns g' !! p = None -> pushed p g (d ++ e) g'.
Proof.
  intros (W & F & c & Hc & H) Hn. rewrite Hn in H. split_and!; [done..|]. exists c.
  split; [done|]. cbv zeta. rewrite Hn. intros Hs. rewrite app_assoc. by apply prefix_app_r, H.
Qed.

Lemma pushed_nil p g c : gw_wf g -> g_conns g !! p = Some c -> pushed p g [] g.
Proof.
  intros W Hc. split_and!; [done|apply others_frame_refl|]. exists c. split; [done|]. cbv zeta.
  rewrite Hc, app_nil_r. done.
Qed.

(** What a CHUNK frame adds to the stream: its data, as one HTTP/1.1 chunk unless the
    stream is server-sent events. *)
Definition chunk_text (sse : bool) (data : bytes) : bytes :=
  if (length data =? 0)%nat then [] else
  if sse then data else snprintf 32 (fmt_x (Z.of_nat (length data)) ++ crlf) ++ data ++ crlf.
Definition chunk_adds c (payload : bytes) : bytes :=
  if negb (c_streaming c) then [] else
  match ntc_wire_decode_chunk payload with
  | Some (Some data) => chunk_text (c_stream_sse c) data
  | _ => []
  end.

Lemma wp_gw_deliver_chunk id payload p c g (Q : unit -> gateway tls -> Prop) :
  gw_wf g -> g_conns g !! p = Some c -> gw_conn_for_id (g_slots g) id = Some (Some p) ->
  (forall g', pushed p g (chunk_adds c payload) g' -> Q tt g') ->
  wp (gw_deliver_chunk id payload) Q g.
Proof.
  intros W Hc Hid HQ. unfold gw_deliver_chunk, chunk_adds in *. apply wp_bnd.
  eapply wp_load; [exact Hid|]. cbv beta iota. apply wp_bnd. eapply wp_load; [exact Hc|].
  destruct (negb (c_streaming c)); [by apply wp_ret, HQ, (pushed_nil _ _ c)|].
  destruct (decoders_safe payload) as (_ & _ & _ & _ & [d Ed] & _). rewrite Ed in *.
  apply wp_bnd. eapply wp_load; [done|].
  destruct d as [data|]; [|by apply wp_ret, HQ, (pushed_nil _ _ c)]. unfold chunk_text in HQ.
  destruct (length data =? 0)%nat; [by apply wp_ret, HQ, (pushed_nil _ _ c)|].
  destruct (c_stream_sse c).
  { apply wp_bnd. eapply pushed_push; [done..| |]; intros g' Hp _; by apply wp_ret, HQ. }
  apply wp_bnd. eapply pushed_push; [done..| |]; intros g1 H1 Hc1.
  { change (-1 <? 0) with true. apply wp_ret, HQ. by apply pushed_weaken. }
  change (0 <? 0) with false. cbv iota. destruct Hc1 as [c1 Hc1]. pose proof H1 as (W1 & _).
  apply wp_bnd. eapply pushed_push; [done..| |]; intros g2 H2 Hc2.
  { change (-1 <? 0) with true. apply wp_ret, HQ. rewrite app_assoc. apply pushed_weaken; [|done].
    eapply pushed_trans; eauto. }
  change (0 <? 0) with false. cbv iota. destruct Hc2 as [c2 Hc2]. pose proof H2 as (W2 & _).
  apply wp_bnd. eapply pushed_push; [done..| |]; intros g3 H3 _; apply wp_ret, HQ;
    (eapply pushed_trans; [exact H1|by eexists|]; eapply pushed_trans; [exact H2|by eexists|exact H3]).
Qed.

(** A run of CHUNK frames. *)
Fixpoint deliver_chunks (id : Z) (payloads : list bytes) : St (gateway tls) unit :=
  match payloads with
  | [] => ret tt
  | payload :: payloads => gw_deliver_chunk id payload ;;; deliver_chunks id payloads
  end.

Lemma chunk_adds_flags c c' payload :
  c_streaming c' = c_streaming c -> same_flags c c' -> chunk_adds c' payload = chunk_adds c payload.
Proof. intros Es (_ & Esse & _). unfold chunk_adds. by rewrite Es, Esse. Qed.

(** The connection an id resolves to is in flight under its slot. *)
Lemma resolved_conn g id p :
  gw_wf g -> gw_conn_for_id (g_slots g) id = Some (Some p) ->
  exists c, g_conns g !! p = Some c /\ c_inflight c = true /\ slot_of (c_req_id c) = slot_of id.
Proof.
  intros W Hid. destruct (wp_conn_for_id id g (fun r g' => r = Some p -> exists c,
    g_conns g !! p = Some c /\ c_inflight c = true /\ slot_of (c_req_id c) = slot_of id) W)
    as (r & g' & E & H); [done| |].
  - intros q c Hc Hi Hs [= ->]. by exists c.
  - unfold load in E. rewrite Hid in E. injection E as <- <-. by apply H.
Qed.

(** Once its connection is gone, an id resolves to nobody. *)
Lemma gone_id p c g g' id :
  gw_wf g -> gw_wf g' -> others_frame p g g' -> g_conns g !! p = Some c -> c_inflight c = true ->
  slot_of (c_req_id c) = slot_of id -> g_conns g' !! p = None ->
  gw_conn_for_id (g_slots g') id = Some None.
Proof.
  intros W W' [F _] Hc Hi Hs Hn.
  destruct (wp_conn_for_id id g' (fun r g2 => r = None /\ g2 = g') W') as (r & g2 & E & -> & ->); [done| |].
  - intros q c' Hc' Hi' Hs'. exfalso. destruct (decide (q = p)) as [->|Hne]; [congruence|].
    destruct (F q Hne) as [F1 _]. rewrite F1 in Hc'.
    assert (pending (g_slots g) !! slot_of id = Some (Some q)) by (apply (wf_linked _ W); by exists c').
    assert (pending (g_slots g) !! slot_of id = Some (Some p)) by (apply (wf_linked _ W); by exists c). congruence.
  - unfold load in E. destruct (gw_conn_for_id (g_slots g') id); [|done]. by injection E as ->.
Qed.

Lemma deliver_chunks_gone id payloads g :
  gw_conn_for_id (g_slots g) id = Some None -> deliver_chunks id payloads g = Some (tt, g).
Proof.
  intros Hid. induction payloads as [|payload payloads IH]; [done|]. cbn [deliver_chunks].
  unfold bnd at 1, gw_deliver_chunk, conn_for_id. unfold bnd at 1, load. by rewrite Hid.
Qed.

Lemma wp_deliver_chunks id payloads p c g (Q : unit -> gateway tls -> Prop) :
  gw_wf g -> g_conns g !! p = Some c -> c_inflight c = true -> slot_of (c_req_id c) = slot_of id ->
  gw_conn_for_id (g_slots g) id = Some (Some p) ->
  (forall g', pushed p g (concat (chunk_adds c <$> payloads)) g' -> Q tt g') ->
  wp (deliver_chunks id payloads) Q g.
Proof.
  revert c g Q. induction payloads as [|payload payloads IH]; intros c g Q W Hc Hi Hs Hid HQ; cbn [deliver_chunks].
  { apply wp_ret, HQ. by eapply pushed_nil. }
  apply wp_bnd. eapply wp_gw_deliver_chunk; [done..|]. intros g1 H1.
  pose proof H1 as (W1 & F1 & c0 & Hc0 & H). assert (c0 = c) as -> by congruence.
  destruct (g_conns g1 !! p) as [c1|] eqn:Hc1.
  - destruct H as ((Ei & Er & Ew & _) & Es & Ef & Esl & _).
    apply (IH c1); [done|done|congruence|congruence|by rewrite Esl|]. intros g' H'. apply HQ. cbn [fmap list_fmap concat].
    eapply pushed_trans; [done|by eexists|]. replace (chunk_adds c <$> payloads) with (chunk_adds c1 <$> payloads); [done|].
    apply list_fmap_ext. intros _ x _. by apply chunk_adds_flags.
  - exists tt, g1. split; [|apply HQ; exact (pushed_weaken _ _ _ _ _ H1 Hc1)]. apply deliver_chunks_gone. by apply (gone_id p c g g1 id).
Qed.

(** The outcome of a BEGIN frame: the stream is open and its head behind what was queued, or
    the connection is gone; a malformed frame ends the request with 502. *)
Definition head_text c (status flags : Z) (ctype head : bytes) : Prop :=
  ntc_http_format_stream_head true status (ntc_http_status_text status) ctype
    (negb (Z.land flags NTC_STREAM_FLAG_SSE =? 0))
    (if (length (c_extra_headers c) =? 0)%nat then None else Some (c_extra_headers c)) = (NTC_OK, head).

Definition begun p c s (status flags : Z) (ctype : bytes) g' : Prop :=
  match g_conns g' !! p with
  | Some c' => same_link c c' /\ c_streaming c' = true /\ c_stream_ended c' = c_stream_ended c /\
      c_stream_sse c' = negb (Z.land flags NTC_STREAM_FLAG_SSE =? 0) /\
      exists head, head_text c status flags ctype head /\
        stream_out c' (default [] (g_sent g' !! p)) = stream_out c s ++ head
  | None => default [] (g_sent g' !! p) = s \/ exists head, head_text c status flags ctype head /\
      default [] (g_sent g' !! p) `prefix_of` stream_out c s ++ head
  end.

Definition begin_post p c g payload g' : Prop :=
  let s := default [] (g_sent g !! p) in
  match ntc_wire_decode_response_begin payload with
  | Some (Some (status, flags, ctype)) =>
      gw_wf g' /\ others_frame p g g' /\ begun p c s status flags ctype g'
  | _ => finished p g (fun s' => c_streaming c = false ->
           answered c s 502 JSON (qs "{'error':'bad stream begin'}") s') g'
  end.

Lemma wp_gw_deliver_begin id payload p c g (Q : unit -> gateway tls -> Prop) :
  gw_wf g -> g_conns g !! p = Some c -> c_inflight c = true -> slot_of (c_req_id c) = slot_of id ->
  gw_conn_for_id (g_slots g) id = Some (Some p) ->
  (forall g', begin_post p c g payload g' -> Q tt g') ->
  wp (gw_deliver_begin tdefl_compress mz_crc32 id payload) Q g.
Proof.
  intros W Hc Hi Hs Hid HQ. unfold gw_deliver_begin, begin_post in *. apply wp_bnd.
  eapply wp_load; [exact Hid|]. cbv beta iota. apply wp_bnd.
  destruct (decoders_safe payload) as (_ & _ & _ & [d Ed] & _). rewrite Ed in *.
  eapply wp_load; [done|]. set (s := default [] (g_sent g !! p)) in *.
  destruct d as [[[status flags] ctype]|].
  2: { apply wp_bnd. eapply wp_release_id; [done..|]. intros g1 L F. fold s in L.
    pose proof L as L1. apply wp_bnd. eapply wp_respond_and_flush; [exact L|..].
    - intros s' g' D Ha. apply wp_ret. eapply HQ, finished_dead; [done..|]. intros Es.
      apply (answered_ext (c <| c_inflight := false |>)); [done..|by apply Ha].
    - intros c' s' g' L' Ha. apply wp_ret. eapply HQ, finished_live; [done..|]. intros Es.
      destruct (Ha Es) as (resp & Hr & Ho). right. exists resp.
      split; [by apply (response_sent_ext (c <| c_inflight := false |>))|].
      rewrite <- Ho. unfold resp_out. by apply prefix_app_r. }
  pose proof (live_start _ _ _ W Hc) as L. fold s in L. apply wp_bnd.
  eapply wp_noise; [apply noise_rec_status|exact L|]. clear L. intros _ g1 L. apply wp_bnd.
  eapply (wp_upd_conn _ _ _ _ _ _ _ L); [destruct (live_ok _ _ _ _ _ L); by split|done|].
  clear L. intros g2 L.
  set (c1 := c <| c_streaming := true |> <| c_stream_sse := _ |> <| c_state := CS_STREAM |>) in *.
  apply wp_bnd. eapply wp_get_conn; [exact L|]. apply wp_bnd.
  eapply wp_noise; [apply noise_ask_alloc|exact L|]. clear L. intros a g3 L.
  change (c_extra_headers c1) with (c_extra_headers c).
  destruct (ntc_http_format_stream_head _ _ _ _ _ _) as [e head] eqn:Ef.
  assert (forall s' g', dead p s' g g' -> (s' = s \/ exists head, head_text c status flags ctype head /\
      s' `prefix_of` stream_out c s ++ head) -> Q tt g') as HD.
  { intros s' g' [W' Hc' Es [F _]] Hp. apply HQ. split_and!; [done..|]. unfold begun.
    by rewrite Hc', Es. }
  destruct (decide (e = NTC_OK)) as [->|He]; [rewrite bool_decide_false by (intros Hn; by apply Hn)|].
  2: { rewrite bool_decide_true by done. eapply wp_conn_close; [exact L|]. intros g' D.
    eapply HD; [done|by left]. }
  assert (head_text c status flags ctype head) as Hh.
  { unfold head_text. destruct a; [done|]. unfold ntc_http_format_stream_head in Ef.
    cbn [negb] in Ef. repeat case_match; by simplify_eq. }
  apply wp_bnd, wp_gets, wp_bnd.
  apply (wp_mono _ (fun _ g' => exists c2, live p c2 s g g' /\ same_link c c2 /\ same_flags c1 c2 /\
     c_streaming c2 = true /\ c_swbuf c2 = c_swbuf c /\ c_swsent c2 = c_swsent c)).
  { destruct (_ && _ && _).
    - apply wp_bnd. eapply wp_noise; [apply noise_mw_after|exact L|]. clear L. intros _ g4 L.
      eapply (wp_upd_conn _ _ _ _ _ _ _ L); [destruct (live_ok _ _ _ _ _ L); by split|done|].
      intros g5 L'. eexists. split; [exact L'|done].
    - apply wp_ret. exists c1. done. }
  clear L. intros [] g4 (c2 & L & El & Ef2 & Est & Eb & Eo). apply wp_bnd.
  eapply (wp_upd_conn _ _ _ _ _ _ _ L); [destruct (live_ok _ _ _ _ _ L); by split|done|].
  clear L. intros g5 L. apply wp_bnd.
  assert (forall s0, stream_out (c2 <| c_stream_head_sent := true |>) s0 = stream_out c s0) as Eout
    by (intros s0; unfold stream_out; cbn; by rewrite <- Eb, <- Eo).
  eapply wp_stream_push; [exact L|..].
  - intros s' g' D Hp. apply wp_ret. eapply HD; [done|]. right. exists head. split; [done|].
    rewrite <- Eout. by apply Hp.
  - intros c' s' g' L' Es' Ef' Ho. apply wp_ret, HQ. pose proof L' as [W' Hc' Es [F Hl]].
    split_and!; [done..|]. unfold begun. rewrite Hc', Es.
    destruct (Hl c' Hc') as (c0 & Hc0 & El0). assert (c0 = c) as -> by congruence.
    destruct (same_flags_trans c1 c2 c' Ef2 Ef') as (Een & Esse & _).
    split_and!; [done|by rewrite Es'|exact Een|exact Esse|].
    + exists head. split; [done|]. rewrite <- Eout. by apply Ho.
Qed.

(** The end of a stream. *)
Definition end_text c : bytes := if c_stream_sse c then [] else bs "0" ++ crlf ++ crlf.

(** Ending the request of [p], then pushing the last bytes of its stream. *)
Lemma wp_finish_stream p g g1 c s d (Q : Z -> gateway tls -> Prop) :
  others_frame p g g1 -> live p c s g1 g1 -> c_inflight c = false ->
  (forall r g', finished p g (fun s' => c_streaming c = true ->
     s' `prefix_of` stream_out c s ++ d) g' -> Q r g') ->
  wp (upd_conn p (fun c => c <| c_stream_ended := true |>) ;;; stream_push p d) Q g1.
Proof.
  intros F L Hi HQ. pose proof L as L1. apply wp_bnd.
  eapply (wp_upd_conn _ _ _ _ _ _ _ L); [destruct (live_ok _ _ _ _ _ L); by split|done|].
  clear L. intros g2 L. eapply wp_stream_push; [exact L|..].
  - intros s' g' D Hp. eapply HQ, finished_dead; [done..|]. intros Es. by apply Hp.
  - intros c' s' g' L' Es' Ef' Ho. eapply HQ, finished_live; [done..|]. intros Es.
    pose proof (Ho Es) as E. unfold stream_out at 1 in E. change (stream_out _ s) with (stream_out c s) in E.
    rewrite <- E. by apply prefix_app_r.
Qed.

Lemma wp_gw_deliver_end id p c g (Q : unit -> gateway tls -> Prop) :
  gw_wf g -> g_conns g !! p = Some c -> c_inflight c = true -> slot_of (c_req_id c) = slot_of id ->
  gw_conn_for_id (g_slots g) id = Some (Some p) ->
  (forall g', finished p g (fun s' => if c_streaming c
      then s' `prefix_of` stream_out c (default [] (g_sent g !! p)) ++ end_text c
      else s' = default [] (g_sent g !! p)) g' -> Q tt g') ->
  wp (gw_deliver_end id) Q g.
Proof.
  intros W Hc Hi Hs Hid HQ. unfold gw_deliver_end. apply wp_bnd. eapply wp_load; [exact Hid|].
  cbv beta iota. apply wp_bnd. eapply wp_release_id; [done..|]. intros g1 L F.
  set (s := default [] (g_sent g !! p)) in *. apply wp_bnd. eapply wp_get_conn; [exact L|].
  change (c_streaming (c <| c_inflight := false |>)) with (c_streaming c).
  destruct (c_streaming c) eqn:Est; cbn [negb].
  - change (wp (upd_conn p (fun c => c <| c_stream_ended := true |>) ;;;
      (let* _ := stream_push p (end_text c) in ret tt)) Q g1).
    apply (wp_mono _ (fun _ g' => finished p g (fun s' => s' `prefix_of` stream_out c s ++ end_text c) g'));
      [|intros []; auto].
    apply (wp_bnd (upd_conn p _)). pose proof (wp_finish_stream p g g1 _ s (end_text c)
      (fun _ g' => finished p g (fun s' => s' `prefix_of` stream_out c s ++ end_text c) g') F L eq_refl) as H.
    destruct H as (r & g' & E & HF).
    { intros r g' (W' & F' & Hn & Hp). split_and!; try done. by apply Hp. }
    unfold bnd at 1 in E. destruct (upd_conn _ _ g1) as [[[] g2]|] eqn:Eu; [|done].
    exists tt, g2. split; [exact Eu|]. apply wp_bnd. exists r, g'. split; [exact E|]. by apply wp_ret.
  - pose proof L as L1. eapply wp_conn_close; [exact L|]. intros g' D. by eapply HQ, finished_dead.
Qed.

(** ** WebSockets *)

(** What a WS_MSG frame adds: one unmasked WebSocket frame, or nothing. *)
Definition ws_adds c (payload d : bytes) : Prop :=
  d = [] \/ exists opcode data, c_is_ws c = true /\
    ntc_wire_decode_ws_msg payload = Some (Some (opcode, data)) /\
    d = ws_frame true (if opcode =? NTC_WS_BIN then NTC_WS_BIN else NTC_WS_TEXT) None data.

(** An encoded frame with room for its header. *)
Lemma ws_encode_room op data k :
  0 <= op < 16 -> (10 <= k)%nat ->
  ntc_ws_encode op data (replicate (length data + k) 0) (length data + k) =
  Some (ws_frame true op None data ++ drop (length (ws_frame true op None data)) (replicate (length data + k) 0),
        Z.of_nat (length (ws_frame true op None data))).
Proof.
  intros Hop Hk. rewrite ws_encode_spec; [|done|by rewrite length_replicate].
  rewrite (proj2 (Nat.leb_le _ _)); [done|]. unfold ws_frame. rewrite length_app.
  assert (length (ws_header true op None (Z.of_nat (length data))) <= 10)%nat; [|lia].
  unfold ws_header. cbn [length]. rewrite length_app, length_ws_length_field. cbn [from_option default].
  unfold ws_offset. repeat case_match; simpl; lia.
Qed.

Lemma take_frame (f r : bytes) : take (Z.to_nat (Z.of_nat (length f))) (f ++ r) = f.
Proof. by rewrite Nat2Z.id, take_app_length. Qed.

Lemma ws_frame_pos fin op m data : 0 < Z.of_nat (length (ws_frame fin op m data)).
Proof. unfold ws_frame, ws_header. cbn [length app]. lia. Qed.

Lemma ws_op_ok op : 0 <= (if op =? NTC_WS_BIN then NTC_WS_BIN else NTC_WS_TEXT) < 16.
Proof. unfold NTC_WS_BIN, NTC_WS_TEXT. destruct (op =? 2); lia. Qed.

(** Two stages: the allocation answered, then the frame pushed. *)
Lemma pushed_core p g g1 d g' : same_core g g1 -> pushed p g1 d g' -> pushed p g d g'.
Proof.
  intros S (W & F & c & Hc & H).
  rewrite (sc_conns _ _ S) in Hc. rewrite (sc_sent _ _ S), (sc_slots _ _ S) in H.
  split_and!; [done| |by exists c]. eapply others_frame_trans; [|done]. apply (same_core_frame p _ _ S).
Qed.

Lemma wp_gw_ws_deliver id payload p c g (Q : unit -> gateway tls -> Prop) :
  gw_wf g -> g_conns g !! p = Some c -> gw_conn_for_id (g_slots g) id = Some (Some p) ->
  (forall d g', ws_adds c payload d -> pushed p g d g' -> Q tt g') ->
  wp (gw_ws_deliver id payload) Q g.
Proof.
  intros W Hc Hid HQ. unfold gw_ws_deliver, ws_adds in *. apply wp_bnd.
  eapply wp_load; [exact Hid|]. cbv beta iota. apply wp_bnd. eapply wp_load; [exact Hc|].
  assert (Q tt g) as Hnil by (eapply HQ; [by left|by eapply pushed_nil]).
  destruct (c_is_ws c); cbn [negb]; [|by apply wp_ret]. apply wp_bnd.
  destruct (decoders_safe payload) as (_ & _ & _ & _ & _ & [d Ed] & _).
  eapply wp_load; [exact Ed|]. destruct d as [[opcode data]|]; [|by apply wp_ret]. cbv beta iota zeta.
  apply wp_bnd. eapply wp_noise_core; [apply noise_ask_alloc|]. intros ok g1 S.
  pose proof (same_core_wf _ _ S W) as W1.
  assert (g_conns g1 !! p = Some c) as Hc1 by (by rewrite (sc_conns _ _ S)).
  destruct ok; cbn [negb]; [|apply wp_ret; eapply HQ; [by left|]; eapply pushed_core; [done|by eapply pushed_nil]].
  apply wp_bnd. eapply wp_load; [apply (ws_encode_room _ data 16); [apply ws_op_ok|lia]|]. cbv beta iota zeta.
  rewrite (proj2 (Z.ltb_lt 0 _)) by apply ws_frame_pos. rewrite take_frame.
  apply wp_bnd. eapply pushed_push; [done..| |]; intros g' Hp _; apply wp_ret;
    (eapply HQ; [right; by exists opcode, data|by eapply pushed_core]).
Qed.

(** A CLOSE frame without a body. *)
Definition ws_close_text : bytes := ws_frame true NTC_WS_CLOSE None [].

Lemma wp_gw_ws_deliver_close id p c g (Q : unit -> gateway tls -> Prop) :
  gw_wf g -> g_conns g !! p = Some c -> c_inflight c = true -> slot_of (c_req_id c) = slot_of id ->
  gw_conn_for_id (g_slots g) id = Some (Some p) ->
  (forall g', finished p g (fun s' => c_streaming c = true ->
      s' `prefix_of` stream_out c (default [] (g_sent g !! p)) ++ ws_close_text) g' -> Q tt g') ->
  wp (gw_ws_deliver_close id) Q g.
Proof.
  intros W Hc Hi Hs Hid HQ. unfold gw_ws_deliver_close. apply wp_bnd. eapply wp_load; [exact Hid|].
  cbv beta iota. apply wp_bnd. eapply wp_release_id; [done..|]. intros g1 L F.
  set (s := default [] (g_sent g !! p)) in *. apply wp_bnd.
  eapply wp_load; [vm_compute; reflexivity|]. cbv beta iota zeta.
  change (take (Z.to_nat 2) [136; 0; 0; 0]) with ws_close_text. change (0 <? 2) with true. cbv iota.
  pose proof (wp_finish_stream p g g1 _ s ws_close_text (fun _ g' => Q tt g') F L eq_refl) as H.
  destruct H as (r & g' & E & HF); [intros r g'; apply HQ|].
  unfold bnd at 1 in E. apply wp_bnd. destruct (upd_conn _ _ g1) as [[[] g2]|] eqn:Eu; [|done].
  exists tt, g2. split; [exact Eu|]. apply wp_bnd. exists r, g'. split; [exact E|]. by apply wp_ret.
Qed.

(** ** One frame *)

Lemma finished_relay id p c g R g' :
  g_conns g !! p = Some c -> c_inflight c = true -> slot_of (c_req_id c) = slot_of id ->
  finished p g R g' -> relay_frame id g g'.
Proof. intros ? ? ? (W & F & _). split; [done|]. right. by exists p, c. Qed.

Lemma pushed_relay id p c g d g' :
  g_conns g !! p = Some c -> c_inflight c = true -> slot_of (c_req_id c) = slot_of id ->
  pushed p g d g' -> relay_frame id g g'.
Proof. intros ? ? ? (W & F & _). split; [done|]. right. by exists p, c. Qed.

(** Whatever a controller sends, the gateway survives it, and it reaches at most the
    connection in flight under the frame's id. *)
Lemma wp_deliver_frame h pl g :
  gw_wf g -> wp (deliver_frame tdefl_compress mz_crc32 h pl)
               (fun _ g' => relay_frame (wh_request_id h) g g') g.
Proof.
  intros W. unfold deliver_frame. set (id := wh_request_id h).
  assert (relay_frame id g g) as Hsame by (split; [done|by left]).
  assert (exists r, gw_conn_for_id (g_slots g) id = Some r /\ match r with None => True | Some p =>
     exists c, g_conns g !! p = Some c /\ c_inflight c = true /\ slot_of (c_req_id c) = slot_of id end)
    as (r & Er & Hr).
  { destruct (wp_conn_for_id id g (fun r g' => match r with None => True | Some p =>
     exists c, g_conns g !! p = Some c /\ c_inflight c = true /\ slot_of (c_req_id c) = slot_of id end) W)
      as (r & g' & E & H); [done|by eauto|].
    unfold load in E. destruct (gw_conn_for_id (g_slots g) id); [|done]. injection E as -> ->. eauto. }
  destruct r as [p|].
  - destruct Hr as (c & Hc & Hi & Hs). repeat case_match; try by apply wp_ret.
    + eapply wp_gw_deliver; [done..|]. intros g' HF. by eapply finished_relay.
    + eapply wp_gw_deliver_begin; [done..|]. intros g' HP. unfold begin_post in HP.
      repeat case_match; try by eapply finished_relay.
      destruct HP as (W' & F & _). split; [done|]. right. by exists p, c.
    + eapply wp_gw_deliver_chunk; [done..|]. intros g' HP. by eapply pushed_relay.
    + eapply wp_gw_deliver_end; [done..|]. intros g' HF. by eapply finished_relay.
    + eapply wp_gw_ws_deliver; [done..|]. intros d g' _ HP. by eapply pushed_relay.
    + eapply wp_gw_ws_deliver_close; [done..|]. intros g' HF. by eapply finished_relay.
  - repeat case_match; try (by apply wp_ret); apply wp_bnd; (eapply wp_load; [exact Er|]); by apply wp_ret.
Qed.
End relay_safe.
