(* ===== verification/ServerEvents.v ===== *)
(** * Controllers, forwarding and WebSocket clients: safety

    The handlers that work on a controller, or that hand a connection over to one: from a
    well-formed gateway they return without a fault to a well-formed gateway. *)
From S2P Require Import Prelude Update Err Slice Http HttpRequest Wire Ws Gzip Inflight.
From S2P Require Import ServerState ServerConn ServerRelay ServerInv ServerSafe ServerRelaySafe.
Open Scope Z_scope.

Section ws_events.
  Context {tls : Type} {TE : TlsEngine tls} {TL : TlsLaws tls}.
  Implicit Types (g : gateway tls) (c : conn tls) (p q : conn_ptr).

(** ** WebSocket clients *)

Lemma wp_ws_relay p c s g0 g op pay (Q : unit -> gateway tls -> Prop) :
  live p c s g0 g -> Z.of_nat (length pay) <= NTC_WS_MAX_PAYLOAD ->
  (forall g', live p c s g0 g' -> Q tt g') -> wp (ws_relay c op pay) Q g.
Proof.
  intros L Hp HQ. unfold ws_relay. destruct (c_wait_ctrl c) as [k|] eqn:Ew; [|by apply wp_ret, HQ].
  destruct (c_inflight c) eqn:Hi; cbn [negb]; [|by apply wp_ret, HQ].
  destruct (live_waits _ _ _ _ _ L Hi) as (k' & Ew' & Hk). assert (k' = k) as -> by congruence.
  apply wp_bnd. eapply wp_noise; [apply noise_ask_alloc|exact L|]. clear g L. intros ok g L.
  destruct ok; cbn [negb]; [|by apply wp_ret, HQ].
  destruct (encode_ws_msg_encodes (if op =? NTC_WS_BIN then NTC_WS_BIN else NTC_WS_TEXT) pay
    (replicate (length pay + 16) 0) (length pay + 16)) as (enc & pn & E & _ & _).
  { pose proof (ws_op_ok op). unfold is_byte. lia. }
  { apply Z.ltb_lt. unfold NTC_WS_MAX_PAYLOAD in Hp. lia. }
  { by rewrite length_replicate. }
  apply wp_bnd. eapply wp_load; [exact E|]. cbv beta iota. destruct (0 <? pn); [|by apply wp_ret, HQ].
  apply wp_bnd. eapply wp_ctrl_queue_live; [exact L|done|]. clear g L. intros [] g L; [|by apply wp_ret, HQ].
  apply wp_bnd. eapply wp_update_poll; [exact L|done|]. intros b g' L'. by apply wp_ret, HQ.
Qed.

(** The receive buffer after a frame at [off] was unmasked in place. *)
Lemma unmasked_ok c off buf :
  conn_ok c -> (off <= length (c_rbuf c))%nat -> length buf = length (drop off (c_rbuf c)) ->
  bytes_ok buf -> conn_ok (c <| c_rbuf := take off (c_rbuf c) ++ buf |>) /\
  length (take off (c_rbuf c) ++ buf) = length (c_rbuf c).
Proof.
  intros [H1 [H2 H2'] H3 H4 H5] Ho Hl Hb. rewrite length_drop in Hl.
  assert (length (take off (c_rbuf c) ++ buf) = length (c_rbuf c)) as E
    by (rewrite length_app, length_take; lia).
  split; [|done]. split; unfold update; cbn; try assumption. rewrite E. split; [done|].
  apply Forall_app. split; [by apply Forall_take|done].
Qed.

Lemma decoded_buffer buf buf' consumed op pay :
  bytes_ok buf -> ws_decoded buf buf' consumed op pay -> length buf' = length buf /\ bytes_ok buf'.
Proof.
  intros Hb [_ Hc _ Hp (pre & post & -> & Ec & Epre & Epost)]. subst consumed. split.
  - rewrite !length_app, Epost, length_drop. lia.
  - rewrite !list.Forall_app. split_and!; [rewrite Epre; by apply Forall_take|done|].
    rewrite Epost. by apply Forall_drop.
Qed.

Lemma wp_ws_frames fuel p c s g0 g off (Q : option nat -> gateway tls -> Prop) :
  live p c s g0 g -> (off <= length (c_rbuf c))%nat -> (length (c_rbuf c) - off < fuel)%nat ->
  (forall s' g', dead p s' g0 g' -> Q None g') ->
  (forall c' s' g' off', live p c' s' g0 g' -> (off' <= length (c_rbuf c'))%nat -> Q (Some off') g') ->
  wp (ws_frames fuel p off) Q g.
Proof.
  revert c s g off. induction fuel as [|fuel IH]; intros c s g off L Ho Hf HD HL; [lia|].
  cbn [ws_frames]. apply wp_bnd. eapply wp_get_conn; [exact L|].
  destruct (Nat.ltb_spec off (length (c_rbuf c))) as [Hlt|]; cbn [negb]; [|apply wp_ret; eauto].
  pose proof (live_ok _ _ _ _ _ L) as Hok. pose proof Hok as [_ [_ Hb] _ _ _].
  assert (bytes_ok (drop off (c_rbuf c))) as Hbd by (by apply Forall_drop).
  destruct (ws_decode_safe (drop off (c_rbuf c)) Hbd) as (r & E & Hr). apply wp_bnd.
  eapply wp_load; [exact E|]. destruct r as [| |buf consumed op fin pay].
  - apply wp_bnd. eapply wp_conn_close; [exact L|]. intros g' D. apply wp_ret. eauto.
  - apply wp_ret. eauto.
  - destruct (decoded_buffer _ _ _ _ _ Hbd Hr) as [Hl Hb']. destruct Hr as [Hop Hc Hlim Hpay _].
    destruct (unmasked_ok c off buf Hok Ho Hl Hb') as [Hok' El]. rewrite length_drop in Hc.
    set (c1 := c <| c_rbuf := take off (c_rbuf c) ++ buf |>) in *. apply wp_bnd.
    eapply (wp_put_conn _ _ _ _ _ _ _ L); [done|done|]. clear g L E. intros g L.
    assert (length (c_rbuf c1) = length (c_rbuf c)) as El1 by exact El.
    assert (forall c2 s2 g2, live p c2 s2 g0 g2 -> c_rbuf c2 = c_rbuf c1 ->
              wp (ws_frames fuel p (off + consumed)) Q g2) as Hnext.
    { intros c2 s2 g2 L2 E2. eapply IH; [exact L2| | |done|done]; rewrite E2; lia. }
    destruct (op =? NTC_WS_CLOSE).
    { apply wp_bnd. eapply wp_conn_close; [exact L|]. intros g' D. apply wp_ret. eauto. }
    destruct (op =? NTC_WS_PING); [|destruct (op =? NTC_WS_PONG); [by eapply Hnext|]].
    + set (pl := if (125 <? length pay)%nat then 0%nat else length pay). apply wp_bnd.
      eapply wp_load; [apply ws_encode_spec; [unfold NTC_WS_PONG; lia|by rewrite length_replicate]|].
      cbv beta zeta. destruct (length _ <=? 160)%nat; cbv beta iota; destruct (0 <? _);
        try by eapply Hnext.
      all: apply wp_bnd; eapply wp_stream_push; [exact L|..].
      all: intros; cbv beta iota; first [change (-1 <? 0) with true|change (0 <? 0) with false]; cbv iota.
      all: try (apply wp_ret; by eauto).
      all: eapply Hnext; [eassumption|]; match goal with H : same_flags _ _ |- _ => apply H end.
    + change (ws_relay c op pay) with (ws_relay c1 op pay).
      apply wp_bnd. eapply wp_ws_relay; [exact L|done|]. intros g' L'. by eapply Hnext.
Qed.

Lemma recv_loop_ok ins buf cap how buf' ins' :
  recv_loop ins buf cap = (how, buf', ins') -> bytes_ok buf -> (length buf <= cap)%nat ->
  Forall recv_ok ins -> bytes_ok buf' /\ (length buf' <= cap)%nat /\ Forall recv_ok ins'.
Proof.
  revert buf. induction ins as [|o ins IH]; intros buf; cbn [recv_loop];
    destruct (Nat.leb_spec cap (length buf)) as [Hle|Hlt].
  1-3: intros [= <- <- <-] Hb Hl Hi; split_and!; done.
  intros E Hb Hl [Ho Hi]%Forall_cons_1. destruct o as [d| | |]; try by (injection E as <- <- <-; split_and!).
  - destruct (Nat.ltb_spec 0 (length (take (cap - length buf) d))); [|by injection E as <- <- <-].
    apply IH in E; [done| | |done].
    + apply Forall_app. split; [done|]. by apply Forall_take.
    + rewrite length_app, length_take. lia.
  - by apply IH in E.
Qed.

Lemma noise_set_recvs l :
  Forall recv_ok l -> noise (modify (fun g => g <| g_recvs := l |>) : St (gateway tls) unit).
Proof. intros H. apply noise_modify. intros g. by split. Qed.

Lemma wp_on_ws_readable p c s g0 g (Q : Z -> gateway tls -> Prop) :
  live p c s g0 g -> (forall s' g', dead p s' g0 g' -> Q (-1) g') ->
  (forall c' s' g', live p c' s' g0 g' -> Q 0 g') -> wp (on_ws_readable p) Q g.
Proof.
  intros L HD HL. unfold on_ws_readable. apply wp_bnd. eapply wp_get_conn; [exact L|].
  apply wp_bnd, wp_gets. destruct (recv_loop _ _ _) as [[how buf] ins] eqn:E.
  pose proof (live_ok _ _ _ _ _ L) as [H1 [H2 H2'] H3 H4 H5].
  apply recv_loop_ok in E as (Hb & Hl & Hi); [|done|done|apply (wf_recvs _ (lv_wf _ _ _ _ _ L))].
  apply wp_bnd. eapply wp_noise; [by apply noise_set_recvs|exact L|]. clear L. intros _ g1 L.
  apply wp_bnd. eapply (wp_put_conn _ _ _ _ _ _ _ L); [by split|done|]. clear L. intros g2 L.
  assert (wp (conn_close p ;;; ret (-1)) Q g2) as Hclose.
  { apply wp_bnd. eapply wp_conn_close; [exact L|]. intros g' D. apply wp_ret. eauto. }
  destruct how; try exact Hclose. apply wp_bnd.
  eapply wp_ws_frames; [exact L|lia|unfold update; cbn; lia| |].
  - intros s' g' D. apply wp_ret. eauto.
  - intros c' s' g' off L' Ho. destruct (0 <? off)%nat; [|apply wp_ret; eauto]. apply wp_bnd.
    eapply (wp_upd_conn _ _ _ _ _ _ _ L'); [|done|intros g'' L''; apply wp_ret; eauto].
    destruct (live_ok _ _ _ _ _ L') as [G1 [G2 G2'] G3 G4 G5]. split; unfold update; cbn; try assumption.
    rewrite length_drop. split; [lia|by apply Forall_drop].
Qed.
End ws_events.
