(* ===== verification/ServerForward.v ===== *)
(** * Forwarding a request to a controller

    Picking a replica, taking an id, queueing the request: on every branch the gateway
    stays well formed and the client is either waiting for a controller that has its request
    or was answered. *)
From S2P Require Import Prelude Update Err Slice Http HttpRequest Wire Ws Gzip Inflight.
From S2P Require Import ServerState ServerConn ServerRelay ServerInv ServerSafe ServerRelaySafe.
From S2P Require Import ServerEvents.
Open Scope Z_scope.

Section pick.
  Context {tls : Type}.
  Implicit Types (g : gateway tls) (svc : service).

(** The slot [svc_pick] looks at in round [k]. *)
Definition pick_slot svc (k : nat) : nat := Z.to_nat ((s_rr svc + Z.of_nat k) mod svc_n svc).

Lemma svc_n_range svc : service_ok svc -> 1 <= svc_n svc <= 8.
Proof.
  intros [_ H _ _ _]. unfold svc_n. change (Z.of_nat NTC_MAX_REPLICAS) with 8 in H.
  destruct (Z.ltb_spec 0 (s_replicas svc)); lia.
Qed.

Lemma pick_slot_lookup svc k :
  service_ok svc -> exists o, s_conns svc !! pick_slot svc k = Some o /\
    Z.of_nat (pick_slot svc k) < svc_n svc.
Proof.
  intros Hok. pose proof (svc_n_range svc Hok). destruct Hok as [(Hl & _) _ _ _ _].
  assert (Z.of_nat (pick_slot svc k) < svc_n svc) as Hlt.
  { unfold pick_slot. pose proof (Z.mod_pos_bound (s_rr svc + Z.of_nat k) (svc_n svc)). lia. }
  destruct (lookup_lt_is_Some_2 (s_conns svc) (pick_slot svc k)) as [o Ho]; [|by exists o].
  rewrite Hl. unfold NTC_MAX_REPLICAS. lia.
Qed.

(** The rounds from [a] on find the first live replica, and move the cursor past it. *)
Lemma svc_pick_loop_spec svc a m :
  service_ok svc ->
  svc_pick_loop (seq a m) svc (svc_n svc) = Some (None, svc) /\
    (forall k, (a <= k < a + m)%nat -> s_conns svc !! pick_slot svc k = Some None) \/
  exists k ct, (a <= k < a + m)%nat /\ s_conns svc !! pick_slot svc k = Some (Some ct) /\
    (forall j, (a <= j < k)%nat -> s_conns svc !! pick_slot svc j = Some None) /\
    svc_pick_loop (seq a m) svc (svc_n svc) =
      Some (Some ct, svc <| s_rr := (Z.of_nat (pick_slot svc k) + 1) mod svc_n svc |>).
Proof.
  intros Hok. pose proof (svc_n_range svc Hok) as Hn. pose proof (ok_rr _ Hok) as Hrr.
  revert a. induction m as [|m IH]; intros a; [left; split; [done|]; lia|].
  destruct (pick_slot_lookup svc a Hok) as (o & Ho & Hlt). cbn [seq svc_pick_loop].
  rewrite Z.rem_mod_nonneg by lia.
  assert (Z.to_nat ((s_rr svc + Z.of_nat a) mod svc_n svc) = pick_slot svc a) as -> by done.
  pose proof (Z.mod_pos_bound (s_rr svc + Z.of_nat a) (svc_n svc)).
  rewrite (proj2 (Z.ltb_ge _ 0)) by lia. rewrite Ho. bind. destruct o as [ct|].
  - right. exists a, ct. split_and!; [lia|lia|done|lia|]. do 3 f_equal.
    unfold pick_slot. rewrite Z2Nat.id by lia. rewrite Z.rem_mod_nonneg by lia. done.
  - destruct (IH (S a)) as [[E Hall]|(k & ct & Hk & Hc & Hj & E)].
    + left. split; [done|]. intros k Hk. destruct (decide (k = a)) as [->|]; [done|]. apply Hall. lia.
    + right. exists k, ct. split_and!; [lia|lia|done| |done].
      intros j Hj'. destruct (decide (j = a)) as [->|]; [done|]. apply Hj. lia.
Qed.

(** Every slot below the replica count is looked at. *)
Lemma pick_slot_surj svc s :
  service_ok svc -> Z.of_nat s < svc_n svc ->
  exists k, (k < Z.to_nat (svc_n svc))%nat /\ pick_slot svc k = s.
Proof.
  intros Hok Hs. pose proof (svc_n_range svc Hok) as Hn. pose proof (ok_rr _ Hok) as Hrr.
  exists (Z.to_nat ((Z.of_nat s - s_rr svc) mod svc_n svc)).
  pose proof (Z.mod_pos_bound (Z.of_nat s - s_rr svc) (svc_n svc)). split; [lia|].
  unfold pick_slot. rewrite Z2Nat.id by lia. rewrite Zplus_mod_idemp_r.
  replace (s_rr svc + (Z.of_nat s - s_rr svc)) with (Z.of_nat s) by lia. rewrite Z.mod_small; lia.
Qed.

Lemma svc_pick_spec svc :
  service_ok svc ->
  svc_pick svc = Some (None, svc) /\
    (forall s, Z.of_nat s < svc_n svc -> s_conns svc !! s = Some None) \/
  exists k ct, (k < Z.to_nat (svc_n svc))%nat /\ s_conns svc !! pick_slot svc k = Some (Some ct) /\
    (forall j, (j < k)%nat -> s_conns svc !! pick_slot svc j = Some None) /\
    svc_pick svc = Some (Some ct, svc <| s_rr := (Z.of_nat (pick_slot svc k) + 1) mod svc_n svc |>).
Proof.
  intros Hok. unfold svc_pick.
  destruct (svc_pick_loop_spec svc 0 (Z.to_nat (svc_n svc)) Hok) as [[E Hall]|(k & ct & Hk & Hc & Hj & E)].
  - left. split; [done|]. intros s Hs. destruct (pick_slot_surj svc s Hok Hs) as (k & Hk & <-).
    apply Hall. lia.
  - right. exists k, ct. split_and!; [lia|done| |done]. intros j Hj'. apply Hj. lia.
Qed.

(** ** In the gateway *)

Lemma wf_put_service g i svc svc' :
  gw_wf g -> g_services g !! i = Some svc -> service_ok svc' ->
  (forall s k, s_conns svc' !! s = Some (Some k) -> s_conns svc !! s = Some (Some k)) ->
  gw_wf (g <| g_services := <[i := svc']> (g_services g) |>).
Proof.
  intros [? ? ? ? ? wf_s wf_r wf_o ?] Hi Hok Hc. split; cbn; try done.
  - by apply Forall_insert.
  - intros j sv s k. destruct (decide (j = i)) as [->|Hne].
    + rewrite list_lookup_insert_eq by (by apply lookup_lt_Some in Hi). intros [= <-] Hs.
      apply (wf_r i svc s); auto.
    + rewrite list_lookup_insert_ne by done. apply wf_r.
  - intros k ct j Hk Hs. destruct (wf_o k ct j Hk Hs) as [sv Hsv].
    destruct (decide (j = i)) as [->|Hne].
    + rewrite list_lookup_insert_eq by (by apply lookup_lt_Some in Hi). by eexists.
    + rewrite list_lookup_insert_ne by done. by eexists.
Qed.

(** A target is a live controller of the service. *)
Lemma wp_pick_target i g (Q : option ctrl_ptr -> gateway tls -> Prop) :
  gw_wf g -> is_Some (g_services g !! i) ->
  (forall r svcs, gw_wf (g <| g_services := svcs |>) ->
     match r with Some k => exists ct, g_ctrls g !! k = Some ct /\ k_svc ct = Some i | None => True end ->
     Q r (g <| g_services := svcs |>)) ->
  wp (pick_target i) Q g.
Proof.
  intros W [svc Hi] HQ. unfold pick_target. apply wp_bnd. eapply wp_load; [exact Hi|].
  assert (gw_wf (g <| g_services := g_services g |>)) as W0 by (by destruct g).
  destruct (s_disabled svc).
  { apply wp_ret. replace g with (g <| g_services := g_services g |>) by (by destruct g). by apply HQ. }
  pose proof (Forall_lookup_1 _ _ _ _ (wf_services _ W) Hi) as Hok.
  assert (exists r svc', svc_pick svc = Some (r, svc') /\ service_ok svc' /\ s_conns svc' = s_conns svc /\
    match r with Some k => exists s, s_conns svc !! s = Some (Some k) | None => True end)
    as (r & svc' & E & Hok' & Ec & Hr).
  { destruct (svc_pick_spec svc Hok) as [[E _]|(k & ct & _ & Hc & _ & E)].
    - exists None, svc. done.
    - eexists _, _. split; [exact E|]. split; [|split; [done|by eexists]].
      pose proof (svc_n_range svc Hok). destruct Hok as [H1 H2 H3 H4 H5]. split; [exact H1|exact H2| |exact H4|exact H5].
      unfold update. cbn.
      pose proof (Z.mod_pos_bound (Z.of_nat (pick_slot svc k) + 1) (svc_n svc)). lia. }
  apply wp_bnd. eapply wp_load; [exact E|]. cbv beta iota. apply wp_bnd.
  apply (wp_store _ (g <| g_services := <[i := svc']> (g_services g) |>)); [cbv beta; by rewrite Hi|].
  apply wp_ret, HQ.
  - apply (wf_put_service g i svc); try done. by rewrite Ec.
  - destruct r as [k|]; [|done]. destruct Hr as [s Hs]. by apply (wf_replicas _ W i svc s).
Qed.
End pick.

Section forward.
  Context {tls : Type} {TE : TlsEngine tls} {TL : TlsLaws tls}.
  Variable tdefl_compress : bytes -> option bytes.
  Variable mz_crc32 : bytes -> Z.
  Variable br_sha1 : bytes -> bytes.
  Implicit Types (g : gateway tls) (c : conn tls) (p q : conn_ptr).
  Local Abbreviation answered := (answered tdefl_compress mz_crc32).

(** ** Handing a connection over *)

(** The state in which [p] waits for controller [k] under [id]. *)
Definition enlisted g (k : ctrl_ptr) (ct : ctrl) (t : slots) (l : list bool) : gateway tls :=
  g <| g_slots := t |> <| g_allocs := l |> <| g_ctrls := <[k := ct]> (g_ctrls g) |>.

Lemma wf_enlisted g p c c' k ct ct' id t l :
  gw_wf g -> g_conns g !! p = Some c -> c_inflight c = false -> g_ctrls g !! k = Some ct ->
  gw_alloc_id (g_slots g) p = Some (Some (id, t)) -> ctrl_ok ct' -> same_ctrl ct ct' ->
  c_inflight c' = true -> c_req_id c' = id -> c_wait_ctrl c' = Some k -> conn_ok c' ->
  gw_wf ((enlisted g k ct' t l) <| g_conns := <[p := c']> (g_conns g) |>).
Proof.
  intros W Hc Hi Hk Ha Hok Hs Hi' Hid Hw Hok'.
  pose proof (wf_link g p c c' id t k ct W Hc Hi Ha Hk Hi' Hid Hw Hok') as W1.
  assert (gw_wf (g <| g_slots := t |> <| g_conns := <[p := c']> (g_conns g) |> <| g_allocs := l |>)) as W2
    by (refine (same_core_wf _ _ _ W1); by split).
  refine (wf_put_ctrl (g <| g_slots := t |> <| g_conns := <[p := c']> (g_conns g) |> <| g_allocs := l |>)
            k ct ct' W2 Hk Hok _). apply Hs.
Qed.

(** Taking an id and queueing a frame under it: the table is full, the queue is, or the
    frame is queued. *)
Lemma wp_enlist p c k ct ty pl g (A B : St (gateway tls) Z) (C : Z -> St (gateway tls) Z) Q :
  gw_wf g -> g_conns g !! p = Some c -> c_inflight c = false -> g_ctrls g !! k = Some ct ->
  wp A Q g ->
  (forall t l, gw_wf (g <| g_slots := t |> <| g_allocs := l |>) ->
     wp B Q (g <| g_slots := t |> <| g_allocs := l |>)) ->
  (forall id t ct' l, gw_alloc_id (g_slots g) p = Some (Some (id, t)) -> ctrl_ok ct' ->
     same_ctrl ct ct' ->
     (Z.of_nat (length pl) < 2 ^ 32 -> k_wbuf ct' = k_wbuf ct ++
        ntc_wire_write_header ty id (Z.of_nat (length pl)) ++ pl) ->
     wp (C id) Q (enlisted g k ct' t l)) ->
  wp (let* id := alloc_id p in
      match id with
      | None => A
      | Some id => let* ok := ctrl_queue k ty id pl in
                   if negb ok then free_slot (slot_of id) ;;; B else C id
      end) Q g.
Proof.
  intros W Hc Hi Hk HA HB HC. apply wp_bnd. unfold alloc_id.
  pose proof (alloc_spec _ p (wf_slots _ W)) as Hspec. apply wp_bnd.
  case_decide as H0; [eapply wp_load; [exact Hspec|]; by apply wp_ret|].
  destruct Hspec as (slot & gn & t & Ha & _). eapply wp_load; [exact Ha|]. cbv beta iota.
  set (id := gn mod 2 ^ 20 * 2 ^ 12 + Z.of_nat slot) in *. apply wp_bnd, wp_modify, wp_ret, wp_bnd.
  pose proof (wf_ctrls _ W k ct Hk) as Hok.
  eapply wp_ctrl_queue; [exact Hk|exact Hok|]. intros b ct' l Hok' Hs Hq Hf.
  destruct b; cbn [negb]; cbv iota.
  - apply (HC id t ct' l); try done. intros Hlt. by apply Hq.
  - rewrite (Hf eq_refl). apply wp_bnd.
    destruct (alloc_free g p id t W Ha) as (t' & Ef & W').
    eapply (wp_store _ (g <| g_slots := t' |> <| g_allocs := l |>)).
    + unfold update. cbn. rewrite Ef. cbn. by rewrite insert_id by done.
    + apply HB. refine (same_core_wf _ _ _ W'); by split.
Qed.

(** What becomes of a request that is to go to a controller: its connection waits for a
    controller that has it in its queue, or was refused with 400, 500 or 503. *)
Definition refused c s s' : Prop :=
  exists status body, status ∈ [400; 500; 503] /\ answered c s status JSON body s'.

Definition forwarded p req svc ty g g' : Prop :=
  exists c' k id ct ct', g_conns g' !! p = Some c' /\ c_inflight c' = true /\ c_wait_ctrl c' = Some k /\
    c_req_id c' = id /\ gw_conn_for_id (g_slots g') id = Some (Some p) /\
    g_ctrls g !! k = Some ct /\ k_svc ct = Some svc /\ g_ctrls g' !! k = Some ct' /\
    k_wbuf ct' = k_wbuf ct ++ ntc_wire_write_header ty id (Z.of_nat (length (request_spec (clip req)))) ++
                 request_spec (clip req).

Definition own_frame p g g' : Prop :=
  forall q, q <> p -> g_conns g' !! q = g_conns g !! q /\ g_sent g' !! q = g_sent g !! q.

(** If the connection is there, it is encrypted as it was. *)
Definition same_tls p c g : Prop := forall c', g_conns g !! p = Some c' -> has_tls c' = has_tls c.

(** The connection is idle or gone, and its client saw a refusal if anything. *)
Definition turned_away p c g (r : Z) g' : Prop :=
  gw_wf g' /\ own_frame p g g' /\ same_tls p c g' /\
  (c_streaming c = false -> refused c (default [] (g_sent g !! p)) (default [] (g_sent g' !! p))) /\
  match g_conns g' !! p with
  | None => r = -1
  | Some c' => r = 0 /\ c_inflight c' = false
  end.

Definition handed_over p c req svc g (r : Z) g' : Prop :=
  turned_away p c g r g' \/
  r = 0 /\ gw_wf g' /\ own_frame p g g' /\ same_tls p c g' /\ forwarded p req svc NTC_MSG_REQUEST g g'.

(** A refusal, from a state in which the connection is as it was. *)
Lemma wp_refuse p c g g1 status body (Q : Z -> gateway tls -> Prop) :
  gw_wf g1 -> g_conns g !! p = Some c -> g_conns g1 = g_conns g -> g_sent g1 = g_sent g ->
  c_inflight c = false -> status ∈ [400; 500; 503] ->
  (forall r g', turned_away p c g r g' -> Q r g') ->
  wp (respond_and_flush tdefl_compress mz_crc32 p status body) Q g1.
Proof.
  intros W Hc Ec Es Hi Hst HQ. rewrite <- Ec in Hc.
  eapply wp_respond_and_flush; [by apply live_start|..].
  - intros s' g' [W' Hc' Es' [[F _] _]] Ha. apply HQ. split_and!; [done| |intros c'; congruence| |by rewrite Hc'].
    + intros q Hq. rewrite <- Ec, <- Es. by apply F.
    + rewrite Es'. intros Hst'. exists status, body. rewrite <- Es. auto.
  - intros c' s' g' [W' Hc' Es' [[F _] Hl]] Ha. apply HQ. split_and!; [done| | | |].
    + intros q Hq. rewrite <- Ec, <- Es. by apply F.
    + intros c2 Hc2. destruct (Hl c2 Hc2) as (c1 & Hc1 & _ & _ & _ & _ & Et). congruence.
    + rewrite Es'. intros Hst'. exists status, body. split; [done|].
      destruct (Ha Hst') as (resp & Hr & Ho). right. exists resp. split; [done|].
      rewrite Es in Ho. rewrite <- Ho. unfold resp_out. by apply prefix_app_r.
    + rewrite Hc'. split; [done|]. destruct (Hl c' Hc') as (c0 & Hc0 & E & _). congruence.
Qed.

(** The request's encoding, or a failure. *)
Lemma wp_encode req g (Q : bytes * Z -> gateway tls -> Prop) :
  ok32 (body req) = true ->
  (forall enc, Q (enc, -1) g) ->
  (forall enc, let d := request_spec (clip req) in (length d <= NTC_CONN_RBUF + 1024)%nat ->
     take (length d) enc = d -> Q (enc, Z.of_nat (length d)) g) ->
  wp (load (fun _ => ntc_wire_encode_request req (replicate (NTC_CONN_RBUF + 1024) 0) (NTC_CONN_RBUF + 1024))) Q g.
Proof.
  intros Hb HF HS.
  destruct (encode_request_encodes req (replicate (NTC_CONN_RBUF + 1024) 0) (NTC_CONN_RBUF + 1024))
    as (enc & n & E & _ & Hr); [by rewrite length_replicate|done|].
  eapply wp_load; [exact E|]. destruct (wire_request (clip req)); cbn [andb] in Hr; [|subst n; apply HF].
  destruct (Nat.leb_spec (length (request_spec (clip req))) (NTC_CONN_RBUF + 1024)); [|subst n; apply HF].
  destruct Hr as [-> ->]. apply HS; [done|]. by rewrite take_app_length.
Qed.

Lemma rbuf_small n : (n <= NTC_CONN_RBUF + 1024)%nat -> Z.of_nat n < 2 ^ 32.
Proof.
  intros H. pose proof conn_rbuf_Z. lia.
Qed.

Lemma enlisted_id g p id t :
  gw_wf g -> gw_alloc_id (g_slots g) p = Some (Some (id, t)) -> gw_conn_for_id t id = Some (Some p).
Proof.
  intros W Ha. pose proof (alloc_spec _ p (wf_slots _ W)) as H. case_decide; [congruence|].
  destruct H as (slot & gn & t1 & Ha' & _ & Hlt & Hnone & Hg & Ep & Eg). rewrite Ha' in Ha.
  injection Ha as <- <-. rewrite (conn_for_id_spec t1 gn slot (Some p) gn); [by rewrite decide_True|done| |by rewrite Eg].
  rewrite Ep. apply list_lookup_insert_eq. by apply lookup_lt_Some in Hnone.
Qed.

Lemma wp_gw_forward p c req svc g (Q : Z -> gateway tls -> Prop) :
  gw_wf g -> g_conns g !! p = Some c -> c_inflight c = false -> is_Some (g_services g !! svc) ->
  ok32 (body req) = true -> (forall r g', handed_over p c req svc g r g' -> Q r g') ->
  wp (gw_forward tdefl_compress mz_crc32 p req svc) Q g.
Proof.
  intros W Hc Hi Hsvc Hb HQ.
  assert (forall r g', turned_away p c g r g' -> Q r g') as HT by (intros r g' H; apply HQ; by left).
  unfold gw_forward. apply wp_bnd. apply wp_pick_target; [done..|].
  intros [k|] svcs W1 Hk; [|eapply (wp_refuse p c g); try done; by repeat constructor].
  destruct Hk as (ct & Hk & Hsv). apply wp_bnd. eapply wp_noise_core; [apply noise_ask_alloc|].
  intros ok g2 S. pose proof (same_core_wf _ _ S W1) as W2.
  pose proof (sc_conns _ _ S) as Ec. pose proof (sc_sent _ _ S) as Es. pose proof (sc_ctrls _ _ S) as Ek.
  destruct ok; cbn [negb]; cbv iota; [|eapply (wp_refuse p c g); try done; by repeat constructor].
  apply wp_bnd. apply wp_encode; [done| |].
  { intros enc. cbv beta iota. change (-1 <? 0) with true. cbv iota. eapply (wp_refuse p c g); try done; by repeat constructor. }
  intros enc d Hd Et. cbv beta iota. rewrite (proj2 (Z.ltb_ge (Z.of_nat _) 0)) by lia.
  rewrite Nat2Z.id, Et.
  assert (g_conns g2 !! p = Some c) as Hc2 by (by rewrite Ec).
  assert (g_ctrls g2 !! k = Some ct) as Hk2 by (by rewrite Ek).
  eapply (wp_enlist p c k ct NTC_MSG_REQUEST); [done..| | |].
  - eapply (wp_refuse p c g); try done; by repeat constructor.
  - intros t l W'. eapply (wp_refuse p c g); try done; by repeat constructor.
  - intros id t ct' l Ha Hok Hs Hq. specialize (Hq (rbuf_small _ Hd)). apply wp_bnd, wp_bnd.
    eapply wp_load; [exact Hc2|].
    set (c' := c <| c_state := CS_WAIT |> <| c_req_id := id |> <| c_inflight := true |> <| c_wait_ctrl := Some k |>).
    assert (gw_wf ((enlisted g2 k ct' t l) <| g_conns := <[p := c']> (g_conns g2) |>)) as W'.
    { eapply wf_enlisted; try done. destruct (wf_conns _ W2 p c Hc2). by split. }
    eapply (wp_store _ ((enlisted g2 k ct' t l) <| g_conns := <[p := c']> (g_conns g2) |>)).
    { unfold update, enlisted, update. cbn. by rewrite Hc2. }
    apply wp_bnd, wp_bnd. eapply wp_load; [cbn; apply lookup_insert_eq|].
    eapply wp_noise_core; [apply noise_poller_mod|]. intros b g3 S3. apply wp_ret, HQ.
    pose proof (sc_conns _ _ S3) as Ec3. pose proof (sc_sent _ _ S3) as Es3.
    pose proof (sc_ctrls _ _ S3) as Ek3. pose proof (sc_slots _ _ S3) as Et3.
    unfold enlisted, update in Ec3, Es3, Ek3, Et3. cbn in Ec3, Es3, Ek3, Et3.
    right. split_and!; [done|by eapply same_core_wf| | |].
    + intros q Hq'. rewrite Ec3, Es3, Es, lookup_insert_ne, Ec by done. done.
    + intros c2. rewrite Ec3, lookup_insert_eq. by intros [= <-].
    + exists c', k, id, ct, ct'.
      rewrite Ec3, Ek3, Et3, !lookup_insert_eq. split_and!; try done. by apply (enlisted_id g2).
Qed.

(** ** Upgrading to a WebSocket *)

(** The last steps of the upgrade, once the controller has the request: the connection is a
    WebSocket, and the handshake is pushed. *)
Definition ws_conn c k id : conn tls :=
  c <| c_req_id := id |> <| c_inflight := true |> <| c_wait_ctrl := Some k |>
    <| c_is_ws := true |> <| c_streaming := true |> <| c_stream_head_sent := true |>
    <| c_state := CS_WS |> <| c_rbuf := [] |>.

Definition ws_greet p c accept : St (gateway tls) Z :=
  let* mw := gets g_access_log in
  (if negb (c_is_admin c) && negb (c_logged c) && bool_decide (mw <> None) then
     ntc_mw_after (c_log_method c) (c_log_path c) (c_request_id c) 101 ;;;
     upd_conn p (fun c => c <| c_logged := true |>)
   else ret tt) ;;;
  stream_push p (ws_upgrade_head accept).

Definition ws_join p c k id accept : St (gateway tls) Z :=
  upd_conn p (fun c => ws_conn c k id) ;;; ws_greet p c accept.

(** A connection that became a WebSocket: its controller has the request, and its client the
    handshake, behind what it was sent before. *)
Definition upgraded p c req svc g g' : Prop :=
  exists c' k id ct ct' key accept, g_conns g' !! p = Some c' /\ c_inflight c' = true /\
    c_wait_ctrl c' = Some k /\ c_req_id c' = id /\ c_is_ws c' = true /\ c_streaming c' = true /\
    g_ctrls g !! k = Some ct /\ k_svc ct = Some svc /\ g_ctrls g' !! k = Some ct' /\
    (k_wbuf ct ++ ntc_wire_write_header NTC_MSG_WS_OPEN id (Z.of_nat (length (request_spec (clip req)))) ++
       request_spec (clip req)) `prefix_of` k_wbuf ct' /\
    ntc_http_header req (bs "sec-websocket-key") = Some key /\
    ntc_ws_accept_key br_sha1 key 40 = Some accept /\
    stream_out c' (default [] (g_sent g' !! p)) =
      stream_out c (default [] (g_sent g !! p)) ++ ws_upgrade_head accept.

Definition ws_handed_over p c req svc g (r : Z) g' : Prop :=
  turned_away p c g r g' \/
  gw_wf g' /\ own_frame p g g' /\ same_tls p c g' /\
  match g_conns g' !! p with None => r = -1 | Some _ => r = 0 /\ upgraded p c req svc g g' end.

Lemma ws_conn_ok c k id : conn_ok c -> conn_ok (ws_conn c k id).
Proof.
  intros [H1 H2 H3 H4 H5 _]. split; [exact H1| |exact H3|exact H4|exact H5|discriminate].
  split; [apply Nat.le_0_l|constructor].
Qed.

Lemma ws_conn_facts c k id :
  c_is_ws (ws_conn c k id) = true /\ c_streaming (ws_conn c k id) = true /\
  forall s, stream_out (ws_conn c k id) s = stream_out c s.
Proof. done. Qed.

Lemma upd_conn_at p c f g (Q : unit -> gateway tls -> Prop) :
  g_conns g !! p = Some c -> Q tt (g <| g_conns := <[p := f c]> (g_conns g) |>) -> wp (upd_conn p f) Q g.
Proof.
  intros Hc HQ. apply wp_bnd. eapply wp_load; [exact Hc|].
  apply (wp_store _ (g <| g_conns := <[p := f c]> (g_conns g) |>)); [cbv beta; by rewrite Hc|done].
Qed.

Lemma wp_ws_greet p c c4 s accept g0 g (Q : Z -> gateway tls -> Prop) :
  live p c4 s g0 g -> c_is_ws c4 = true -> c_streaming c4 = true ->
  (forall s' g', dead p s' g0 g' -> Q (-1) g') ->
  (forall c' s' g', live p c' s' g0 g' -> c_is_ws c' = true -> c_streaming c' = true ->
     stream_out c' s' = stream_out c4 s ++ ws_upgrade_head accept -> Q 0 g') ->
  wp (ws_greet p c accept) Q g.
Proof.
  intros L Ews Est HD HL. unfold ws_greet. apply wp_bnd, wp_gets, wp_bnd.
  apply (wp_mono _ (fun _ g' => exists c5, live p c5 s g0 g' /\ c_is_ws c5 = true /\
    c_streaming c5 = true /\ stream_out c5 s = stream_out c4 s)).
  { destruct (_ && _ && _); [|apply wp_ret; eauto 6]. apply wp_bnd.
    eapply wp_noise; [apply noise_mw_after|exact L|]. intros _ g5 L5.
    eapply (wp_upd_conn _ _ _ _ _ _ _ L5); [destruct (live_ok _ _ _ _ _ L5); by split|done|].
    intros g6 L6. eexists. split; [exact L6|]. split_and!; [exact Ews|exact Est|reflexivity]. }
  intros [] g5 (c5 & L5 & Ews5 & Est5 & Eout5). eapply wp_stream_push; [exact L5|eauto|].
  intros c' s' g' L' Est' (_ & _ & Ews' & _) Ho. eapply HL; [exact L'|congruence|congruence|].
  rewrite Ho by done. by rewrite Eout5.
Qed.

Lemma wp_ws_join p c k id accept g (Q : Z -> gateway tls -> Prop) :
  g_conns g !! p = Some c ->
  let g4 := g <| g_conns := <[p := ws_conn c k id]> (g_conns g) |> in gw_wf g4 ->
  (forall s' g', dead p s' g4 g' -> Q (-1) g') ->
  (forall c' s' g', live p c' s' g4 g' -> c_is_ws c' = true -> c_streaming c' = true ->
     stream_out c' s' = stream_out c (default [] (g_sent g !! p)) ++ ws_upgrade_head accept -> Q 0 g') ->
  wp (ws_join p c k id accept) Q g.
Proof.
  intros Hc g4 W HD HL. apply wp_bnd. apply (upd_conn_at p c); [exact Hc|].
  destruct (ws_conn_facts c k id) as (Ews & Est & Eout).
  assert (g_conns g4 !! p = Some (ws_conn c k id)) as Hc4 by (apply lookup_insert_eq).
  eapply (wp_ws_greet p c (ws_conn c k id)); [exact (live_start _ _ _ W Hc4)|exact Ews|exact Est|exact HD|].
  intros c' s' g' L E1 E2 Ho. apply (HL c' s' g' L E1 E2). rewrite Ho, Eout. reflexivity.
Qed.

Lemma wp_gw_ws_upgrade p c req svc g (Q : Z -> gateway tls -> Prop) :
  gw_wf g -> g_conns g !! p = Some c -> c_inflight c = false -> is_Some (g_services g !! svc) ->
  ok32 (body req) = true -> (forall r g', ws_handed_over p c req svc g r g' -> Q r g') ->
  wp (gw_ws_upgrade tdefl_compress mz_crc32 br_sha1 p req svc) Q g.
Proof.
  intros W Hc Hi Hsvc Hb HQ.
  assert (forall r g', turned_away p c g r g' -> Q r g') as HT by (intros r g' H; apply HQ; by left).
  unfold gw_ws_upgrade. apply wp_bnd. eapply wp_load; [exact Hc|].
  destruct (c_tls c); [eapply (wp_refuse p c g); try done; by repeat constructor|].
  apply wp_bnd. apply wp_pick_target; [done..|].
  intros [k|] svcs W1 Hk; [|eapply (wp_refuse p c g); try done; by repeat constructor].
  destruct Hk as (ct & Hk & Hsv).
  destruct (ntc_http_header req (bs "sec-websocket-key")) as [key|] eqn:Ekey; cbn [default from_option];
    [|eapply (wp_refuse p c g); try done; by repeat constructor].
  cbv zeta. destruct ((length _ =? 0)%nat || _); [eapply (wp_refuse p c g); try done; by repeat constructor|].
  assert (is_Some (ntc_ws_accept_key br_sha1 key 40)) as [accept Ea] by (apply b64_std_loop_safe; lia).
  apply wp_bnd. eapply wp_load; [exact Ea|]. apply wp_bnd.
  eapply wp_noise_core; [apply noise_ask_alloc|].
  intros ok g2 S. pose proof (same_core_wf _ _ S W1) as W2.
  pose proof (sc_conns _ _ S) as Ec. pose proof (sc_sent _ _ S) as Es. pose proof (sc_ctrls _ _ S) as Ek.
  destruct ok; cbn [negb]; cbv iota; [|eapply (wp_refuse p c g); try done; by repeat constructor].
  apply wp_bnd. apply wp_encode; [done| |].
  { intros enc. cbv beta iota. change (-1 <? 0) with true. cbv iota.
    eapply (wp_refuse p c g); try done; by repeat constructor. }
  intros enc d Hd Et. cbv beta iota. rewrite (proj2 (Z.ltb_ge (Z.of_nat _) 0)) by lia.
  rewrite Nat2Z.id, Et.
  assert (g_conns g2 !! p = Some c) as Hc2 by (by rewrite Ec).
  assert (g_ctrls g2 !! k = Some ct) as Hk2 by (by rewrite Ek).
  eapply (wp_enlist p c k ct NTC_MSG_WS_OPEN); [done..| | |].
  - eapply (wp_refuse p c g); try done; by repeat constructor.
  - intros t l W'. eapply (wp_refuse p c g); try done; by repeat constructor.
  - intros id t ct' l Ha Hok Hs Hq. specialize (Hq (rbuf_small _ Hd)).
    apply wp_bnd, wp_bnd. eapply wp_load; [cbn; apply lookup_insert_eq|].
    eapply wp_noise_core; [apply noise_poller_mod|]. intros b g3 S3.
    assert (gw_wf (g3 <| g_conns := <[p := ws_conn c k id]> (g_conns g3) |>)) as W4.
    { refine (same_core_wf ((enlisted g2 k ct' t l) <| g_conns := <[p := ws_conn c k id]> (g_conns g2) |>) _ _ _).
      - destruct S3 as [E1 E2 E3 E4 E5 E6]. split; cbn; try assumption. by rewrite E2.
      - eapply wf_enlisted; try done. apply ws_conn_ok. exact (wf_conns _ W2 p c Hc2). }
    assert (g_conns g3 !! p = Some c) as Hc3 by (by rewrite (sc_conns _ _ S3)).
    assert (g_sent g3 = g_sent g) as Es3 by (by rewrite (sc_sent _ _ S3)).
    assert (g_ctrls g3 = <[k := ct']> (g_ctrls g2)) as Ek3 by (by rewrite (sc_ctrls _ _ S3)).
    assert (forall g', others_frame p (g3 <| g_conns := <[p := ws_conn c k id]> (g_conns g3) |>) g' ->
              own_frame p g g') as Hown.
    { intros g' [F _] q Hq'. destruct (F q Hq') as [F1 F2]. cbn in F1, F2.
      rewrite F1, F2, Es3, lookup_insert_ne, (sc_conns _ _ S3) by done. cbn. by rewrite Ec. }
    apply (wp_ws_join p c k id accept); [done|exact W4|..].
    + intros s' g' [W' Hc' _ [F _]]. apply HQ. right. split_and!; [done|by apply Hown|intros c2; congruence|]. by rewrite Hc'.
    + intros c' s' g' [W' Hc' Es' [F Hl]] Ews Est Ho. apply HQ. right.
      destruct (Hl c' Hc') as (c0 & Hc0 & Ei & Er & Ew & _ & Etls). cbn in Hc0.
      rewrite lookup_insert_eq in Hc0. injection Hc0 as <-.
      split_and!; [done|by apply Hown|intros cc Hcc; assert (cc = c') as -> by congruence; exact Etls|].
      rewrite Hc'. split; [done|].
      destruct F as (_ & _ & _ & Fk). destruct (Fk k ct') as (ct'' & Hct & Hs').
      { cbn. rewrite Ek3. apply lookup_insert_eq. }
      exists c', k, id, ct, ct'', key, accept. rewrite Es', <- Es3. split_and!; try done.
      etrans; [|apply Hs']. rewrite Hq. done.
Qed.
End forward.
