(* ===== verification/ServerCtrlSafe.v ===== *)
(** * Controllers: reading, writing and dying

    A controller's death answers or closes every client that waited for it and frees its
    replica slot; its frames are dispatched in order; its queue is sent in order. *)
From S2P Require Import Prelude Update Err Slice Http HttpRequest Wire Ws Gzip Inflight.
From S2P Require Import ServerState ServerConn ServerRelay ServerInv ServerSafe ServerRelaySafe.
From S2P Require Import ServerEvents ServerForward.
Open Scope Z_scope.

Section ctrl_safe.
  Context {tls : Type} {TE : TlsEngine tls} {TL : TlsLaws tls}.
  Variable tdefl_compress : bytes -> option bytes.
  Variable mz_crc32 : bytes -> Z.
  Implicit Types (g : gateway tls) (c : conn tls) (p q : conn_ptr) (k : ctrl_ptr).
  Local Abbreviation answered := (answered tdefl_compress mz_crc32).

(** ** Clients of a dead controller *)

(** A connection waits for [k] under one of the slots [l]. *)
Definition waits_for k (l : list nat) c : bool :=
  c_inflight c && bool_decide (c_wait_ctrl c = Some k) && bool_decide (slot_of (c_req_id c) ∈ l).

(** What becomes of it: it is gone, or in flight no more; unless its response had begun, its
    client was given the front of a 502. *)
Definition orphaned (json : bytes) c (s s' : bytes) (c' : option (conn tls)) : Prop :=
  (forall c1, c' = Some c1 -> c_inflight c1 = false) /\
  (c_stream_head_sent c = false -> c_streaming c = false -> answered c s 502 JSON json s').

Definition fate k l json g q g' : Prop :=
  let s := default [] (g_sent g !! q) in let s' := default [] (g_sent g' !! q) in
  match g_conns g !! q with
  | Some c => if waits_for k l c then orphaned json c s s' (g_conns g' !! q)
              else g_conns g' !! q = Some c /\ s' = s
  | None => g_conns g' !! q = None /\ s' = s
  end.

Lemma fate_same k l json g q g' :
  (forall c, g_conns g !! q = Some c -> waits_for k l c = false) ->
  g_conns g' !! q = g_conns g !! q -> g_sent g' !! q = g_sent g !! q -> fate k l json g q g'.
Proof.
  intros Hw Ec Es. unfold fate. rewrite Ec, Es. destruct (g_conns g !! q) as [c|]; [|done].
  by rewrite (Hw c eq_refl).
Qed.

(** Skipping a slot nobody waits under. *)
Lemma fate_skip k i l json g q g' :
  (forall c, g_conns g !! q = Some c -> c_inflight c = true -> c_wait_ctrl c = Some k ->
     slot_of (c_req_id c) <> i) -> fate k l json g q g' -> fate k (i :: l) json g q g'.
Proof.
  intros Hn. unfold fate. destruct (g_conns g !! q) as [c|] eqn:Ec; [|done].
  assert (waits_for k (i :: l) c = waits_for k l c) as ->; [|done]. unfold waits_for.
  destruct (c_inflight c) eqn:Ei; [|done]. destruct (decide (c_wait_ctrl c = Some k)) as [Ew|Ew].
  - rewrite (bool_decide_true _ Ew). cbn [andb]. apply bool_decide_ext.
    specialize (Hn c eq_refl Ei Ew). rewrite elem_of_cons. split; [intros []; done|by right].
  - by rewrite (bool_decide_false _ Ew).
Qed.

(** One slot dealt with, and then the others. *)
Lemma fate_step k i l json g g1 p c q g' :
  gw_wf g -> g_conns g !! p = Some c -> c_inflight c = true -> c_wait_ctrl c = Some k ->
  slot_of (c_req_id c) = i -> own_frame p g g1 ->
  orphaned json c (default [] (g_sent g !! p)) (default [] (g_sent g1 !! p)) (g_conns g1 !! p) ->
  fate k l json g1 q g' -> fate k (i :: l) json g q g'.
Proof.
  intros W Hc Hi Hw Hs F Ho Hf. destruct (decide (q = p)) as [->|Hne].
  - unfold fate in *. rewrite Hc. unfold waits_for. rewrite Hi, Hw, Hs.
    rewrite !bool_decide_true by (done || apply elem_of_cons; by left). cbn [andb].
    destruct Ho as [Ho1 Ho2]. destruct (g_conns g1 !! p) as [c1|].
    + unfold waits_for in Hf. rewrite (Ho1 c1 eq_refl) in Hf. cbn [andb] in Hf. destruct Hf as [-> ->].
      by split.
    + destruct Hf as [-> ->]. split; [|done]. intros ? [=].
  - destruct (F q Hne) as [F1 F2]. apply fate_skip.
    + intros c' Hc' Hi' Hw' Hs'. assert (pending (g_slots g) !! i = Some (Some q)) by (apply (wf_linked _ W); by exists c').
      assert (pending (g_slots g) !! i = Some (Some p)) by (apply (wf_linked _ W); by exists c). congruence.
    + unfold fate in *. rewrite <- F1, <- F2. exact Hf.
Qed.

(** One client of a dead controller. *)
Lemma wp_orphan p c k json g (Q : unit -> gateway tls -> Prop) :
  gw_wf g -> g_conns g !! p = Some c -> c_inflight c = true ->
  (forall g', gw_wf g' -> others_frame p g g' ->
     orphaned json c (default [] (g_sent g !! p)) (default [] (g_sent g' !! p)) (g_conns g' !! p) ->
     Q tt g') ->
  wp (release_id (c_req_id c) p ;;;
      if c_stream_head_sent c then conn_close p
      else let* _ := respond_and_flush tdefl_compress mz_crc32 p 502 json in ret tt) Q g.
Proof.
  intros W Hc Hi HQ. apply wp_bnd. eapply wp_release_id; [done..|]. intros g1 L F.
  set (s := default [] (g_sent g !! p)) in *. pose proof L as L1.
  set (c1 := c <| c_inflight := false |>) in *.
  assert (forall s' g', dead p s' g1 g' -> (c_stream_head_sent c = false -> c_streaming c = false ->
            answered c s 502 JSON json s') -> Q tt g') as HD.
  { intros s' g' [W' Hc' Es [F' _]] Ha. apply HQ; [done|by eapply others_frame_trans|].
    rewrite Hc', Es. split; [|done]. intros ? [=]. }
  destruct (c_stream_head_sent c).
  - eapply wp_conn_close; [exact L|]. intros g' D. by eapply HD.
  - apply wp_bnd. eapply wp_respond_and_flush; [exact L|..].
    + intros s' g' D Ha. apply wp_ret. eapply HD; [done|]. intros _ Es.
      apply (answered_ext _ _ c1); [done..|by apply Ha].
    + intros c' s' g' [W' Hc' Es [F' Hl]] Ha. apply wp_ret, HQ; [done|by eapply others_frame_trans|].
      rewrite Hc', Es. split.
      * intros ? [= <-]. destruct (Hl c' Hc') as (c2 & Hc2 & E & _). pose proof (lv_conn _ _ _ _ _ L1).
        assert (c2 = c1) as -> by congruence. by rewrite E.
      * intros _ Est. destruct (Ha Est) as (resp & Hr & Ho). right. exists resp.
        split; [by apply (response_sent_ext _ _ c1)|]. rewrite <- Ho. unfold resp_out. by apply prefix_app_r.
Qed.

Lemma wp_fail_inflight l k json g (Q : unit -> gateway tls -> Prop) :
  gw_wf g -> Forall (fun i => i < NTC_MAX_INFLIGHT)%nat l ->
  (forall g', gw_wf g' -> ctrls_frame g g' -> (forall q, fate k l json g q g') -> Q tt g') ->
  wp (fail_inflight tdefl_compress mz_crc32 l k json) Q g.
Proof.
  revert g. induction l as [|i l IH]; intros g W Hl HQ; cbn [fail_inflight].
  { apply wp_ret, HQ; [done|apply ctrls_frame_refl|]. intros q. apply fate_same; try done.
    intros c _. unfold waits_for. by rewrite (bool_decide_false (_ ∈ [])), andb_false_r by (by intros ?%elem_of_nil). }
  apply Forall_cons_1 in Hl as [Hi Hl]. apply wp_bnd.
  destruct (slots_lookups _ _ (wf_slots _ W) Hi) as (o & _ & Ho & _). eapply wp_load; [exact Ho|].
  assert ((forall c q, g_conns g !! q = Some c -> c_inflight c = true -> c_wait_ctrl c = Some k ->
             slot_of (c_req_id c) <> i) ->
          wp (fail_inflight tdefl_compress mz_crc32 l k json) Q g) as Hskip.
  { intros Hn. apply IH; [done|done|]. intros g' W' F Hf. apply HQ; [done|done|].
    intros q. apply fate_skip; [|done]. intros c Hc. by eapply Hn. }
  destruct o as [p|].
  2: { apply Hskip. intros c q Hc Hif Hw Hs.
    assert (pending (g_slots g) !! i = Some (Some q)) by (apply (wf_linked _ W); by exists c). congruence. }
  pose proof Ho as (c & Hc & Hif & Hs)%(wf_linked _ W). apply wp_bnd. eapply wp_load; [exact Hc|].
  destruct (decide (c_wait_ctrl c = Some k)) as [Hw|Hw].
  2: { rewrite (bool_decide_false _ Hw). cbn [negb]. apply Hskip. intros c' q Hc' Hif' Hw' Hs'.
    assert (pending (g_slots g) !! i = Some (Some q)) by (apply (wf_linked _ W); by exists c'). congruence. }
  rewrite (bool_decide_true _ Hw). cbn [negb].
  assert (wp (release_id (c_req_id c) p ;;;
      if c_stream_head_sent c then conn_close p
      else let* _ := respond_and_flush tdefl_compress mz_crc32 p 502 json in ret tt)
      (fun _ g1 => wp (fail_inflight tdefl_compress mz_crc32 l k json) Q g1) g) as H.
  { eapply wp_orphan; [done..|]. intros g1 W1 F1 Hor. apply IH; [done|done|].
    intros g' W' F Hf. apply HQ; [done|eapply ctrls_frame_trans; [apply F1|done]|].
    intros q. by apply (fate_step k i l json g g1 p c q g' W Hc Hif Hw Hs); [exact (proj1 F1)| |]. }
  destruct H as ([] & g' & E & H). unfold release_id in E. rewrite Hs in E.
  apply wp_bnd. unfold bnd at 1 2 in E.
  destruct (free_slot i g) as [[[] g1]|] eqn:E1; [|done]. exists tt, g1. split; [done|]. apply wp_bnd.
  unfold bnd at 1 in E.
  destruct (upd_conn p _ g1) as [[[] g2]|] eqn:E2; [|done]. exists tt, g2. split; [exact E2|].
  apply wp_bnd. exists tt, g'. done.
Qed.

(** ** The dead controller's slot *)

Lemma next_backoff_range b :
  b = 0 \/ NTC_BACKOFF_BASE <= b <= NTC_BACKOFF_MAX ->
  NTC_BACKOFF_BASE <= next_backoff b <= NTC_BACKOFF_MAX.
Proof.
  unfold next_backoff, NTC_BACKOFF_BASE, NTC_BACKOFF_MAX. intros Hb.
  destruct (Z.eqb_spec b 0); match goal with |- context [?a <? ?b] => destruct (Z.ltb_spec a b) end; lia.
Qed.

Lemma svc_slot_of_Some conns k s : svc_slot_of conns k = Some s -> conns !! s = Some (Some k).
Proof.
  revert s. induction conns as [|o conns IH]; intros s; cbn [svc_slot_of]; [done|].
  case_bool_decide as Ho; [by intros [= <-]; subst|].
  destruct (svc_slot_of conns k) as [s'|]; [|done]. intros [= <-]. by apply IH.
Qed.

Lemma svc_slot_of_None conns k s : svc_slot_of conns k = None -> conns !! s <> Some (Some k).
Proof.
  revert s. induction conns as [|o conns IH]; intros s; cbn [svc_slot_of]; [done|].
  case_bool_decide as Ho; [done|]. destruct (svc_slot_of conns k) as [s'|] eqn:E; [done|].
  intros _. destruct s as [|s]; cbn; [congruence|]. by apply IH.
Qed.

(** A service after its replica in slot [s] died at time [now]. *)
Definition replica_died svc (s : nat) (now : Z) svc' : Prop :=
  exists b, s_backoff_ms svc !! s = Some b /\ NTC_BACKOFF_BASE <= next_backoff b <= NTC_BACKOFF_MAX /\
  svc' = svc <| s_conns := <[s := None]> (s_conns svc) |>
        <| s_restart_count := s_restart_count svc + 1 |>
        <| s_backoff_ms := <[s := next_backoff b]> (s_backoff_ms svc) |>
        <| s_restart_at := <[s := now + next_backoff b]> (s_restart_at svc) |>.

Lemma replica_died_ok svc s now svc' :
  service_ok svc -> replica_died svc s now svc' ->
  service_ok svc' /\ s_conns svc' = <[s := None]> (s_conns svc).
Proof.
  intros [(H1 & H2 & H3 & H4) Hr Hrr Hb Hu] (b & Eb & Hn & ->). split; [|done].
  split; unfold update; cbn; rewrite ?length_insert; try done.
  - apply Forall_insert; [done|]. by right.
  - intros s1 s2 k E1 E2. apply (Hu s1 s2 k).
    + apply list_lookup_insert_Some in E1 as [(? & [=] & _)|[_ E1]]; done.
    + apply list_lookup_insert_Some in E2 as [(? & [=] & _)|[_ E2]]; done.
Qed.

(** The services once [k] died: its slot is free and has its restart scheduled. *)
Definition slot_freed k g g' : Prop :=
  (forall i svc s, g_services g' !! i = Some svc -> s_conns svc !! s <> Some (Some k)) /\
  (forall i svc, g_services g !! i = Some svc -> exists svc', g_services g' !! i = Some svc' /\
     (svc' = svc \/ exists s now, s_conns svc !! s = Some (Some k) /\ replica_died svc s now svc')) /\
  length (g_services g') = length (g_services g).

Lemma wp_slot_died i k ct g (Q : unit -> gateway tls -> Prop) :
  gw_wf g -> g_ctrls g !! k = Some ct -> k_svc ct = Some i ->
  (forall svcs, gw_wf (g <| g_services := svcs |>) -> slot_freed k g (g <| g_services := svcs |>) ->
     Q tt (g <| g_services := svcs |>)) ->
  wp (slot_died i k) Q g.
Proof.
  intros W Hk Hi HQ. destruct (wf_owned _ W k ct i Hk Hi) as [svc Hsvc].
  pose proof (Forall_lookup_1 _ _ _ _ (wf_services _ W) Hsvc) as Hok.
  assert (forall j sv s, g_services g !! j = Some sv -> s_conns sv !! s = Some (Some k) -> j = i) as Huniq.
  { intros j sv s Hj Hs. destruct (wf_replicas _ W j sv s k Hj Hs) as (ct' & Hk' & Hi'). congruence. }
  unfold slot_died. apply wp_bnd. eapply wp_load; [exact Hsvc|].
  destruct (svc_slot_of (s_conns svc) k) as [s|] eqn:Es.
  - apply svc_slot_of_Some in Es. pose proof Hok as [(H1 & H2 & H3 & H4) _ _ Hb Hu].
    pose proof (lookup_lt_Some _ _ _ Es) as Hlt.
    destruct (lookup_lt_is_Some_2 (s_backoff_ms svc) s) as [b Eb]; [congruence|].
    destruct (lookup_lt_is_Some_2 (s_restart_at svc) s) as [r Er]; [congruence|].
    apply wp_bnd. eapply wp_load; [exact Eb|]. apply wp_bnd. eapply wp_load; [exact Er|].
    apply wp_bnd, wp_gets. set (svc' := svc <| s_conns := _ |> <| s_restart_count := _ |> <| s_backoff_ms := _ |> <| s_restart_at := _ |>).
    assert (replica_died svc s (g_now g) svc') as Hd.
    { exists b. split; [done|]. split; [|done]. apply next_backoff_range. by apply (Forall_lookup_1 _ _ _ _ Hb Eb). }
    clearbody svc'. destruct (replica_died_ok _ _ _ _ Hok Hd) as [Hok' Ec].
    apply (wp_store _ (g <| g_services := <[i := svc']> (g_services g) |>)); [cbv beta; by rewrite Hsvc|].
    apply HQ.
    + apply (wf_put_service g i svc); try done. rewrite Ec.
      intros s1 k1 [(? & [=] & _)|[_ E1]]%list_lookup_insert_Some. done.
    + split_and!; unfold update; cbn; [| |by rewrite length_insert].
      * intros j sv s1. destruct (decide (j = i)) as [->|Hne].
        -- rewrite list_lookup_insert_eq by (by apply lookup_lt_Some in Hsvc). intros [= <-]. rewrite Ec.
           intros [(? & [=] & _)|[Hne E1]]%list_lookup_insert_Some. apply Hne. by apply (Hu s s1 k).
        -- rewrite list_lookup_insert_ne by done. intros Hj E1. by apply Hne, (Huniq j sv s1).
      * intros j sv Hj. destruct (decide (j = i)) as [->|Hne].
        -- assert (sv = svc) as -> by congruence. exists svc'.
           rewrite list_lookup_insert_eq by (by apply lookup_lt_Some in Hsvc). split; [done|]. right. by exists s, (g_now g).
        -- exists sv. rewrite list_lookup_insert_ne by done. split; [done|]. by left.
  - apply wp_ret. replace g with (g <| g_services := g_services g |>) by (by destruct g). apply HQ; [by destruct g|].
    split_and!; unfold update; cbn; [|by eauto|done].
    intros j sv s Hj E1. rewrite (Huniq j sv s Hj E1) in Hj. assert (sv = svc) as -> by congruence.
    by apply (svc_slot_of_None _ _ s Es).
Qed.

Lemma wf_free_ctrl g k :
  gw_wf g ->
  (forall p c, g_conns g !! p = Some c -> c_inflight c = true -> c_wait_ctrl c <> Some k) ->
  (forall i svc s, g_services g !! i = Some svc -> s_conns svc !! s <> Some (Some k)) ->
  gw_wf (g <| g_ctrls := delete k (g_ctrls g) |>).
Proof.
  intros [? ? Ww ? Wk ? Wr Wo ?] Hw Hs. split; cbn; try done.
  - intros p c Hc Hi. destruct (Ww p c Hc Hi) as (k' & Ek & Hex). exists k'. split; [done|].
    unfold update. cbn. rewrite lookup_delete_ne; [done|]. intros ->. by apply (Hw p c).
  - by apply map_Forall_delete.
  - intros i svc s k' Hsvc Hsk. rewrite lookup_delete_ne; [by eapply Wr|]. intros ->. by eapply Hs.
  - intros k' ct i Hk'. apply lookup_delete_Some in Hk' as [_ Hk']. by eapply Wo.
Qed.

(** The outcome of a controller's death. *)
Definition died k g g' : Prop :=
  gw_wf g' /\ g_ctrls g' !! k = None /\
  (forall k' ct, k' <> k -> g_ctrls g !! k' = Some ct -> exists ct', g_ctrls g' !! k' = Some ct' /\ same_ctrl ct ct') /\
  slot_freed k g g' /\
  (forall q, fate k (seq 0 NTC_MAX_INFLIGHT) (qs "{'error':'controller died'}") g q g').

Lemma fate_core k l json g g1 q g' : same_core g g1 -> fate k l json g1 q g' -> fate k l json g q g'.
Proof. intros S. unfold fate. by rewrite (sc_conns _ _ S), (sc_sent _ _ S). Qed.

Lemma slot_of_lt id : (slot_of id < NTC_MAX_INFLIGHT)%nat.
Proof.
  unfold slot_of, NTC_INFLIGHT_MASK. rewrite max_inflight_Z. change (2 ^ 12 - 1) with (Z.ones 12).
  rewrite Z.land_ones by lia. pose proof (Z.mod_pos_bound id (2 ^ 12)). pose proof max_inflight_Z. lia.
Qed.

(** Nobody waits for a controller whose clients have met their fate. *)
Lemma fate_no_waiter k json g q g' c :
  fate k (seq 0 NTC_MAX_INFLIGHT) json g q g' -> g_conns g' !! q = Some c -> c_inflight c = true ->
  c_wait_ctrl c <> Some k.
Proof.
  unfold fate. intros Hf Hc Hi Hw. destruct (g_conns g !! q) as [c0|]; [|destruct Hf; congruence].
  destruct (waits_for k (seq 0 NTC_MAX_INFLIGHT) c0) eqn:E.
  - destruct Hf as [Hf _]. rewrite (Hf c Hc) in Hi. done.
  - destruct Hf as [Hf _]. assert (c0 = c) as -> by congruence. unfold waits_for in E.
    rewrite Hi, (bool_decide_true _ Hw), bool_decide_true in E; [done|].
    apply elem_of_seq. pose proof (slot_of_lt (c_req_id c)). lia.
Qed.

Lemma wp_controller_died k ct g (Q : unit -> gateway tls -> Prop) :
  gw_wf g -> g_ctrls g !! k = Some ct -> (forall g', died k g g' -> Q tt g') ->
  wp (controller_died tdefl_compress mz_crc32 k) Q g.
Proof.
  intros W Hk HQ. unfold controller_died. apply wp_bnd, (wp_get_ctrl k ct); [done|]. apply wp_bnd.
  eapply wp_noise_core; [apply noise_poller_del|]. intros _ g1 S. apply wp_bnd.
  pose proof (same_core_wf _ _ S W) as W1. apply wp_fail_inflight; [done| |].
  { apply Forall_forall. intros i Hi%elem_of_seq. lia. }
  intros g2 W2 (Fs & Fd & Fk) Hf. destruct (Fk k ct) as (ct2 & Hk2 & Hs2); [by rewrite (sc_ctrls _ _ S)|].
  assert (k_svc ct2 = k_svc ct) as Esvc by apply Hs2.
  assert (g_services g2 = g_services g) as Es by (by rewrite Fs, (sc_services _ _ S)).
  apply wp_bnd. apply (wp_mono _ (fun _ g3 => exists svcs, g3 = g2 <| g_services := svcs |> /\
    gw_wf g3 /\ slot_freed k g2 g3)).
  { destruct (k_svc ct) as [i|] eqn:Ei.
    - eapply wp_slot_died; [done..|]. intros svcs W3 H3. by exists svcs.
    - apply wp_ret. exists (g_services g2). replace (g2 <| g_services := g_services g2 |>) with g2 by (by destruct g2).
      split_and!; [done|done|]. split_and!; [|by eauto|done]. intros j sv s Hj E1.
      destruct (wf_replicas _ W2 j sv s k Hj E1) as (ct' & Hk' & Hi'). congruence. }
  intros [] g3 (svcs & -> & W3 & Hfree). apply wp_bnd. eapply wp_load; [exact Hk2|]. apply wp_modify, HQ.
  split_and!.
  - apply (wf_free_ctrl (g2 <| g_services := svcs |>)); [done| |apply Hfree].
    intros p c Hc Hi. by apply (fate_no_waiter _ _ _ _ _ _ (Hf p)).
  - cbn. apply lookup_delete_eq.
  - intros k' ct' Hne Hk'. destruct (Fk k' ct') as (ct'' & Hk'' & Hs''); [by rewrite (sc_ctrls _ _ S)|].
    exists ct''. split; [|done]. cbn. by rewrite lookup_delete_ne.
  - destruct Hfree as (H1 & H2 & H3). rewrite Es in H2, H3. done.
  - intros q. eapply fate_core; [done|]. exact (Hf q).
Qed.

(** ** Writing to a controller *)

(** What a controller's socket was given, and what is queued behind it. *)
Definition ctrl_out g k ct : bytes := default [] (g_ctrl_sent g !! k) ++ drop (k_wsent ct) (k_wbuf ct).

(** Connections and services are as they were; so is all of a controller but its buffers. *)
Definition ctrl_only k g g' : Prop :=
  g_conns g' = g_conns g /\ g_sent g' = g_sent g /\ g_services g' = g_services g /\
  g_slots g' = g_slots g /\ (forall k', k' <> k -> g_ctrls g' !! k' = g_ctrls g !! k').

Lemma wf_put_ctrl_only k ct ct' g :
  gw_wf g -> g_ctrls g !! k = Some ct -> ctrl_ok ct' -> k_svc ct' = k_svc ct ->
  gw_wf (g <| g_ctrls := <[k := ct']> (g_ctrls g) |>) /\
  ctrl_only k g (g <| g_ctrls := <[k := ct']> (g_ctrls g) |>).
Proof.
  intros W Hk Hok Hs. split; [by eapply wf_put_ctrl|]. split_and!; try done.
  intros k' Hne. cbn. by rewrite lookup_insert_ne.
Qed.

Lemma wp_put_ctrl k ct ct' g (Q : unit -> gateway tls -> Prop) :
  g_ctrls g !! k = Some ct -> Q tt (g <| g_ctrls := <[k := ct']> (g_ctrls g) |>) ->
  wp (put_ctrl k ct') Q g.
Proof.
  intros Hk HQ. apply (wp_store _ (g <| g_ctrls := <[k := ct']> (g_ctrls g) |>)); [|done].
  cbv beta. by rewrite Hk.
Qed.

Lemma ctrl_only_trans k g1 g2 g3 : ctrl_only k g1 g2 -> ctrl_only k g2 g3 -> ctrl_only k g1 g3.
Proof.
  intros (?&?&?&?&E1) (?&?&?&?&E2). split_and!; try congruence. intros k' Hne. by rewrite E2, E1.
Qed.

Lemma ctrl_only_core k g g' : same_core g g' -> ctrl_only k g g'.
Proof. intros []. split_and!; try done. intros. congruence. Qed.

Lemma poller_mod_exact fd ev t g :
  exists b l i, ntc_poller_mod fd ev t g = Some (b, g <| g_polls := l |> <| g_interest := i |>).
Proof.
  unfold ntc_poller_mod, ask_poll, bnd, gets. destruct g as [? ? ? ? ? ? i ? ? ? ? ? ? ? [|b l]]; cbn.
  - eexists true, [], _. reflexivity.
  - destruct b; [eexists true, l, _|eexists false, l, i]; reflexivity.
Qed.

(** Sending to a controller keeps the order of its queue; an error is its death. *)
Lemma wp_on_ctrl_writable k ct g (Q : unit -> gateway tls -> Prop) :
  gw_wf g -> g_ctrls g !! k = Some ct ->
  (forall g1 g', ctrl_only k g g1 -> died k g1 g' -> Q tt g') ->
  (forall g' ct', gw_wf g' -> ctrl_only k g g' -> g_ctrls g' !! k = Some ct' ->
     ctrl_out g' k ct' = ctrl_out g k ct -> Q tt g') ->
  wp (on_ctrl_writable tdefl_compress mz_crc32 k) Q g.
Proof.
  intros W Hk HD HL. unfold on_ctrl_writable. apply wp_bnd, (wp_get_ctrl k ct); [done|].
  apply wp_bnd, wp_gets. destruct (send_loop _ _ _) as [[how sent] outs] eqn:E.
  apply send_loop_bounds in E as (Hs & _ & Hd). apply wp_bnd, wp_modify.
  set (g1 := g <| g_sends := _ |> <| g_ctrl_sent := _ |>).
  assert (same_core g g1) as S by (by split).
  assert (g_ctrl_sent g1 = <[k:=default [] (g_ctrl_sent g !! k) ++
            take (sent - k_wsent ct) (drop (k_wsent ct) (k_wbuf ct))]> (g_ctrl_sent g)) as Esent by done.
  clearbody g1. pose proof (same_core_wf _ _ S W) as W1.
  assert (g_ctrls g1 !! k = Some ct) as Hk1 by (by rewrite (sc_ctrls _ _ S)).
  pose proof (wf_ctrls _ W k ct Hk) as [B1 B2 B3].
  apply wp_bnd, (wp_put_ctrl k ct); [done|]. set (ct1 := ct <| k_wsent := sent |>).
  destruct (wf_put_ctrl_only k ct ct1 g1 W1 Hk1) as [W2 F2]; [by split|done|].
  set (g2 := g1 <| g_ctrls := <[k := ct1]> (g_ctrls g1) |>) in *.
  assert (g_ctrls g2 !! k = Some ct1) as Hk2 by apply lookup_insert_eq.
  assert (g_ctrl_sent g2 = g_ctrl_sent g1) as Esent2 by done.
  assert (ctrl_only k g g2) as F by (eapply ctrl_only_trans; [by apply ctrl_only_core|done]).
  clearbody g2.
  assert (ctrl_out g2 k ct1 = ctrl_out g k ct) as Eout.
  { unfold ctrl_out. rewrite Esent2, Esent, lookup_insert_eq. by apply take_drop_queue. }
  assert (forall g3 ct3, gw_wf g3 -> ctrl_only k g g3 -> g_ctrls g3 !! k = Some ct3 ->
    ctrl_out g3 k ct3 = ctrl_out g k ct -> wp (let* _ := ctrl_update_poll k in ret tt) Q g3) as Hend.
  { intros g3 ct3 W3 F3 Hk3 E3. apply wp_bnd, wp_bnd, (wp_get_ctrl k ct3); [done|].
    destruct (poller_mod_exact (k_fd ct3) (if (k_wsent ct3 <? length (k_wbuf ct3))%nat
      then Z.lor NTC_POLL_READ NTC_POLL_WRITE else NTC_POLL_READ) (PCtrl k) g3) as (b & l & i & Ep).
    eexists _, _. split; [exact Ep|]. apply wp_ret, (HL _ ct3); [|by destruct F3 as (?&?&?&?&?)|done|exact E3].
    refine (same_core_wf g3 _ _ W3). by split. }
  assert (wp ((if (length (k_wbuf ct) <=? sent)%nat
     then put_ctrl k (ct <| k_wsent := 0%nat |> <| k_wbuf := [] |>) else ret tt) ;;;
     (let* _ := ctrl_update_poll k in ret tt)) Q g2) as Hgo.
  { apply wp_bnd. destruct (Nat.leb_spec (length (k_wbuf ct)) sent); [|apply wp_ret; by apply (Hend _ ct1)].
    apply (wp_put_ctrl k ct1); [done|]. set (ct3 := ct <| k_wsent := 0%nat |> <| k_wbuf := [] |>).
    destruct (wf_put_ctrl_only k ct1 ct3 g2 W2 Hk2) as [W3 F3].
    { split; try done. unfold ct3, update. cbn. lia. }
    { done. }
    apply (Hend _ ct3); [done|by eapply ctrl_only_trans|apply lookup_insert_eq|]. rewrite <- Eout.
    unfold ctrl_out, ct3, ct1, update. cbn. by rewrite (drop_ge (k_wbuf ct)). }
  destruct how; [exact Hgo|exact Hgo|]. eapply wp_controller_died; [done..|].
  intros g' Hdied. by apply (HD g2).
Qed.

(** ** Reading from a controller *)

Lemma wp_ctrl_recv ins k ct g (Q : recv_end -> gateway tls -> Prop) :
  gw_wf g -> Forall recv_ok ins -> g_ctrls g !! k = Some ct ->
  (forall how g' ct', gw_wf g' -> ctrl_only k g g' -> g_ctrls g' !! k = Some ct' ->
     k_rbuf ct `prefix_of` k_rbuf ct' -> Q how g') ->
  wp (ctrl_recv ins k) Q g.
Proof.
  revert ct g. induction ins as [|o ins IH]; intros ct g W Hi Hk HQ; cbn [ctrl_recv].
  all: apply wp_bnd, (wp_get_ctrl k ct); [done|]; pose proof (wf_ctrls _ W k ct Hk) as [B1 B2 B3].
  all: apply wp_bnd, wp_buf_reserve; [lia|unfold ADDRESS_SPACE in *; lia|]; intros r l Hr.
  all: set (g1 := g <| g_allocs := l |>); assert (gw_wf g1) as W1 by (by apply (same_core_wf g)).
  all: assert (ctrl_only k g g1) as F1 by done; assert (g_ctrls g1 !! k = Some ct) as Hk1 by done.
  all: clearbody g1.
  all: assert (forall how ins' g3 ct3, Forall recv_ok ins' -> gw_wf g3 -> ctrl_only k g g3 ->
    g_ctrls g3 !! k = Some ct3 -> k_rbuf ct `prefix_of` k_rbuf ct3 ->
    wp (modify (fun g => g <| g_recvs := ins' |>) ;;; ret how) Q g3) as Hstop
    by (intros how ins' g3 ct3 Hi' W3 F3 Hk3 Hp; apply wp_bnd, wp_modify, wp_ret;
        apply (HQ how _ ct3); [by apply (same_core_wf g3)|exact F3|exact Hk3|exact Hp]).
  all: destruct r as [ncap|]; [|by apply (Hstop _ _ g1 ct)].
  all: apply wp_bnd, (wp_put_ctrl k ct); [done|]; set (ct1 := ct <| k_rcap := ncap |>).
  all: destruct (wf_put_ctrl_only k ct ct1 g1 W1 Hk1) as [W2 F2];
    [split; [unfold ct1, update; cbn; lia|exact B2|exact B3]|done|].
  all: set (g2 := g1 <| g_ctrls := <[k := ct1]> (g_ctrls g1) |>) in *;
    assert (g_ctrls g2 !! k = Some ct1) as Hk2 by apply lookup_insert_eq;
    assert (ctrl_only k g g2) as F by (by eapply ctrl_only_trans); clearbody g2.
  - by apply (Hstop _ _ g2 ct1).
  - apply Forall_cons_1 in Hi as [Ho Hi].
    destruct o as [d| | |]; [|apply (IH ct1); try done; intros how g' ct' W' F'; apply HQ; [done|by eapply ctrl_only_trans]|by apply (Hstop _ _ g2 ct1)|by apply (Hstop _ _ g2 ct1)].
    cbv zeta. set (e := take _ d). destruct (length e =? 0)%nat; [by apply (Hstop _ _ g2 ct1)|].
    assert (length e <= Z.to_nat ncap - length (k_rbuf ct))%nat as He by (unfold e; rewrite length_take; lia).
    assert (bytes_ok e) as Hbe by (by apply Forall_take). clearbody e.
    apply wp_bnd, (wp_put_ctrl k ct1); [done|]. set (ct2 := ct1 <| k_rbuf := k_rbuf ct ++ e |>).
    destruct (wf_put_ctrl_only k ct1 ct2 g2 W2 Hk2) as [W3 F3].
    { split; unfold ct2, ct1, update; cbn; [rewrite length_app; lia|by apply Forall_app|exact B3]. }
    { done. }
    assert (k_rbuf ct `prefix_of` k_rbuf ct2) as Hpre by (by apply prefix_app_r).
    set (g3 := g2 <| g_ctrls := <[k := ct2]> (g_ctrls g2) |>) in *.
    assert (g_ctrls g3 !! k = Some ct2) as Hk3 by apply lookup_insert_eq.
    assert (ctrl_only k g g3) as F' by (by eapply ctrl_only_trans). clearbody g3.
    destruct (_ <? _); [by apply (Hstop _ _ g3 ct2)|].
    apply (IH ct2); try done. intros how g' ct' W' F4 Hk' Hp'.
    apply (HQ how g' ct'); [done|by eapply ctrl_only_trans|done|by etrans].
Qed.

Lemma relay_ctrl id g g' k ct :
  relay_frame id g g' -> g_ctrls g !! k = Some ct ->
  exists ct', g_ctrls g' !! k = Some ct' /\ same_ctrl ct ct'.
Proof.
  intros [_ [->|(p & c & _ & _ & _ & _ & (_ & _ & F))]] Hk; [by exists ct|]. by apply F.
Qed.

(** The frames of a buffer are dispatched one by one, in order: [dispatched k g off off' g'],
    from the frame at [off] of [k]'s buffer to the one at [off']. *)
Inductive dispatched k : gateway tls -> nat -> nat -> gateway tls -> Prop :=
  | disp_done g off : dispatched k g off off g
  | disp_frame g ct off off' h pl consumed g1 g' :
      g_ctrls g !! k = Some ct ->
      ntc_wire_read_frame (drop off (k_rbuf ct)) = Some (FrameOk h pl consumed) ->
      deliver_frame tdefl_compress mz_crc32 h pl g = Some (tt, g1) ->
      relay_frame (wh_request_id h) g g1 ->
      dispatched k g1 (off + consumed) off' g' -> dispatched k g off off' g'.

(** Dispatching ends where the buffer holds no complete frame, or with the death of a
    controller that sent a malformed one. *)
Lemma wp_ctrl_frames fuel k ct g off (Q : option nat -> gateway tls -> Prop) :
  gw_wf g -> g_ctrls g !! k = Some ct -> (off <= length (k_rbuf ct))%nat ->
  (length (k_rbuf ct) - off < fuel)%nat ->
  (forall g1 g' off', dispatched k g off off' g1 ->
     ntc_wire_read_frame (drop off' (k_rbuf ct)) = Some FrameMalformed -> died k g1 g' -> Q None g') ->
  (forall g' off' ct', gw_wf g' -> dispatched k g off off' g' ->
     ntc_wire_read_frame (drop off' (k_rbuf ct)) = Some FrameIncomplete ->
     g_ctrls g' !! k = Some ct' -> same_ctrl ct ct' -> (off' <= length (k_rbuf ct))%nat -> Q (Some off') g') ->
  wp (ctrl_frames tdefl_compress mz_crc32 fuel k off) Q g.
Proof.
  revert ct g off. induction fuel as [|fuel IH]; intros ct g off W Hk Ho Hf HD HL; [lia|].
  cbn [ctrl_frames]. apply wp_bnd, (wp_get_ctrl k ct); [done|].
  pose proof (wf_ctrls _ W k ct Hk) as [_ Hb _].
  destruct (read_frame_safe (drop off (k_rbuf ct))) as (r & E & Hr); [by apply Forall_drop|].
  apply wp_bnd. eapply wp_load; [exact E|]. destruct r as [| |h pl consumed].
  - apply wp_bnd. eapply wp_controller_died; [done..|]. intros g' Hdied. apply wp_ret.
    by apply (HD g g' off); [constructor| |].
  - apply wp_ret. apply (HL g off ct); [done|constructor|done|done|done|done].
  - destruct Hr as (Hc & Hcl & _ & _). rewrite length_drop in Hcl. unfold NTC_WIRE_HEADER_LEN in Hc.
    destruct (wp_deliver_frame tdefl_compress mz_crc32 h pl g W) as ([] & g1 & Ed & Hrel).
    apply wp_bnd. exists tt, g1. split; [exact Ed|].
    destruct (relay_ctrl _ _ _ _ _ Hrel Hk) as (ct1 & Hk1 & Hs). pose proof Hs as (_ & _ & _ & Erb & _).
    apply (IH ct1); rewrite ?Erb; [apply Hrel|done|lia|lia| |].
    + intros g2 g' off' Hdisp. apply HD. by eapply disp_frame.
    + intros g' off' ct' W' Hdisp Hinc Hk' Hs'. apply (HL g' off' ct'); [done| |done|done|].
      * by eapply disp_frame.
      * by eapply same_ctrl_trans.
Qed.

(** A readable controller: its frames are dispatched, or it died; the gateway stays well
    formed. *)
Lemma wp_on_ctrl_readable k ct g (Q : Z -> gateway tls -> Prop) :
  gw_wf g -> g_ctrls g !! k = Some ct ->
  (forall g', gw_wf g' -> g_ctrls g' !! k = None -> Q (-1) g') ->
  (forall g', gw_wf g' -> is_Some (g_ctrls g' !! k) -> Q 0 g') ->
  wp (on_ctrl_readable tdefl_compress mz_crc32 k) Q g.
Proof.
  intros W Hk HD HL. unfold on_ctrl_readable. apply wp_bnd, wp_gets, wp_bnd.
  eapply wp_ctrl_recv; [done|apply (wf_recvs _ W)|done|]. intros how g1 ct1 W1 F1 Hk1 _.
  assert (wp (controller_died tdefl_compress mz_crc32 k ;;; ret (-1)) Q g1) as Hdie.
  { apply wp_bnd. eapply wp_controller_died; [done..|]. intros g' (W' & Hn & _). by apply wp_ret, HD. }
  destruct how; try exact Hdie. apply wp_bnd, (wp_get_ctrl k ct1); [done|]. apply wp_bnd.
  eapply wp_ctrl_frames; [done..|lia|lia| |].
  - intros g2 g' off' _ _ (W' & Hn & _). by apply wp_ret, HD.
  - intros g' off' ct' W' _ _ Hk' Hs' Ho'. destruct (0 <? off')%nat; [|by apply wp_ret, HL; [|eexists]].
    apply wp_bnd, (wp_get_ctrl k ct'); [done|]. apply wp_bnd, (wp_put_ctrl k ct'); [done|].
    pose proof (wf_ctrls _ W' k ct' Hk') as [B1 B2 B3].
    destruct (wf_put_ctrl_only k ct' (ct' <| k_rbuf := drop off' (k_rbuf ct') |>) g' W' Hk') as [W2 _].
    { split; unfold update; cbn; [rewrite length_drop; lia|by apply Forall_drop|exact B3]. }
    { done. }
    apply wp_ret, HL; [done|]. cbn. rewrite lookup_insert_eq. by eexists.
Qed.

(** A waiting client that sends something, or goes. *)
Lemma wp_on_wait_readable p c s g0 g (Q : unit -> gateway tls -> Prop) :
  live p c s g0 g -> (forall g', dead p s g0 g' -> Q tt g') -> (forall g', live p c s g0 g' -> Q tt g') ->
  wp (on_wait_readable p) Q g.
Proof.
  intros L HD HL. unfold on_wait_readable. apply wp_bnd, wp_gets.
  pose proof (wf_recvs _ (lv_wf _ _ _ _ _ L)) as Hr. destruct (g_recvs g) as [|o ins]; [by apply wp_ret, HL|].
  apply Forall_cons_1 in Hr as [_ Hr]. apply wp_bnd.
  eapply wp_noise; [by apply noise_set_recvs|exact L|]. clear L. intros _ g1 L.
  destruct o as [d| | |]; try (by apply wp_ret, HL).
  - destruct (length d =? 0)%nat; [by eapply wp_conn_close|by apply wp_ret, HL].
  - by eapply wp_conn_close.
Qed.
End ctrl_safe.
