(* ===== verification/ServerProps.v ===== *)
(** * The gateway's properties: connections, relaying, forwarding, controllers

    The specifications of the previous files as theorems about the handlers, each at a
    concrete gateway: one service with one controller, and one client. *)
From S2P Require Import Prelude Update Err Slice Http HttpRequest Wire Ws Gzip Inflight.
From S2P Require Import ServerState ServerConn ServerRelay ServerInv ServerSafe ServerRelaySafe.
From S2P Require Import ServerEvents ServerForward ServerCtrlSafe.
Open Scope Z_scope.

(** A TLS engine that passes everything through, for the witnesses. *)
#[export] Instance plain_tls : TlsEngine unit := {
  ntc_tls_send t d := (Z.of_nat (length d), t);
  ntc_tls_recv t n := (None, t);
  ntc_tls_flush t := t; ntc_tls_close_notify t := t; ntc_tls_pump_socket t := (true, t);
  ntc_tls_closed t := false; ntc_tls_wants_write t := false }.
#[export] Instance plain_tls_laws : TlsLaws unit.
Proof. split; [cbn; lia|done]. Qed.

(** A client that just sent a request, a controller, and the service it is a replica of. *)
Definition demo_conn : conn unit :=
  Conn 5 CS_READ false None false 0 None [] [] [] [] [] [] [] 0 false false [] [] 0
       false false false false false [] 0 0.
Definition demo_ctrl : ctrl := Ctrl 6 100 (Some 0%nat) [] 0 [] 0 0.
Definition demo_service : service :=
  Service (bs "api") (bs "./api") (Some 9%nat :: replicate 7 None) 2 0 false 0
    (replicate 8 0) (replicate 8 0) (replicate 8 0) 0.
Definition demo_idle : gateway unit :=
  Gateway gw_slots_init {[ 3%nat := demo_conn ]} {[ 9%nat := demo_ctrl ]} [demo_service]
    (Metrics 0 0 0 0 0 0 0) None ∅ [] ∅ ∅ 1000 [] [] [] [].

Lemma demo_service_ok : service_ok demo_service.
Proof.
  split; try done.
  - apply Forall_replicate. by left.
  - intros s s' k Hs Hs'. assert (forall j, s_conns demo_service !! j = Some (Some k) -> j = 0%nat) as H.
    { intros j Hj. do 9 (destruct j as [|j]; [done|]). done. }
    by rewrite (H s Hs), (H s' Hs').
Qed.

Lemma demo_idle_wf : gw_wf demo_idle.
Proof.
  split.
  - apply slots_init_wf.
  - intros s p. split.
    + change (pending (g_slots demo_idle)) with (replicate NTC_MAX_INFLIGHT (@None conn_ptr)).
      rewrite lookup_replicate. intros [[=] _].
    + intros (c & Hc & Hi & _). cbn [g_conns demo_idle] in Hc. apply lookup_singleton_Some in Hc as [<- <-]. done.
  - apply map_Forall_singleton. intros [=].
  - apply map_Forall_singleton. split; cbn; try lia; [split; [lia|constructor]|unfold ADDRESS_SPACE; lia|unfold NTC_STREAM_MAX_BUF; lia].
  - apply map_Forall_singleton. split; cbn; try constructor; unfold ADDRESS_SPACE; lia.
  - constructor; [apply demo_service_ok|constructor].
  - intros [|i] svc s k; [|done]. intros [= <-] Hs.
    assert (k = 9%nat) as ->; [|exists demo_ctrl; split; [apply lookup_singleton_eq|done]].
    do 9 (destruct s as [|s]; [cbn in Hs; congruence|]). done.
  - intros k ct i Hk Hs. cbn [g_ctrls demo_idle] in Hk. apply lookup_singleton_Some in Hk as [<- <-]. injection Hs as <-. by eexists.
  - constructor.
Qed.

(** The same gateway once the client's request was handed to the controller. *)
Definition demo_slots : slots :=
  match gw_alloc_id gw_slots_init 3 with Some (Some (_, t)) => t | _ => gw_slots_init end.
Definition demo_waiter : conn unit :=
  demo_conn <| c_state := CS_WAIT |> <| c_req_id := 4095 |> <| c_inflight := true |> <| c_wait_ctrl := Some 9%nat |>.
Definition demo_streamer : conn unit := demo_waiter <| c_streaming := true |>.
Definition demo_with (c : conn unit) : gateway unit :=
  demo_idle <| g_slots := demo_slots |> <| g_conns := <[3%nat := c]> (g_conns demo_idle) |>.

Lemma demo_alloc : gw_alloc_id gw_slots_init 3 = Some (Some (4095, demo_slots)).
Proof.
  assert (match gw_alloc_id gw_slots_init 3 with Some (Some (id, _)) => id =? 4095 | _ => false end = true)
    as H by (vm_compute; reflexivity).
  unfold demo_slots. destruct (gw_alloc_id gw_slots_init 3) as [[[id t]|]|]; try discriminate H.
  apply Z.eqb_eq in H as ->. reflexivity.
Qed.

Lemma demo_resolves : gw_conn_for_id demo_slots 4095 = Some (Some 3%nat).
Proof. vm_compute. reflexivity. Qed.

#[global] Opaque demo_slots.

Lemma demo_conn_ok : conn_ok demo_conn.
Proof. exact (wf_conns _ demo_idle_wf 3%nat demo_conn (lookup_singleton_eq _ _)). Qed.

Lemma demo_with_wf c :
  c_inflight c = true -> c_req_id c = 4095 -> c_wait_ctrl c = Some 9%nat -> conn_ok c -> gw_wf (demo_with c).
Proof.
  intros Hi Hr Hw Hok.
  exact (wf_link demo_idle 3 demo_conn c 4095 demo_slots 9 demo_ctrl demo_idle_wf
    (lookup_singleton_eq _ _) eq_refl demo_alloc (lookup_singleton_eq _ _) Hi Hr Hw Hok).
Qed.

Lemma demo_waiter_wf : gw_wf (demo_with demo_waiter).
Proof. apply demo_with_wf; [reflexivity..|]. destruct demo_conn_ok. by split. Qed.
Lemma demo_streamer_wf : gw_wf (demo_with demo_streamer).
Proof. apply demo_with_wf; [reflexivity..|]. destruct demo_conn_ok. by split. Qed.

(** An outcome of an operation on a live connection. *)
Lemma opened {tls} p c s (g0 g : gateway tls) : live p c s g0 g -> open_or_closed p g0 0 g.
Proof. left. eauto. Qed.
Lemma closed {tls} p s (g0 g : gateway tls) : dead p s g0 g -> open_or_closed p g0 (-1) g.
Proof. right. eauto. Qed.

Section props.
  Context {tls : Type} {TE : TlsEngine tls} {TL : TlsLaws tls}.
  Variable tdefl_compress : bytes -> option bytes.
  Variable mz_crc32 : bytes -> Z.
  Variable br_sha1 : bytes -> bytes.
  Implicit Types (g : gateway tls) (c : conn tls).

(** C21. The close contract: on any connection of a well-formed gateway, whatever the socket,
    the TLS engine, the allocator and the poller answer, every operation that may close its
    connection runs without touching freed or foreign memory, keeps the gateway well formed
    and every other connection as it was, and returns 0 if the connection is still there
    and -1 if it is gone. *)
Theorem conn_ops_contract g p c :
  gw_wf g -> g_conns g !! p = Some c ->
  wp (on_writable p) (open_or_closed p g) g /\ wp (conn_flush p) (open_or_closed p g) g /\
  wp (on_ws_readable p) (open_or_closed p g) g /\
  (forall d, wp (stream_push p d) (open_or_closed p g) g) /\
  (forall status ctype body,
     wp (send_resp tdefl_compress mz_crc32 p status ctype body) (open_or_closed p g) g) /\
  (forall status body,
     wp (respond_and_flush tdefl_compress mz_crc32 p status body) (open_or_closed p g) g).
Proof.
  intros W Hc. pose proof (live_start p c g W Hc) as L. split_and!; intros.
  - eapply wp_on_writable; eauto using opened, closed.
  - eapply wp_conn_flush; eauto using opened, closed.
  - eapply wp_on_ws_readable; eauto using opened, closed.
  - eapply wp_stream_push; eauto using opened, closed.
  - eapply wp_send_resp; eauto using opened, closed.
  - eapply wp_respond_and_flush; eauto using opened, closed.
Qed.


(** C37. Streams are relayed in order: after any run of CHUNK frames for a streaming
    connection its client's stream is what it was followed by every chunk's data in order,
    each as one HTTP/1.1 chunk or bare for server-sent events; if the connection was closed
    on the way the client got a prefix of that. *)
Theorem chunks_relayed g id payloads p c :
  gw_wf g -> gw_conn_for_id (g_slots g) id = Some (Some p) -> g_conns g !! p = Some c ->
  wp (deliver_chunks id payloads)
     (fun _ g' => pushed p g (concat (chunk_adds c <$> payloads)) g') g.
Proof.
  intros W Hid Hc. destruct (resolved_conn _ _ _ W Hid) as (c' & Hc' & Hi & Hs).
  assert (c' = c) as -> by congruence. by eapply wp_deliver_chunks.
Qed.




(** C39. The frames a controller sent are dispatched one by one in the order of its buffer, up
    to the first that is not complete; every dispatch changes at most the connection in
    flight under its id, and a malformed frame is the controller's death. The loop ends. *)
Theorem frames_dispatched g k ct :
  gw_wf g -> g_ctrls g !! k = Some ct ->
  wp (ctrl_frames tdefl_compress mz_crc32 (S (length (k_rbuf ct))) k 0) (fun r g' =>
    match r with
    | None => exists g1 off, dispatched tdefl_compress mz_crc32 k g 0 off g1 /\
        ntc_wire_read_frame (drop off (k_rbuf ct)) = Some FrameMalformed /\
        died tdefl_compress mz_crc32 k g1 g'
    | Some off => gw_wf g' /\ dispatched tdefl_compress mz_crc32 k g 0 off g' /\
        ntc_wire_read_frame (drop off (k_rbuf ct)) = Some FrameIncomplete
    end) g.
Proof. intros W Hk. eapply wp_ctrl_frames; eauto; lia. Qed.

(** A controller's socket is given its queue in order: writing moves bytes from the queue
    to what was sent, loses none and touches nothing else; a send error is its death. *)
Theorem ctrl_writes_in_order g k ct :
  gw_wf g -> g_ctrls g !! k = Some ct ->
  wp (on_ctrl_writable tdefl_compress mz_crc32 k) (fun _ g' =>
    (exists g1, ctrl_only k g g1 /\ died tdefl_compress mz_crc32 k g1 g') \/
    (exists ct', gw_wf g' /\ ctrl_only k g g' /\ g_ctrls g' !! k = Some ct' /\
       ctrl_out g' k ct' = ctrl_out g k ct)) g.
Proof. intros W Hk. eapply wp_on_ctrl_writable; eauto 6. Qed.

(** Round robin: [svc_pick] returns a live replica whenever one of the first [replicas]
    slots has one, the first from the cursor on, cyclically, and leaves the cursor behind
    it; otherwise none and the service as it was. *)
Theorem svc_pick_round_robin svc :
  service_ok svc ->
  svc_pick svc = Some (None, svc) /\
    (forall s, Z.of_nat s < svc_n svc -> s_conns svc !! s = Some None) \/
  exists k ct, (k < Z.to_nat (svc_n svc))%nat /\ s_conns svc !! pick_slot svc k = Some (Some ct) /\
    (forall j, (j < k)%nat -> s_conns svc !! pick_slot svc j = Some None) /\
    svc_pick svc = Some (Some ct, svc <| s_rr := (Z.of_nat (pick_slot svc k) + 1) mod svc_n svc |>).
Proof. apply svc_pick_spec. Qed.
End props.

(** ** Witnesses *)

Definition no_deflate : bytes -> option bytes := fun _ => None.
Definition no_crc : bytes -> Z := fun _ => 0.
Definition no_sha1 : bytes -> bytes := fun _ => [].

Lemma conn_ops_contract_witness :
  gw_wf demo_idle /\ g_conns demo_idle !! 3%nat = Some demo_conn /\
  wp (on_writable 3) (open_or_closed 3 demo_idle) demo_idle.
Proof.
  split; [apply demo_idle_wf|]. split; [apply lookup_singleton_eq|].
  apply (conn_ops_contract no_deflate no_crc demo_idle 3 demo_conn demo_idle_wf (lookup_singleton_eq _ _)).
Defined.


Lemma chunks_relayed_witness :
  gw_wf (demo_with demo_streamer) /\
  wp (deliver_chunks 4095 [enc32 (bs "ab"); enc32 (bs "c")])
     (fun _ g' => pushed 3 (demo_with demo_streamer)
        (bs "2" ++ crlf ++ bs "ab" ++ crlf ++ bs "1" ++ crlf ++ bs "c" ++ crlf) g')
     (demo_with demo_streamer).
Proof.
  split; [apply demo_streamer_wf|].
  apply (chunks_relayed (demo_with demo_streamer) 4095 [enc32 (bs "ab"); enc32 (bs "c")] 3 demo_streamer demo_streamer_wf).
  - exact demo_resolves.
  - apply lookup_insert_eq.
Defined.




Lemma frames_dispatched_witness :
  wp (ctrl_frames no_deflate no_crc 1 9 0) (fun r g' =>
    match r with
    | None => exists g1 off, dispatched no_deflate no_crc 9 (demo_with demo_waiter) 0 off g1 /\
        ntc_wire_read_frame (drop off []) = Some FrameMalformed /\ died no_deflate no_crc 9 g1 g'
    | Some off => gw_wf g' /\ dispatched no_deflate no_crc 9 (demo_with demo_waiter) 0 off g' /\
        ntc_wire_read_frame (drop off []) = Some FrameIncomplete
    end) (demo_with demo_waiter).
Proof.
  apply (frames_dispatched no_deflate no_crc (demo_with demo_waiter) 9 demo_ctrl demo_waiter_wf).
  apply lookup_singleton_eq.
Defined.

Lemma ctrl_writes_in_order_witness :
  wp (on_ctrl_writable no_deflate no_crc 9) (fun _ g' =>
    (exists g1, ctrl_only 9 demo_idle g1 /\ died no_deflate no_crc 9 g1 g') \/
    (exists ct', gw_wf g' /\ ctrl_only 9 demo_idle g' /\ g_ctrls g' !! 9%nat = Some ct' /\
       ctrl_out g' 9 ct' = ctrl_out demo_idle 9 demo_ctrl)) demo_idle.
Proof.
  apply (ctrl_writes_in_order no_deflate no_crc demo_idle 9 demo_ctrl demo_idle_wf). apply lookup_singleton_eq.
Defined.

Lemma svc_pick_round_robin_witness :
  service_ok demo_service /\
  (svc_pick demo_service = Some (None, demo_service) /\
    (forall s, Z.of_nat s < svc_n demo_service -> s_conns demo_service !! s = Some None) \/
  exists k ct, (k < Z.to_nat (svc_n demo_service))%nat /\
    s_conns demo_service !! pick_slot demo_service k = Some (Some ct) /\
    (forall j, (j < k)%nat -> s_conns demo_service !! pick_slot demo_service j = Some None) /\
    svc_pick demo_service = Some (Some ct, demo_service <| s_rr :=
      (Z.of_nat (pick_slot demo_service k) + 1) mod svc_n demo_service |>)).
Proof. split; [apply demo_service_ok|]. apply (svc_pick_round_robin demo_service demo_service_ok). Defined.
