(* ===== verification/Keeps.v ===== *)
(** * What no handler changes

    The clock, the start time and the number of services are the same after any operation of
    the connections and of relaying.  The fact is compositional: it holds of the primitives
    and is carried through binds, so each operation's proof is its structure. *)
From S2P Require Import Prelude Update Err Slice Http HttpRequest Wire Ws Gzip Inflight.
From S2P Require Import ServerState ServerConn ServerRelay.
Open Scope Z_scope.

Create HintDb keeps.

Section keeps.
Context {tls : Type} {TE : TlsEngine tls}.
Implicit Types g : gateway tls.

Record kept g g' : Prop := Kept {
  kp_now : g_now g' = g_now g;
  kp_start : m_start_ms (g_m g') = m_start_ms (g_m g);
  kp_services : length (g_services g') = length (g_services g) }.

Definition keeps {A} (m : St (gateway tls) A) : Prop := forall g a g', m g = Some (a, g') -> kept g g'.

Lemma kept_refl g : kept g g.
Proof. done. Qed.

Lemma kept_trans g1 g2 g3 : kept g1 g2 -> kept g2 g3 -> kept g1 g3.
Proof. intros [] []. split; congruence. Qed.

Lemma keeps_ret {A} (a : A) : keeps (ret a).
Proof. intros g b g' [= <- <-]. apply kept_refl. Qed.

Lemma keeps_bnd {A B} (m : St (gateway tls) A) (k : A -> St (gateway tls) B) :
  keeps m -> (forall a, keeps (k a)) -> keeps (bnd m k).
Proof.
  intros Hm Hk g b g'. unfold bnd. destruct (m g) as [[a g1]|] eqn:E; [|done].
  intros E'. eapply kept_trans; [by eapply Hm|by eapply Hk].
Qed.

Lemma keeps_fault {A} : keeps (fault : St (gateway tls) A).
Proof. done. Qed.

Lemma keeps_gets {A} (f : gateway tls -> A) : keeps (gets f).
Proof. intros g b g' [= <- <-]. apply kept_refl. Qed.

Lemma keeps_load {A} (f : gateway tls -> option A) : keeps (load f).
Proof. intros g b g'. unfold load. destruct (f g); [|done]. intros [= <- <-]. apply kept_refl. Qed.

Lemma keeps_ensure b : keeps (ensure b : St (gateway tls) unit).
Proof. destruct b; [apply keeps_ret|apply keeps_fault]. Qed.

Lemma keeps_modify (f : gateway tls -> gateway tls) : (forall g, kept g (f g)) -> keeps (modify f).
Proof. intros Hf g b g' [= <- <-]. apply Hf. Qed.

Lemma keeps_store (f : gateway tls -> option (gateway tls)) :
  (forall g g', f g = Some g' -> kept g g') -> keeps (store f).
Proof. intros Hf g b g'. unfold store. destruct (f g) eqn:E; [|done]. intros [= <- <-]. by apply Hf. Qed.

Lemma wp_keeps {A} (m : St (gateway tls) A) (Q : A -> gateway tls -> Prop) g :
  keeps m -> wp m Q g -> wp m (fun a g' => Q a g' /\ kept g g') g.
Proof. intros Hm (a & g' & E & HQ). exists a, g'. split; [done|]. split; [done|]. by eapply Hm. Qed.
End keeps.

#[export] Hint Resolve keeps_ret keeps_fault keeps_gets keeps_load keeps_ensure : keeps.

Ltac keeps_step :=
  lazymatch goal with
  | |- keeps (bnd _ _) => apply keeps_bnd; [|let x := fresh "x" in intros x]
  | |- keeps (modify _) => apply keeps_modify; intros; split; first [reflexivity | unfold update; cbn; case_match; reflexivity]
  | |- keeps (match ?x with _ => _ end) => destruct x
  | |- keeps _ => solve [eauto with keeps]
  end.
Ltac keeps_tac := cbv zeta; repeat (keeps_step; cbv zeta beta iota).

Section ops.
Context {tls : Type} {TE : TlsEngine tls}.
Variable tdefl_compress : bytes -> option bytes.
Variable mz_crc32 : bytes -> Z.
Variable br_sha1 : bytes -> bytes.
Local Abbreviation M := (St (gateway tls)).

Lemma keeps_get_conn p : keeps (get_conn p : M _). Proof. apply keeps_load. Qed.
Lemma keeps_get_ctrl k : keeps (get_ctrl k : M _). Proof. apply keeps_load. Qed.
Lemma keeps_get_service i : keeps (get_service i : M _). Proof. apply keeps_load. Qed.
Lemma keeps_put_conn p c : keeps (put_conn p c : M _).
Proof. apply keeps_store. intros g g' E. opt_inv. split; reflexivity. Qed.
Lemma keeps_put_ctrl k c : keeps (put_ctrl k c : M _).
Proof. apply keeps_store. intros g g' E. opt_inv. split; reflexivity. Qed.
Lemma keeps_put_service i s : keeps (put_service i s : M _).
Proof. apply keeps_store. intros g g' E. opt_inv. split; [reflexivity..|]. apply length_insert. Qed.
Lemma keeps_free_slot i : keeps (free_slot i : M _).
Proof. apply keeps_store. intros g g' E. opt_inv. split; reflexivity. Qed.
Hint Resolve keeps_get_conn keeps_get_ctrl keeps_get_service keeps_put_conn keeps_put_ctrl keeps_put_service
  keeps_free_slot : keeps.

Lemma keeps_upd_conn p f : keeps (upd_conn p f : M _). Proof. unfold upd_conn. keeps_tac. Qed.
Lemma keeps_ask_alloc : keeps (ask_alloc : M _). Proof. unfold ask_alloc. keeps_tac. Qed.
Lemma keeps_ask_poll : keeps (ask_poll : M _). Proof. unfold ask_poll. keeps_tac. Qed.
Hint Resolve keeps_upd_conn keeps_ask_alloc keeps_ask_poll : keeps.
Lemma keeps_poller_mod fd ev t : keeps (ntc_poller_mod fd ev t : M _). Proof. unfold ntc_poller_mod. keeps_tac. Qed.
Lemma keeps_poller_del fd : keeps (ntc_poller_del fd : M _). Proof. unfold ntc_poller_del. keeps_tac. Qed.
Lemma keeps_rec_status st : keeps (rec_status st : M _).
Proof. apply keeps_modify. intros g. split; [reflexivity| |reflexivity]. unfold update. cbn. repeat case_match; reflexivity. Qed.
Lemma keeps_mw_after a b c d : keeps (ntc_mw_after a b c d : M _).
Proof. apply keeps_modify. intros g. destruct (g_access_log g) as [[]|]; split; reflexivity. Qed.
Lemma keeps_record_sent p d : keeps (record_sent p d : M _). Proof. unfold record_sent. keeps_tac. Qed.
Lemma keeps_buf_reserve a b : keeps (buf_reserve a b : M _). Proof. unfold buf_reserve. keeps_tac. Qed.
Hint Resolve keeps_poller_mod keeps_poller_del keeps_rec_status keeps_mw_after keeps_record_sent keeps_buf_reserve : keeps.

Lemma keeps_ctrl_queue k t r d : keeps (ctrl_queue k t r d : M _). Proof. unfold ctrl_queue. keeps_tac. Qed.
Lemma keeps_ctrl_update_poll k : keeps (ctrl_update_poll k : M _). Proof. unfold ctrl_update_poll. keeps_tac. Qed.
Hint Resolve keeps_ctrl_queue keeps_ctrl_update_poll : keeps.
Lemma keeps_ws_close_notice c : keeps (ws_close_notice c : M _). Proof. unfold ws_close_notice. keeps_tac. Qed.
Hint Resolve keeps_ws_close_notice : keeps.
Lemma keeps_conn_close p : keeps (conn_close p : M _). Proof. unfold conn_close. keeps_tac. Qed.
Hint Resolve keeps_conn_close : keeps.

Lemma keeps_tls_drive_loop fuel p b : keeps (tls_drive_loop fuel p b : M _).
Proof. induction fuel as [|f IH]; cbn [tls_drive_loop]; keeps_tac. Qed.
Hint Resolve keeps_tls_drive_loop : keeps.
Lemma keeps_tls_drive_write p : keeps (tls_drive_write p : M _). Proof. unfold tls_drive_write. keeps_tac. Qed.
Lemma keeps_tls_set_interest p : keeps (tls_set_interest p : M _). Proof. unfold tls_set_interest. keeps_tac. Qed.
Hint Resolve keeps_tls_drive_write keeps_tls_set_interest : keeps.
Lemma keeps_on_writable p : keeps (on_writable p : M _). Proof. unfold on_writable. keeps_tac. Qed.
Hint Resolve keeps_on_writable : keeps.
Lemma keeps_conn_flush p : keeps (conn_flush p : M _). Proof. unfold conn_flush. keeps_tac. Qed.
Lemma keeps_stream_kick p : keeps (stream_kick p : M _). Proof. unfold stream_kick. keeps_tac. Qed.
Lemma keeps_compress_body c t b : keeps (compress_body tdefl_compress mz_crc32 c t b : M _).
Proof. unfold compress_body. keeps_tac. Qed.
Hint Resolve keeps_conn_flush keeps_stream_kick keeps_compress_body : keeps.
Lemma keeps_conn_respond p s t b : keeps (conn_respond tdefl_compress mz_crc32 p s t b : M _).
Proof. unfold conn_respond. keeps_tac. Qed.
Hint Resolve keeps_conn_respond : keeps.
Lemma keeps_send_resp p s t b : keeps (send_resp tdefl_compress mz_crc32 p s t b : M _).
Proof. unfold send_resp. keeps_tac. Qed.
Hint Resolve keeps_send_resp : keeps.
Lemma keeps_respond_and_flush p s b : keeps (respond_and_flush tdefl_compress mz_crc32 p s b : M _).
Proof. unfold respond_and_flush. keeps_tac. Qed.
Lemma keeps_stream_push p d : keeps (stream_push p d : M _). Proof. unfold stream_push. keeps_tac. Qed.
Hint Resolve keeps_respond_and_flush keeps_stream_push : keeps.

Lemma keeps_conn_for_id id : keeps (conn_for_id id : M _). Proof. apply keeps_load. Qed.
Lemma keeps_release_id id p : keeps (release_id id p : M _). Proof. unfold release_id. keeps_tac. Qed.
Lemma keeps_merge_headers a b : keeps (merge_headers a b : M _). Proof. unfold merge_headers. keeps_tac. Qed.
Hint Resolve keeps_conn_for_id keeps_release_id keeps_merge_headers : keeps.
Lemma keeps_gw_deliver id d : keeps (gw_deliver tdefl_compress mz_crc32 id d : M _). Proof. unfold gw_deliver. keeps_tac. Qed.
Lemma keeps_gw_deliver_begin id d : keeps (gw_deliver_begin tdefl_compress mz_crc32 id d : M _).
Proof. unfold gw_deliver_begin. keeps_tac. Qed.
Lemma keeps_gw_deliver_chunk id d : keeps (gw_deliver_chunk id d : M _). Proof. unfold gw_deliver_chunk. keeps_tac. Qed.
Lemma keeps_gw_deliver_end id : keeps (gw_deliver_end id : M _). Proof. unfold gw_deliver_end. keeps_tac. Qed.
Lemma keeps_gw_ws_deliver id d : keeps (gw_ws_deliver id d : M _). Proof. unfold gw_ws_deliver. keeps_tac. Qed.
Lemma keeps_gw_ws_deliver_close id : keeps (gw_ws_deliver_close id : M _). Proof. unfold gw_ws_deliver_close. keeps_tac. Qed.
Hint Resolve keeps_gw_deliver keeps_gw_deliver_begin keeps_gw_deliver_chunk keeps_gw_deliver_end keeps_gw_ws_deliver
  keeps_gw_ws_deliver_close : keeps.
Lemma keeps_deliver_frame h d : keeps (deliver_frame tdefl_compress mz_crc32 h d : M _).
Proof. unfold deliver_frame. keeps_tac. Qed.
Hint Resolve keeps_deliver_frame : keeps.

Lemma keeps_ws_relay c op d : keeps (ws_relay c op d : M _). Proof. unfold ws_relay. keeps_tac. Qed.
Hint Resolve keeps_ws_relay : keeps.
Lemma keeps_ws_frames fuel p : forall off, keeps (ws_frames fuel p off : M _).
Proof. induction fuel as [|f IH]; intros off; cbn [ws_frames]; keeps_tac. Qed.
Hint Resolve keeps_ws_frames : keeps.
Lemma keeps_on_ws_readable p : keeps (on_ws_readable p : M _). Proof. unfold on_ws_readable. keeps_tac. Qed.
Lemma keeps_on_wait_readable p : keeps (on_wait_readable p : M _). Proof. unfold on_wait_readable. keeps_tac. Qed.

Lemma keeps_pick_target i : keeps (pick_target i : M _). Proof. unfold pick_target. keeps_tac. Qed.
Lemma keeps_alloc_id p : keeps (alloc_id p : M _). Proof. unfold alloc_id. keeps_tac. Qed.
Hint Resolve keeps_pick_target keeps_alloc_id : keeps.
Lemma keeps_gw_forward p req i : keeps (gw_forward tdefl_compress mz_crc32 p req i : M _).
Proof. unfold gw_forward. keeps_tac. Qed.
Lemma keeps_gw_ws_upgrade p req i : keeps (gw_ws_upgrade tdefl_compress mz_crc32 br_sha1 p req i : M _).
Proof. unfold gw_ws_upgrade. keeps_tac. Qed.

Lemma keeps_fail_inflight l k t : keeps (fail_inflight tdefl_compress mz_crc32 l k t : M _).
Proof. induction l as [|i l IH]; cbn [fail_inflight]; keeps_tac. Qed.
Lemma keeps_slot_died i k : keeps (slot_died i k : M _). Proof. unfold slot_died. keeps_tac. Qed.
Lemma keeps_free_ctrl k : keeps (free_ctrl k : M _). Proof. unfold free_ctrl. keeps_tac. Qed.
Hint Resolve keeps_fail_inflight keeps_slot_died keeps_free_ctrl : keeps.
Lemma keeps_controller_died k : keeps (controller_died tdefl_compress mz_crc32 k : M _).
Proof. unfold controller_died. keeps_tac. Qed.
Hint Resolve keeps_controller_died : keeps.
Lemma keeps_on_ctrl_writable k : keeps (on_ctrl_writable tdefl_compress mz_crc32 k : M _).
Proof. unfold on_ctrl_writable. keeps_tac. Qed.
Lemma keeps_ctrl_recv k ins : keeps (ctrl_recv ins k : M _).
Proof. induction ins as [|[] ins IH]; cbn [ctrl_recv]; keeps_tac. Qed.
Lemma keeps_ctrl_frames fuel k : forall off, keeps (ctrl_frames tdefl_compress mz_crc32 fuel k off : M _).
Proof. induction fuel as [|f IH]; intros off; cbn [ctrl_frames]; keeps_tac. Qed.
Hint Resolve keeps_ctrl_recv keeps_ctrl_frames : keeps.
Lemma keeps_on_ctrl_readable k : keeps (on_ctrl_readable tdefl_compress mz_crc32 k : M _).
Proof. unfold on_ctrl_readable. keeps_tac. Qed.
End ops.

#[export] Hint Resolve keeps_get_conn keeps_get_ctrl keeps_get_service keeps_put_conn keeps_put_ctrl keeps_put_service
  keeps_free_slot keeps_upd_conn keeps_ask_alloc keeps_ask_poll keeps_poller_mod keeps_poller_del keeps_rec_status
  keeps_mw_after keeps_conn_close keeps_tls_drive_write keeps_tls_set_interest keeps_on_writable keeps_conn_flush
  keeps_conn_respond keeps_send_resp keeps_respond_and_flush keeps_on_ws_readable keeps_on_wait_readable
  keeps_gw_forward keeps_gw_ws_upgrade keeps_fail_inflight keeps_slot_died keeps_free_ctrl keeps_controller_died
  keeps_on_ctrl_writable keeps_on_ctrl_readable : keeps.
