(* ===== verification/Builtin.v ===== *)
(** * The built-in handlers (src/core/builtin.c)

    What a route's handler can be, and what each answers.  The marker of the routes that are
    forwarded (server.c) is a handler of its own, recognised by its address. *)
From S2P Require Import Prelude Err Slice Http Router.
Open Scope Z_scope.

(** The function pointers a route can hold. *)
Inductive ntc_handler := HHealth | HVersion | HEcho | HForward.
#[export] Instance ntc_handler_eq_dec : EqDecision ntc_handler.
Proof. solve_decision. Defined.

(** What a handler stores in the response: status, content type and body. *)
Definition json_response (b : bytes) : ntc_response := Response 200 (bs "application/json") b [].

(** builtin.c:6-13 [h_health] *)
Definition h_health : ntc_response := json_response (qs "{'status':'ok','service':'" ++ NTC_NAME ++ qs "'}").

(** builtin.c:15-23 [h_version] *)
Definition h_version : ntc_response :=
  json_response (qs "{'name':'" ++ NTC_NAME ++ qs "','version':'" ++ NTC_VERSION ++ qs "'}").

(** builtin.c:25-39 [h_echo]. Given whether the arena has room; [%.*s] stops at a NUL, and a
    result of the buffer's size or more is cut. [None] is -1. *)
Definition h_echo (alloc : bool) (p : list ntc_header) : option ntc_response :=
  let name := default [] (ntc_params_get p (bs "name")) in
  let cap := (length name + 32)%nat in
  if negb alloc then None else
  let t := qs "{'echo':'" ++ cstr name ++ qs "'}" in
  let m := if (cap <=? length t)%nat then (cap - 1)%nat else length t in
  Some (json_response (take m (snprintf cap t ++ [0]))).

(** server.c:765-768 [forward_marker] *)
Definition forward_marker : ntc_handler := HForward.

(** server.c:1181-1182 [gw_dispatch, handler call]. What calling a handler gives; [None] is a
    non-zero result. The marker leaves the response as it was. *)
Definition run_handler (h : ntc_handler) (alloc : bool) (p : list ntc_header) : option ntc_response :=
  match h with
  | HHealth => Some h_health
  | HVersion => Some h_version
  | HEcho => h_echo alloc p
  | HForward => Some (json_response [])
  end.

(** builtin.c:41-46 [ntc_builtin_register]. Given the outcomes of the allocations of the three
    registrations; the first failure ends it. *)
Fixpoint register_all {udata} (mem : list (bool * bool)) (u : udata)
    (rs : list (bytes * bytes * ntc_handler)) (r : ntc_router ntc_handler udata)
    : option (ntc_err * ntc_router ntc_handler udata) :=
  match rs with
  | [] => Some (NTC_OK, r)
  | (m, p, h) :: rs =>
      let '(a, b) := default (true, true) (head mem) in
      '(e, r) ← ntc_router_add a b r m p (Some h) u;
      if bool_decide (e = NTC_OK) then register_all (tail mem) u rs r else Some (e, r)
  end.
Definition ntc_builtin_register {udata} (mem : list (bool * bool)) (u : udata) (r : ntc_router ntc_handler udata)
    : option (ntc_err * ntc_router ntc_handler udata) :=
  register_all mem u [(bs "GET", bs "/health", HHealth); (bs "GET", bs "/version", HVersion);
                      (bs "GET", bs "/api/echo/:name", HEcho)] r.

(** The routes of a new gateway. *)
Definition builtin_router : ntc_router ntc_handler (option nat) :=
  Eval vm_compute in match ntc_builtin_register [] None (Router [] 0) with Some (_, r) => r | None => Router [] 0 end.

Example builtin_echo :
  (r ← ntc_router_match builtin_router (bs "GET") (bs "/api/echo/bob");
   h ← snd r; run_handler (hit_handler h) true (hit_params h)) =
  Some (json_response (qs "{'echo':'bob'}")).
Proof. vm_compute. reflexivity. Qed.
