(* ===== verification/Registry.v ===== *)
(** * The SQLite stores (src/core/registry.c, src/core/session_store.c)

    The registry of services, routes and configuration, and the store of login sessions.
    SQLite is an interface: whether a statement compiles, and what running it with its bound
    values gives - the rows of its steps, the code of the last one, the count of changed
    rows, and the database afterwards.  The statements are those of the source. *)
From stdpp Require Import gmap.
From S2P Require Import Prelude Err.
Open Scope Z_scope.

Inductive sq_value := SqText (t : bytes) | SqInt (z : Z) | SqNull.

(** What a statement's steps give; [sq_done] is whether the last one gave SQLITE_DONE. *)
Record sq_result := SqResult { sq_rows : list (list sq_value); sq_done : bool; sq_changes : Z }.

Class Sqlite (db : Type) := {
  sq_open : bytes -> option db;
  sq_exec : db -> bytes -> bool * db;
  sq_prepare : db -> bytes -> bool;
  sq_run : db -> bytes -> list sq_value -> sq_result * db }.

(** [sqlite3_column_text], a C string or NULL, and [sqlite3_column_int]. *)
Definition column_text (r : list sq_value) (i : nat) : option bytes :=
  match r !! i with Some (SqText t) => Some (cstr t) | Some (SqInt z) => Some (fmt_d z) | _ => None end.
Definition column_int (r : list sq_value) (i : nat) : Z :=
  match r !! i with Some (SqInt z) => z | _ => 0 end.

(** [sqlite3_bind_text] of a C string. *)
Definition text (s : bytes) : sq_value := SqText (cstr s).

Section stores.
Context {db : Type} `{SQ : Sqlite db}.

(** ** The registry *)

(** registry.c:9-24 [SCHEMA] *)
Definition SCHEMA : bytes :=
  bs "PRAGMA foreign_keys=ON;" ++
  bs "CREATE TABLE IF NOT EXISTS services(  id INTEGER PRIMARY KEY,  name TEXT UNIQUE NOT NULL,  bin TEXT NOT NULL,  enabled INTEGER NOT NULL DEFAULT 1);" ++
  bs "CREATE TABLE IF NOT EXISTS routes(  id INTEGER PRIMARY KEY,  method TEXT NOT NULL,  pattern TEXT NOT NULL,  service_id INTEGER NOT NULL REFERENCES services(id) ON DELETE CASCADE,  UNIQUE(method, pattern));" ++
  bs "CREATE TABLE IF NOT EXISTS config(  key TEXT PRIMARY KEY,  value TEXT NOT NULL);".

(** registry.c:26-33 [exec_sql] *)
Definition exec_sql (d : db) (sql : bytes) : ntc_err * db :=
  let '(ok, d) := sq_exec d sql in (if ok : bool then NTC_OK else NTC_ERR_INTERNAL, d).

(** registry.c:35-51 [ntc_registry_open] *)
Definition ntc_registry_open (calloc : bool) (path : bytes) : ntc_err * option db :=
  if negb calloc then (NTC_ERR_OOM, None) else
  match sq_open path with
  | None => (NTC_ERR_IO, None)
  | Some d =>
      let '(e, d) := exec_sql d SCHEMA in
      if bool_decide (e = NTC_OK) then (NTC_OK, Some d) else (NTC_ERR_INTERNAL, None)
  end.

(** A statement that is stepped once: whether it compiled, its result, the database. *)
Definition run_once (d : db) (sql : bytes) (vs : list sq_value) : option sq_result * db :=
  if sq_prepare d sql then let '(r, d) := sq_run d sql vs in (Some r, d) else (None, d).

(** Its outcome when it is expected to be done at the first step. *)
Definition done_first (r : sq_result) : bool := sq_done r && (length (sq_rows r) =? 0)%nat.

(** The error of a write whose count of changed rows matters, and of one whose does not. *)
Definition write_err (r : option sq_result) : ntc_err :=
  match r with Some r => if done_first r then NTC_OK else NTC_ERR_INTERNAL | None => NTC_ERR_INTERNAL end.
Definition change_err (r : option sq_result) : ntc_err :=
  match r with
  | Some r => if done_first r then (if 0 <? sq_changes r then NTC_OK else NTC_ERR_NOT_FOUND) else NTC_ERR_INTERNAL
  | None => NTC_ERR_INTERNAL
  end.

Definition ADD_SERVICE : bytes :=
  bs "INSERT INTO services(name,bin,enabled) VALUES(?1,?2,1) ON CONFLICT(name) DO UPDATE SET bin=excluded.bin,enabled=1".
Definition REMOVE_SERVICE : bytes := bs "DELETE FROM services WHERE name=?1".
Definition ADD_ROUTE : bytes :=
  bs "INSERT INTO routes(method,pattern,service_id) SELECT ?1,?2,id FROM services WHERE name=?3 ON CONFLICT(method,pattern) DO UPDATE SET service_id=excluded.service_id".
Definition LIST_SERVICES : bytes := bs "SELECT name,bin,enabled FROM services WHERE enabled=1 ORDER BY id".
Definition LIST_ROUTES : bytes :=
  bs "SELECT r.method,r.pattern,s.name FROM routes r JOIN services s ON r.service_id=s.id WHERE s.enabled=1 ORDER BY r.id".
Definition GET_CONFIG : bytes := bs "SELECT value FROM config WHERE key=?1".
Definition SET_CONFIG : bytes :=
  bs "INSERT INTO config(key,value) VALUES(?1,?2) ON CONFLICT(key) DO UPDATE SET value=excluded.value".

(** registry.c:59-70 [ntc_registry_add_service] *)
Definition ntc_registry_add_service (r : db) (name bin : bytes) : ntc_err * db :=
  let '(o, r) := run_once r ADD_SERVICE [text name; text bin] in (write_err o, r).

(** registry.c:72-83 [ntc_registry_remove_service] *)
Definition ntc_registry_remove_service (r : db) (name : bytes) : ntc_err * db :=
  let '(o, r) := run_once r REMOVE_SERVICE [text name] in (change_err o, r).

(** registry.c:85-102 [ntc_registry_add_route] *)
Definition ntc_registry_add_route (r : db) (method pattern service : bytes) : ntc_err * db :=
  let '(o, r) := run_once r ADD_ROUTE [text method; text pattern; text service] in (change_err o, r).

(** registry.c:104-110 [copy_text] *)
Definition copy_text (cap : nat) (src : option bytes) : bytes :=
  match src with
  | None => []
  | Some s => take (if (cap <=? length s)%nat then cap - 1 else length s) s
  end.

(** registry.h:15-16 [ntc_service_row, ntc_route_row] *)
Record ntc_service_row := ServiceRow { sr_name : bytes; sr_bin : bytes; sr_enabled : Z }.
Record ntc_route_row := RouteRow { rr_method : bytes; rr_pattern : bytes; rr_service : bytes }.

(** registry.c:122-126 [ntc_registry_list_services, row] *)
Definition service_row (r : list sq_value) : ntc_service_row :=
  ServiceRow (copy_text 64 (column_text r 0)) (copy_text 256 (column_text r 1)) (column_int r 2).

(** registry.c:112-130 [ntc_registry_list_services]. At most [max] rows; an error of a step
    ends the list like its end does. *)
Definition ntc_registry_list_services (r : db) (max : nat) : ntc_err * list ntc_service_row :=
  match fst (run_once r LIST_SERVICES []) with
  | None => (NTC_ERR_INTERNAL, [])
  | Some o => (NTC_OK, service_row <$> take max (sq_rows o))
  end.

(** registry.c:143-147 [ntc_registry_list_routes, row] *)
Definition route_row (r : list sq_value) : ntc_route_row :=
  RouteRow (copy_text 8 (column_text r 0)) (copy_text 128 (column_text r 1)) (copy_text 64 (column_text r 2)).

(** registry.c:132-151 [ntc_registry_list_routes] *)
Definition ntc_registry_list_routes (r : db) (max : nat) : ntc_err * list ntc_route_row :=
  match fst (run_once r LIST_ROUTES []) with
  | None => (NTC_ERR_INTERNAL, [])
  | Some o => (NTC_OK, route_row <$> take max (sq_rows o))
  end.

(** registry.c:153-168 [ntc_registry_get_config]. The value, if the key is found. *)
Definition ntc_registry_get_config (r : db) (key : bytes) (cap : nat) : ntc_err * option bytes :=
  match fst (run_once r GET_CONFIG [text key]) with
  | None => (NTC_ERR_INTERNAL, None)
  | Some o => (NTC_OK, match sq_rows o with row :: _ => Some (copy_text cap (column_text row 0)) | [] => None end)
  end.

(** registry.c:170-181 [ntc_registry_set_config] *)
Definition ntc_registry_set_config (r : db) (key value : bytes) : ntc_err * db :=
  let '(o, r) := run_once r SET_CONFIG [text key; text value] in (write_err o, r).

(** ** The session store *)

Definition SESSION_SCHEMA : bytes :=
  bs "PRAGMA journal_mode=WAL;PRAGMA synchronous=NORMAL;" ++
  bs "CREATE TABLE IF NOT EXISTS sessions(  id TEXT PRIMARY KEY,  sub TEXT NOT NULL,  scope TEXT NOT NULL,  expiry INTEGER NOT NULL);" ++
  bs "CREATE INDEX IF NOT EXISTS sessions_expiry ON sessions(expiry);".
Definition PUT_SESSION : bytes := bs "INSERT OR REPLACE INTO sessions(id, sub, scope, expiry) VALUES(?1,?2,?3,?4)".
Definition GET_SESSION : bytes := bs "SELECT sub, scope FROM sessions WHERE id=?1 AND expiry > ?2".
Definition DEL_SESSION : bytes := bs "DELETE FROM sessions WHERE id=?1".
Definition SWEEP_SESSIONS : bytes := bs "DELETE FROM sessions WHERE expiry <= ?1".

(** session_store.c:11-39 [ntc_session_store_open] *)
Definition ntc_session_store_open (calloc : bool) (path : bytes) : option db :=
  if (length path =? 0)%nat || negb calloc then None else
  d ← sq_open path;
  let '(ok, d) := sq_exec d SESSION_SCHEMA in if ok : bool then Some d else None.

(** session_store.c:47-62 [ntc_session_put] *)
Definition ntc_session_put (s : db) (id sub scope : bytes) (expiry : Z) : bool * db :=
  let '(o, s) := run_once s PUT_SESSION [text id; text sub; text scope; SqInt expiry] in
  (match o with Some r => done_first r | None => false end, s).

(** session_store.c:64-84 [ntc_session_get]. The subject and the scope, cut at the caller's
    arrays. *)
Definition ntc_session_get (s : db) (id : bytes) (now : Z) (subcap scopecap : nat) : option (bytes * bytes) :=
  o ← fst (run_once s GET_SESSION [text id; SqInt now]);
  match sq_rows o with
  | row :: _ => Some (snprintf subcap (default [] (column_text row 0)), snprintf scopecap (default [] (column_text row 1)))
  | [] => None
  end.

(** session_store.c:86-94 [ntc_session_del] *)
Definition ntc_session_del (s : db) (id : bytes) : db := snd (run_once s DEL_SESSION [text id]).

(** session_store.c:96-105 [ntc_session_sweep] *)
Definition ntc_session_sweep (s : db) (now : Z) : Z * db :=
  let '(o, s) := run_once s SWEEP_SESSIONS [SqInt now] in
  (match o with Some r => if done_first r then sq_changes r else -1 | None => -1 end, s).
End stores.
