(* ===== verification/App.v ===== *)
(** * The gateway with its application state (src/core/server.c)

    What the request handlers and the control plane work on: the gateway of [ServerState],
    and beside it the router, the middleware, the stores and the configuration. *)
From S2P Require Import Prelude Update Err Slice Json Http Router Middleware Session Inflight ServerState.
From S2P Require Import ServerConn Builtin Registry.
Open Scope Z_scope.

(** server.c:190-199 [gateway, OAuth2 login] *)
Record oauth_config := OauthConfig {
  o_authorize_url : bytes; o_token_url : bytes; o_client_id : bytes; o_client_secret : bytes;
  o_redirect_uri : bytes; o_scopes : bytes; o_success : bytes; o_ca : bool }.

(** One answer of the system to [spawn_service]: whether the pair of sockets and the child
    are made, the descriptor and the process, the bytes the child sends within the timeout,
    whether the greeting is written, the descriptor made non-blocking, and the address of
    the new [ctrl]. *)
Record spawn := Spawn {
  sp_made : bool; sp_fd : Z; sp_pid : Z; sp_hello : bytes; sp_welcome : bool; sp_nonblock : bool;
  sp_calloc : option ctrl_ptr }.

Section app.
Context {tls db : Type}.

(** server.c:163-208 [gateway]. The part beside [ServerState.gateway]. [a_schemas] is
    [schema_root] when [has_schemas]; the udata of a route is the index of its service. *)
Record app := App {
  a_router : ntc_router ntc_handler (option nat); a_mw : option ntc_mw; a_reg : db;
  a_token : bytes; a_app_name : bytes; a_static_dir : bytes;
  a_oauth_enabled : bool; a_oauth : oauth_config; a_sessions : option db; a_pending : option ntc_kvstore;
  a_schemas : option ntc_json; a_max_body : Z;
  a_stop : bool; a_last_sweep : Z; a_spawns : list spawn }.

#[export] Instance app_settable : Settable app := fun r =>
  App (a_router r) (a_mw r) (a_reg r) (a_token r) (a_app_name r) (a_static_dir r) (a_oauth_enabled r)
    (a_oauth r) (a_sessions r) (a_pending r) (a_schemas r) (a_max_body r) (a_stop r) (a_last_sweep r) (a_spawns r).

(** What the system answers while one request is handled: the calendar clock, the middleware's
    environment, the reads of /dev/urandom at each use, files - their size, whether they are
    regular, what reading them gives -, the response of an HTTPS POST to a URL with a body,
    and the memory of the JSON and JWT operations and of the router. *)
Record sys := Sys {
  y_time : Z; y_mw : mw_env; y_urandom : list (option (list bytes));
  y_open : bytes -> option (Z * bool * bytes); y_https_post : bytes -> bytes -> option bytes;
  y_arena : bool; y_json : list bool; y_jwt : Jwt.arena_mem; y_router : bool * bool }.

Local Abbreviation W := (St (gateway tls * app)).

(** Operations of the gateway, and of the rest. *)
Definition lift {A} (m : St (gateway tls) A) : W A :=
  fun '(g, a) => match m g with Some (x, g') => Some (x, (g', a)) | None => None end.
Definition get_app {A} (f : app -> A) : W A := gets (fun w => f (snd w)).
Definition set_app (f : app -> app) : W unit := modify (fun w => (fst w, f (snd w))).

Lemma wp_lift {A} (m : St (gateway tls) A) (Q : A -> gateway tls * app -> Prop) g a :
  wp m (fun x g' => Q x (g', a)) g -> wp (lift m) Q (g, a).
Proof. intros (x & g' & E & H). exists x, (g', a). unfold lift. by rewrite E. Qed.

Lemma wp_get_app {A} (f : app -> A) (Q : A -> gateway tls * app -> Prop) g a :
  Q (f a) (g, a) -> wp (get_app f) Q (g, a).
Proof. intros H. by apply wp_gets. Qed.

Lemma wp_set_app (f : app -> app) (Q : unit -> gateway tls * app -> Prop) g a :
  Q tt (g, f a) -> wp (set_app f) Q (g, a).
Proof. intros H. by apply wp_modify. Qed.

(** A slice of a text that [snprintf] wrote into a buffer of [cap] bytes: the text has to
    fit, or the slice reaches behind the buffer. *)
Definition slice_of (cap : nat) (t : bytes) : W ntc_slice := ensure (length t <=? cap)%nat ;;; ret (take (length t) (snprintf cap t ++ [0])).

(** [off += snprintf(buf + off, cap - off, ...)]: the contents and [off]; [None] is a
    write behind the buffer, which the source does when [off] has passed [cap]. *)
Definition appendf (cap : nat) (b : bytes * Z) (t : bytes) : option (bytes * Z) :=
  let '(s, off) := b in
  if Z.of_nat cap <? off then None
  else Some (take (Z.to_nat off) s ++ snprintf (cap - Z.to_nat off) t, off + Z.of_nat (length t)).
End app.
Arguments app : clear implicits.
