(* ===== verification/Mcp.v ===== *)
(** * The MCP server (src/core/mcp.c)

    JSON-RPC requests over any transport: each is parsed, answered from constants, or turned
    into a control command that an executor runs.  The executor is an argument: the control
    plane itself in the core, a client of its socket in the stdio server. *)
From S2P Require Import Prelude Update Slice Double Json Http.
Open Scope Z_scope.

(** mcp.c:14-22 [TOOLS_JSON] *)
Definition TOOLS_JSON : bytes :=
  qs "[" ++
  qs "{'name':'naitron_status','description':'Core status: service/route counts and event-loop backend.','inputSchema':{'type':'object','properties':{}}}," ++
  qs "{'name':'naitron_list_services','description':'List registered services.','inputSchema':{'type':'object','properties':{}}}," ++
  qs "{'name':'naitron_list_routes','description':'List registered routes.','inputSchema':{'type':'object','properties':{}}}," ++
  qs "{'name':'naitron_add_service','description':'Register and spawn a controller process (takes effect live).','inputSchema':{'type':'object','properties':{'name':{'type':'string'},'bin':{'type':'string'}},'required':['name','bin']}}," ++
  qs "{'name':'naitron_add_route','description':'Route a method+path to a service (takes effect live).','inputSchema':{'type':'object','properties':{'method':{'type':'string'},'pattern':{'type':'string'},'service':{'type':'string'}},'required':['method','pattern','service']}}," ++
  qs "{'name':'naitron_remove_service','description':'Remove a service.','inputSchema':{'type':'object','properties':{'name':{'type':'string'}},'required':['name']}}" ++
  qs "]".

(** mcp.c:24-31 [write_id] *)
Definition write_id (id : option ntc_json) : bytes :=
  match id with
  | Some (JNum d) => fmt_d (d_long d)
  | Some (JStr s) =>
      match ntc_json_escape 256 s with Some esc => qs "'" ++ esc ++ qs "'" | None => bs "null" end
  | _ => bs "null"
  end.

Definition envelope (id : option ntc_json) (rest : bytes) : bytes :=
  qs "{'jsonrpc':'2.0','id':" ++ write_id id ++ rest.

(** mcp.c:33-37 [reply_result] *)
Definition reply_result (id : option ntc_json) (result_json : bytes) : bytes :=
  envelope id (qs ",'result':" ++ result_json ++ bs "}").

(** mcp.c:39-43 [reply_error] *)
Definition reply_error (id : option ntc_json) (code : Z) (msg : bytes) : bytes :=
  envelope id (qs ",'error':{'code':" ++ fmt_d code ++ qs ",'message':'" ++ msg ++ qs "'}}").

(** mcp.c:45-52 [reply_content]. A text whose escaped form does not fit is left out. *)
Definition reply_content (id : option ntc_json) (text : bytes) (is_error : bool) : bytes :=
  let esc := default [] (ntc_json_escape (Nat.mul 16 1024) (ntc_slice_cstr text)) in
  envelope id (qs ",'result':{'content':[{'type':'text','text':'" ++ esc ++ qs "'}],'isError':" ++
               (if is_error then bs "true" else bs "false") ++ bs "}}").

(** mcp.c:54-62 [arg_str]. A string argument without blanks or line ends that fits. *)
Definition arg_str (args : option ntc_json) (key : bytes) (cap : nat) : option bytes :=
  let s := ntc_json_str (ntc_json_get args key) in
  if (length s =? 0)%nat || (cap <=? length s)%nat then None else
  if existsb (fun c => (c =? 32) || (c =? 10) || (c =? 13)) s then None else Some (cstr s).

(** What a tool call asks for: a command, or a refusal. *)
Inductive tool_call := Command (c : bytes) | Refused (text : bytes).

(** mcp.c:70-90 [handle_tool_call, command] *)
Definition tool_command (name : bytes) (args : option ntc_json) : tool_call :=
  let named t := ntc_slice_eq_cstr name t in
  if named (bs "naitron_status") then Command (bs "status")
  else if named (bs "naitron_list_services") then Command (bs "service-list")
  else if named (bs "naitron_list_routes") then Command (bs "route-list")
  else if named (bs "naitron_add_service") then
    match arg_str args (bs "name") 256, arg_str args (bs "bin") 256 with
    | Some a, Some b => Command (snprintf 1024 (bs "service-add " ++ a ++ bs " " ++ b))
    | _, _ => Refused (bs "invalid or missing 'name'/'bin'")
    end
  else if named (bs "naitron_add_route") then
    match arg_str args (bs "method") 256, arg_str args (bs "pattern") 256, arg_str args (bs "service") 256 with
    | Some a, Some b, Some c => Command (snprintf 1024 (bs "route-add " ++ a ++ bs " " ++ b ++ bs " " ++ c))
    | _, _, _ => Refused (bs "invalid or missing 'method'/'pattern'/'service'")
    end
  else if named (bs "naitron_remove_service") then
    match arg_str args (bs "name") 256 with
    | Some a => Command (snprintf 1024 (bs "service-rm " ++ a))
    | None => Refused (bs "invalid or missing 'name'")
    end
  else Refused (bs "unknown tool").

(** mcp.c:95-96 [handle_tool_call, trailing line ends] *)
Fixpoint chomp_rev (s : bytes) : bytes :=
  match s with c :: s' => if (c =? 10) || (c =? 13) then chomp_rev s' else s | [] => [] end.
Definition chomp (s : bytes) : bytes := rev (chomp_rev (rev s)).

Section mcp.
Context {S : Type}.
(** What runs a command into an array of the given size. *)
Variable exec : bytes -> nat -> St S bytes.

(** mcp.c:64-98 [handle_tool_call] *)
Definition handle_tool_call (id params : option ntc_json) : St S bytes :=
  match tool_command (ntc_json_str (ntc_json_get params (bs "name"))) (ntc_json_get params (bs "arguments")) with
  | Refused t => ret (reply_content id t true)
  | Command c =>
      let* raw := exec c (Nat.mul 8 1024) in
      let raw := chomp (cstr raw) in
      ret (reply_content id raw (negb (memeq (take 2 raw) (bs "OK"))))
  end.

(** mcp.c:113-132 [ntc_mcp_handle, dispatch]. The reply to a message that is an object. *)
Definition mcp_dispatch (root : option ntc_json) : St S bytes :=
  let method := ntc_json_str (ntc_json_get root (bs "method")) in
  let id := ntc_json_get root (bs "id") in
  let named t := ntc_slice_eq_cstr method t in
  if named (bs "initialize") then
    ret (reply_result id
      (qs "{'protocolVersion':'2024-11-05','capabilities':{'tools':{'listChanged':false}}," ++
       qs "'serverInfo':{'name':'" ++ NTC_NAME ++ qs "','version':'" ++ NTC_VERSION ++ qs "'}}"))
  else if named (bs "tools/list") then
    ret (reply_result id (snprintf (Nat.mul 8 1024) (qs "{'tools':" ++ TOOLS_JSON ++ bs "}")))
  else if named (bs "tools/call") then handle_tool_call id (ntc_json_get root (bs "params"))
  else if named (bs "ping") then ret (reply_result id (bs "{}"))
  else if named (bs "notifications/initialized") then ret []
  else match id with Some _ => ret (reply_error id (-32601) (bs "method not found")) | None => ret [] end.

(** mcp.c:100-138 [ntc_mcp_handle]. Given whether its stream and its arena are made and the
    reader's memory; what it leaves in [out]. *)
Definition ntc_mcp_handle (alloc : bool) (m : list bool) (msg : bytes) (out_cap : nat) : St S bytes :=
  if negb alloc then ret [] else
  let* root := load (fun _ => ntc_json_parse m msg) in
  match root with
  | Some (JObj _) => let* t := mcp_dispatch root in ret (to_cstr out_cap t)
  | _ => ret []
  end.
End mcp.
