(* ===== verification/Services.v ===== *)
(** * Spawning and supervising controllers (src/core/server.c)

    A service's slots are empty or hold a live controller; the supervisor fills the empty
    ones when their restart time has come, with a backoff that doubles up to its bound. *)
From S2P Require Import Prelude Update Err Slice Http Wire Inflight ServerState ServerConn ServerRelay.
From S2P Require Import Router Builtin Registry App.
Open Scope Z_scope.

Section services.
Context {tls : Type} {TE : TlsEngine tls}.
Context {db : Type} `{SQ : Sqlite db}.
Variable tdefl_compress : bytes -> option bytes.
Variable mz_crc32 : bytes -> Z.
Local Abbreviation M := (St (gateway tls)).
Local Abbreviation W := (St (gateway tls * app db)).

(** server.c:1592-1596 [svc_any_live]. [None] is a read past the slots. *)
Definition svc_any_live (svc : service) : option bool :=
  foldr (fun i r => c ← s_conns svc !! i; match c with Some _ => Some true | None => r end)
    (Some false) (seq 0 (Z.to_nat (svc_n svc))).

(** server.c:1598-1602 [svc_live_count] *)
Definition svc_live_count (svc : service) : option Z :=
  foldr (fun i r => c ← s_conns svc !! i; n ← r; Some (match c with Some _ => n + 1 | None => n end))
    (Some 0) (seq 0 (Z.to_nat (svc_n svc))).

(** server.c:237-247 [read_full]. From the bytes the other end sends before the timeout; [None]
    is an end or an error. *)
Definition read_full (input : bytes) (n : nat) : option (bytes * bytes) :=
  if (length input <? n)%nat then None else Some (take n input, drop n input).

(** server.c:1640-1659 [spawn_service, handshake]. Whether the child said HELLO and was
    greeted. A greeting's payload is read up to 256 bytes, and not looked at. *)
Definition handshake (sp : spawn) : option bool :=
  match read_full (sp_hello sp) NTC_WIRE_HEADER_LEN with
  | None => Some false
  | Some (hdr, _) =>
      h ← ntc_wire_parse_header hdr;
      Some (match h with
            | Some h => (wh_type h =? NTC_MSG_HELLO) && sp_welcome sp && sp_nonblock sp
            | None => false
            end)
  end.

(** server.c:1661-1674 [spawn_service, ctrl]. The controller of slot [slot] of service [i]. *)
Definition install_ctrl (i slot : nat) (k : ctrl_ptr) (fd pid : Z) : M Z :=
  let* ok := ntc_poller_add fd NTC_POLL_READ (PCtrl k) in
  if negb ok then ret (-1) else
  let* now := gets g_now in
  modify (fun g => g <| g_ctrls := <[k := Ctrl fd pid (Some i) [] 0 [] 0 0]> (g_ctrls g) |>
                     <| g_ctrl_sent := <[k := []]> (g_ctrl_sent g) |>) ;;;
  let* svc := get_service i in
  let* _ := load (fun _ => s_conns svc !! slot) in
  let* _ := load (fun _ => s_spawned_at svc !! slot) in
  put_service i (svc <| s_conns := <[slot := Some k]> (s_conns svc) |>
                     <| s_spawned_at := <[slot := now]> (s_spawned_at svc) |>) ;;;
  ret 0.

(** server.c:1609-1674 [spawn_service]. In the parent; a child that is not installed is
    killed. The next answer of the system is used up. *)
Definition spawn_service (i slot : nat) : W Z :=
  let* sps := get_app a_spawns in
  match sps with
  | [] => ret (-1)
  | sp :: sps =>
      set_app (fun a => a <| a_spawns := sps |>) ;;;
      if negb (sp_made sp) then ret (-1) else
      let* ok := load (fun _ => handshake sp) in
      if negb ok then ret (-1) else
      match sp_calloc sp with
      | None => ret (-1)
      | Some k => lift (install_ctrl i slot k (sp_fd sp) (sp_pid sp))
      end
  end.

(** server.c:1802-1803 [supervise, backoff] *)
Definition retry_backoff (b : Z) : Z :=
  let b := if b =? 0 then NTC_BACKOFF_BASE else b * 2 in
  if NTC_BACKOFF_MAX <? b then NTC_BACKOFF_MAX else b.

(** server.c:1795-1810 [supervise, slot]. Slot [s] of service [i], at time [t]. *)
Definition supervise_slot (t : Z) (i s : nat) : W unit :=
  let* svc := lift (get_service i) in
  let* c := load (fun _ => s_conns svc !! s) in
  let* at_ := load (fun _ => s_restart_at svc !! s) in
  let* b := load (fun _ => s_backoff_ms svc !! s) in
  let* since := load (fun _ => s_spawned_at svc !! s) in
  match c with
  | None =>
      if t <? at_ then ret tt else
      let* r := spawn_service i s in
      if r =? 0 then ret tt else
      let* svc := lift (get_service i) in
      lift (put_service i (svc <| s_backoff_ms := <[s := retry_backoff b]> (s_backoff_ms svc) |>
                               <| s_restart_at := <[s := t + retry_backoff b]> (s_restart_at svc) |>))
  | Some _ =>
      if (NTC_BACKOFF_BASE <? b) && (NTC_STABLE_MS <? t - since)
      then lift (put_service i (svc <| s_backoff_ms := <[s := NTC_BACKOFF_BASE]> (s_backoff_ms svc) |>))
      else ret tt
  end.

(** The loops over a range, as the source nests them. *)
Fixpoint for_each {S} (l : list nat) (f : nat -> St S unit) : St S unit :=
  match l with [] => ret tt | x :: l => f x ;;; for_each l f end.

(** server.c:1788-1813 [supervise] *)
Definition supervise : W unit :=
  let* t := lift (gets g_now) in
  let* n := lift (gets (fun g => length (g_services g))) in
  for_each (seq 0 n) (fun i =>
    let* svc := lift (get_service i) in
    if s_disabled svc then ret tt else
    for_each (seq 0 (Z.to_nat (svc_n svc))) (supervise_slot t i)).

(** server.c:1823-1826 [poll_timeout, slot] *)
Definition slot_timeout (t : Z) (svc : service) (s : nat) (to : Z) : option Z :=
  c ← s_conns svc !! s;
  match c with
  | Some _ => Some to
  | None =>
      at_ ← s_restart_at svc !! s;
      let d := if at_ - t <? 0 then 0 else at_ - t in
      Some (if d <? to then d else to)
  end.

(** server.c:1822-1827 [poll_timeout, slots] *)
Definition service_timeout (t : Z) (svc : service) (to : Z) : option Z :=
  if s_disabled svc then Some to else
  foldl (fun o s => to ← o; slot_timeout t svc s to) (Some to) (seq 0 (Z.to_nat (svc_n svc))).

(** server.c:1678-1678 [NTC_DEV_POLL_MS] *)
Definition NTC_DEV_POLL_MS : Z := 400.

(** server.c:1815-1831 [poll_timeout] *)
Definition poll_timeout (t : Z) (services : list service) (dev_watch : bool) : option Z :=
  to ← foldl (fun o svc => to ← o; service_timeout t svc to) (Some 1000) services;
  Some (if dev_watch && (NTC_DEV_POLL_MS <? to) then NTC_DEV_POLL_MS else to).

(** server.c:1834-1838 [find_service]. The index of the service. *)
Fixpoint find_service (services : list service) (name : bytes) : option nat :=
  match services with
  | [] => None
  | svc :: services => if memeq (s_name svc) (cstr name) then Some 0%nat else S <$> find_service services name
  end.

(** A zeroed service, named, with one replica. *)
Definition new_service (name bin : bytes) : service :=
  Service (cstr name) (cstr bin) (replicate NTC_MAX_REPLICAS None) 1 0 false 0
    (replicate NTC_MAX_REPLICAS 0) (replicate NTC_MAX_REPLICAS 0) (replicate NTC_MAX_REPLICAS 0) 0.

(** server.c:1950-1969 [service_add_live]. [dup] is whether the names are copied. *)
Definition service_add_live (dup : bool) (name bin : bytes) : W (option nat) :=
  let* svcs := lift (gets g_services) in
  match find_service svcs name with
  | Some i =>
      let* svc := lift (get_service i) in
      lift (put_service i (svc <| s_bin := cstr bin |> <| s_disabled := false |>)) ;;; ret (Some i)
  | None =>
      if (NTC_MAX_SERVICES <=? length svcs)%nat then ret None else
      if negb dup then ret None else
      lift (modify (fun g => g <| g_services := g_services g ++ [new_service name bin] |>)) ;;;
      let* _ := spawn_service (length svcs) 0 in
      ret (Some (length svcs))
  end.

(** ** Tearing down *)

(** server.c:1722-1739 [dev_teardown_slot]. The in-flight loop is that of [controller_died]
    with another text. *)
Definition dev_teardown_slot (i slot : nat) : M unit :=
  let* svc := get_service i in
  let* c := load (fun _ => s_conns svc !! slot) in
  match c with
  | None => ret tt
  | Some k =>
      let* ct := get_ctrl k in
      ntc_poller_del (k_fd ct) ;;;
      fail_inflight tdefl_compress mz_crc32 (seq 0 NTC_MAX_INFLIGHT) k (qs "{'error':'reloading'}") ;;;
      free_ctrl k ;;;
      let* svc := get_service i in
      put_service i (svc <| s_conns := <[slot := None]> (s_conns svc) |>)
  end.

(** server.c:1743-1747 [dev_reload_service, slot] *)
Definition dev_reload_slot (i s : nat) : M unit :=
  dev_teardown_slot i s ;;;
  let* svc := get_service i in
  let* _ := load (fun _ => s_backoff_ms svc !! s) in
  let* _ := load (fun _ => s_restart_at svc !! s) in
  let* now := gets g_now in
  put_service i (svc <| s_backoff_ms := <[s := 0]> (s_backoff_ms svc) |>
                     <| s_restart_at := <[s := now]> (s_restart_at svc) |>).

(** server.c:1741-1748 [dev_reload_service] *)
Definition dev_reload_service (i : nat) : M unit :=
  let* svc := get_service i in
  for_each (seq 0 (Z.to_nat (svc_n svc))) (dev_reload_slot i).

(** server.c:1775-1785 [dev_tick, binary watch]. [mtime] is the binary's modification time, -1
    when it is not there. *)
Definition dev_watch_binary (mtime : bytes -> Z) (i : nat) : M unit :=
  let* svc := get_service i in
  if s_disabled svc then ret tt else
  let m := mtime (s_bin svc) in
  if m <? 0 then ret tt else
  if s_bin_mtime svc =? 0 then put_service i (svc <| s_bin_mtime := m |>) else
  if negb (m =? s_bin_mtime svc)
  then put_service i (svc <| s_bin_mtime := m |>) ;;; dev_reload_service i
  else ret tt.
End services.
