(* ===== verification/Control.v ===== *)
(** * The control plane (src/core/server.c)

    A control client sends one line, its token and a command; the command is executed and
    answered with one line.  The same commands are what the MCP tools run. *)
From S2P Require Import Prelude Posix Update Err Slice Http Wire Inflight ServerState ServerConn ServerRelay.
From S2P Require Import Router Builtin Registry App Services.
Open Scope Z_scope.

Definition lf : bytes := [10].

(** [strtok_r] with the delimiter [" "]: the next token, and where it stopped. *)
Fixpoint skip_blanks (s : bytes) : bytes :=
  match s with c :: s' => if c =? 32 then skip_blanks s' else s | [] => [] end.
Fixpoint until_blank (s : bytes) : bytes * bytes :=
  match s with
  | [] => ([], [])
  | c :: s' => if c =? 32 then ([], s') else let '(t, r) := until_blank s' in (c :: t, r)
  end.
Definition strtok (s : bytes) : option bytes * bytes :=
  match skip_blanks s with [] => (None, []) | s => let '(t, r) := until_blank s in (Some t, r) end.

(** poller_epoll.c:93-93 [ntc_poller_backend] *)
Definition ntc_poller_backend : bytes := bs "epoll".

(** An element of a list in a text, behind a comma but for the first. *)
Definition comma (i : nat) : bytes := if (i =? 0)%nat then [] else bs ",".

(** server.c:2064-2065 [exec_control_command, service-list row] *)
Definition service_item (i : nat) (r : ntc_service_row) : bytes :=
  comma i ++ qs "{'name':'" ++ sr_name r ++ qs "','bin':'" ++ sr_bin r ++ qs "'}".
(** server.c:2072-2074 [exec_control_command, route-list row]; the row of /api/routes too. *)
Definition route_item (i : nat) (r : ntc_route_row) : bytes :=
  comma i ++ qs "{'method':'" ++ rr_method r ++ qs "','pattern':'" ++ rr_pattern r ++
  qs "','service':'" ++ rr_service r ++ qs "'}".

(** server.c:2063-2063 [exec_control_command, list loop]. Rows are appended while [off] is
    below [cap] by more than [slack]. *)
Fixpoint append_rows {A} (item : nat -> A -> bytes) (cap : nat) (slack : Z) (rows : list A) (i : nat) (b : bytes * Z)
    : option (bytes * Z) :=
  match rows with
  | [] => Some b
  | r :: rows =>
      if snd b <? Z.of_nat cap - slack then
        b ← appendf cap b (item i r); append_rows item cap slack rows (S i) b
      else Some b
  end.

(** A list of rows between two texts; [None] is a write behind the buffer. *)
Definition list_text {A} (item : nat -> A -> bytes) (cap : nat) (slack : Z) (opening closing : bytes) (rows : list A)
    : option (bytes * Z) :=
  b ← appendf cap ([], 0) opening;
  b ← append_rows item cap slack rows 0 b;
  appendf cap b closing.

Section control.
Context {tls : Type} {TE : TlsEngine tls}.
Context {db : Type} `{SQ : Sqlite db}.
Local Abbreviation M := (St (gateway tls)).
Local Abbreviation W := (St (gateway tls * app db)).

(** server.c:2030-2034 [exec_control_command, slot teardown]; lines 2048-2052 too. The
    controller of a slot is freed; the connections that wait for it are not told. *)
Definition drop_slot (i s : nat) : M unit :=
  let* svc := get_service i in
  let* c := load (fun _ => s_conns svc !! s) in
  match c with
  | None => ret tt
  | Some k =>
      put_service i (svc <| s_conns := <[s := None]> (s_conns svc) |>) ;;;
      let* ct := get_ctrl k in
      ntc_poller_del (k_fd ct) ;;;
      free_ctrl k
  end.

(** server.c:1995-2004 [exec_control_command, status] *)
Definition exec_status : W bytes :=
  let* g := lift (gets (fun g => g)) in
  let* a := get_app (fun a => a) in
  let m := g_m g in
  let up := Z.quot (g_now g - m_start_ms m) 1000 in
  ret (qs "OK {'app':'" ++ a_app_name a ++ qs "','uptime_s':" ++ fmt_d up ++
       qs ",'services':" ++ fmt_u (Z.of_nat (length (g_services g))) ++
       qs ",'routes':" ++ fmt_u (Z.of_nat (ntc_router_count (Some (a_router a)))) ++
       qs ",'backend':'" ++ ntc_poller_backend ++ qs "','requests':" ++ fmt_u (m_requests_total m) ++
       qs ",'status_2xx':" ++ fmt_u (m_status_2xx m) ++ qs ",'status_4xx':" ++ fmt_u (m_status_4xx m) ++
       qs ",'status_5xx':" ++ fmt_u (m_status_5xx m) ++ qs ",'forwarded':" ++ fmt_u (m_forwarded m) ++
       qs ",'builtin':" ++ fmt_u (m_builtin m) ++ qs ",'inflight_cap':" ++
       fmt_u (Z.of_nat NTC_MAX_INFLIGHT) ++ qs "}" ++ lf).

(** A write to the registry. *)
Definition with_reg (f : db -> ntc_err * db) : W ntc_err :=
  let* r := get_app a_reg in
  let '(e, r) := f r in
  set_app (fun a => a <| a_reg := r |>) ;;; ret e.

(** server.c:2005-2011 [exec_control_command, service-add] *)
Definition cmd_service_add (dup : bool) (rest : bytes) : W bytes :=
  let '(name, rest) := strtok rest in
  let '(bin, rest) := strtok rest in
  match name, bin with
  | Some name, Some bin =>
      let* e := with_reg (fun r => ntc_registry_add_service r name bin) in
      if bool_decide (e <> NTC_OK) then ret (bs "ERR registry write failed" ++ lf) else
      let* i := service_add_live dup name bin in
      ret (match i with Some _ => bs "OK service added" ++ lf | None => bs "ERR too many services" ++ lf end)
  | _, _ => ret (bs "ERR usage: service-add <name> <bin>" ++ lf)
  end.

(** server.c:2012-2021 [exec_control_command, route-add]. [mem] is the router's memory. *)
Definition cmd_route_add (mem : bool * bool) (rest : bytes) : W bytes :=
  let '(method, rest) := strtok rest in
  let '(pattern, rest) := strtok rest in
  let '(svcname, rest) := strtok rest in
  match method, pattern, svcname with
  | Some method, Some pattern, Some svcname =>
      let* e := with_reg (fun r => ntc_registry_add_route r method pattern svcname) in
      if bool_decide (e <> NTC_OK) then ret (bs "ERR unknown service" ++ lf) else
      let* svcs := lift (gets g_services) in
      match find_service svcs svcname with
      | None => ret (bs "ERR service not loaded" ++ lf)
      | Some i =>
          let* r := get_app a_router in
          let* o := load (fun _ => ntc_router_add (fst mem) (snd mem) r method pattern (Some forward_marker) (Some i)) in
          let '(e, r) := o in
          set_app (fun a => a <| a_router := r |>) ;;;
          ret (if bool_decide (e <> NTC_OK) then bs "ERR route register failed" ++ lf else bs "OK route added" ++ lf)
      end
  | _, _, _ => ret (bs "ERR usage: route-add <METHOD> <pattern> <service>" ++ lf)
  end.

(** server.c:2022-2037 [exec_control_command, service-rm] *)
Definition cmd_service_rm (rest : bytes) : W bytes :=
  match fst (strtok rest) with
  | None => ret (bs "ERR usage: service-rm <name>" ++ lf)
  | Some name =>
      let* e := with_reg (fun r => ntc_registry_remove_service r name) in
      let* svcs := lift (gets g_services) in
      (match find_service svcs name with
       | None => ret tt
       | Some i =>
           let* svc := lift (get_service i) in
           lift (put_service i (svc <| s_disabled := true |>)) ;;;
           lift (for_each (seq 0 NTC_MAX_REPLICAS) (drop_slot i))
       end) ;;;
      ret (if bool_decide (e = NTC_OK) then bs "OK service removed" ++ lf else bs "ERR not found" ++ lf)
  end.

(** server.c:2038-2058 [exec_control_command, service-scale] *)
Definition cmd_service_scale (rest : bytes) : W bytes :=
  let '(name, rest) := strtok rest in
  let '(ns, rest) := strtok rest in
  match name, ns with
  | Some name, Some ns =>
      let n := atoi ns in
      if (n <? 1) || (Z.of_nat NTC_MAX_REPLICAS <? n)
      then ret (bs "ERR replicas must be 1.." ++ fmt_d (Z.of_nat NTC_MAX_REPLICAS) ++ lf) else
      let* svcs := lift (gets g_services) in
      match find_service svcs name with
      | None => ret (bs "ERR service not loaded" ++ lf)
      | Some i =>
          let* svc := lift (get_service i) in
          lift (for_each (seq (Z.to_nat n) (Z.to_nat (s_replicas svc) - Z.to_nat n)) (drop_slot i)) ;;;
          let* svc := lift (get_service i) in
          lift (put_service i (svc <| s_replicas := n |>)) ;;;
          let* _ := with_reg (fun r => ntc_registry_set_config r (snprintf 160 (bs "replicas:" ++ name)) ns) in
          ret (bs "OK scaled " ++ name ++ bs " to " ++ fmt_d n ++ bs " replicas" ++ lf)
      end
  | _, _ => ret (bs "ERR usage: service-scale <name> <replicas>" ++ lf)
  end.

(** server.c:2076-2083 [exec_control_command, config-set] *)
Definition cmd_config_set (rest : bytes) : W bytes :=
  let '(key, val) := strtok rest in
  let val := skip_blanks val in
  match key with
  | Some key =>
      if (length val =? 0)%nat then ret (bs "ERR usage: config-set <key> <value>" ++ lf) else
      let* e := with_reg (fun r => ntc_registry_set_config r key val) in
      if bool_decide (e <> NTC_OK) then ret (bs "ERR write failed" ++ lf) else
      (if memeq key (bs "app.name") then set_app (fun a => a <| a_app_name := snprintf 128 val |>) else ret tt) ;;;
      ret (bs "OK config set" ++ lf)
  | None => ret (bs "ERR usage: config-set <key> <value>" ++ lf)
  end.

(** server.c:2084-2089 [exec_control_command, config-get] *)
Definition cmd_config_get (rest : bytes) : W bytes :=
  match fst (strtok rest) with
  | None => ret (bs "ERR usage: config-get <key>" ++ lf)
  | Some key =>
      let* r := get_app a_reg in
      ret (match snd (ntc_registry_get_config r key 512) with
           | Some val => bs "OK " ++ val ++ lf
           | None => bs "ERR not found" ++ lf
           end)
  end.

(** server.c:1988-2096 [exec_control_command]. What it leaves in [out]. *)
Definition exec_control_command (e : sys) (cmdline : bytes) (cap : nat) : W bytes :=
  let out (m : W bytes) : W bytes := let* t := m in ret (snprintf cap t) in
  let '(cmd, rest) := strtok (cstr cmdline) in
  match cmd with
  | None => out (ret (bs "ERR empty command" ++ lf))
  | Some cmd =>
      if memeq cmd (bs "ping") then out (ret (bs "OK pong" ++ lf))
      else if memeq cmd (bs "status") then out exec_status
      else if memeq cmd (bs "service-add") then out (cmd_service_add (y_arena e) rest)
      else if memeq cmd (bs "route-add") then out (cmd_route_add (y_router e) rest)
      else if memeq cmd (bs "service-rm") then out (cmd_service_rm rest)
      else if memeq cmd (bs "service-scale") then out (cmd_service_scale rest)
      else if memeq cmd (bs "service-list") then
        let* r := get_app a_reg in
        let* b := load (fun _ => list_text service_item cap 128 (bs "OK [") (bs "]" ++ lf)
                                   (snd (ntc_registry_list_services r 64))) in
        ret (fst b)
      else if memeq cmd (bs "route-list") then
        let* r := get_app a_reg in
        let* b := load (fun _ => list_text route_item cap 160 (bs "OK [") (bs "]" ++ lf)
                                   (snd (ntc_registry_list_routes r 128))) in
        ret (fst b)
      else if memeq cmd (bs "config-set") then out (cmd_config_set rest)
      else if memeq cmd (bs "config-get") then out (cmd_config_get rest)
      else if memeq cmd (bs "stop") then
        set_app (fun a => a <| a_stop := true |>) ;;; out (ret (bs "OK stopping" ++ lf))
      else out (ret (bs "ERR unknown command" ++ lf))
  end.

(** The line of a control client: up to a newline, or cut at the end of the buffer. *)
Definition control_line (buf : bytes) : bytes :=
  match memchr 10 buf with
  | Some i => cstr (take i buf)
  | None => cstr (take 4095 buf)
  end.

(** server.c:2098-2112 [process_control]. The reply that is written before the client is
    closed. *)
Definition process_control (e : sys) (buf : bytes) : W bytes :=
  let line := control_line buf in
  let '(token, rest) := match memchr 32 line with
                        | Some i => (take i line, drop (S i) line)
                        | None => (line, [])
                        end in
  let* t := get_app a_token in
  if negb (memeq token t) then ret (bs "ERR unauthorized" ++ lf)
  else exec_control_command e rest (Nat.mul 8 1024).
End control.
