(* ===== verification/Oauth.v ===== *)
(** * OAuth login (src/core/server.c)

    URL coding, the query scanner, and the login handlers: /auth/login remembers a random
    state with its PKCE verifier, /auth/callback exchanges the code and opens a session for
    the subject of a signed token, /auth/logout closes it. *)
From S2P Require Import Prelude Update Err Slice Json Crypto Jwt Http HttpRequest Wire Session Inflight ServerState.
From S2P Require Import ServerConn ServerRelay Router Builtin Registry App.
Open Scope Z_scope.

(** server.c:899-904 [hexval]. [None] is -1. *)
Definition hexval (ch : Z) : option Z :=
  if (48 <=? ch) && (ch <=? 57) then Some (ch - 48)
  else if (97 <=? ch) && (ch <=? 102) then Some (ch - 97 + 10)
  else if (65 <=? ch) && (ch <=? 70) then Some (ch - 65 + 10) else None.

(** [isalnum] of the C locale, and the upper-case digits of the source. *)
Definition isalnum (c : Z) : bool :=
  ((48 <=? c) && (c <=? 57)) || ((65 <=? c) && (c <=? 90)) || ((97 <=? c) && (c <=? 122)).
Definition upper_hex (d : Z) : Z := if d <? 10 then 48 + d else 55 + d.

(** server.c:911-912 [url_encode, character] *)
Definition url_encode_char (ch : Z) : bytes :=
  if isalnum ch || (ch =? 45) || (ch =? 95) || (ch =? 46) || (ch =? 126) then [ch]
  else [37; upper_hex (ch ≫ 4); upper_hex (Z.land ch 15)].

(** server.c:909-913 [url_encode, loop] *)
Fixpoint url_encode_loop (s : bytes) (out : bytes) (cap : nat) : bytes :=
  match s with
  | [] => out
  | ch :: s => if (length out + 4 <? cap)%nat then url_encode_loop s (out ++ url_encode_char ch) cap else out
  end.

(** server.c:906-916 [url_encode]. The text; one that does not fit is cut. *)
Definition url_encode (s : bytes) (cap : nat) : bytes := url_encode_loop (cstr s) [] cap.

(** server.c:920-927 [url_decode, loop]. A step takes at least one character. *)
Fixpoint url_decode_loop (fuel : nat) (p : bytes) : option bytes :=
  match fuel with
  | O => None
  | S f =>
      match p with
      | [] => Some []
      | c :: p1 =>
          let plain := r ← url_decode_loop f p1; Some ((if c =? 43 then 32 else c) :: r) in
          if c =? 37 then
            match p1 with
            | h :: l :: p2 =>
                match hexval h, hexval l with
                | Some hi, Some lo => r ← url_decode_loop f p2; Some (hi * 16 + lo :: r)
                | _, _ => plain
                end
            | _ => plain
            end
          else plain
      end
  end.

(** server.c:918-929 [url_decode]. The string it leaves: a decoded NUL ends it. *)
Definition url_decode (s : bytes) : option bytes :=
  cstr <$> url_decode_loop (S (length (cstr s))) (cstr s).

(** server.c:934-946 [query_get, loop]. [Some None] is false; [None] is a write past [out]. *)
Fixpoint query_get_loop (fuel : nat) (p key : bytes) (cap : nat) : option (option bytes) :=
  match fuel with
  | O => None
  | S f =>
      if (length p =? 0)%nat then Some None else
      let amp := memchr 38 p in
      let seg := match amp with Some i => take i p | None => p end in
      let klen := length key in
      if (klen <? length seg)%nat && memeq (take klen seg) key && bool_decide (seg !! klen = Some 61) then
        let v := drop (S klen) seg in
        if (cap =? 0)%nat then None else
        Some (Some (take (if (cap <=? length v)%nat then cap - 1 else length v) v))
      else match amp with
           | None => Some None
           | Some i => query_get_loop f (drop (S i) p) key cap
           end
  end.

(** server.c:931-949 [query_get] *)
Definition query_get (q key : bytes) (cap : nat) : option (option bytes) :=
  query_get_loop (S (length q)) q key cap.

(** server.c:1040-1047 [handle_oauth, cookie]; lines 1378-1384 of [process_request] too. The
    session id of the request's cookie. *)
Definition session_cookie (req : ntc_request) : option (option bytes) :=
  match ntc_http_header req (bs "cookie") with
  | None | Some [] => Some None
  | Some ck => ntc_cookie_get (cstr (take 1023 ck)) (bs "ntc_session") 80
  end.

Section oauth.
Context {tls : Type} {TE : TlsEngine tls}.
Context {db : Type} `{SQ : Sqlite db}.
Variable tdefl_compress : bytes -> option bytes.
Variable mz_crc32 : bytes -> Z.
Local Abbreviation W := (St (gateway tls * app db)).
Local Abbreviation respond p status ctype body := (lift (send_resp tdefl_compress mz_crc32 p status ctype body)).
Local Abbreviation refuse p status body := (lift (respond_and_flush tdefl_compress mz_crc32 p status body)).

(** server.c:952-958 [oauth_redirect] *)
Definition oauth_redirect (p : conn_ptr) (location : bytes) (set_cookie : option bytes) : W Z :=
  let t := bs "Location: " ++ location ++ crlf in
  let extra := snprintf 512 t ++
    match set_cookie with
    | Some ck => if (length t <? 512)%nat then snprintf (512 - length t) (bs "Set-Cookie: " ++ ck ++ crlf) else []
    | None => []
    end in
  lift (upd_conn p (fun c => c <| c_extra_headers := extra |>)) ;;;
  respond p 302 (bs "text/html; charset=utf-8") (qs "<a href='/'>redirecting</a>").

(** The stores, which are there when login is enabled. *)
Definition with_pending (f : ntc_kvstore -> ntc_kvstore) : W unit :=
  let* kv := load (fun w => a_pending (snd w)) in set_app (fun a => a <| a_pending := Some (f kv) |>).

(** server.c:970-977 [handle_oauth, location] *)
Definition login_location (o : oauth_config) (state challenge : bytes) : bytes :=
  let er := url_encode (o_redirect_uri o) 400 in
  let es := url_encode (if (0 <? length (o_scopes o))%nat then o_scopes o else bs "openid") 200 in
  snprintf 1000 (o_authorize_url o ++ bs "?response_type=code&client_id=" ++ o_client_id o ++
    bs "&redirect_uri=" ++ er ++ bs "&scope=" ++ es ++ bs "&state=" ++ state ++
    bs "&code_challenge=" ++ challenge ++ bs "&code_challenge_method=S256").

(** server.c:963-979 [handle_oauth, login] *)
Definition oauth_login (e : sys) (p : conn_ptr) : W Z :=
  let oops := refuse p 500 (qs "{'error':'pkce'}") in
  match ntc_random_token (default None (y_urandom e !! 0%nat)) 40 16 with
  | None => oops
  | Some state =>
      match ntc_pkce_verifier (default None (y_urandom e !! 1%nat)) 64 with
      | None => oops
      | Some verifier =>
          match ntc_pkce_challenge verifier 64 with
          | None => oops
          | Some challenge =>
              with_pending (fun kv => ntc_kv_put kv state verifier (y_time e + 600)) ;;;
              let* o := get_app a_oauth in
              oauth_redirect p (login_location o state challenge) None
          end
      end
  end.

(** server.c:990-1001 [handle_oauth, token request] *)
Definition token_request (o : oauth_config) (code verifier : bytes) : bytes :=
  let er := url_encode (o_redirect_uri o) 400 in
  let ec := url_encode code 600 in
  let t := bs "grant_type=authorization_code&code=" ++ ec ++ bs "&redirect_uri=" ++ er ++
           bs "&client_id=" ++ o_client_id o ++ bs "&code_verifier=" ++ verifier in
  if (0 <? length (o_client_secret o))%nat && (length t <? 1800)%nat
  then t ++ snprintf (1800 - length t) (bs "&client_secret=" ++ url_encode (o_client_secret o) 400)
  else snprintf 1800 t.

(** server.c:1011-1028 [handle_oauth, id token]. The subject and the scope of the token that
    the client secret signed, cut at the arrays; [None] is [!ok]. *)
Definition token_identity (e : sys) (o : oauth_config) (resp : bytes) : option (option (bytes * bytes)) :=
  if negb (y_arena e) then Some None else
  root ← ntc_json_parse (y_json e) resp;
  let idt := match root with Some _ => ntc_json_str (ntc_json_get root (bs "id_token")) | None => [] end in
  if (0 <? length idt)%nat && (0 <? length (o_client_secret o))%nat then
    cl ← ntc_jwt_verify_hs256 (y_jwt e) idt (o_client_secret o) (y_time e);
    Some (match cl with Some cl => Some (snprintf 128 (cl_sub cl), snprintf 256 (cl_scope cl)) | None => None end)
  else Some None.

(** The page after a login or a logout. *)
Definition success_page (o : oauth_config) : bytes :=
  if (0 <? length (o_success o))%nat then o_success o else bs "/".

Definition is_https (p : conn_ptr) : W bool :=
  let* c := lift (get_conn p) in ret (bool_decide (is_Some (c_tls c))).

(** server.c:1030-1036 [handle_oauth, session] *)
Definition open_session (e : sys) (p : conn_ptr) (o : oauth_config) (sub scope : bytes) : W Z :=
  match ntc_random_token (default None (y_urandom e !! 0%nat)) 80 24 with
  | None => refuse p 500 (qs "{'error':'sid'}")
  | Some sid =>
      let* ss := load (fun w => a_sessions (snd w)) in
      set_app (fun a => a <| a_sessions := Some (snd (ntc_session_put ss sid sub scope (y_time e + 8 * 3600))) |>) ;;;
      let* https := is_https p in
      let* ck := load (fun _ => ntc_cookie_format 256 (bs "ntc_session") sid https (8 * 3600)) in
      oauth_redirect p (success_page o) (Some (fst ck))
  end.

(** A query parameter, decoded in its array; empty when it is not there. *)
Definition query_param (req : ntc_request) (key : bytes) (cap : nat) : option bytes :=
  v ← query_get (query req) key cap; url_decode (default [] v).

(** server.c:981-1037 [handle_oauth, callback] *)
Definition oauth_callback (e : sys) (p : conn_ptr) (req : ntc_request) : W Z :=
  let* o := get_app a_oauth in
  let* code := load (fun _ => query_param req (bs "code") 512) in
  let* state := load (fun _ => query_param req (bs "state") 64) in
  let bad := refuse p 400 (qs "{'error':'invalid or expired state'}") in
  if (length code =? 0)%nat || (length state =? 0)%nat then bad else
  let* kv := load (fun w => a_pending (snd w)) in
  let '(verifier, kv) := ntc_kv_get kv state (y_time e) 64 in
  set_app (fun a => a <| a_pending := Some kv |>) ;;;
  match verifier with
  | None => bad
  | Some verifier =>
      with_pending (fun kv => ntc_kv_del kv state) ;;;
      match y_https_post e (o_token_url o) (token_request o code verifier) with
      | None | Some [] => refuse p 502 (qs "{'error':'token exchange failed'}")
      | Some resp =>
          let* id := load (fun _ => token_identity e o (take 8191 resp)) in
          match id with
          | None => refuse p 401 (qs "{'error':'invalid id_token'}")
          | Some (sub, scope) => open_session e p o sub scope
          end
      end
  end.

(** server.c:1039-1051 [handle_oauth, logout] *)
Definition oauth_logout (p : conn_ptr) (req : ntc_request) : W Z :=
  let* sid := load (fun _ => session_cookie req) in
  (match sid with
   | None => ret tt
   | Some sid =>
       let* ss := load (fun w => a_sessions (snd w)) in
       set_app (fun a => a <| a_sessions := Some (ntc_session_del ss sid) |>)
   end) ;;;
  let* https := is_https p in
  let* ck := load (fun _ => ntc_cookie_format 256 (bs "ntc_session") [] https 0) in
  let* o := get_app a_oauth in
  oauth_redirect p (success_page o) (Some (fst ck)).

(** server.c:960-1054 [handle_oauth] *)
Definition handle_oauth (e : sys) (p : conn_ptr) (req : ntc_request) : W Z :=
  if ntc_slice_eq_cstr (path req) (bs "/auth/login") then oauth_login e p
  else if ntc_slice_eq_cstr (path req) (bs "/auth/callback") then oauth_callback e p req
  else if ntc_slice_eq_cstr (path req) (bs "/auth/logout") then oauth_logout p req
  else refuse p 404 (qs "{'error':'not found'}").
End oauth.
