(* ===== verification/Admin.v ===== *)
(** * The admin port (src/core/server.c)

    The dashboard's read-only endpoints, and MCP over HTTP behind the control token. *)
From S2P Require Import Prelude Update Err Slice Json Http HttpRequest Wire Inflight ServerState.
From S2P Require Import ServerConn ServerRelay Router Builtin Registry App Mcp Services Control.
Open Scope Z_scope.

(** server.c:1287-1290 [handle_admin, service row]. The service, whether a replica is live and
    how many, at time [t]. *)
Definition service_status (t : Z) (i : nat) (s : service * bool * Z) : bytes :=
  let '(svc, live, n) := s in
  let st := if s_disabled svc then bs "disabled" else if live : bool then bs "up" else bs "down" in
  let up := if live then Z.quot (t - default 0 (s_spawned_at svc !! 0%nat)) 1000 else 0 in
  comma i ++ qs "{'name':'" ++ s_name svc ++ qs "','bin':'" ++ s_bin svc ++ qs "','status':'" ++ st ++
  qs "','restarts':" ++ fmt_d (s_restart_count svc) ++ qs ",'replicas':" ++ fmt_d (s_replicas svc) ++
  qs ",'live':" ++ fmt_d n ++ qs ",'uptime_s':" ++ fmt_d up ++ bs "}".

Definition with_live (svc : service) : option (service * bool * Z) :=
  live ← svc_any_live svc; n ← svc_live_count svc; Some (svc, live, n).

Section admin.
Context {tls : Type} {TE : TlsEngine tls}.
Context {db : Type} `{SQ : Sqlite db}.
Variable tdefl_compress : bytes -> option bytes.
Variable mz_crc32 : bytes -> Z.
(** The dashboard's page, a constant. *)
Variable dashboard_html : bytes.
Local Abbreviation W := (St (gateway tls * app db)).
Local Abbreviation respond p status ctype body := (lift (send_resp tdefl_compress mz_crc32 p status ctype body)).

(** server.c:1230-1235 [incore_mcp_exec] *)
Definition incore_mcp_exec (e : sys) (command : bytes) (cap : nat) : W bytes :=
  exec_control_command e (to_cstr 1024 command) cap.

(** A buffer of the connection's arena, or a 500. *)
Definition with_buffer (p : conn_ptr) (oops : bytes) (k : W Z) : W Z :=
  let* ok := lift ask_alloc in
  if negb ok then respond p 500 JSON oops else k.

(** server.c:1242-1244 [handle_admin, token] *)
Definition mcp_authorized (token : bytes) (req : ntc_request) : bool :=
  let auth := default [] (ntc_http_header req (bs "authorization")) in
  (7 <? length auth)%nat && memeq (take 7 auth) (bs "Bearer ") && ntc_slice_eq_cstr (drop 7 auth) token.

(** server.c:1239-1251 [handle_admin, MCP] *)
Definition admin_mcp (e : sys) (p : conn_ptr) (req : ntc_request) : W Z :=
  if negb (ntc_slice_eq_cstr (method req) (bs "POST"))
  then respond p 405 JSON (qs "{'error':'POST only'}") else
  let* token := get_app a_token in
  if negb (mcp_authorized token req) then respond p 401 JSON (qs "{'error':'unauthorized'}") else
  with_buffer p (bs "{}") (
    let* out := ntc_mcp_handle (incore_mcp_exec e) (y_arena e) (y_json e) (body req) (Nat.mul 32 1024) in
    if (length out =? 0)%nat then respond p 202 JSON [] else respond p 200 JSON out).

(** server.c:1263-1271 [handle_admin, stats] *)
Definition stats_text (g : gateway tls) (a : app db) : bytes :=
  let m := g_m g in
  qs "{'uptime_s':" ++ fmt_d (Z.quot (g_now g - m_start_ms m) 1000) ++
  qs ",'requests_total':" ++ fmt_u (m_requests_total m) ++ qs ",'status_2xx':" ++ fmt_u (m_status_2xx m) ++
  qs ",'status_4xx':" ++ fmt_u (m_status_4xx m) ++ qs ",'status_5xx':" ++ fmt_u (m_status_5xx m) ++
  qs ",'forwarded':" ++ fmt_u (m_forwarded m) ++ qs ",'builtin':" ++ fmt_u (m_builtin m) ++
  qs ",'services':" ++ fmt_u (Z.of_nat (length (g_services g))) ++
  qs ",'routes':" ++ fmt_u (Z.of_nat (ntc_router_count (Some (a_router a)))) ++
  qs ",'backend':'" ++ ntc_poller_backend ++ qs "','inflight_cap':" ++ fmt_u (Z.of_nat NTC_MAX_INFLIGHT) ++ bs "}".

(** server.c:1314-1326 [handle_admin, metrics] *)
Definition metrics_text (g : gateway tls) : bytes :=
  let m := g_m g in
  bs "# HELP ntc_requests_total total HTTP requests" ++ lf ++ bs "# TYPE ntc_requests_total counter" ++ lf ++
  bs "ntc_requests_total " ++ fmt_u (m_requests_total m) ++ lf ++
  qs "ntc_responses_total{class='2xx'} " ++ fmt_u (m_status_2xx m) ++ lf ++
  qs "ntc_responses_total{class='4xx'} " ++ fmt_u (m_status_4xx m) ++ lf ++
  qs "ntc_responses_total{class='5xx'} " ++ fmt_u (m_status_5xx m) ++ lf ++
  bs "ntc_forwarded_total " ++ fmt_u (m_forwarded m) ++ lf ++
  bs "ntc_builtin_total " ++ fmt_u (m_builtin m) ++ lf ++
  bs "ntc_services " ++ fmt_u (Z.of_nat (length (g_services g))) ++ lf ++
  bs "ntc_uptime_seconds " ++ fmt_d (Z.quot (g_now g - m_start_ms m) 1000) ++ lf.

(** A JSON list in a buffer of 64 KiB, its rows appended while 512 bytes are left. *)
Definition send_list {A} (p : conn_ptr) (item : nat -> A -> bytes) (rows : list A) : W Z :=
  let cap := Nat.mul 64 1024 in
  let* b := load (fun _ => list_text item cap 512 (bs "[") (bs "]") rows) in
  let* _ := ensure (snd b <=? Z.of_nat cap) in
  respond p 200 JSON (take (Z.to_nat (snd b)) (fst b ++ [0])).

(** server.c:1237-1332 [handle_admin] *)
Definition handle_admin (e : sys) (p : conn_ptr) (req : ntc_request) : W Z :=
  let at_ t := ntc_slice_eq_cstr (path req) t in
  if at_ (bs "/_ntc/mcp") then admin_mcp e p req else
  if negb (ntc_slice_eq_cstr (method req) (bs "GET"))
  then respond p 405 JSON (qs "{'error':'method not allowed'}") else
  if at_ (bs "/") || at_ (bs "/index.html")
  then respond p 200 (bs "text/html; charset=utf-8") (ntc_slice_cstr dashboard_html) else
  if at_ (bs "/api/stats") then
    with_buffer p (bs "{}") (
      let* w := gets (fun w => w) in
      let* t := slice_of 1024 (stats_text (fst w) (snd w)) in respond p 200 JSON t)
  else if at_ (bs "/api/services") then
    with_buffer p (bs "[]") (
      let* g := lift (gets (fun g => g)) in
      let* rows := load (fun _ => mapM with_live (g_services g)) in
      send_list p (service_status (g_now g)) rows)
  else if at_ (bs "/api/routes") then
    let* r := get_app a_reg in
    with_buffer p (bs "[]") (send_list p route_item (snd (ntc_registry_list_routes r 256)))
  else if at_ (bs "/_ntc/metrics") || at_ (bs "/metrics") then
    with_buffer p (bs "{}") (
      let* g := lift (gets (fun g => g)) in
      let* t := slice_of (Nat.mul 2 1024) (metrics_text g) in
      respond p 200 (bs "text/plain; version=0.0.4") t)
  else respond p 404 JSON (qs "{'error':'not found'}").
End admin.
