(* ===== verification/Dispatch.v ===== *)
(** * Handling a request (src/core/server.c)

    From the bytes a connection has received to its answer: parsing, the size limits, the
    session cookie, the middleware, and dispatch - the reserved names, static files, the
    built-in handlers, schema validation, and forwarding to a controller. *)
From S2P Require Import Prelude Posix Update Err Slice Double Json Schema Crypto Jwt Http HttpRequest Middleware Session Wire Ws.
From S2P Require Import Inflight Gzip ServerState ServerConn ServerRelay Router Builtin Registry App Mcp Services Control.
From S2P Require Import Oauth Admin.
Open Scope Z_scope.

(** ** Static files *)

(** [strrchr(path, '.')]: the rest of the string from the last dot. *)
Fixpoint last_dot (s : bytes) : option bytes :=
  match s with
  | [] => None
  | c :: s' => match last_dot s' with Some d => Some d | None => if c =? 46 then Some s else None end
  end.

(** server.c:795-809 [mime_for] *)
Definition mime_for (path : bytes) : bytes :=
  match last_dot path with
  | None => bs "application/octet-stream"
  | Some d =>
      if memeq d (bs ".html") || memeq d (bs ".htm") then bs "text/html; charset=utf-8"
      else if memeq d (bs ".css") then bs "text/css"
      else if memeq d (bs ".js") || memeq d (bs ".mjs") then bs "application/javascript"
      else if memeq d (bs ".json") then bs "application/json"
      else if memeq d (bs ".svg") then bs "image/svg+xml"
      else if memeq d (bs ".png") then bs "image/png"
      else if memeq d (bs ".jpg") || memeq d (bs ".jpeg") then bs "image/jpeg"
      else if memeq d (bs ".ico") then bs "image/x-icon"
      else if memeq d (bs ".txt") then bs "text/plain; charset=utf-8"
      else if memeq d (bs ".wasm") then bs "application/wasm"
      else bs "application/octet-stream"
  end.

(** server.c:822-823 [serve_static, traversal check] *)
Fixpoint traverses (p : bytes) : bool :=
  match p with
  | [] => false
  | c :: p' => (c =? 0) || ((c =? 46) && bool_decide (head p' = Some 46)) || traverses p'
  end.

(** server.c:815-827 [serve_static, relative path]. [None] is "not served". *)
Definition static_rel (path : bytes) : option bytes :=
  if (length path <=? 1)%nat then Some (bs "index.html") else
  let p := drop 1 path in
  if (500 <=? length p)%nat then None else
  if traverses p then None else
  Some (if bool_decide (last p = Some 47) then p ++ snprintf (512 - length p) (bs "index.html") else p).

(** ** Request schemas *)

(** The text up to a slash, and the rest from it. *)
Fixpoint until_slash (s : bytes) : bytes * bytes :=
  match s with
  | [] => ([], [])
  | c :: s' => if c =? 47 then ([], s) else let '(a, b) := until_slash s' in (c :: a, b)
  end.

(** server.c:1062-1071 [seg_pattern_match, loop]. Every round takes a slash of both. *)
Fixpoint pattern_loop (fuel : nat) (pat path : bytes) : option bool :=
  match fuel with
  | O => None
  | S f =>
      match pat, path with
      | c :: pat, x :: path =>
          if negb (c =? 47) || negb (x =? 47) then Some false else
          let '(ps, pat) := until_slash pat in
          let '(xs, path) := until_slash path in
          if (0 <? length ps)%nat && bool_decide (head ps = Some 58) then
            if (length xs =? 0)%nat then Some false else pattern_loop f pat path
          else if negb (length ps =? length xs)%nat || negb (memeq ps xs) then Some false
          else pattern_loop f pat path
      | [], [] => Some true
      | _, _ => Some false
      end
  end.

(** server.c:1059-1072 [seg_pattern_match] *)
Definition seg_pattern_match (pat : bytes) (path : ntc_slice) : option bool :=
  pattern_loop (S (length pat)) pat path.

(** server.c:1077-1084 [gw_schema_for, loop] *)
Fixpoint schema_loop (ms : list (bytes * ntc_json)) (method path : ntc_slice) : option (option ntc_json) :=
  match ms with
  | [] => Some None
  | (key, v) :: ms =>
      match memchr 32 key with
      | None => schema_loop ms method path
      | Some mlen =>
          if negb (mlen =? length method)%nat || negb (memeq (take mlen key) method) then schema_loop ms method path else
          ok ← seg_pattern_match (drop (S mlen) key) path;
          if ok : bool then Some (Some v) else schema_loop ms method path
      end
  end.

(** server.c:1075-1086 [gw_schema_for] *)
Definition gw_schema_for (schemas : option ntc_json) (method path : ntc_slice) : option (option ntc_json) :=
  match schemas with Some (JObj ms) => schema_loop ms method path | _ => Some None end.

(** ** The OpenAPI document *)

(** server.c:857-870 [serve_openapi, path]. A [:name] becomes [{name}]; [in_param] says that
    one is being copied. *)
Fixpoint openapi_path (in_param : bool) (s out : bytes) : bytes :=
  let full o := (158 <=? length o)%nat in
  match s with
  | [] => if in_param then out ++ [125] else out
  | c :: s =>
      if in_param then
        if full out then out ++ [125]
        else if c =? 47 then
          let out := out ++ [125] in if full out then out else openapi_path false s (out ++ [c])
        else openapi_path true s (out ++ [c])
      else if full out then out
      else if c =? 58 then openapi_path true s (out ++ [123])
      else openapi_path false s (out ++ [c])
  end.

(** server.c:871-891 [serve_openapi, item] *)
Definition openapi_item (i : nat) (r : ntc_route_row) (schema : bytes) : bytes :=
  let path := openapi_path false (rr_pattern r) [] in
  let m := to_lower <$> snprintf 8 (rr_method r) in
  comma i ++ qs "'" ++ path ++ qs "':{'" ++ m ++ qs "':{'summary':'-> " ++ rr_service r ++
  (if (0 <? length schema)%nat
   then qs "','requestBody':{'required':true,'content':{'application/json':{'schema':" ++ schema ++ qs "}}},"
   else qs "',") ++
  qs "'responses':{'200':{'description':'OK'}}}}".

(** server.c:856-892 [serve_openapi, loop] *)
Fixpoint openapi_loop (schemas : option ntc_json) (cap : nat) (rows : list ntc_route_row) (i : nat) (b : bytes * Z)
    : option (bytes * Z) :=
  match rows with
  | [] => Some b
  | r :: rows =>
      if negb (snd b <? Z.of_nat cap - 512) then Some b else
      sch ← gw_schema_for schemas (rr_method r) (rr_pattern r);
      let emit := match sch with Some v => default [] (ntc_json_emit (Some v) (Nat.mul 8 1024)) | None => [] end in
      let emit := if snd b + Z.of_nat (length emit) + 512 <? Z.of_nat cap then emit else [] in
      b ← appendf cap b (openapi_item i r emit);
      openapi_loop schemas cap rows (S i) b
  end.

Section dispatch.
Context {tls : Type} {TE : TlsEngine tls} {SE : SigEngine}.
Context {db : Type} `{SQ : Sqlite db}.
Variable tdefl_compress : bytes -> option bytes.
Variable mz_crc32 : bytes -> Z.
Variable br_sha1 : bytes -> bytes.
Variable dashboard_html : bytes.
Local Abbreviation W := (St (gateway tls * app db)).
Local Abbreviation respond p status ctype body := (lift (send_resp tdefl_compress mz_crc32 p status ctype body)).
Local Abbreviation refuse p status body := (lift (respond_and_flush tdefl_compress mz_crc32 p status body)).

(** server.c:812-843 [serve_static]. 2 is "not served". *)
Definition serve_static (e : sys) (p : conn_ptr) (req : ntc_request) : W Z :=
  let* dir := get_app a_static_dir in
  if (length dir =? 0)%nat || negb (ntc_slice_eq_cstr (method req) (bs "GET")) then ret 2 else
  match static_rel (path req) with
  | None => ret 2
  | Some rel =>
      match y_open e (snprintf 800 (dir ++ bs "/" ++ rel)) with
      | None => ret 2
      | Some (size, regular, contents) =>
          if negb regular || (10 * 1024 * 1024 <? size) then ret 2 else
          let* ok := lift ask_alloc in
          if negb ok then ret 2 else
          let got := take (Z.to_nat size) contents in
          if negb (Z.of_nat (length got) =? size) then ret 2 else
          respond p 200 (ntc_slice_cstr (mime_for rel)) got
      end
  end.

(** server.c:846-895 [serve_openapi] *)
Definition serve_openapi (p : conn_ptr) : W Z :=
  let* a := get_app (fun a => a) in
  let cap := Nat.mul 64 1024 in
  let* ok := lift ask_alloc in
  if negb ok then respond p 500 JSON (bs "{}") else
  let* b := load (fun _ =>
    b ← appendf cap ([], 0) (qs "{'openapi':'3.0.0','info':{'title':'" ++ a_app_name a ++ qs "','version':'" ++
                              NTC_VERSION ++ qs "'},'paths':{");
    b ← openapi_loop (a_schemas a) cap (snd (ntc_registry_list_routes (a_reg a) 256)) 0 b;
    appendf cap b (bs "}}")) in
  let* _ := ensure (snd b <=? Z.of_nat cap) in
  respond p 200 JSON (take (Z.to_nat (snd b)) (fst b ++ [0])).

(** server.c:1104-1111 [gw_validate_body, refusal]. The detail is read from the array the
    escaper filled: it has to have fitted. *)
Definition refuse_invalid (p : conn_ptr) (verr : bytes) : W Z :=
  let* ok := lift ask_alloc in
  if negb ok then refuse p 400 (qs "{'error':'validation failed'}") else
  let* esc := load (fun _ => ntc_json_escape 200 (ntc_slice_cstr verr)) in
  let* t := slice_of 256 (qs "{'error':'validation failed','detail':'" ++ cstr esc ++ qs "'}") in
  refuse p 400 t.

(** server.c:1093-1095 [gw_validate_body, methods] *)
Definition body_method (m : ntc_slice) : bool :=
  ntc_slice_eq_cstr m (bs "POST") || ntc_slice_eq_cstr m (bs "PUT") || ntc_slice_eq_cstr m (bs "PATCH").

(** server.c:1090-1114 [gw_validate_body]. The reader builds at most 32 levels, which the
    validator descends. *)
Definition gw_validate_body (e : sys) (p : conn_ptr) (req : ntc_request) : W Z :=
  let* schemas := get_app a_schemas in
  let* sch := load (fun _ => gw_schema_for schemas (method req) (path req)) in
  match sch with
  | None => ret 0
  | Some sch =>
      if negb (body_method (method req)) then ret 0 else
      if (length (body req) =? 0)%nat then refuse p 400 (qs "{'error':'request body required'}") else
      let* inst := load (fun _ => ntc_json_parse (y_json e) (body req)) in
      match inst with
      | None => refuse p 400 (qs "{'error':'invalid JSON body'}")
      | Some inst =>
          let* v := load (fun _ => ntc_schema_validate 32 (Some sch) (Some inst) 160) in
          match v with Valid => ret 0 | Invalid verr => refuse_invalid p verr end
      end
  end.

(** server.c:1143-1150 [gw_dispatch, landing page] *)
Definition landing_page (app_name : bytes) (up : Z) : bytes :=
  bs "<!doctype html><meta charset=utf-8><title>" ++ app_name ++ bs "</title>" ++
  bs "<body style='font-family:system-ui;background:#0e1116;color:#e6edf3;" ++
  bs "display:flex;height:90vh;align-items:center;justify-content:center;flex-direction:column'>" ++
  bs "<h1 style='margin:0'>" ++ app_name ++ bs "</h1>" ++
  bs "<p style='color:#9aa7b3'>powered by naitron-c &middot; core uptime " ++ fmt_d up ++ bs "s</p></body>".

(** server.c:1135-1157 [gw_dispatch, no route] *)
Definition no_route (e : sys) (p : conn_ptr) (req : ntc_request) : W Z :=
  let* sr := serve_static e p req in
  if negb (sr =? 2) then ret sr else
  let missing := refuse p 404 (qs "{'error':'not found'}") in
  if ntc_slice_eq_cstr (path req) (bs "/") then
    let* ok := lift ask_alloc in
    if negb ok then missing else
    let* g := lift (gets (fun g => g)) in
    let* name := get_app a_app_name in
    let* t := slice_of 1024 (landing_page name (Z.quot (g_now g - m_start_ms (g_m g)) 1000)) in
    respond p 200 (bs "text/html; charset=utf-8") t
  else missing.

(** server.c:1166-1173 [gw_dispatch, forwarded request]. The request with the route's
    parameters and the identity of the client. *)
Definition enrich (req : ntc_request) (ps : list ntc_header) (sub scope : bytes) : ntc_request :=
  Request (method req) (target req) (path req) (query req) (minor_version req) (headers req)
    (take NTC_MAX_PARAMS ps) (ntc_slice_cstr sub) (ntc_slice_cstr scope)
    (has_content_length req) (content_length req) (body req).

(** server.c:1161-1178 [gw_dispatch, forward] *)
Definition dispatch_forward (e : sys) (p : conn_ptr) (req : ntc_request) (hit : route_hit ntc_handler (option nat)) : W Z :=
  let* vr := gw_validate_body e p req in
  if negb (vr =? 0) then ret vr else
  lift (modify (fun g => g <| g_m := (g_m g) <| m_forwarded := u64 (m_forwarded (g_m g) + 1) |> |>)) ;;;
  let* c := lift (get_conn p) in
  let fr := enrich req (hit_params hit) (c_auth_sub c) (c_auth_scope c) in
  let* svc := load (fun _ => hit_udata hit) in
  if ntc_slice_eq_cstr (default [] (ntc_http_header fr (bs "upgrade"))) (bs "websocket")
  then lift (gw_ws_upgrade tdefl_compress mz_crc32 br_sha1 p fr svc)
  else lift (gw_forward tdefl_compress mz_crc32 p fr svc).

(** server.c:1180-1187 [gw_dispatch, built-in] *)
Definition dispatch_builtin (p : conn_ptr) (hit : route_hit ntc_handler (option nat)) : W Z :=
  lift (modify (fun g => g <| g_m := (g_m g) <| m_builtin := u64 (m_builtin (g_m g) + 1) |> |>)) ;;;
  let* ok := (if bool_decide (hit_handler hit = HEcho) then lift ask_alloc else ret true) in
  match run_handler (hit_handler hit) ok (hit_params hit) with
  | None => refuse p 500 (qs "{'error':'internal error'}")
  | Some res =>
      lift (rec_status (res_status res)) ;;;
      let* r := lift (conn_respond tdefl_compress mz_crc32 p (res_status res) (res_content_type res) (res_body res)) in
      if negb (r =? 0) then lift (conn_close p) ;;; ret (-1) else lift (conn_flush p)
  end.

(** server.c:1116-1187 [gw_dispatch] *)
Definition gw_dispatch (e : sys) (p : conn_ptr) (req : ntc_request) : W Z :=
  let* oauth := get_app a_oauth_enabled in
  if oauth && ntc_slice_starts_with (path req) (bs "/auth/")
  then handle_oauth tdefl_compress mz_crc32 e p req else
  if ntc_slice_starts_with (path req) (bs "/_ntc/") then
    if ntc_slice_eq_cstr (path req) (bs "/_ntc/health") then respond p 200 JSON (qs "{'status':'ok'}")
    else if ntc_slice_eq_cstr (path req) (bs "/_ntc/ready") then respond p 200 JSON (qs "{'status':'ready'}")
    else if ntc_slice_eq_cstr (path req) (bs "/_ntc/openapi.json") then serve_openapi p
    else respond p 404 JSON (qs "{'error':'not found'}")
  else
  let* router := get_app a_router in
  let* rs := load (fun _ => ntc_router_match router (method req) (path req)) in
  match rs with
  | (NTC_ROUTE_FOUND, Some hit) =>
      if bool_decide (hit_handler hit = forward_marker) then dispatch_forward e p req hit else dispatch_builtin p hit
  | (NTC_ROUTE_METHOD_NOT_ALLOWED, _) => refuse p 405 (qs "{'error':'method not allowed'}")
  | _ => no_route e p req
  end.

(** server.c:1372-1387 [process_request, session]. The subject and scope of the session of the
    request's cookie. *)
Definition session_identity (e : sys) (ss : option db) (req : ntc_request) : option (option (bytes * bytes)) :=
  match ss with
  | None => Some None
  | Some ss =>
      sid ← session_cookie req;
      Some (sid ← sid; ntc_session_get ss sid (y_time e) 128 256)
  end.

(** server.c:1389-1400 [process_request, middleware]. Whether the middleware answered at
    once, with its result. *)
Definition run_middleware (e : sys) (p : conn_ptr) (req : ntc_request) (id : option (bytes * bytes))
    : W (option ntc_mw_result) :=
  let* m := get_app a_mw in
  match m with
  | None => ret None
  | Some m =>
      let* c := lift (get_conn p) in
      let* now := lift (gets g_now) in
      let* o := load (fun _ => ntc_mw_before (y_mw e) m req (c_client_ip c) now (bool_decide (is_Some id))) in
      let '(sc, r, m) := o in
      set_app (fun a => a <| a_mw := Some m |>) ;;;
      let '(sub, scope) := match id with Some i => i | None => (r_auth_sub r, r_auth_scope r) end in
      lift (upd_conn p (fun c => c <| c_extra_headers := to_cstr 512 (r_extra_headers r) |>
        <| c_request_id := to_cstr 40 (r_request_id r) |>
        <| c_auth_sub := to_cstr 128 sub |> <| c_auth_scope := to_cstr 256 scope |>)) ;;;
      ret (if sc : bool then Some r else None)
  end.

(** server.c:1363-1403 [process_request, complete request] *)
Definition handle_request (e : sys) (p : conn_ptr) (req : ntc_request) : W Z :=
  lift (upd_conn p (fun c => c <| c_accept_gzip :=
    slice_has (default [] (ntc_http_header req (bs "accept-encoding"))) (bs "gzip") |>)) ;;;
  let* c := lift (get_conn p) in
  if c_is_admin c then handle_admin tdefl_compress mz_crc32 dashboard_html e p req else
  lift (upd_conn p (fun c => c <| c_log_method := cstr (take 15 (method req)) |>
                                <| c_log_path := cstr (take 199 (path req)) |>)) ;;;
  let* id := load (fun w => session_identity e (a_sessions (snd w)) req) in
  let* r := run_middleware e p req id in
  match r with
  | Some r => lift (rec_status (r_status r)) ;;; respond p (r_status r) (r_content_type r) (r_body r)
  | None => gw_dispatch e p req
  end.

(** What is missing of a request whose head was parsed: nothing, more bytes, or a refusal. *)
Inductive body_check := BodyReady | BodyMore | BodyRefused (status : Z) (text : bytes).

(** server.c:1350-1361 [process_request, length checks]. With [rlen] bytes received. *)
Definition check_body (max_body : Z) (req : ntc_request) (consumed rlen : nat) : body_check :=
  if has_content_length req && negb (max_body =? 0) && (max_body <? content_length req)
  then BodyRefused 413 (qs "{'error':'request body too large'}") else
  if negb (has_content_length req) then BodyReady else
  let '(err, need) := ntc_size_add (Z.of_nat consumed) (content_length req) in
  if bool_decide (err <> NTC_OK) then BodyRefused 400 (qs "{'error':'bad length'}") else
  if Z.of_nat rlen <? need then BodyMore else BodyReady.

(** server.c:1337-1404 [process_request] *)
Definition process_request (e : sys) (p : conn_ptr) (eof : bool) : W Z :=
  let* c := lift (get_conn p) in
  let* max_body := get_app a_max_body in
  (** More bytes are needed: none will come, some may, or there is no room. *)
  let more status text : W Z :=
    if eof then lift (conn_close p) ;;; ret (-1)
    else if (length (c_rbuf c) <? NTC_CONN_RBUF)%nat then ret 0 else refuse p status text in
  let* pr := load (fun _ => ntc_http_parse_request (c_rbuf c)) in
  match pr with
  | ParseIncomplete => more 431 (qs "{'error':'headers too large'}")
  | ParseError => refuse p 400 (qs "{'error':'bad request'}")
  | ParseOk req consumed =>
      match check_body max_body req consumed (length (c_rbuf c)) with
      | BodyRefused status t => refuse p status t
      | BodyMore => more 413 (qs "{'error':'body too large'}")
      | BodyReady => handle_request e p req
      end
  end.

(** server.c:1408-1417 [on_readable, loop]. [None] is the -1 of a failed [recv]. *)
Definition receive (p : conn_ptr) : St (gateway tls) (option bool) :=
  let* c := get_conn p in
  let* ins := gets g_recvs in
  let '(how, buf, ins) := recv_loop ins (c_rbuf c) NTC_CONN_RBUF in
  modify (fun g => g <| g_recvs := ins |>) ;;;
  put_conn p (c <| c_rbuf := buf |>) ;;;
  match how with
  | RecvEndError => conn_close p ;;; ret None
  | RecvEndEof => ret (Some true)
  | RecvEndFull | RecvEndAgain => ret (Some false)
  end.

(** server.c:1406-1419 [on_readable] *)
Definition on_readable (e : sys) (p : conn_ptr) : W Z :=
  let* r := lift (receive p) in
  match r with None => ret (-1) | Some eof => process_request e p eof end.

(** server.c:1472-1476 [tls_drive_read, loop]. The engine gives at least a byte a round; [None]
    is an engine that gives more than it was asked for. *)
Fixpoint tls_recv_loop (fuel : nat) (t : tls) (buf : bytes) (got : bool) : option (tls * bytes * bool) :=
  match fuel with
  | O => Some (t, buf, got)
  | S f =>
      if (NTC_CONN_RBUF <=? length buf)%nat then Some (t, buf, got) else
      match ntc_tls_recv t (NTC_CONN_RBUF - length buf) with
      | (Some (x :: d), t) =>
          if (NTC_CONN_RBUF <? length (buf ++ x :: d))%nat then None
          else tls_recv_loop f t (buf ++ x :: d) true
      | (_, t) => Some (t, buf, got)
      end
  end.

(** server.c:1470-1480 [tls_drive_read] *)
Definition tls_drive_read (e : sys) (p : conn_ptr) : W Z :=
  let* c := lift (get_conn p) in
  let* t := load (fun _ => c_tls c) in
  let* r := load (fun _ => tls_recv_loop (S NTC_CONN_RBUF) t (c_rbuf c) false) in
  let '(t, buf, got) := r in
  lift (put_conn p (c <| c_tls := Some t |> <| c_rbuf := buf |>)) ;;;
  let eof := ntc_tls_closed t in
  if negb got && negb eof then ret 0 else process_request e p eof.

(** server.c:1489-1489 [on_tls_event, discard]. Bytes that arrive before the response are
    dropped, until the engine has none. *)
Fixpoint tls_discard (fuel : nat) (t : tls) : tls :=
  match fuel with
  | O => t
  | S f => match ntc_tls_recv t 256 with (Some (_ :: _), t) => tls_discard f t | (_, t) => t end
  end.

(** server.c:1482-1496 [on_tls_event]. [fuel] bounds the reads that are discarded. *)
Definition on_tls_event (e : sys) (fuel : nat) (p : conn_ptr) : W unit :=
  let* c := lift (get_conn p) in
  let* t := load (fun _ => c_tls c) in
  let '(ok, t) := ntc_tls_pump_socket t in
  lift (put_conn p (c <| c_tls := Some t |>)) ;;;
  if negb ok then lift (conn_close p) else
  let interest := let* _ := lift (tls_set_interest p) in ret tt in
  match c_state c with
  | CS_READ => let* rc := tls_drive_read e p in if rc <? 0 then ret tt else interest
  | CS_WAIT =>
      let t := tls_discard fuel t in
      lift (put_conn p (c <| c_tls := Some t |>)) ;;;
      if ntc_tls_closed t then lift (conn_close p) else interest
  | _ => let* rc := lift (tls_drive_write p) in if rc <? 0 then ret tt else interest
  end.

(** An event of the poller for a client: what it is armed for that is ready. *)
Record ready := Ready { rd_read : bool; rd_write : bool }.

(** server.c:2453-2466 [ntc_server_run, client event] *)
Definition on_client_event (e : sys) (fuel : nat) (p : conn_ptr) (ev : ready) : W unit :=
  let* c := lift (get_conn p) in
  match c_tls c with
  | Some _ => on_tls_event e fuel p
  | None =>
      let drop_result (m : W Z) : W unit := let* _ := m in ret tt in
      let after_write (k : W unit) : W unit :=
        if rd_write ev then let* r := lift (on_writable p) in if r <? 0 then ret tt else k else k in
      match c_state c with
      | CS_READ => if rd_read ev then drop_result (on_readable e p) else ret tt
      | CS_WAIT => if rd_read ev then lift (on_wait_readable p) else ret tt
      | CS_STREAM => after_write (if rd_read ev then lift (on_wait_readable p) else ret tt)
      | CS_WS => after_write (if rd_read ev
          then drop_result (lift (on_ws_readable p)) else ret tt)
      | CS_WRITE => if rd_write ev then drop_result (lift (on_writable p)) else ret tt
      end
  end.

(** server.c:2446-2451 [ntc_server_run, controller event] *)
Definition on_ctrl_event (k : ctrl_ptr) (ev : ready) : St (gateway tls) unit :=
  let write := if rd_write ev then on_ctrl_writable tdefl_compress mz_crc32 k else ret tt in
  if rd_read ev then
    let* r := on_ctrl_readable tdefl_compress mz_crc32 k in if r <? 0 then ret tt else write
  else write.
End dispatch.
