(* ===== verification/DispatchTotal.v ===== *)
(** * Request handling: the text routines

    The scanners, coders and buffers of request handling always end and stay within their
    arrays. *)
From S2P Require Import Prelude Update Err Slice Double Json Schema Crypto Jwt Http HttpRequest Session Wire.
From S2P Require Import Inflight ServerState Router Builtin Registry App Control Oauth Dispatch.
Open Scope Z_scope.

(** ** Scanners and coders *)

Lemma skip_sep_length p : (length (skip_sep p) <= length p)%nat.
Proof. induction p as [|c p IH]; simpl; [lia|]. case_match; simpl; lia. Qed.

Lemma until_semi_length p : (length (snd (until_semi p)) <= length p)%nat.
Proof. induction p as [|c p IH]; simpl; [lia|]. case_match; simpl; [lia|]. destruct (until_semi p). simpl in *. lia. Qed.

Lemma skip_sep_head p c t : skip_sep p = c :: t -> c <> 59.
Proof.
  induction p as [|d p IH]; simpl; [done|]. destruct ((d =? 32) || (d =? 59)) eqn:E; [done|].
  intros [= -> ->] ->. by rewrite orb_true_r in E.
Qed.

Lemma cookie_loop_total fuel : forall p name cap,
  (length p < fuel)%nat -> (0 < cap)%nat -> is_Some (cookie_loop fuel p name cap).
Proof.
  induction fuel as [|f IH]; intros p name cap Hf Hc; [lia|]. cbn [cookie_loop].
  destruct p as [|c0 p0] eqn:Ep; [by eexists|]. rewrite <- Ep in *.
  pose proof (skip_sep_length p) as Hs. cbv zeta. case_match.
  - destruct (until_semi _). rewrite (proj2 (Nat.eqb_neq cap 0)) by lia. by eexists.
  - apply IH; [|done]. destruct (skip_sep p) as [|c t] eqn:E; [simpl; rewrite Ep in Hf; simpl in Hf; lia|].
    pose proof (skip_sep_head _ _ _ E) as Hne. simpl. rewrite (proj2 (Z.eqb_neq c 59) Hne).
    pose proof (until_semi_length t). destruct (until_semi t). simpl in *. lia.
Qed.

Lemma session_cookie_total req : is_Some (session_cookie req).
Proof.
  unfold session_cookie. destruct (ntc_http_header _ _) as [[|c ck]|]; [by eexists| |by eexists].
  apply cookie_loop_total; lia.
Qed.

Lemma url_decode_loop_total fuel : forall p, (length p < fuel)%nat -> is_Some (url_decode_loop fuel p).
Proof.
  induction fuel as [|f IH]; intros p Hf; [lia|]. cbn [url_decode_loop].
  destruct p as [|c p1]; [by eexists|]. cbn [length] in Hf. cbv zeta.
  destruct (IH p1) as [r1 ->]; [lia|]. bind.
  destruct (c =? 37); [|by eexists]. destruct p1 as [|h [|l p2]]; try by eexists.
  destruct (hexval h), (hexval l); try by eexists.
  cbn [length] in Hf. destruct (IH p2) as [r2 ->]; [lia|]. bind. by eexists.
Qed.

Lemma query_get_loop_total fuel : forall p key cap,
  (length p < fuel)%nat -> (0 < cap)%nat -> is_Some (query_get_loop fuel p key cap).
Proof.
  induction fuel as [|f IH]; intros p key cap Hf Hc; [lia|]. cbn [query_get_loop].
  destruct (length p =? 0)%nat; [by eexists|]. cbv zeta. case_match.
  { rewrite (proj2 (Nat.eqb_neq cap 0)) by lia. by eexists. }
  destruct (memchr 38 p) as [i|] eqn:E; [|by eexists]. apply IH; [|done].
  apply memchr_Some in E as (Hi & _). apply (f_equal length) in Hi.
  rewrite length_app in Hi. cbn [length] in Hi. lia.
Qed.

Lemma query_param_total req key cap : (0 < cap)%nat -> is_Some (query_param req key cap).
Proof.
  intros Hc. unfold query_param, query_get.
  destruct (query_get_loop_total (S (length (query req))) (query req) key cap) as [v ->]; [lia|done|]. bind.
  unfold url_decode.
  destruct (url_decode_loop_total (S (length (cstr (default [] v)))) (cstr (default [] v))) as [r ->]; [lia|].
  by eexists.
Qed.

Lemma until_slash_length s : (length (snd (until_slash s)) <= length s)%nat.
Proof. induction s as [|c s IH]; simpl; [lia|]. case_match; simpl; [lia|]. destruct (until_slash s). simpl in *. lia. Qed.

Lemma pattern_loop_total fuel : forall pat path, (length pat < fuel)%nat -> is_Some (pattern_loop fuel pat path).
Proof.
  induction fuel as [|f IH]; intros pat path Hf; [lia|]. cbn [pattern_loop].
  destruct pat as [|c pat], path as [|x path]; try by eexists.
  destruct (negb _ || negb _); [by eexists|]. cbn [length] in Hf. pose proof (until_slash_length pat).
  destruct (until_slash pat) as [ps pat']. destruct (until_slash path) as [xs path']. cbn [snd] in *.
  repeat case_match; try by eexists. all: apply IH; lia.
Qed.

(** What a schema lookup finds is a member of the document. *)
Lemma schema_loop_spec ms m path :
  exists r, schema_loop ms m path = Some r /\ forall v, r = Some v -> exists key, (key, v) ∈ ms.
Proof.
  induction ms as [|[key v] ms IH]; cbn [schema_loop]; [by exists None|].
  destruct IH as (r & Er & Hr).
  assert (exists r, schema_loop ms m path = Some r /\ forall v', r = Some v' -> exists k, (k, v') ∈ (key, v) :: ms) as IH'.
  { exists r. split; [done|]. intros v' Hv. destruct (Hr v' Hv) as [k Hk]. exists k. by right. }
  destruct (memchr 32 key) as [i|]; [|done]. case_match; [done|].
  destruct (pattern_loop_total (S (length (drop (S i) key))) (drop (S i) key) path) as [ok E]; [lia|].
  unfold seg_pattern_match. rewrite E. bind. destruct ok; [|done].
  eexists. split; [done|]. intros v' [= <-]. exists key. left.
Qed.

Lemma token_identity_total e o resp : is_Some (token_identity e o resp).
Proof.
  unfold token_identity. case_match; [by eexists|].
  destruct (ntc_json_parse_some (y_json e) resp) as [root ->]. bind. cbv zeta. case_match; [|by eexists].
  match goal with |- is_Some (_ ← ntc_jwt_verify_hs256 ?a ?t ?s ?n; _) =>
    destruct (verify_hs256_total s a t n) as [cl ->] end. bind. by eexists.
Qed.

(** ** Lengths of texts *)

Lemma snprintf_le cap t : (length (snprintf cap t) <= cap - 1)%nat.
Proof. unfold snprintf. rewrite length_take. lia. Qed.

Lemma snprintf_len cap t : (length (snprintf cap t) <= length t)%nat.
Proof. unfold snprintf. rewrite length_take. lia. Qed.

Lemma to_cstr_le cap t : (length (to_cstr cap t) <= cap - 1)%nat.
Proof. apply snprintf_le. Qed.

Lemma length_digits_64 b z : z < 2 ^ 64 -> (length (digits b z) <= 64)%nat.
Proof.
  intros Hz. unfold digits. etrans; [apply length_digits_fuel|].
  destruct (Z.le_gt_cases z 0) as [H0|H0]; [rewrite Z.log2_nonpos by done; simpl; lia|].
  assert (Z.log2 z < 64) by (apply Z.log2_lt_pow2; lia). lia.
Qed.

Lemma length_fmt_d z : - 2 ^ 63 <= z < 2 ^ 63 -> (length (fmt_d z) <= 65)%nat.
Proof.
  intros Hz. unfold fmt_d. destruct (z <? 0); cbn [length].
  - pose proof (length_digits_64 10 (- z)). lia.
  - pose proof (length_digits_64 10 z). lia.
Qed.

Ltac len := repeat rewrite length_app; repeat match goal with
  | |- context [length (bs ?s)] => let n := eval vm_compute in (length (bs s)) in change (length (bs s)) with n
  | |- context [length (qs ?s)] => let n := eval vm_compute in (length (qs s)) in change (length (qs s)) with n
  end.

Lemma landing_page_fits name up :
  (length name <= 127)%nat -> - 2 ^ 63 <= up < 2 ^ 63 -> (length (landing_page name up) < 1024)%nat.
Proof. intros Hn Hu. pose proof (length_fmt_d up Hu). unfold landing_page. len. lia. Qed.

Lemma openapi_path_fits p : forall b o, (length o <= 158)%nat -> (length (openapi_path b p o) <= 160)%nat.
Proof.
  induction p as [|c p IH]; intros b o Ho; cbn [openapi_path].
  - destruct b; rewrite ?length_app; simpl; lia.
  - destruct b; destruct (Nat.leb_spec 158 (length o)); try (rewrite ?length_app; simpl; lia).
    + destruct (c =? 47); [|apply IH; rewrite length_app; simpl; lia].
      destruct (Nat.leb_spec 158 (length (o ++ [125]))) as [H1|H1]; [rewrite length_app; simpl; lia|].
      apply IH. rewrite !length_app in *. simpl in *. lia.
    + destruct (c =? 58); apply IH; rewrite length_app; simpl; lia.
Qed.

(** A row as it comes out of the registry. *)
Definition row_fits (r : ntc_route_row) : Prop :=
  (length (rr_method r) <= 7)%nat /\ (length (rr_pattern r) <= 127)%nat /\ (length (rr_service r) <= 63)%nat.

Lemma copy_text_le cap s : (0 < cap)%nat -> (length (copy_text cap s) <= cap - 1)%nat.
Proof. intros Hc. destruct s as [s|]; cbn [copy_text]; [|simpl; lia]. rewrite length_take. case_match; [lia|]. apply Nat.leb_gt in H. lia. Qed.

Lemma list_routes_fit {db} `{Sqlite db} (d : db) max : Forall row_fits (snd (ntc_registry_list_routes d max)).
Proof.
  unfold ntc_registry_list_routes. destruct (fst _) as [o|]; [|constructor]. cbn [snd].
  apply Forall_fmap, list.Forall_forall. intros r _. unfold row_fits, route_row. cbn.
  pose proof (copy_text_le 8 (column_text r 0)). pose proof (copy_text_le 128 (column_text r 1)).
  pose proof (copy_text_le 64 (column_text r 2)). split_and!; lia.
Qed.

Lemma openapi_item_fits i r emit :
  row_fits r -> (length (openapi_item i r emit) + (if (0 <? length emit)%nat then 0 else 160) <= length emit + 510)%nat.
Proof.
  intros (H1 & H2 & H3). unfold openapi_item. pose proof (openapi_path_fits (rr_pattern r) false []).
  pose proof (snprintf_le 8 (rr_method r)).
  assert (length (comma i) <= 1)%nat by (unfold comma; case_match; simpl; lia).
  len. rewrite length_map. destruct (0 <? length emit)%nat eqn:E; len; simpl in *; lia.
Qed.

(** Appending keeps [off] the length that would have been written. *)
Lemma appendf_ok cap s off t :
  0 <= off <= Z.of_nat cap -> exists s', appendf cap (s, off) t = Some (s', off + Z.of_nat (length t)).
Proof. intros H. unfold appendf. rewrite (proj2 (Z.ltb_ge _ off)) by lia. by eexists. Qed.

Lemma openapi_loop_fits schemas cap rows : Forall row_fits rows -> (1024 <= cap)%nat -> forall i s off,
  0 <= off <= Z.of_nat cap - 2 ->
  exists s' off', openapi_loop schemas cap rows i (s, off) = Some (s', off') /\ 0 <= off' <= Z.of_nat cap - 2.
Proof.
  intros Hr Hcap. induction Hr as [|r rows Hr _ IH]; intros i s off Ho; cbn [openapi_loop]; [by exists s, off|].
  cbn [snd]. destruct (Z.ltb_spec off (Z.of_nat cap - 512)) as [Hlt|]; cbn [negb]; [|by exists s, off].
  assert (exists o, gw_schema_for schemas (rr_method r) (rr_pattern r) = Some o) as [sch ->].
  { unfold gw_schema_for. repeat case_match; try by eexists. edestruct schema_loop_spec as (o & -> & _). by eexists. }
  bind. cbv zeta. set (em := match sch with Some _ => _ | None => _ end).
  set (emit := if off + Z.of_nat (length em) + 512 <? Z.of_nat cap then em else []).
  destruct (appendf_ok cap s off (openapi_item i r emit)) as [s' ->]; [lia|]. bind.
  pose proof (openapi_item_fits i r emit Hr) as Hf. apply IH.
  unfold emit in *. destruct (Z.ltb_spec (off + Z.of_nat (length em) + 512) (Z.of_nat cap)); [|simpl in *; lia].
  destruct (0 <? length em)%nat; lia.
Qed.

(** The text of a refusal whose detail was escaped. *)
Lemma escape_fits cap s t : ntc_json_escape cap s = Some t -> (length t < cap)%nat.
Proof.
  unfold ntc_json_escape. intros H. binv H as o Ho. destruct (Nat.leb_spec cap (length o)); [done|].
  injection H as <-. done.
Qed.

Lemma random_token_length u cap n t :
  ntc_random_token u cap n = Some t -> (length t <= 2 * n)%nat.
Proof.
  unfold ntc_random_token. case_match; [done|]. intros Ht. binv Ht as b Hb. injection Ht as <-.
  unfold fill_random in Hb. binv Hb as reads _.
  assert (forall reads got, (length got <= n)%nat -> fill_loop reads got n = Some b -> (length b <= n)%nat) as Hl.
  { clear. intros reads. induction reads as [|r reads IH]; intros got Hg; cbn [fill_loop];
      destruct (Nat.leb_spec n (length got)); try done; try (intros [= <-]; lia).
    cbv zeta. case_match; [done|]. apply IH. rewrite length_app, length_take. lia. }
  pose proof (Hl reads [] ltac:(simpl; lia) Hb).
  assert (forall l, length (concat (fmt_02x <$> l)) = 2 * length l)%nat as ->; [|lia].
  intros l. induction l as [|y l IHl]; [done|]. cbn. rewrite IHl. lia.
Qed.

Lemma session_format_total sid https age :
  (length sid <= 48)%nat -> is_Some (ntc_cookie_format 256 (bs "ntc_session") sid https age).
Proof.
  intros Hs. unfold ntc_cookie_format. cbv zeta.
  match goal with |- context [(256 <=? length ?t)%nat] => assert (length t < 256)%nat as Hl end.
  { len. destruct https; len; simpl; lia. }
  rewrite (proj2 (Nat.leb_gt _ _)) by exact Hl. by eexists.
Qed.
