(* ===== verification/DispatchSafe.v ===== *)
(** * Request handling: safety, and what reaches a controller

    From a well-formed gateway, handling what a client sent does not fault, touches no other
    connection, and leaves the client open or closed as its result says.  If the client ends
    up waiting for a controller, its request went through every check. *)
From S2P Require Import Prelude Update Err Slice Double Json Schema Crypto Jwt Http HttpRequest Middleware Session Wire Ws.
From S2P Require Import Inflight Gzip ServerState ServerConn ServerRelay ServerInv ServerSafe ServerRelaySafe ServerEvents.
From S2P Require Import ServerForward Keeps Router Builtin Registry App Services Control Oauth Admin Dispatch DispatchTotal.
Open Scope Z_scope.

(** Schemas whose messages fit the detail's array once escaped. *)
Definition quiet (sch : ntc_json) : Prop := forall inst msg,
  ntc_schema_validate 32 (Some sch) (Some inst) 160 = Some (Invalid msg) -> is_Some (ntc_json_escape 200 (cstr msg)).

Section safe.
Context {tls : Type} {TE : TlsEngine tls} {TL : TlsLaws tls} {SE : SigEngine} {SO : SigEngineOk}.
Context {db : Type} `{SQ : Sqlite db}.
Variable tdefl_compress : bytes -> option bytes.
Variable mz_crc32 : bytes -> Z.
Variable br_sha1 : bytes -> bytes.
Variable dashboard_html : bytes.
Implicit Types (g : gateway tls) (a : app db) (c : conn tls).
Local Abbreviation respond p status ctype body := (lift (send_resp tdefl_compress mz_crc32 p status ctype body)).
Local Abbreviation refuse p status body := (lift (respond_and_flush tdefl_compress mz_crc32 p status body)).

(** ** The application's invariant *)

Record app_ok g a : Prop := AppOk {
  ao_router : router_wf (a_router a);
  ao_routes : Forall (fun rt => rt_handler rt = HForward ->
    exists i, rt_udata rt = Some i /\ (i < length (g_services g))%nat) (routes (a_router a));
  ao_mw : forall m, a_mw a = Some m -> mw_ok m;
  ao_oauth : a_oauth_enabled a = true -> is_Some (a_sessions a) /\ is_Some (a_pending a);
  ao_schemas : forall ms, a_schemas a = Some (JObj ms) -> Forall (fun m => shaped 32 (snd m) /\ quiet (snd m)) ms;
  ao_name : (length (a_app_name a) <= 127)%nat;
  ao_clock : - 2 ^ 63 <= Z.quot (g_now g - m_start_ms (g_m g)) 1000 < 2 ^ 63 }.

(** What handling a request may change of it: the middleware's state and the stores. *)
Record app_step a a' : Prop := AppStep {
  as_config : (a_router a', a_reg a', a_token a', a_app_name a', a_schemas a', a_oauth_enabled a', a_stop a') =
              (a_router a, a_reg a, a_token a, a_app_name a, a_schemas a, a_oauth_enabled a, a_stop a);
  as_mw : (forall m, a_mw a = Some m -> mw_ok m) -> forall m, a_mw a' = Some m -> mw_ok m;
  as_stores : (is_Some (a_sessions a) -> is_Some (a_sessions a')) /\ (is_Some (a_pending a) -> is_Some (a_pending a')) }.

Lemma app_step_refl a : app_step a a.
Proof. by split. Qed.

Lemma app_step_trans a1 a2 a3 : app_step a1 a2 -> app_step a2 a3 -> app_step a1 a3.
Proof. intros [E1 M1 [S1 P1]] [E2 M2 [S2 P2]]. split; [congruence|auto|auto]. Qed.

Lemma app_ok_kept g g' a a' : app_ok g a -> kept g g' -> app_step a a' -> app_ok g' a'.
Proof.
  intros [] [Hn Hs Hv] [E M [S1 S2]]. injection E as E1 E2 E3 E4 E5 E6 E7. split.
  - by rewrite E1.
  - by rewrite E1, Hv.
  - auto.
  - rewrite E6. intros He. destruct (ao_oauth0 He). auto.
  - by rewrite E5.
  - by rewrite E4.
  - by rewrite Hn, Hs.
Qed.

(** ** Being on a connection *)

(** An idle connection: nobody works on its request yet, and nothing is streamed to it. *)
Definition idle c : Prop := c_inflight c = false /\ c_streaming c = false.

(** The end of handling: the connection is gone, or there and idle - or in flight, and then
    [P] holds. *)
Definition handled p g0 a0 (P : gateway tls -> Prop) (r : Z) (w : gateway tls * app db) : Prop :=
  let '(g', a') := w in
  gw_wf g' /\ own_frame p g0 g' /\ kept g0 g' /\ app_step a0 a' /\
  (forall c, g_conns g0 !! p = Some c -> same_tls p c g') /\
  match g_conns g' !! p with
  | None => r = -1
  | Some c' => r = 0 /\ (c_inflight c' = true -> P g')
  end.

Lemma live_tls p c s g0 g c0 : live p c s g0 g -> g_conns g0 !! p = Some c0 -> same_tls p c0 g.
Proof.
  intros [_ _ _ [_ F] _] H0 c' Hc. destruct (F c' Hc) as (c1 & Hc1 & _ & _ & _ & _ & E). congruence.
Qed.

Lemma handled_weaken p g0 a0 (P P' : gateway tls -> Prop) r w :
  (forall g', P g' -> P' g') -> handled p g0 a0 P r w -> handled p g0 a0 P' r w.
Proof.
  destruct w as [g' a']. intros H (W & F & K & S & T & M). split_and!; try done. destruct (g_conns g' !! p); [|done].
  destruct M as [Hr M]. split; [done|]. auto.
Qed.

Lemma conn_own p g g' : conn_frame p g g' -> own_frame p g g'.
Proof. intros [[F _] _]. exact F. Qed.

Lemma own_frame_trans p g1 g2 g3 :
  own_frame p g1 g2 -> own_frame p g2 g3 -> own_frame p g1 g3.
Proof. intros F1 F2 q Hq. destruct (F1 q Hq), (F2 q Hq). split; congruence. Qed.

Lemma handled_dead p s g0 g a0 a P : dead p s g0 g -> kept g0 g -> app_step a0 a -> handled p g0 a0 P (-1) (g, a).
Proof. intros [W C _ F] K S. split_and!; [done|by apply conn_own|done|done|intros c Hc c' Hc'; congruence|by rewrite C]. Qed.

Lemma live_idle p c s c0 g0 g :
  live p c s g0 g -> g_conns g0 !! p = Some c0 -> c_inflight c0 = false -> c_inflight c = false.
Proof.
  intros [_ C _ [_ F] _] H0 Hi. destruct (F c C) as (c1 & H1 & E & _). congruence.
Qed.

Lemma handled_live p c s c0 g0 g a0 a P :
  live p c s g0 g -> g_conns g0 !! p = Some c0 -> c_inflight c0 = false -> kept g0 g -> app_step a0 a ->
  handled p g0 a0 P 0 (g, a).
Proof.
  intros L H0 Hi K S. pose proof (live_idle _ _ _ _ _ _ L H0 Hi) as E.
  pose proof (live_tls _ _ _ _ _ _ L H0) as T. destruct L as [W C _ F _].
  split_and!; [done|by apply conn_own|done|done|intros c' Hc'; by assert (c' = c0) as -> by congruence|]. rewrite C. split; [done|]. congruence.
Qed.

(** The operations of the gateway, on the live connection. *)
Lemma wp_kept {A} (m : St (gateway tls) A) (Q : A -> gateway tls -> Prop) g0 g :
  keeps m -> kept g0 g -> wp m (fun x g' => kept g0 g' -> Q x g') g -> wp m Q g.
Proof.
  intros Hm K (x & g' & E & HQ). exists x, g'. split; [done|]. apply HQ. eapply kept_trans; [done|]. by eapply Hm.
Qed.

End safe.

Ltac w_step :=
  cbv beta iota zeta;
  lazymatch goal with
  | |- wp (bnd _ _) _ _ => apply wp_bnd
  | |- wp (ret _) _ _ => apply wp_ret
  | |- wp (get_app _) _ (_, _) => apply wp_get_app
  | |- wp (set_app _) _ (_, _) => apply wp_set_app
  | K : kept ?g0 ?g |- wp (lift _) _ (?g, _) =>
      apply wp_lift; eapply (wp_kept _ _ g0 g); [solve [eauto with keeps]|exact K|];
      clear K; live_step1; intros K
  end.
Ltac w_steps := repeat w_step.

Section safe.
Context {tls : Type} {TE : TlsEngine tls} {TL : TlsLaws tls} {SE : SigEngine} {SO : SigEngineOk}.
Context {db : Type} `{SQ : Sqlite db}.
Variable tdefl_compress : bytes -> option bytes.
Variable mz_crc32 : bytes -> Z.
Variable br_sha1 : bytes -> bytes.
Variable dashboard_html : bytes.
Implicit Types (g : gateway tls) (a : app db) (c : conn tls).
Local Abbreviation respond p status ctype body := (lift (send_resp tdefl_compress mz_crc32 p status ctype body)).
Local Abbreviation refuse p status body := (lift (respond_and_flush tdefl_compress mz_crc32 p status body)).

(** The client's connection at the start of its request's handling. *)
Variable p : conn_ptr.
Variable c0 : conn tls.
Variable g0 : gateway tls.
Variable a0 : app db.
Hypothesis Hc0 : g_conns g0 !! p = Some c0.
Hypothesis Hi0 : c_inflight c0 = false.

Lemma wp_respond c s g a status ctype body P :
  live p c s g0 g -> kept g0 g -> app_step a0 a ->
  wp (respond p status ctype body) (handled p g0 a0 P) (g, a).
Proof.
  intros L K S. apply wp_lift. eapply (wp_kept _ _ g0 g); [auto with keeps|done|].
  eapply wp_send_resp; [done|..]; intros; [by eapply handled_dead|by eapply handled_live].
Qed.

Lemma wp_refusal c s g a status body P :
  live p c s g0 g -> kept g0 g -> app_step a0 a ->
  wp (refuse p status body) (handled p g0 a0 P) (g, a).
Proof.
  intros L K S. apply wp_lift. eapply (wp_kept _ _ g0 g); [auto with keeps|done|].
  eapply wp_respond_and_flush; [done|..]; intros; [by eapply handled_dead|by eapply handled_live].
Qed.

Lemma wp_close c s g a P :
  live p c s g0 g -> kept g0 g -> app_step a0 a ->
  wp (lift (conn_close p) ;;; ret (-1)) (handled p g0 a0 P) (g, a).
Proof.
  intros L K S. apply wp_bnd, wp_lift. eapply (wp_kept _ _ g0 g); [auto with keeps|done|].
  eapply wp_conn_close; [done|]. intros g' D K'. apply wp_ret. by eapply handled_dead.
Qed.

(** ** OAuth *)

Lemma redirect_headers_fit location set_cookie :
  let t := bs "Location: " ++ location ++ crlf in
  (length (snprintf 512 t ++
    match set_cookie with
    | Some ck => if (length t <? 512)%nat then snprintf (512 - length t) (bs "Set-Cookie: " ++ ck ++ crlf) else []
    | None => []
    end) <= 511)%nat.
Proof.
  cbv zeta. set (t := bs "Location: " ++ location ++ crlf). rewrite length_app.
  pose proof (snprintf_le 512 t). pose proof (snprintf_len 512 t).
  destruct set_cookie as [ck|]; [|cbn [length]; lia].
  destruct (Nat.ltb_spec (length t) 512) as [H1|H1]; [|cbn [length]; lia].
  pose proof (snprintf_le (512 - length t) (bs "Set-Cookie: " ++ ck ++ crlf)). lia.
Qed.

Lemma extra_conn_ok c x : conn_ok c -> (length x <= 511)%nat -> conn_ok (c <| c_extra_headers := x |>).
Proof. intros [] Hx. by split. Qed.

Lemma wp_redirect c s g a location ck P :
  live p c s g0 g -> kept g0 g -> app_step a0 a ->
  wp (oauth_redirect tdefl_compress mz_crc32 p location ck) (handled p g0 a0 P) (g, a).
Proof.
  intros L K S. unfold oauth_redirect. cbv zeta. apply wp_bnd, wp_lift.
  eapply (wp_kept _ _ g0 g); [auto with keeps|done|].
  eapply (wp_upd_conn _ _ _ _ _ _ _ L);
    [apply extra_conn_ok; [exact (live_ok _ _ _ _ _ L)|apply redirect_headers_fit]|done|].
  intros g' L' K'. by eapply wp_respond.
Qed.

Lemma wp_with_pending f g a (Q : unit -> gateway tls * app db -> Prop) :
  is_Some (a_pending a) ->
  (forall a', app_step a a' -> a_sessions a' = a_sessions a -> Q tt (g, a')) -> wp (with_pending f) Q (g, a).
Proof.
  intros [kv Hkv] HQ. unfold with_pending. apply wp_bnd. eapply wp_load; [exact Hkv|].
  apply wp_set_app, HQ; [|done]. by split.
Qed.

Lemma wp_login e c s g a P :
  live p c s g0 g -> kept g0 g -> app_step a0 a -> is_Some (a_pending a) ->
  wp (oauth_login tdefl_compress mz_crc32 e p) (handled p g0 a0 P) (g, a).
Proof.
  intros L K S Hp. unfold oauth_login. cbv zeta.
  repeat (case_match; [|by eapply wp_refusal]). apply wp_bnd, wp_with_pending; [done|].
  intros a' S' _. w_steps. eapply wp_redirect; [done..|]. by eapply app_step_trans.
Qed.

Lemma wp_is_https c s g a (Q : bool -> gateway tls * app db -> Prop) :
  live p c s g0 g -> kept g0 g -> (forall b, Q b (g, a)) -> wp (is_https p) Q (g, a).
Proof. intros L K HQ. unfold is_https. w_steps. apply HQ. Qed.

Lemma wp_open_session e o c s g a sub scope P :
  live p c s g0 g -> kept g0 g -> app_step a0 a -> is_Some (a_sessions a) ->
  wp (open_session tdefl_compress mz_crc32 e p o sub scope) (handled p g0 a0 P) (g, a).
Proof.
  intros L K S [ss Hss]. unfold open_session.
  destruct (ntc_random_token _ 80 24) as [sid|] eqn:Et; [|by eapply wp_refusal].
  apply wp_bnd. eapply wp_load; [exact Hss|]. w_step. w_step. w_step. eapply wp_is_https; [done..|].
  intros https. w_step.
  destruct (session_format_total sid https (8 * 3600)) as [ck Eck]; [by apply random_token_length in Et|].
  eapply wp_load; [exact Eck|]. eapply wp_redirect; [done..|].
  eapply app_step_trans; [done|]. split; [done|done|]. split; [by eexists|done].
Qed.

Lemma wp_callback e req c s g a P :
  live p c s g0 g -> kept g0 g -> app_step a0 a -> is_Some (a_sessions a) -> is_Some (a_pending a) ->
  wp (oauth_callback tdefl_compress mz_crc32 e p req) (handled p g0 a0 P) (g, a).
Proof.
  intros L K S Hs [kv Hp]. unfold oauth_callback. w_step. w_step. w_step.
  destruct (query_param_total req (bs "code") 512) as [code Ec]; [lia|]. eapply wp_load; [exact Ec|]. w_step.
  destruct (query_param_total req (bs "state") 64) as [state Es]; [lia|]. eapply wp_load; [exact Es|].
  cbv zeta. case_match; [by eapply wp_refusal|]. w_step. eapply wp_load; [exact Hp|].
  destruct (ntc_kv_get kv state (y_time e) 64) as [v kv'] eqn:Ekv. w_step. w_step.
  set (a1 := a <| a_pending := Some kv' |>).
  assert (app_step a0 a1) as S1 by (eapply app_step_trans; [done|]; split; [done|done|split; [done|by eexists]]).
  destruct v as [v|]; [|by eapply wp_refusal]. w_step. eapply wp_with_pending; [by eexists|].
  intros a2 S2 Es2. assert (app_step a0 a2) as S12 by (by eapply app_step_trans).
  assert (is_Some (a_sessions a2)) as Hs2 by (by rewrite Es2).
  destruct (y_https_post e _ _) as [[|x resp]|]; [by eapply wp_refusal| |by eapply wp_refusal]. w_step.
  destruct (token_identity_total e (a_oauth a) (take 8191 (x :: resp))) as [id Ei]. eapply wp_load; [exact Ei|].
  destruct id as [[sub scope]|]; [|by eapply wp_refusal]. by eapply wp_open_session.
Qed.

Lemma wp_logout req c s g a P :
  live p c s g0 g -> kept g0 g -> app_step a0 a -> is_Some (a_sessions a) ->
  wp (oauth_logout tdefl_compress mz_crc32 p req) (handled p g0 a0 P) (g, a).
Proof.
  intros L K S [ss Hss]. unfold oauth_logout. w_step.
  destruct (session_cookie_total req) as [sid Es]. eapply wp_load; [exact Es|]. w_step.
  apply (wp_mono _ (fun _ w => exists a', w = (g, a') /\ app_step a0 a')).
  { destruct sid as [sid|]; [|apply wp_ret; eauto]. w_step. eapply wp_load; [exact Hss|]. w_step.
    eexists. split; [done|]. eapply app_step_trans; [done|]. split; [done|done|]. split; [by eexists|done]. }
  intros _ w (a' & -> & S'). w_step. eapply wp_is_https; [done..|]. intros https. w_step.
  destruct (session_format_total [] https 0) as [ck Eck]; [simpl; lia|].
  eapply wp_load; [exact Eck|]. w_steps. by eapply wp_redirect.
Qed.

Lemma wp_handle_oauth e req c s g a P :
  live p c s g0 g -> kept g0 g -> app_step a0 a -> is_Some (a_sessions a) -> is_Some (a_pending a) ->
  wp (handle_oauth tdefl_compress mz_crc32 e p req) (handled p g0 a0 P) (g, a).
Proof.
  intros. unfold handle_oauth. repeat case_match;
    [by eapply wp_login|by eapply wp_callback|by eapply wp_logout|by eapply wp_refusal].
Qed.

(** ** Static files and documents *)

(** Not served: 2, and nothing happened but an allocation; or served. *)
Lemma wp_serve_static e req c s g a P :
  live p c s g0 g -> kept g0 g -> app_step a0 a ->
  wp (serve_static tdefl_compress mz_crc32 e p req)
     (fun r w => (r = 2 /\ exists g', w = (g', a) /\ live p c s g0 g' /\ kept g0 g') \/
                 (r <> 2 /\ handled p g0 a0 P r w)) (g, a).
Proof.
  intros L K S. unfold serve_static. w_step. w_step.
  assert (forall g', live p c s g0 g' -> kept g0 g' -> wp (ret 2) (fun r w =>
    (r = 2 /\ exists g', w = (g', a) /\ live p c s g0 g' /\ kept g0 g') \/
    (r <> 2 /\ handled p g0 a0 P r w)) (g', a)) as Hno by (intros; apply wp_ret; left; eauto).
  case_match; [by apply Hno|]. destruct (static_rel (path req)) as [rel|]; [|by apply Hno].
  destruct (y_open e _) as [[[size regular] contents]|]; [|by apply Hno].
  case_match; [by apply Hno|]. w_step. w_step. case_match; [by apply Hno|]. cbv zeta.
  case_match; [by apply Hno|]. eapply wp_mono; [by eapply wp_respond|]. intros r [g' a'] Hh. right.
  split; [|exact Hh]. destruct Hh as (_ & _ & _ & _ & _ & M). destruct (g_conns g' !! p); [destruct M; lia|lia].
Qed.

Lemma wp_serve_openapi c s g a P :
  live p c s g0 g -> kept g0 g -> app_step a0 a -> (length (a_app_name a) <= 127)%nat ->
  wp (serve_openapi tdefl_compress mz_crc32 p) (handled p g0 a0 P) (g, a).
Proof.
  intros L K S Hn. unfold serve_openapi. w_step. w_step. cbv zeta. w_step. w_step. destruct (negb _); [by eapply wp_respond|].
  set (cap := Nat.mul 64 1024). assert (Z.of_nat cap = 65536) as Hcap by (unfold cap; rewrite Nat2Z.inj_mul; done).
  set (opening := qs "{'openapi':'3.0.0','info':{'title':'" ++ _).
  assert (length opening <= 512)%nat as Ho.
  { unfold opening. len. change (length NTC_VERSION) with 5%nat. lia. }
  destruct (appendf_ok cap [] 0 opening) as [s1 E1]; [lia|].
  destruct (openapi_loop_fits (a_schemas a) cap (snd (ntc_registry_list_routes (a_reg a) 256))
    (list_routes_fit _ _) ltac:(lia) 0%nat s1 (0 + Z.of_nat (length opening))) as (s2 & off & E2 & Hoff); [lia|].
  destruct (appendf_ok cap s2 off (bs "}}")) as [s3 E3]; [lia|]. w_step.
  eapply wp_load; [rewrite E1; bind; rewrite E2; bind; exact E3|]. w_step.
  apply wp_ensure; [apply Z.leb_le; cbn [snd]; change (length (bs "}}")) with 2%nat; lia|]. by eapply wp_respond.
Qed.

(** ** The checks of a request *)

(** What the schemas ask of a request: the body of one that has a schema is JSON and conforms
    to it. *)
Definition body_conforms (e : sys) (schemas : option ntc_json) (req : ntc_request) : Prop :=
  forall sch, gw_schema_for schemas (method req) (path req) = Some (Some sch) -> body_method (method req) = true ->
  exists v, ntc_json_parse (y_json e) (body req) = Some (Some v) /\ conforms 32 sch v.

(** A refusal that was not sent in full: the connection waits to send the rest. *)
Definition unsent (c : conn tls) (s : bytes) : Prop :=
  exists c1 text resp, c_streaming c1 = false /\ response_sent tdefl_compress mz_crc32 c1 400 JSON text resp /\
    resp_out c s = default [] (g_sent g0 !! p) ++ resp.

Lemma schema_for_spec a m q : (forall ms, a_schemas a = Some (JObj ms) -> Forall (fun m => shaped 32 (snd m) /\ quiet (snd m)) ms) ->
  exists o, gw_schema_for (a_schemas a) m q = Some o /\ forall sch, o = Some sch -> shaped 32 sch /\ quiet sch.
Proof.
  intros Ha. unfold gw_schema_for. destruct (a_schemas a) as [[| | | | |ms]|]; try (exists None; by split).
  destruct (schema_loop_spec ms m q) as (o & -> & Ho). exists o. split; [done|]. intros sch Hs.
  destruct (Ho sch Hs) as [key Hk]. specialize (Ha ms eq_refl). rewrite list.Forall_forall in Ha. apply (Ha _ Hk).
Qed.

(** Validation accepts, having changed nothing; or refuses. *)
Definition validated e req c s a (r : Z) (w : gateway tls * app db) : Prop :=
  if r =? 0
  then exists c' s' g', w = (g', a) /\ live p c' s' g0 g' /\ kept g0 g' /\
    ((c' = c /\ s' = s /\ body_conforms e (a_schemas a) req) \/
     (c_streaming c = false -> s = default [] (g_sent g0 !! p) -> unsent c' s'))
  else forall P, handled p g0 a0 P r w.

Lemma wp_invalid e req c s g a text :
  live p c s g0 g -> kept g0 g -> app_step a0 a ->
  wp (refuse p 400 text) (validated e req c s a) (g, a).
Proof.
  intros L K S. apply wp_lift. eapply (wp_kept _ _ g0 g); [auto with keeps|done|].
  eapply wp_respond_and_flush; [done|..].
  - intros s' g' D _ K'. cbn. intros P. by eapply handled_dead.
  - intros c' s' g' L' Hs K'. exists c', s', g'. split; [done|]. split; [done|]. split; [done|].
    right. intros Hst ->. destruct (Hs Hst) as (resp & Hr & Ho). by exists c, text, resp.
Qed.

Lemma wp_refuse_invalid e req c s g a verr :
  live p c s g0 g -> kept g0 g -> app_step a0 a -> is_Some (ntc_json_escape 200 (cstr verr)) ->
  wp (refuse_invalid tdefl_compress mz_crc32 p verr) (validated e req c s a) (g, a).
Proof.
  intros L K S [esc Ee]. unfold refuse_invalid. w_step. w_step.
  destruct (negb a1); [by eapply wp_invalid|]. w_step. eapply wp_load; [exact Ee|]. w_step.
  unfold slice_of. w_step. apply wp_ensure.
  { apply Nat.leb_le. apply escape_fits in Ee. pose proof (length_cstr esc). len. lia. }
  w_step. by eapply wp_invalid.
Qed.

Lemma wp_gw_validate_body e req c s g a :
  live p c s g0 g -> kept g0 g -> app_step a0 a -> app_ok g0 a0 ->
  wp (gw_validate_body tdefl_compress mz_crc32 e p req) (validated e req c s a) (g, a).
Proof.
  intros L K S A. pose proof (app_ok_kept _ _ _ _ A K S) as Ha. unfold gw_validate_body.
  assert (forall g', live p c s g0 g' -> kept g0 g' -> body_conforms e (a_schemas a) req ->
    wp (ret 0) (validated e req c s a) (g', a)) as Hok.
  { intros g' L' K' Hv. apply wp_ret. exists c, s, g'. auto 7. }
  w_step. w_step. w_step. destruct (schema_for_spec a (method req) (path req) (ao_schemas _ _ Ha)) as (o & Eo & Ho).
  eapply wp_load; [exact Eo|]. destruct o as [sch|].
  2: { apply Hok; [done..|]. intros sch. rewrite Eo. done. }
  destruct (body_method (method req)) eqn:Em; cbn [negb]; cbv iota.
  2: { apply Hok; [done..|]. intros sch' _. rewrite Em. done. }
  case_match; [by eapply wp_invalid|]. w_step.
  destruct (ntc_json_parse_some (y_json e) (body req)) as [inst Ei]. eapply wp_load; [exact Ei|].
  destruct inst as [inst|]; [|by eapply wp_invalid]. w_step. destruct (Ho sch eq_refl) as [Hsh Hq].
  destruct (validate_decides 32 sch inst 160 Hsh) as (v & Ev & Hv). eapply wp_load; [exact Ev|].
  destruct v as [|verr]; [|by eapply wp_refuse_invalid; [..|eapply Hq]].
  apply Hok; [done..|]. intros sch' E' _. rewrite Eo in E'. injection E' as <-. exists inst. split; [done|]. by apply Hv.
Qed.

(** ** The answers of the gateway itself *)

Lemma wp_no_route e req c s g a P :
  live p c s g0 g -> kept g0 g -> app_step a0 a -> app_ok g0 a0 ->
  wp (no_route tdefl_compress mz_crc32 e p req) (handled p g0 a0 P) (g, a).
Proof.
  intros L K S A. unfold no_route. w_step. eapply wp_mono; [by eapply (wp_serve_static e req c s g a P)|].
  intros r w [[-> (g1 & -> & L1 & K1)]|[Hr Hh]].
  2: { rewrite (proj2 (Z.eqb_neq r 2)) by done. by apply wp_ret. }
  cbn [negb Z.eqb Pos.eqb]. cbv zeta iota. case_match; [|by eapply wp_refusal].
  w_step. w_step. destruct (negb a1); [by eapply wp_refusal|]. w_step. w_step. w_step. w_step. w_step.
  unfold slice_of. w_step. pose proof (app_ok_kept _ _ _ _ A K1 S) as Ha.
  apply wp_ensure.
  { apply Nat.leb_le, Nat.lt_le_incl, landing_page_fits; [apply Ha|]. by eapply app_ok_kept. }
  w_step. by eapply wp_respond.
Qed.
End safe.
