(* ===== verification/RequestSafe.v ===== *)
(** * What reaches a controller

    Dispatch, the middleware and [process_request] from a well-formed gateway: the request of
    a client that ends up waiting for a controller was parsed from its bytes, was let through
    by the middleware, has a route to the controller's service and a body its schema accepts,
    and is what the controller is sent. *)
From S2P Require Import Prelude Update Err Slice Double Json Schema Crypto Jwt Http HttpRequest Middleware Session Wire Ws.
From S2P Require Import Inflight Gzip ServerState ServerConn ServerRelay ServerInv ServerSafe ServerRelaySafe ServerEvents.
From S2P Require Import ServerForward Keeps Router Builtin Registry App Services Control Oauth Admin Dispatch DispatchTotal.
From S2P Require Import DispatchSafe.
Open Scope Z_scope.

(** ** The bytes of a request *)

Lemma find_header_in (f : bytes -> bool) hs v : find_header f hs = Some v -> exists h, h ∈ hs /\ h_value h = v.
Proof.
  induction hs as [|h hs IH]; cbn [find_header]; [done|]. case_match.
  - intros [= <-]. exists h. split; [left|done].
  - intros E. destruct (IH E) as (h' & Hh & Ev). exists h'. split; [by right|done].
Qed.

Lemma header_bytes hs lines : Forall2 header_line hs lines -> bytes_ok (concat lines) -> Forall (fun h => bytes_ok (h_value h)) hs.
Proof.
  induction 1 as [|h l hs lines (pre & post & -> & _) _ IH]; [constructor|]. cbn [concat].
  rewrite !list.Forall_app. intros Hb. destruct_and! Hb. constructor; [done|by apply IH].
Qed.

(** A parsed request is made of the buffer's bytes. *)
Lemma parsed_bytes buf req n :
  parsed buf req n -> bytes_ok buf -> bytes_ok (bearer req) /\ (length (body req) <= length buf)%nat.
Proof.
  intros Hp Hb. split; [|pose proof (p_consumed _ _ _ Hp); lia].
  destruct (p_text _ _ _ Hp) as (lines & -> & Hl).
  rewrite !list.Forall_app in Hb. destruct Hb as (_ & Hc & _).
  pose proof (header_bytes _ _ Hl Hc) as Hv. unfold bearer, ntc_http_header.
  destruct (find_header _ _) as [v|] eqn:E; [|constructor]. apply find_header_in in E as (h & Hh & <-).
  rewrite list.Forall_forall in Hv. by apply Hv.
Qed.

Section check.
Context {tls : Type} {TE : TlsEngine tls} {TL : TlsLaws tls} {SE : SigEngine} {SO : SigEngineOk}.
Context {db : Type} `{SQ : Sqlite db}.
Variable tdefl_compress : bytes -> option bytes.
Variable mz_crc32 : bytes -> Z.
Variable br_sha1 : bytes -> bytes.
Variable dashboard_html : bytes.
Implicit Types (g : gateway tls) (a : app db) (c : conn tls).

(** ** What is asked of a request *)

Definition REQUEST_TYPES : list Z := [NTC_MSG_REQUEST; NTC_MSG_WS_OPEN].

(** The connection waits for a controller of service [svc], in whose queue is [fr], behind
    what was there. *)
Definition delivered p svc (fr : ntc_request) g0 g : Prop :=
  exists c' k ct ct' ty q1 q2, g_conns g !! p = Some c' /\ c_wait_ctrl c' = Some k /\
    g_ctrls g0 !! k = Some ct /\ k_svc ct = Some svc /\ g_ctrls g !! k = Some ct' /\ ty ∈ REQUEST_TYPES /\
    k_wbuf ct' = k_wbuf ct ++ q1 ++
      (ntc_wire_write_header ty (c_req_id c') (Z.of_nat (length (request_spec (clip fr)))) ++
       request_spec (clip fr)) ++ q2.

(** The middleware lets the request through, and says who sends it. *)
Definition let_through e c g a req (sub scope : bytes) : Prop :=
  match a_mw a with
  | None => sub = c_auth_sub c /\ scope = c_auth_scope c
  | Some m => exists id r m', session_identity e (a_sessions a) req = Some id /\
      ntc_mw_before (y_mw e) m req (c_client_ip c) (g_now g) (bool_decide (is_Some id)) = Some (false, r, m') /\
      sub = to_cstr 128 (fst (default (r_auth_sub r, r_auth_scope r) id)) /\
      scope = to_cstr 256 (snd (default (r_auth_sub r, r_auth_scope r) id)) /\
      (preflight m req = false -> protected (w_cfg m) (path req) (bool_decide (is_Some id)) = true ->
       credentials (w_cfg m) (w_jwks m') (e_time (y_mw e)) (bearer req))
  end.

(** The route the request takes. *)
Definition forwards a req (svc : nat) (ps : list ntc_header) : Prop :=
  exists segs rt, path_segs (path req) = Some segs /\ first_route (routes (a_router a)) (method req) segs = Some rt /\
    rt_handler rt = HForward /\ rt_udata rt = Some svc /\ ps = captured rt segs.

(** The request, past every check, is with a controller: with the client's identity, and a
    body that conforms to its schema.  A body that does not conform was refused, and the
    refusal is unsent. *)
Definition vetted e p c g0 a0 req g : Prop :=
  exists svc ps, forwards a0 req svc ps /\
    ((exists sub scope, let_through e c g0 a0 req sub scope /\ body_conforms e (a_schemas a0) req /\
        delivered p svc (enrich req ps sub scope) g0 g) \/
     (exists sub scope c1 s1, unsent tdefl_compress mz_crc32 p g0 c1 s1 /\
        delivered p svc (enrich req ps sub scope) g0 g)).

(** ** Handing over *)

(** What the gateway counts. *)
Lemma wp_count (f : gateway tls -> gateway tls) p c s g0 g a (Q : unit -> gateway tls * app db -> Prop) :
  live p c s g0 g -> kept g0 g -> (forall g, same_core g (f g)) -> (forall g, kept g (f g)) ->
  (forall g', live p c s g0 g' -> kept g0 g' -> Q tt (g', a)) -> wp (lift (modify f)) Q (g, a).
Proof.
  intros L K Hc Hk HQ. apply wp_lift, wp_modify. apply HQ; [by eapply live_core|]. by eapply kept_trans.
Qed.

Lemma ctrl_before p c s g0 g k ct :
  live p c s g0 g -> g_ctrls g !! k = Some ct ->
  exists ct0 q, g_ctrls g0 !! k = Some ct0 /\ k_svc ct0 = k_svc ct /\ k_wbuf ct = k_wbuf ct0 ++ q.
Proof.
  intros [_ _ _ [[_ (_ & Hd & F)] _] _] Hk. destruct (Hd k) as [ct0 H0]; [by eexists|].
  destruct (F k ct0 H0) as (ct' & H' & S). assert (ct' = ct) as -> by congruence.
  destruct S as (_ & _ & E & _ & _ & _ & [q Hq]). exists ct0, q. by rewrite E.
Qed.

(** The connection was handed over. *)
Lemma handed_delivered p c s g0 g fr svc ty c' k ct ct' q2 g' :
  live p c s g0 g -> g_ctrls g !! k = Some ct -> k_svc ct = Some svc ->
  g_conns g' !! p = Some c' -> c_wait_ctrl c' = Some k -> g_ctrls g' !! k = Some ct' -> ty ∈ REQUEST_TYPES ->
  k_wbuf ct' = (k_wbuf ct ++ ntc_wire_write_header ty (c_req_id c') (Z.of_nat (length (request_spec (clip fr)))) ++
    request_spec (clip fr)) ++ q2 ->
  delivered p svc fr g0 g'.
Proof.
  intros L Hk Hs Hc' Hw Hk' Hty Eq. destruct (ctrl_before _ _ _ _ _ _ _ L Hk) as (ct0 & q & H0 & E0 & Eq0).
  exists c', k, ct0, ct', ty, q, q2. split_and!; try done; [congruence|]. rewrite Eq, Eq0. by rewrite <- !app_assoc.
Qed.

Lemma handed_over_delivered p c s g0 g fr svc r g' :
  live p c s g0 g -> handed_over tdefl_compress mz_crc32 p c fr svc g r g' ->
  gw_wf g' /\ own_frame p g g' /\ same_tls p c g' /\
  match g_conns g' !! p with
  | None => r = -1
  | Some c' => r = 0 /\ (c_inflight c' = true -> delivered p svc fr g0 g')
  end.
Proof.
  intros L [(W & F & T & _ & M)|(-> & W & F & T & c' & k & id & ct & ct' & Hc' & _ & Hw & <- & _ & Hk & Hs & Hk' & Eq)].
  - split_and!; [done..|]. destruct (g_conns g' !! p); [|done]. destruct M as [-> Hi]. split; [done|congruence].
  - split_and!; [done..|]. rewrite Hc'. split; [done|]. intros _.
    eapply (handed_delivered _ _ _ _ _ _ _ NTC_MSG_REQUEST _ _ _ _ []); [done..|left|].
    by rewrite app_nil_r.
Qed.

Lemma ws_handed_delivered p c s g0 g fr svc r g' :
  live p c s g0 g -> ws_handed_over tdefl_compress mz_crc32 br_sha1 p c fr svc g r g' ->
  gw_wf g' /\ own_frame p g g' /\ same_tls p c g' /\
  match g_conns g' !! p with
  | None => r = -1
  | Some c' => r = 0 /\ (c_inflight c' = true -> delivered p svc fr g0 g')
  end.
Proof.
  intros L [(W & F & T & _ & M)|(W & F & T & M)]; (split_and!; [done..|]); destruct (g_conns g' !! p) eqn:Hc; try done.
  - destruct M as [-> Hi]. split; [done|congruence].
  - destruct M as [-> (c' & k & id & ct & ct' & key & acc & Hc' & _ & Hw & <- & _ & _ & Hk & Hs & Hk' & [q2 Eq] & _)].
    split; [done|]. intros _. eapply (handed_delivered _ _ _ _ _ _ _ NTC_MSG_WS_OPEN _ _ _ _ q2); [done..|right; left|done].
Qed.
End check.

Section dispatch.
Context {tls : Type} {TE : TlsEngine tls} {TL : TlsLaws tls} {SE : SigEngine} {SO : SigEngineOk}.
Context {db : Type} `{SQ : Sqlite db}.
Variable tdefl_compress : bytes -> option bytes.
Variable mz_crc32 : bytes -> Z.
Variable br_sha1 : bytes -> bytes.
Variable dashboard_html : bytes.
Implicit Types (g : gateway tls) (a : app db) (c : conn tls).
Local Abbreviation respond p status ctype body := (lift (send_resp tdefl_compress mz_crc32 p status ctype body)).
Local Abbreviation refuse p status body := (lift (respond_and_flush tdefl_compress mz_crc32 p status body)).

(** An idle client, before its request is handled. *)
Variable p : conn_ptr.
Variable c0 : conn tls.
Variable g0 : gateway tls.
Variable a0 : app db.
Hypothesis Hc0 : g_conns g0 !! p = Some c0.
Hypothesis Hi0 : idle c0.
Hypothesis A0 : app_ok g0 a0.

Definition sent0 : bytes := default [] (g_sent g0 !! p).

(** What [dispatch_forward] gives the controller. *)
Definition passed e c req svc ps g : Prop :=
  (body_conforms e (a_schemas a0) req /\ delivered p svc (enrich req ps (c_auth_sub c) (c_auth_scope c)) g0 g) \/
  (exists sub scope c1 s1, unsent tdefl_compress mz_crc32 p g0 c1 s1 /\ delivered p svc (enrich req ps sub scope) g0 g).

Lemma handled_handover P r g a c' s' g' a' :
  live p c' s' g0 g -> kept g0 g' -> app_step a0 a' ->
  gw_wf g' /\ own_frame p g g' /\ same_tls p c' g' /\
  match g_conns g' !! p with None => r = -1 | Some c'' => r = 0 /\ (c_inflight c'' = true -> P g') end ->
  handled p g0 a0 P r (g', a').
Proof.
  intros L K S (W & F & T & M). split_and!; [done| |done|done| |done].
  - eapply own_frame_trans; [|exact F]. apply conn_own, L.
  - intros c Hc c2 Hc2. rewrite (T c2 Hc2). eapply live_tls; [exact L|done|apply L].
Qed.

Lemma wp_hand_over (fr : ntc_request) svc c s g a (P : gateway tls -> Prop) :
  live p c s g0 g -> kept g0 g -> app_step a0 a -> (svc < length (g_services g0))%nat ->
  (length (body fr) <= NTC_CONN_RBUF)%nat -> (forall g', delivered p svc fr g0 g' -> P g') ->
  wp (if ntc_slice_eq_cstr (default [] (ntc_http_header fr (bs "upgrade"))) (bs "websocket")
      then lift (gw_ws_upgrade tdefl_compress mz_crc32 br_sha1 p fr svc)
      else lift (gw_forward tdefl_compress mz_crc32 p fr svc)) (handled p g0 a0 P) (g, a).
Proof.
  intros L K S Hsvc Hb HP.
  assert (is_Some (g_services g !! svc)) as Hs by (apply lookup_lt_is_Some; rewrite (kp_services _ _ K); done).
  assert (ok32 (body fr) = true) as Hok by (apply Z.ltb_lt, rbuf_small; lia).
  assert (c_inflight c = false) as Hi by (eapply live_idle; [exact L|exact Hc0|apply Hi0]).
  assert (forall r g', gw_wf g' /\ own_frame p g g' /\ same_tls p c g' /\ match g_conns g' !! p with
      | None => r = -1 | Some c' => r = 0 /\ (c_inflight c' = true -> delivered p svc fr g0 g') end ->
    kept g0 g' -> handled p g0 a0 P r (g', a)) as Hend.
  { intros r g' H K'. eapply handled_weaken; [exact HP|]. by eapply handled_handover. }
  case_match; apply wp_lift; (eapply (wp_kept _ _ g0 g); [auto with keeps|done|]).
  - eapply wp_gw_ws_upgrade; [apply L|apply L|done..|]. intros r g' Hh. apply Hend. by eapply ws_handed_delivered.
  - eapply wp_gw_forward; [apply L|apply L|done..|]. intros r g' Hh. apply Hend. by eapply handed_over_delivered.
Qed.

Lemma wp_dispatch_forward e req hit svc c g a :
  live p c sent0 g0 g -> kept g0 g -> app_step a0 a -> c_streaming c = false ->
  hit_udata hit = Some svc -> (svc < length (g_services g0))%nat -> (length (body req) <= NTC_CONN_RBUF)%nat ->
  wp (dispatch_forward tdefl_compress mz_crc32 br_sha1 e p req hit)
     (handled p g0 a0 (passed e c req svc (hit_params hit))) (g, a).
Proof.
  intros L K S Hst Hu Hsvc Hb. unfold dispatch_forward. w_step.
  eapply wp_mono; [by eapply wp_gw_validate_body|]. intros r w Hv. unfold validated in Hv.
  destruct (Z.eqb_spec r 0) as [->|Hr]; cbn [negb]; cbv iota; [|apply wp_ret, Hv].
  destruct Hv as (c' & s' & g' & -> & L' & K' & Hv). w_step.
  eapply wp_count; [done|done|intros; by split|intros; by split|]. clear g' L' K'. intros g' L' K'. do 3 w_step.
  eapply wp_load; [exact Hu|]. cbv zeta. eapply wp_hand_over; [done..|].
  intros g2 Hd. replace (a_schemas a) with (a_schemas a0) in Hv by (destruct S as [E _ _]; congruence).
  destruct Hv as [(-> & _ & Hv)|Hv]; [left|right]; [done|].
  eexists _, _, c', s'. split; [by apply Hv|exact Hd].
Qed.

(** ** Dispatch *)

Lemma wp_dispatch_builtin hit c s g a P :
  live p c s g0 g -> kept g0 g -> app_step a0 a ->
  wp (dispatch_builtin tdefl_compress mz_crc32 p hit) (handled p g0 a0 P) (g, a).
Proof.
  intros L K S. destruct Hi0 as [Hi _]. unfold dispatch_builtin. w_step.
  eapply wp_count; [done|done|intros; by split|intros; by split|]. clear g L K. intros g L K. w_step.
  apply (wp_mono _ (fun _ w => exists g', w = (g', a) /\ live p c s g0 g' /\ kept g0 g')).
  { case_match; w_steps; eauto. }
  clear g L K. intros ok w (g & -> & L & K). destruct (run_handler _ _ _) as [res|]; [|by eapply wp_refusal].
  w_step. w_step. w_step. apply wp_lift. eapply (wp_kept _ _ g0); [auto with keeps|exact K|]. clear K.
  eapply wp_conn_respond; [done|..].
  - intros c' h1 Lh Kh. cbn [negb Z.eqb]. by eapply wp_close.
  - intros c' h1 Lh _ _ _ Kh. cbn [negb Z.eqb]. apply wp_lift. eapply (wp_kept _ _ g0 h1); [auto with keeps|done|].
    eapply wp_conn_flush; [done|..]; intros; [by eapply handled_dead|by eapply handled_live].
Qed.

(** The route that a match takes. *)
Lemma match_found a g req hit :
  app_ok g a -> ntc_router_match (a_router a) (method req) (path req) = Some (NTC_ROUTE_FOUND, Some hit) ->
  hit_handler hit = HForward -> exists svc, hit_udata hit = Some svc /\ (svc < length (g_services g))%nat /\
    forwards a req svc (hit_params hit).
Proof.
  intros A. rewrite router_match_spec by apply A. unfold route_spec.
  destruct (path_segs (path req)) as [segs|] eqn:Ep; [|done].
  destruct (first_route _ _ segs) as [rt|] eqn:Er; [|done]. intros [= <-]. cbn. intros Hh.
  pose proof (ao_routes _ _ A) as Hr. rewrite list.Forall_forall in Hr.
  destruct (Hr rt) as (i & Hi & Hlt); [by eapply first_route_in|done|]. exists i. split_and!; [done|done|].
  by exists segs, rt.
Qed.

Lemma wp_gw_dispatch e req c g a :
  live p c sent0 g0 g -> kept g0 g -> app_step a0 a -> c_streaming c = false -> (length (body req) <= NTC_CONN_RBUF)%nat ->
  wp (gw_dispatch tdefl_compress mz_crc32 br_sha1 e p req)
     (handled p g0 a0 (fun g' => exists svc ps, forwards a0 req svc ps /\ passed e c req svc ps g')) (g, a).
Proof.
  intros L K S Hst Hb. pose proof (app_ok_kept _ _ _ _ A0 K S) as A. destruct Hi0 as [Hi _]. unfold gw_dispatch. w_step. w_step.
  destruct (a_oauth_enabled a && _) eqn:Eo.
  { apply andb_true_iff in Eo as [Eo _]. destruct (ao_oauth _ _ A Eo). by eapply wp_handle_oauth. }
  case_match.
  { repeat case_match; try (by eapply wp_respond). eapply wp_serve_openapi; [done..|apply A]. }
  w_step. w_step. w_step. destruct (ntc_router_match _ _ _) as [[st hit]|] eqn:Em.
  2: { by rewrite router_match_spec in Em by apply A. }
  eapply wp_load; [reflexivity|]. destruct st; [destruct hit as [hit|]|..]; try by eapply wp_no_route.
  2: by eapply wp_refusal.
  case_bool_decide as Hh; [|by eapply wp_dispatch_builtin].
  destruct (match_found a g req hit A Em Hh) as (svc & Hu & Hlt & Hf).
  rewrite (kp_services _ _ K) in Hlt. eapply wp_mono; [by eapply wp_dispatch_forward|].
  intros r w. apply handled_weaken. intros g' Hp. exists svc, (hit_params hit). split; [|done].
  unfold forwards in *. by replace (a_router a0) with (a_router a) by (destruct S as [E _ _]; congruence).
Qed.

(** ** The middleware *)

Lemma session_identity_total e ss req : is_Some (session_identity e ss req).
Proof.
  unfold session_identity. destruct ss; [|by eexists]. destruct (session_cookie_total req) as [sid ->]. by eexists.
Qed.

Lemma mw_conn_ok c x id sub scope : conn_ok c -> conn_ok (c <| c_extra_headers := to_cstr 512 x |>
  <| c_request_id := id |> <| c_auth_sub := sub |> <| c_auth_scope := scope |>).
Proof. intros []. split; try done. exact (to_cstr_le 512 x). Qed.

(** What the handling of a request knows of its connection. *)
Record untouched c : Prop := Untouched {
  ut_streaming : c_streaming c = false; ut_ip : c_client_ip c = c_client_ip c0;
  ut_sub : c_auth_sub c = c_auth_sub c0; ut_scope : c_auth_scope c = c_auth_scope c0 }.

Lemma wp_run_middleware e req id c g (Q : option ntc_mw_result -> gateway tls * app db -> Prop) :
  live p c sent0 g0 g -> kept g0 g -> untouched c ->
  session_identity e (a_sessions a0) req = Some id -> env_ok (y_mw e) -> bytes_ok (bearer req) ->
  (forall r c' g' a', live p c' sent0 g0 g' -> kept g0 g' -> app_step a0 a' -> Q (Some r) (g', a')) ->
  (forall c' g' a', live p c' sent0 g0 g' -> kept g0 g' -> app_step a0 a' -> c_streaming c' = false ->
     let_through e c0 g0 a0 req (c_auth_sub c') (c_auth_scope c') -> Q None (g', a')) ->
  wp (run_middleware e p req id) Q (g, a0).
Proof.
  intros L K [Hst Hip Hsub Hsc] Eid He Hb HS HN. unfold run_middleware. w_step. w_step.
  destruct (a_mw a0) as [m|] eqn:Em.
  2: { apply wp_ret. eapply HN; [done..|apply app_step_refl|done|]. unfold let_through. by rewrite Em. }
  do 5 w_step. pose proof (ao_mw _ _ A0 m Em) as Hm. rewrite (kp_now _ _ K), Hip.
  destruct (auth_gate_spec (y_mw e) m req (c_client_ip c0) (g_now g0) (bool_decide (is_Some id)) Hm He Hb)
    as (stop & r & m' & Er & Hm' & Hg).
  eapply wp_load; [exact Er|]. cbv beta iota. w_step. w_step.
  assert (app_step a0 (a0 <| a_mw := Some m' |>)) as S by (split; [done|by intros _ ? [= <-]|done]).
  destruct (match id with Some i => i | None => (r_auth_sub r, r_auth_scope r) end) as [sub scope] eqn:Ei. w_step.
  apply wp_lift. eapply (wp_kept _ _ g0); [auto with keeps|exact K|].
  eapply (wp_upd_conn _ _ _ _ _ _ _ L); [apply mw_conn_ok, (live_ok _ _ _ _ _ L)|done|].
  intros g' L' K'. apply wp_ret. destruct stop; [by eapply HS|]. eapply HN; [done..|exact Hst|].
  unfold let_through. rewrite Em. exists id, r, m'. split; [done|]. split; [done|].
  assert (default (r_auth_sub r, r_auth_scope r) id = (sub, scope)) as -> by (by destruct id).
  split; [reflexivity|]. split; [reflexivity|]. intros Hp Hpr. destruct (Hg Hp Hpr) as (H401 & Hc & _).
  apply Hc. intros E4. by specialize (H401 E4).
Qed.

(** What is promised of a request whose bytes are there. *)
Definition request_vetted e req g : Prop := vetted tdefl_compress mz_crc32 e p c0 g0 a0 req g.

Lemma passed_vetted e req c svc ps g :
  forwards a0 req svc ps -> let_through e c0 g0 a0 req (c_auth_sub c) (c_auth_scope c) -> passed e c req svc ps g ->
  request_vetted e req g.
Proof.
  intros Hf Hl [[Hv Hd]|(sub & scope & c1 & s1 & Hu & Hd)]; exists svc, ps; (split; [done|]).
  - left. by eexists _, _.
  - right. by exists sub, scope, c1, s1.
Qed.

Lemma wp_handle_request e req :
  gw_wf g0 -> c_is_admin c0 = false -> env_ok (y_mw e) -> bytes_ok (bearer req) -> (length (body req) <= NTC_CONN_RBUF)%nat ->
  wp (handle_request tdefl_compress mz_crc32 br_sha1 dashboard_html e p req)
     (handled p g0 a0 (request_vetted e req)) (g0, a0).
Proof.
  intros W Had He Hb Hl. pose proof (live_start _ _ _ W Hc0) as L. fold sent0 in L.
  pose proof (kept_refl g0) as K. destruct Hi0 as [Hi Hst]. unfold handle_request. do 4 w_step.
  cbn [c_is_admin]. replace (c_is_admin _) with false by (symmetry; exact Had). w_step. w_step. w_step.
  destruct (session_identity_total e (a_sessions a0) req) as [id Eid]. eapply wp_load; [exact Eid|]. w_step.
  eapply wp_run_middleware; [done|done|by split|done..| |].
  - intros r c' h1 a1 L1 K1 S1. w_steps. by eapply wp_respond.
  - intros c' h1 a1 L1 K1 S1 Hs Hlt. eapply wp_mono; [by eapply wp_gw_dispatch|].
    intros r w. apply handled_weaken. intros h2 (svc & ps & Hf & Hp). by eapply passed_vetted.
Qed.

(** A request whose bytes have all arrived, and which passed every check. *)
Definition accepted e max_body g : Prop := exists req n,
  ntc_http_parse_request (c_rbuf c0) = Some (ParseOk req n) /\
  check_body max_body req n (length (c_rbuf c0)) = BodyReady /\ request_vetted e req g.

Lemma wp_process_request e eof :
  gw_wf g0 -> c_is_admin c0 = false -> env_ok (y_mw e) ->
  wp (process_request tdefl_compress mz_crc32 br_sha1 dashboard_html e p eof)
     (handled p g0 a0 (accepted e (a_max_body a0))) (g0, a0).
Proof.
  intros W Had He. pose proof (live_start _ _ _ W Hc0) as L. pose proof (kept_refl g0) as K.
  pose proof (app_step_refl a0) as S. destruct Hi0 as [Hi Hst]. unfold process_request. do 4 w_step.
  assert (forall status text P, wp (if eof then lift (conn_close p) ;;; ret (-1)
    else if (length (c_rbuf c0) <? NTC_CONN_RBUF)%nat then ret 0 else refuse p status text)
    (handled p g0 a0 P) (g0, a0)) as Hmore.
  { intros status text P. case_match; [by eapply wp_close|].
    case_match; [apply wp_ret; by eapply handled_live|by eapply wp_refusal]. }
  w_step. destruct (parse_spec (c_rbuf c0)) as (r & Er & Hr). eapply wp_load; [exact Er|].
  destruct r as [| |req n]; [by eapply wp_refusal|by eapply Hmore|].
  destruct (check_body _ _ _ _) eqn:Eb; [|by eapply Hmore|by eapply wp_refusal].
  destruct (parsed_bytes _ _ _ (Hr _ _ eq_refl)) as [Hb Hl]; [apply (wf_conns _ W p c0 Hc0)|].
  destruct (ok_rbuf _ (wf_conns _ W p c0 Hc0)) as [Hlen _].
  eapply wp_mono; [apply wp_handle_request; try done; lia|]. intros z w. apply handled_weaken.
  intros g' Hv. by exists req, n.
Qed.
End dispatch.
