(* ===== verification/RequestProps.v ===== *)
(** * The properties of request handling

    The theorems about [process_request] and the pieces of dispatch, each at a concrete
    gateway: the client, controller and service of [ServerProps], a router with a route to
    the service, and the middleware with an API key. *)
From S2P Require Import Prelude Update Err Slice Double Json Schema Crypto Jwt Http HttpRequest Middleware Session Wire Ws.
From S2P Require Import Inflight Gzip ServerState ServerConn ServerRelay ServerInv ServerProps Keeps.
From S2P Require Import Router Builtin Registry App Services Control Oauth Admin Dispatch DispatchTotal DispatchSafe RequestSafe.
Open Scope Z_scope.

Section props.
Context {tls : Type} {TE : TlsEngine tls} {TL : TlsLaws tls} {SE : SigEngine} {SO : SigEngineOk}.
Context {db : Type} `{SQ : Sqlite db}.
Variable tdefl_compress : bytes -> option bytes.
Variable mz_crc32 : bytes -> Z.
Variable br_sha1 : bytes -> bytes.
Variable dashboard_html : bytes.

End props.

(** ** A concrete gateway *)

(** A database whose statements do not compile. *)
#[export] Instance closed_sqlite : Sqlite unit := {
  sq_open _ := None; sq_exec d _ := (false, d); sq_prepare _ _ := false; sq_run d _ _ := (SqResult [] false 0, d) }.
#[export] Existing Instance demo_engine.
#[export] Existing Instance demo_engine_ok.

Definition demo_router : ntc_router ntc_handler (option nat) :=
  Eval vm_compute in
    match ntc_router_add true true builtin_router (bs "POST") (bs "/api/users/:id") (Some HForward) (Some 0%nat) with
    | Some (_, r) => r | None => builtin_router end.
Definition api_mw : ntc_mw :=
  Mw (MwConfig true false (bs "*") 10 3 (bs "apikey") (bs "k3y") (bs "/api/users") [] [] []) [] false 0
     (replicate 1024 (Bucket d_zero 0)).
Definition demo_oauth : oauth_config := OauthConfig [] [] [] [] [] [] [] false.
Definition user_schema : ntc_json := JObj [(bs "type", JStr (bs "array"))].
Definition demo_app : app unit :=
  App demo_router (Some api_mw) tt [] (bs "demo") [] false demo_oauth None None
    (Some (JObj [(bs "POST /api/users/:id", user_schema)])) 1024 false 0 [].
Definition demo_sys : sys :=
  Sys 6 demo_env [] (fun _ => None) (fun _ _ => None) true [] am_ok (true, true).

(** The client has sent a request with an API key and a body. *)
Definition post (key body : bytes) : bytes :=
  bs "POST /api/users/7 HTTP/1.1" ++ crlf ++ bs "Authorization: Bearer " ++ key ++ crlf ++
  bs "Content-Length: 2" ++ crlf ++ crlf ++ body.
Definition demo_sent (req : bytes) : gateway unit :=
  demo_idle <| g_conns := {[ 3%nat := demo_conn <| c_rbuf := req |> ]} |>.

(** The outcome of handling: what is queued for the controller, sent to the client, and
    whether it is in flight. *)
Definition outcome (r : option (Z * (gateway unit * app unit))) : option (Z * bytes * bytes * option bool) :=
  match r with
  | None => None
  | Some (r, (g, _)) => Some (r, default [] (k_wbuf <$> g_ctrls g !! 9%nat), default [] (g_sent g !! 3%nat),
                              c_inflight <$> g_conns g !! 3%nat)
  end.
Definition handle (g : gateway unit) : option (Z * bytes * bytes * option bool) :=
  outcome (process_request no_deflate no_crc no_sha1 [] demo_sys 3 false (g, demo_app)).

Definition handled_sizes (sends : list send_outcome) (req : bytes) : option (Z * nat * bytes * option bool) :=
  (fun '(r, q, s, i) => (r, length q, take 12 s, i)) <$> handle ((demo_sent req) <| g_sends := sends |>).

(** With the key it goes to the controller; without, the client is told; and so is one whose
    body does not conform. *)
Example handle_ok : handled_sizes [] (post (bs "k3y") (bs "[]")) = Some (0, 105%nat, [], Some true).
Proof. vm_compute. reflexivity. Qed.
Example handle_401 : handled_sizes [SendN 1000] (post (bs "key") (bs "[]")) = Some (-1, 0%nat, bs "HTTP/1.1 401", None).
Proof. vm_compute. reflexivity. Qed.
Example handle_400 : handled_sizes [SendN 1000] (post (bs "k3y") (bs "{}")) = Some (-1, 0%nat, bs "HTTP/1.1 400", None).
Proof. vm_compute. reflexivity. Qed.

(** But when the socket does not take the whole refusal, the invalid request goes on to the
    controller (server.c:1087-1114 and 1161-1163). *)
Example invalid_body_forwarded :
  handled_sizes [SendN 12; SendEAGAIN] (post (bs "k3y") (bs "{}")) = Some (0, 105%nat, bs "HTTP/1.1 400", Some true).
Proof. vm_compute. reflexivity. Qed.

(** The authentication gate tests the path as it was sent, and the router collapses slashes:
    a protected route is reached without credentials (router.c:63-70, middleware.c:170-171). *)
Definition sneak (path : bytes) : bytes :=
  bs "POST " ++ path ++ bs " HTTP/1.1" ++ crlf ++ bs "Content-Length: 2" ++ crlf ++ crlf ++ bs "{}".
Example protected_401 : handled_sizes [SendN 1000] (sneak (bs "/api/users/7")) = Some (-1, 0%nat, bs "HTTP/1.1 401", None).
Proof. vm_compute. reflexivity. Qed.
Example slashes_bypass_gate : handled_sizes [] (sneak (bs "//api/users/7")) = Some (0, 79%nat, [], Some true).
Proof. vm_compute. reflexivity. Qed.

Lemma demo_sent_wf req : (length req <= NTC_CONN_RBUF)%nat -> bytes_ok req -> gw_wf (demo_sent req).
Proof.
  intros Hl Hb. destruct (wf_conns _ demo_idle_wf 3%nat demo_conn) as [H1 H2 H3 H4 H5]; [apply lookup_singleton_eq|].
  pose proof (wf_put_conn demo_idle 3%nat demo_conn (demo_conn <| c_rbuf := req |>) demo_idle_wf) as H.
  unfold demo_sent. replace (g_conns demo_idle) with ({[3%nat := demo_conn]} : gmap conn_ptr (conn unit)) in H by done.
  rewrite insert_singleton_eq in H. apply H; [apply lookup_singleton_eq|by split|done].
Qed.

Lemma no_array_error inst : forall msg,
  ntc_schema_validate 32 (Some user_schema) (Some inst) 160 = Some (Invalid msg) -> is_Some (ntc_json_escape 200 (cstr msg)).
Proof.
  assert (ntc_schema_validate 32 (Some user_schema) (Some inst) 160 = Some Valid \/
          ntc_schema_validate 32 (Some user_schema) (Some inst) 160 = Some (Invalid (bs "expected type array"))) as [-> | ->].
  { destruct inst; [right; reflexivity..|left; reflexivity|right; reflexivity]. }
  - done.
  - intros msg [= <-]. by eexists.
Qed.

Lemma demo_app_ok req : app_ok (demo_sent req) demo_app.
Proof.
  split.
  - split; [vm_compute; lia|]. repeat (constructor || split); try reflexivity; apply (bool_decide_unpack _); vm_compute; exact I.
  - repeat constructor; try done. intros _. exists 0%nat. split; [done|]. vm_compute. lia.
  - intros m [= <-]. split; [reflexivity|vm_compute; lia|]. apply (bool_decide_unpack _). vm_compute. exact I.
  - done.
  - intros ms [= <-]. constructor; [|constructor]. split.
    + apply (shaped_obj 31); [simpl; unfold NTC_JSON_MAX_MEMBERS; lia|]. repeat constructor.
    + intros inst msg. apply no_array_error.
  - vm_compute. lia.
  - vm_compute. split; [discriminate|reflexivity].
Qed.

