(* ===== verification/Events.v ===== *)
(** * The event loop (src/core/server.c)

    Accepting connections, the control socket's clients, the development watcher, and the
    loop of [ntc_server_run]: what the poller reports is handed to the handlers in order, and
    each round ends with the supervisor and the sweep of the sessions. *)
From S2P Require Import Prelude Update Err Slice Http HttpRequest Wire Ws Inflight Gzip Jwt ServerState ServerConn ServerRelay.
From S2P Require Import Router Middleware Session Builtin Registry App Services Control Oauth Admin Dispatch.
Open Scope Z_scope.

(** ** Watching files *)

(** What a path names: [fn_mtime] is its modification time. *)
Inductive fnode :=
  | Regular (mtime : Z)
  | Directory (mtime : Z) (entries : option (list (bytes * fnode)))
  | Special (mtime : Z).

(** server.c:1688-1692 [path_mtime_ns]; lines 1680-1686 too. *)
Definition path_mtime_ns (f : option fnode) : Z :=
  match f with Some (Regular m) | Some (Directory m _) | Some (Special m) => m | None => -1 end.

(** server.c:1706-1708 [tree_max_mtime, skipped]. Names that are not looked at, in a directory
    whose path has [plen] bytes. *)
Definition skipped (plen : nat) (name : bytes) : bool :=
  bool_decide (head name = Some 46) || memeq name (bs "build") || memeq name (bs "node_modules") ||
  (1024 <=? plen + 1 + length name)%nat.

(** server.c:1697-1720 [tree_max_mtime]. Of a path of [plen] bytes. *)
Fixpoint tree_max_mtime (plen : nat) (f : fnode) : Z :=
  match f with
  | Regular m => m
  | Directory _ (Some es) =>
      (fix entries (es : list (bytes * fnode)) (mx : Z) : Z :=
        match es with
        | [] => mx
        | (name, child) :: es =>
            if skipped plen name then entries es mx else
            let m := tree_max_mtime (plen + 1 + length name) child in
            entries es (if mx <? m then m else mx)
        end) es (-1)
  | Directory _ None | Special _ => -1
  end.

(** server.c:183-189 [gateway, dev mode]. The watcher: the paths with the newest time seen of each,
    and whether there is a build command. *)
Record watcher := Watcher {
  wa_on : bool; wa_last_poll : Z; wa_paths : list (bytes * Z); wa_build : bool }.

(** server.c:1759-1764 [dev_tick, source watch]. The paths, and whether one changed. *)
Fixpoint scan_paths (fs : bytes -> option fnode) (ps : list (bytes * Z)) : list (bytes * Z) * bool :=
  match ps with
  | [] => ([], false)
  | (p, seen) :: ps =>
      let m := match fs p with Some f => tree_max_mtime (length p) f | None => -1 end in
      let '(rest, changed) := scan_paths fs ps in
      if m <? 0 then ((p, seen) :: rest, changed)
      else if seen =? 0 then ((p, m) :: rest, changed)
      else if seen <? m then ((p, m) :: rest, true)
      else ((p, seen) :: rest, changed)
  end.

(** ** Control clients *)

(** How reading from a control client ends: it is gone, it has sent no whole line yet, or
    what it has sent is processed. *)
Inductive control_read := ControlGone | ControlMore (buf : bytes) | ControlLine (buf : bytes).

(** server.c:2114-2129 [on_control_readable]. [buf] is what it has sent before; the array has
    4096 bytes. *)
Fixpoint on_control_readable (ins : list recv_outcome) (buf : bytes) : control_read * list recv_outcome :=
  if (4095 <=? length buf)%nat then (ControlLine buf, ins) else
  match ins with
  | [] => (ControlMore buf, [])
  | RecvData d :: ins =>
      let d := take (4095 - length buf) d in
      if (length d =? 0)%nat then (ControlGone, ins) else
      if bool_decide (is_Some (memchr 10 (buf ++ d))) then (ControlLine (buf ++ d), ins)
      else on_control_readable ins (buf ++ d)
  | RecvEINTR :: ins => on_control_readable ins buf
  | RecvEAGAIN :: ins => (ControlMore buf, ins)
  | RecvError :: ins => (ControlGone, ins)
  end.

(** ** Events *)

(** One answer of [accept]: nothing more, a signal, or a descriptor, with whether it is made
    non-blocking, the address the connection is allocated at, the TLS engine made for it,
    and the client's address as text. *)
Record arrival {tls : Type} := Arrival {
  ar_fd : Z; ar_nonblock : bool; ar_ptr : conn_ptr; ar_tls : option tls; ar_ip : bytes }.
Arguments arrival : clear implicits.
Inductive accept_outcome {tls : Type} := AcceptConn (r : arrival tls) | AcceptEINTR | AcceptEnd.
Arguments accept_outcome : clear implicits.

Section events.
Context {tls : Type} {TE : TlsEngine tls} {SE : SigEngine}.
Context {db : Type} `{SQ : Sqlite db}.
Variable tdefl_compress : bytes -> option bytes.
Variable mz_crc32 : bytes -> Z.
Variable br_sha1 : bytes -> bytes.
Variable dashboard_html : bytes.
Local Abbreviation M := (St (gateway tls)).
Local Abbreviation W := (St (gateway tls * app db)).

(** A connection that is given up before it was served. *)
Definition forget_conn (p : conn_ptr) : M unit :=
  store (fun g => _ ← g_conns g !! p; Some (g <| g_conns := delete p (g_conns g) |>)).

(** server.c:1517-1536 [accept_conns, connection] *)
Definition accept_one (is_admin is_tls : bool) (r : arrival tls) : M unit :=
  if negb (ar_nonblock r) then ret tt else
  let* o := conn_new (ar_ptr r) (ar_fd r) in
  match o with
  | None => ret tt
  | Some p =>
      upd_conn p (fun c => c <| c_is_admin := is_admin |>) ;;;
      if is_tls && bool_decide (ar_tls r = None) then forget_conn p else
      upd_conn p (fun c => c <| c_tls := if is_tls then ar_tls r else None |> <| c_client_ip := to_cstr 46 (ar_ip r) |>) ;;;
      let* ok := ntc_poller_add (ar_fd r) NTC_POLL_READ (PConn p) in
      if negb ok then forget_conn p else ret tt
  end.

(** server.c:1506-1538 [accept_conns] *)
Fixpoint accept_conns (is_admin is_tls : bool) (l : list (accept_outcome tls)) : M unit :=
  match l with
  | [] | AcceptEnd :: _ => ret tt
  | AcceptEINTR :: l => accept_conns is_admin is_tls l
  | AcceptConn r :: l => accept_one is_admin is_tls r ;;; accept_conns is_admin is_tls l
  end.

(** server.c:1752-1787 [dev_tick]. The build is a command of the system; it changes files. *)
Definition dev_tick (fs : bytes -> option fnode) (w : watcher) : M watcher :=
  if negb (wa_on w) then ret w else
  let* now := gets g_now in
  if negb (wa_last_poll w =? 0) && (now - wa_last_poll w <? NTC_DEV_POLL_MS) then ret w else
  let w := Watcher (wa_on w) now (fst (scan_paths fs (wa_paths w))) (wa_build w) in
  let* n := gets (fun g => length (g_services g)) in
  for_each (seq 0 n) (dev_watch_binary tdefl_compress mz_crc32 (fun p => path_mtime_ns (fs p))) ;;;
  ret w.

(** What the poller reports, at what the descriptor belongs to. [EvControl] is a control
    client whose line is there. *)
Inductive event :=
  | EvAccept (is_admin is_tls : bool) (l : list (accept_outcome tls))
  | EvControl (buf : bytes)
  | EvCtrl (k : ctrl_ptr) (ev : ready)
  | EvClient (p : conn_ptr) (ev : ready).

(** server.c:2437-2466 [ntc_server_run, event] *)
Definition on_event (e : sys) (fuel : nat) (ev : event) : W unit :=
  match ev with
  | EvAccept is_admin is_tls l => lift (accept_conns is_admin is_tls l)
  | EvControl buf => let* _ := process_control e buf in ret tt
  | EvCtrl k ev => lift (on_ctrl_event tdefl_compress mz_crc32 k ev)
  | EvClient p ev => on_client_event tdefl_compress mz_crc32 br_sha1 dashboard_html e fuel p ev
  end.

(** server.c:2470-2476 [ntc_server_run, sweep] *)
Definition sweep_sessions (time : Z) : W unit :=
  let* o := get_app a_sessions in
  match o with
  | None => ret tt
  | Some ss =>
      let* now := lift (gets g_now) in
      let* last := get_app a_last_sweep in
      if (last =? 0) || (300000 <? now - last)
      then set_app (fun a => a <| a_sessions := Some (snd (ntc_session_sweep ss time)) |> <| a_last_sweep := now |>)
      else ret tt
  end.

(** server.c:2436-2476 [ntc_server_run, round]. The events of one wait, each with what the
    system answers during it. *)
Fixpoint on_events (fuel : nat) (evs : list (sys * event)) : W unit :=
  match evs with [] => ret tt | (e, ev) :: evs => on_event e fuel ev ;;; on_events fuel evs end.
Definition round (fs : bytes -> option fnode) (time : Z) (fuel : nat) (evs : list (sys * event)) (w : watcher) : W watcher :=
  on_events fuel evs ;;;
  let* w := lift (dev_tick fs w) in
  supervise ;;;
  sweep_sessions time ;;;
  ret w.
End events.
Arguments event : clear implicits.
