(* ===== verification/EventsSafe.v ===== *)
(** * The event loop: safety

    Every event that the poller can report in a well-formed world is handled without a
    fault, and leaves the world well formed; so do the supervisor, the watcher and the
    sweep.  By induction on the steps, no reachable world faults. *)
From S2P Require Import Prelude Update Err Slice Double Json Schema Crypto Jwt Http HttpRequest Middleware Session Wire Ws.
From S2P Require Import Inflight Gzip ServerState ServerConn ServerRelay ServerInv ServerSafe ServerRelaySafe ServerEvents.
From S2P Require Import ServerForward ServerCtrlSafe Keeps Router Builtin Registry App Services Control Oauth Admin Dispatch.
From S2P Require Import DispatchTotal DispatchSafe RequestSafe Events.
Open Scope Z_scope.

Section loop.
Context {tls : Type} {TE : TlsEngine tls} {TL : TlsLaws tls} {SE : SigEngine} {SO : SigEngineOk}.
Context {db : Type} `{SQ : Sqlite db}.
Variable tdefl_compress : bytes -> option bytes.
Variable mz_crc32 : bytes -> Z.
Variable br_sha1 : bytes -> bytes.
Variable dashboard_html : bytes.
Implicit Types (g : gateway tls) (a : app db) (c : conn tls) (w : gateway tls * app db).

Definition world_ok w : Prop := gw_wf (fst w) /\ app_ok (fst w) (snd w).

(** An operation of the gateway alone. *)
Lemma world_lift {A} (m : St (gateway tls) A) g a (Q : A -> gateway tls -> Prop) :
  keeps m -> app_ok g a -> wp m (fun x g' => gw_wf g' /\ Q x g') g ->
  wp (lift m) (fun x w => world_ok w /\ Q x (fst w)) (g, a).
Proof.
  intros Hk Ha H. apply wp_lift. destruct (wp_keeps _ _ _ Hk H) as (x & g' & E & [W HQ] & K).
  exists x, g'. split; [done|]. split; [|done]. split; [done|]. eapply app_ok_kept; [done..|apply app_step_refl].
Qed.

Lemma handled_world p g a P r w : app_ok g a -> handled p g a P r w -> world_ok w.
Proof.
  destruct w as [g' a']. intros A (W & _ & K & S & _). split; [done|]. by eapply app_ok_kept.
Qed.

(** ** Controllers *)

Lemma keeps_on_ctrl_event k ev : keeps (on_ctrl_event tdefl_compress mz_crc32 k ev : St (gateway tls) _).
Proof. unfold on_ctrl_event. keeps_tac. Qed.

Lemma wp_on_ctrl_event k ct ev g :
  gw_wf g -> g_ctrls g !! k = Some ct ->
  wp (on_ctrl_event tdefl_compress mz_crc32 k ev) (fun _ g' => gw_wf g') g.
Proof.
  intros W Hk. unfold on_ctrl_event.
  assert (forall g1, gw_wf g1 -> is_Some (g_ctrls g1 !! k) ->
    wp (if rd_write ev then on_ctrl_writable tdefl_compress mz_crc32 k else ret tt) (fun _ g' => gw_wf g') g1) as Hw.
  { intros g1 W1 [ct1 Hk1]. destruct (rd_write ev); [|by apply wp_ret].
    eapply wp_on_ctrl_writable; [done..| |done]. intros g2 g' _ (W' & _). done. }
  destruct (rd_read ev); [|by apply Hw]. apply wp_bnd. eapply wp_on_ctrl_readable; [done..| |].
  - intros g' W' _. by apply wp_ret.
  - intros g' W' Hs. by apply Hw.
Qed.

(** ** Plain clients *)

(** Reading a request: the receiving loop, then the request. *)
Lemma wp_receive p c g (Q : option bool -> gateway tls -> Prop) :
  gw_wf g -> g_conns g !! p = Some c ->
  (forall s g', dead p s g g' -> Q None g') ->
  (forall eof buf s g', live p (c <| c_rbuf := buf |>) s g g' -> Q (Some eof) g') ->
  wp (receive p) Q g.
Proof.
  intros W Hc HD HL. pose proof (live_start _ _ _ W Hc) as L. unfold receive. live_step1. live_step1.
  apply wp_bnd, wp_gets. destruct (recv_loop _ _ _) as [[how buf] ins] eqn:E.
  destruct (live_ok _ _ _ _ _ L) as [H1 [H2 H2'] H3 H4 H5 H6].
  apply recv_loop_ok in E as (Hb & Hl & Hi); [|done|done|apply W]. apply wp_bnd.
  eapply wp_noise; [by apply noise_set_recvs|exact L|]. clear L. intros _ g1 L. apply wp_bnd.
  eapply (wp_put_conn _ _ _ _ _ _ _ L); [by split|done|]. clear L. intros g2 L.
  destruct how; try (by eapply wp_ret, HL). apply wp_bnd. eapply wp_conn_close; [exact L|].
  intros g' D. by eapply wp_ret, HD.
Qed.

Lemma keeps_receive p : keeps (receive p : St (gateway tls) _).
Proof. unfold receive. keeps_tac. Qed.

(** A reading client's request, wherever its bytes came from. *)
Lemma wp_process p c e eof g a :
  gw_wf g -> app_ok g a -> g_conns g !! p = Some c -> c_is_admin c = false -> c_state c = CS_READ -> env_ok (y_mw e) ->
  wp (process_request tdefl_compress mz_crc32 br_sha1 dashboard_html e p eof)
     (fun r w => world_ok w /\ match g_conns (fst w) !! p with
        | None => r = -1
        | Some c' => r = 0 /\ has_tls c' = has_tls c
        end) (g, a).
Proof.
  intros W A Hc Had Hs He. assert (idle c) as Hi by (by apply (ok_reading _ (wf_conns _ W p c Hc))).
  eapply wp_mono; [by eapply wp_process_request|]. intros r w Hh. split; [by eapply handled_world|].
  destruct w as [g' a']. destruct Hh as (_ & _ & _ & _ & T & M). cbn. destruct (g_conns g' !! p) as [c'|] eqn:E; [|done].
  split; [apply M|by apply (T c Hc)].
Qed.

Lemma wp_on_readable p c e g a :
  gw_wf g -> app_ok g a -> g_conns g !! p = Some c -> c_is_admin c = false -> c_state c = CS_READ -> env_ok (y_mw e) ->
  wp (on_readable tdefl_compress mz_crc32 br_sha1 dashboard_html e p) (fun _ w => world_ok w) (g, a).
Proof.
  intros W A Hc Had Hs He. unfold on_readable. apply wp_bnd, wp_lift.
  eapply wp_kept; [apply keeps_receive|apply kept_refl|]. eapply wp_receive; [done..| |].
  - intros s g' D K. apply wp_ret. split; [apply D|]. eapply app_ok_kept; [done..|apply app_step_refl].
  - intros eof buf s g' [W' Hc' _ _ _] K. eapply wp_mono; [eapply wp_process; [exact W'|..]|by intros r w []].
    + eapply app_ok_kept; [done..|apply app_step_refl].
    + exact Hc'.
    + exact Had.
    + exact Hs.
    + exact He.
Qed.

(** An operation on a live connection that leaves it live or closes it. *)
Lemma wp_conn_world {A} (m : St (gateway tls) A) p c g a :
  keeps m -> gw_wf g -> app_ok g a -> g_conns g !! p = Some c ->
  (forall (Q : A -> gateway tls -> Prop), (forall x s g', dead p s g g' -> Q x g') ->
     (forall x c' s g', live p c' s g g' -> Q x g') -> wp m Q g) ->
  wp (lift m) (fun _ w => world_ok w) (g, a).
Proof.
  intros Hk W Ha Hc H. eapply wp_mono; [apply (world_lift m g a (fun _ _ => True)); [done..|]|by intros x w []].
  apply H; [intros x s g' D; split; [apply D|done]|intros x c' s g' L; split; [apply L|done]].
Qed.

Lemma wp_wait_event p c g a (b : bool) :
  gw_wf g -> app_ok g a -> g_conns g !! p = Some c ->
  wp (if b then lift (on_wait_readable p) else ret tt) (fun _ w => world_ok w) (g, a).
Proof.
  intros W Ha Hc. destruct b; [|by apply wp_ret]. eapply wp_conn_world; [auto with keeps|done..|].
  intros Q HD HL. eapply wp_on_wait_readable; [by apply live_start|eauto..].
Qed.

(** Writing first, and then what follows if the connection is still there. *)
Lemma wp_after_write p c g a (b : bool) (k : St (gateway tls * app db) unit) :
  gw_wf g -> app_ok g a -> g_conns g !! p = Some c ->
  (forall g' c', gw_wf g' -> app_ok g' a -> g_conns g' !! p = Some c' -> wp k (fun _ w => world_ok w) (g', a)) ->
  wp (if b then let* r := lift (on_writable p) in if r <? 0 then ret tt else k else k) (fun _ w => world_ok w) (g, a).
Proof.
  intros W Ha Hc Hk. destruct b; [|by eapply Hk]. apply wp_bnd, wp_lift.
  eapply (wp_kept _ _ g g); [auto with keeps|apply kept_refl|]. eapply wp_on_writable; [by apply live_start|..].
  - intros s' g' D _ K. apply wp_ret. split; [apply D|]. eapply app_ok_kept; [done..|apply app_step_refl].
  - intros c' s' g' L _ K. change (0 <? 0) with false. cbv iota. eapply Hk; [apply L| |apply L].
    eapply app_ok_kept; [done..|apply app_step_refl].
Qed.

Lemma wp_plain_event p c e fuel ev g a :
  gw_wf g -> app_ok g a -> g_conns g !! p = Some c -> c_is_admin c = false -> c_tls c = None -> env_ok (y_mw e) ->
  wp (on_client_event tdefl_compress mz_crc32 br_sha1 dashboard_html e fuel p ev) (fun _ w => world_ok w) (g, a).
Proof.
  intros W Ha Hc Had Ht He. unfold on_client_event. apply wp_bnd, wp_lift. eapply wp_load; [exact Hc|].
  rewrite Ht. cbv zeta. destruct (c_state c) eqn:Es.
  - destruct (rd_read ev); [|by apply wp_ret]. apply wp_bnd. eapply wp_mono; [by eapply wp_on_readable|].
    intros r w Hw. by apply wp_ret.
  - by eapply wp_wait_event.
  - destruct (rd_write ev); [|by apply wp_ret]. apply wp_bnd. eapply wp_mono; [|intros r w Hw; apply wp_ret, Hw].
    eapply wp_conn_world; [auto with keeps|done..|]. intros Q HD HL.
    eapply wp_on_writable; [by apply live_start|eauto..].
  - eapply wp_after_write; [done..|]. intros g' c' W' Ha' Hc'. by eapply wp_wait_event.
  - eapply wp_after_write; [done..|]. intros g' c' W' Ha' Hc'. destruct (rd_read ev); [|by apply wp_ret].
    apply wp_bnd. eapply wp_mono; [|intros r w Hw; apply wp_ret, Hw]. eapply wp_conn_world; [auto with keeps|done..|].
    intros Q HD HL. eapply wp_on_ws_readable; [by apply live_start|eauto..].
Qed.

(** ** Encrypted clients *)

Lemma tls_recv_loop_spec fuel : forall (t : tls) buf got,
  (length buf <= NTC_CONN_RBUF)%nat -> bytes_ok buf ->
  exists t' buf' got', tls_recv_loop fuel t buf got = Some (t', buf', got') /\ (length buf' <= NTC_CONN_RBUF)%nat /\ bytes_ok buf'.
Proof.
  induction fuel as [|f IH]; intros t buf got Hl Hb; cbn [tls_recv_loop]; [by eauto 6|].
  destruct (Nat.leb_spec NTC_CONN_RBUF (length buf)); [by eauto 6|].
  destruct (ntc_tls_recv t (NTC_CONN_RBUF - length buf)) as [[[|x d]|] t'] eqn:E; [by eauto 6| |by eauto 6].
  apply tls_recv_bound in E as [Hd Hbd]. rewrite (proj2 (Nat.ltb_ge _ _)) by (rewrite length_app; lia).
  apply IH; [rewrite length_app; lia|]. by apply Forall_app.
Qed.

Lemma has_tls_some c : has_tls c = true <-> is_Some (c_tls c).
Proof. unfold has_tls. destruct (c_tls c); split; naive_solver. Qed.

Lemma wp_interest p c g a :
  gw_wf g -> app_ok g a -> g_conns g !! p = Some c -> is_Some (c_tls c) ->
  wp (let* _ := lift (tls_set_interest p) in ret tt) (fun _ w => world_ok w) (g, a).
Proof.
  intros W Ha Hc Ht. apply wp_bnd. eapply wp_mono; [|intros r w Hw; apply wp_ret, Hw].
  eapply wp_conn_world; [auto with keeps|done..|]. intros Q HD HL.
  eapply wp_tls_set_interest; [by apply live_start|done|eauto..].
Qed.

(** What an operation leaves when it is the connection's: the world is well formed, and the
    connection closed or still encrypted. *)
Definition still_tls p (r : Z) w : Prop := world_ok w /\
  (r < 0 \/ exists c, g_conns (fst w) !! p = Some c /\ is_Some (c_tls c)).

Lemma wp_then_interest p (m : St (gateway tls * app db) Z) w :
  wp m (still_tls p) w ->
  wp (let* rc := m in if rc <? 0 then ret tt else let* _ := lift (tls_set_interest p) in ret tt)
     (fun _ w => world_ok w) w.
Proof.
  intros Hm. apply wp_bnd. eapply wp_mono; [exact Hm|]. intros r [g' a'] [[W' Ha'] H].
  destruct (Z.ltb_spec r 0); [by apply wp_ret|]. destruct H as [|(c & Hc & Ht)]; [lia|]. by eapply wp_interest.
Qed.

Lemma wp_tls_drive_read p c e g a :
  gw_wf g -> app_ok g a -> g_conns g !! p = Some c -> c_is_admin c = false -> c_state c = CS_READ ->
  is_Some (c_tls c) -> env_ok (y_mw e) ->
  wp (tls_drive_read tdefl_compress mz_crc32 br_sha1 dashboard_html e p) (still_tls p) (g, a).
Proof.
  intros W Ha Hc Had Hs [t Ht] He. unfold tls_drive_read. apply wp_bnd, wp_lift. eapply wp_load; [exact Hc|].
  apply wp_bnd. eapply wp_load; [exact Ht|]. apply wp_bnd.
  destruct (wf_conns _ W p c Hc) as [H1 [H2 H2'] H3 H4 H5 H6].
  destruct (tls_recv_loop_spec (S NTC_CONN_RBUF) t (c_rbuf c) false H2 H2') as (t' & buf & got & E & Hl & Hb).
  eapply wp_load; [exact E|]. cbv beta iota. apply wp_bnd, wp_lift.
  eapply (wp_kept _ _ g g); [auto with keeps|apply kept_refl|].
  eapply (wp_put_conn p c _ _ g); [by apply live_start|by split| |].
  { unfold same_link, has_tls, update. cbn. by rewrite Ht. }
  intros g' [W' Hc' _ _ _] K. assert (app_ok g' a) as Ha' by (eapply app_ok_kept; [done..|apply app_step_refl]).
  cbv zeta. case_match.
  - apply wp_ret. split; [by split|]. right. eexists. split; [exact Hc'|]. by eexists.
  - eapply wp_mono; [by eapply (wp_process p _ e _ g' a W' Ha' Hc')|]. intros r w [Hw M]. split; [done|].
    destruct (g_conns (fst w) !! p) as [c2|]; [right|left; lia]. exists c2. split; [done|].
    apply has_tls_some. rewrite (proj2 M). done.
Qed.

Lemma wp_tls_event p c e fuel ev g a :
  gw_wf g -> app_ok g a -> g_conns g !! p = Some c -> c_is_admin c = false -> is_Some (c_tls c) -> env_ok (y_mw e) ->
  wp (on_client_event tdefl_compress mz_crc32 br_sha1 dashboard_html e fuel p ev) (fun _ w => world_ok w) (g, a).
Proof.
  intros W Ha Hc Had [t Ht] He. unfold on_client_event. apply wp_bnd, wp_lift. eapply wp_load; [exact Hc|].
  rewrite Ht. unfold on_tls_event. apply wp_bnd, wp_lift. eapply wp_load; [exact Hc|].
  apply wp_bnd. eapply wp_load; [exact Ht|]. destruct (ntc_tls_pump_socket t) as [ok t1].
  destruct (wf_conns _ W p c Hc) as [H1 H2 H3 H4 H5 H6]. apply wp_bnd, wp_lift.
  eapply (wp_kept _ _ g g); [auto with keeps|apply kept_refl|].
  eapply (wp_put_conn p c _ _ g); [by apply live_start|by split| |].
  { unfold same_link, has_tls, update. cbn. by rewrite Ht. }
  intros g1 [W1 Hc1 _ _ _] K1. assert (app_ok g1 a) as Ha1 by (eapply app_ok_kept; [done..|apply app_step_refl]).
  assert (forall g2 c2, gw_wf g2 -> app_ok g2 a -> g_conns g2 !! p = Some c2 ->
    wp (lift (conn_close p)) (fun _ w => world_ok w) (g2, a)) as Hclose.
  { intros g2 c2 W2 Ha2 Hc2. eapply wp_conn_world; [auto with keeps|done..|]. intros Q HD _.
    eapply wp_conn_close; [by apply live_start|eauto]. }
  destruct ok; cbn [negb]; cbv iota; [|by eapply Hclose]. cbv zeta.
  assert (wp (let* rc := lift (tls_drive_write p) in
     if rc <? 0 then ret tt else let* _ := lift (tls_set_interest p) in ret tt) (fun _ w => world_ok w) (g1, a)) as Hwrite.
  { apply wp_then_interest, wp_lift. eapply (wp_kept _ _ g1 g1); [auto with keeps|apply kept_refl|].
    eapply wp_tls_drive_write; [by apply live_start|by eexists|..].
    - intros s' g' D _ K. split; [|left; lia]. split; [apply D|]. eapply app_ok_kept; [done..|apply app_step_refl].
    - intros c' s' g' L _ Ht' K. split; [split; [apply L|]|right; exists c'; split; [apply L|done]].
      eapply app_ok_kept; [done..|apply app_step_refl]. }
  destruct (c_state c) eqn:Es; [| |exact Hwrite..].
  - apply wp_then_interest. eapply wp_tls_drive_read; [done|done|exact Hc1|exact Had|exact Es|by eexists|done].
  - apply wp_bnd, wp_lift. eapply (wp_kept _ _ g1 g1); [auto with keeps|apply kept_refl|].
    eapply (wp_put_conn p _ _ _ g1); [by apply live_start|split; [exact H1|exact H2|exact H3|exact H4|exact H5|exact (ok_reading _ (wf_conns _ W p c Hc))]|done|].
    intros g2 [W2 Hc2 _ _ _] K2. assert (app_ok g2 a) as Ha2 by (eapply app_ok_kept; [done..|apply app_step_refl]).
    case_match; [by eapply Hclose|]. eapply wp_interest; [done..|]. by eexists.
Qed.

Lemma wp_on_client_event p c e fuel ev g a :
  gw_wf g -> app_ok g a -> g_conns g !! p = Some c -> c_is_admin c = false -> env_ok (y_mw e) ->
  wp (on_client_event tdefl_compress mz_crc32 br_sha1 dashboard_html e fuel p ev) (fun _ w => world_ok w) (g, a).
Proof.
  intros W Ha Hc Had He. destruct (c_tls c) eqn:Ht; [|by eapply wp_plain_event].
  by eapply wp_tls_event.
Qed.
End loop.
