(* ===== verification/LoopSafe.v ===== *)
(** * The event loop: accepting, supervision and the watcher

    The parts of the loop that add and remove connections and controllers, and the theorem's
    step relation. *)
From S2P Require Import Prelude Update Err Slice Double Json Schema Crypto Jwt Http HttpRequest Middleware Session Wire Ws.
From S2P Require Import Inflight Gzip ServerState ServerConn ServerRelay ServerInv ServerSafe ServerRelaySafe ServerEvents.
From S2P Require Import ServerForward ServerCtrlSafe Keeps Router Builtin Registry App Services Control Oauth Admin Dispatch.
From S2P Require Import DispatchTotal DispatchSafe RequestSafe Events EventsSafe.
Open Scope Z_scope.

Section accept.
Context {tls : Type} {TE : TlsEngine tls}.
Implicit Types (g : gateway tls) (c : conn tls).

Lemma wf_same_sent g sent : gw_wf g -> gw_wf (g <| g_sent := sent |>).
Proof. intros []. by split. Qed.

(** Only the connection at [p] may differ. *)
Definition only_conn p g g' : Prop := forall q, q <> p -> g_conns g' !! q = g_conns g !! q.

Lemma wp_conn_new p fd g (Q : option conn_ptr -> gateway tls -> Prop) :
  gw_wf g -> g_conns g !! p = None ->
  (forall g', gw_wf g' -> g_conns g' = g_conns g -> Q None g') ->
  (forall c g', gw_wf g' -> g_conns g' !! p = Some c -> c_inflight c = false -> c_streaming c = false ->
     only_conn p g g' -> Q (Some p) g') ->
  wp (conn_new p fd) Q g.
Proof.
  intros W Hp HN HS. unfold conn_new. apply wp_bnd. eapply wp_noise_core; [apply noise_ask_alloc|].
  intros ok g1 S1. pose proof (same_core_wf _ _ S1 W) as W1. pose proof (sc_conns _ _ S1) as E1.
  destruct ok; cbn [negb]; [|by apply wp_ret, HN]. apply wp_bnd, wp_gets, wp_bnd.
  eapply wp_noise_core; [apply noise_ask_alloc|]. intros ok g2 S2. pose proof (same_core_wf _ _ S2 W1) as W2.
  assert (g_conns g2 = g_conns g) as E2 by (by rewrite (sc_conns _ _ S2)).
  destruct ok; cbn [negb]; [|by apply wp_ret, HN]. cbv zeta. set (c := Conn fd CS_READ _ _ _ _ _ _ _ _ _ _ _ _ _ _ _ _ _ _ _ _ _ _ _ _ _ _).
  apply wp_bnd, wp_modify, wp_ret. eapply (HS c); [|apply lookup_insert_eq|done|done|].
  - apply wf_same_sent, (wf_idle g2 p); [done|intros c'; by rewrite E2, Hp|].
    split; [intros q Hq; by apply lookup_insert_ne|]. intros c'. rewrite lookup_insert_eq. intros [= <-].
    split; [done|]. split; cbn; try done; [lia|split; [lia|apply Forall_nil_2]].
  - intros q Hq. cbn. rewrite lookup_insert_ne by done. by rewrite E2.
Qed.

Lemma wp_forget_conn p c g (Q : unit -> gateway tls -> Prop) :
  gw_wf g -> g_conns g !! p = Some c -> c_inflight c = false ->
  (forall g', gw_wf g' -> only_conn p g g' -> Q tt g') -> wp (forget_conn p) Q g.
Proof.
  intros W Hc Hi HQ. apply (wp_store _ (g <| g_conns := delete p (g_conns g) |>)); [cbv beta; by rewrite Hc|]. apply HQ.
  - apply (wf_idle g p); [done|intros c'; by rewrite Hc; intros [= <-]|].
    split; [intros q Hq; by apply lookup_delete_ne|]. intros c'. by rewrite lookup_delete_eq.
  - intros q Hq. cbn. by apply lookup_delete_ne.
Qed.

Lemma only_conn_trans p g1 g2 g3 : only_conn p g1 g2 -> only_conn p g2 g3 -> only_conn p g1 g3.
Proof. intros H1 H2 q Hq. by rewrite H2, H1. Qed.

Lemma wp_upd_idle p c f g (Q : unit -> gateway tls -> Prop) :
  gw_wf g -> g_conns g !! p = Some c -> c_inflight c = false -> c_inflight (f c) = false -> conn_ok (f c) ->
  (forall g', gw_wf g' -> g_conns g' !! p = Some (f c) -> only_conn p g g' -> Q tt g') -> wp (upd_conn p f) Q g.
Proof.
  intros W Hc Hi Hf Hok HQ. apply (upd_conn_at p c); [done|]. apply HQ; [|apply lookup_insert_eq|].
  - apply (wf_idle g p); [done|intros c'; by rewrite Hc; intros [= <-]|].
    split; [intros q Hq; by apply lookup_insert_ne|]. intros c'. rewrite lookup_insert_eq. by intros [= <-].
  - intros q Hq. cbn. by apply lookup_insert_ne.
Qed.

Lemma wp_accept_one is_admin is_tls r g :
  gw_wf g -> g_conns g !! ar_ptr r = None ->
  wp (accept_one is_admin is_tls r) (fun _ g' => gw_wf g' /\ only_conn (ar_ptr r) g g') g.
Proof.
  intros W Hp. unfold accept_one. destruct (ar_nonblock r); cbn [negb]; [|by apply wp_ret]. apply wp_bnd.
  eapply wp_conn_new; [done..| |].
  { intros g' W' E. apply wp_ret. split; [done|]. intros q _. by rewrite E. }
  intros c g1 W1 Hc1 Hi1 Hs1 O1. pose proof (wf_conns _ W1 _ _ Hc1) as Hok. apply wp_bnd.
  eapply (wp_upd_idle _ c); [done..|destruct Hok; by split|]. intros g2 W2 Hc2 O2.
  assert (only_conn (ar_ptr r) g g2) as O by (by eapply only_conn_trans).
  case_match.
  { eapply wp_forget_conn; [done..|]. intros g3 W3 O3. split; [done|]. by eapply only_conn_trans. }
  apply wp_bnd. eapply (wp_upd_idle _ _); [done|exact Hc2|done|done|destruct Hok; by split|]. intros g3 W3 Hc3 O3.
  assert (only_conn (ar_ptr r) g g3) as O' by (by eapply only_conn_trans).
  apply wp_bnd. eapply wp_noise_core; [apply noise_poller_mod|]. intros ok g4 S4.
  pose proof (same_core_wf _ _ S4 W3) as W4. assert (only_conn (ar_ptr r) g g4) as O4.
  { intros q Hq. rewrite (sc_conns _ _ S4). by apply O'. }
  destruct ok; cbn [negb]; [by apply wp_ret|]. rewrite <- (sc_conns _ _ S4) in Hc3.
  eapply wp_forget_conn; [done|exact Hc3|done|]. intros g5 W5 O5. split; [done|]. by eapply only_conn_trans.
Qed.

(** The addresses that accepting allocates. *)
Fixpoint arrivals (l : list (accept_outcome tls)) : list conn_ptr :=
  match l with
  | [] | AcceptEnd :: _ => []
  | AcceptEINTR :: l => arrivals l
  | AcceptConn r :: l => ar_ptr r :: arrivals l
  end.

Lemma wp_accept_conns is_admin is_tls l : forall g,
  gw_wf g -> NoDup (arrivals l) -> Forall (fun p => g_conns g !! p = None) (arrivals l) ->
  wp (accept_conns is_admin is_tls l) (fun _ g' => gw_wf g') g.
Proof.
  induction l as [|[r| |] l IH]; intros g W Hd Hn; cbn [accept_conns arrivals] in *; [by apply wp_ret| |by apply IH|by apply wp_ret].
  apply NoDup_cons in Hd as [Hr Hd]. apply Forall_cons_1 in Hn as [Hp Hn]. apply wp_bnd.
  eapply wp_mono; [by apply wp_accept_one|]. intros _ g' [W' O]. apply IH; [done..|].
  rewrite list.Forall_forall in *. intros q Hq. rewrite O; [by apply Hn|]. by intros ->.
Qed.

Lemma keeps_accept_conns is_admin is_tls l : keeps (accept_conns is_admin is_tls l : St (gateway tls) _).
Proof.
  assert (forall p, keeps (forget_conn p : St (gateway tls) _)) as Hf.
  { intros p. apply keeps_store. intros g g' E. opt_inv. split; reflexivity. }
  assert (forall p fd, keeps (conn_new p fd : St (gateway tls) _)) as Hn by (intros; unfold conn_new; keeps_tac).
  induction l as [|[r| |] l IH]; cbn [accept_conns]; [apply keeps_ret| |done|apply keeps_ret].
  apply keeps_bnd; [|done]. unfold accept_one, ntc_poller_add. keeps_tac.
Qed.
End accept.

Section supervise.
Context {tls : Type} {TE : TlsEngine tls} {TL : TlsLaws tls}.
Context {db : Type} `{SQ : Sqlite db}.
Variable tdefl_compress : bytes -> option bytes.
Variable mz_crc32 : bytes -> Z.
Implicit Types (g : gateway tls) (a : app db).

(** ** Spawning *)

Lemma wf_install g i svc slot k fd pid svc' :
  gw_wf g -> g_ctrls g !! k = None -> g_services g !! i = Some svc -> service_ok svc' ->
  s_conns svc' = <[slot := Some k]> (s_conns svc) ->
  gw_wf (g <| g_ctrls := <[k := Ctrl fd pid (Some i) [] 0 [] 0 0]> (g_ctrls g) |>
           <| g_services := <[i := svc']> (g_services g) |>).
Proof.
  intros [? ? Ww ? Wk Ws Wr Wo ?] Hk Hi Hok Ec.
  assert (forall k', is_Some (g_ctrls g !! k') -> k' <> k) as Hne by (intros k' Hs ->; rewrite Hk in Hs; by destruct Hs).
  split; unfold update; cbn; try done.
  - intros p c Hc Hf. destruct (Ww p c Hc Hf) as (k' & Ek & Hex). exists k'. split; [done|]. cbn.
    rewrite lookup_insert_ne; [done|]. intros <-. by apply (Hne k).
  - apply map_Forall_insert_2; [|done]. split; cbn; try (unfold ADDRESS_SPACE; lia). constructor.
  - by apply Forall_insert.
  - intros j sv s k' Hj Hs. apply list_lookup_insert_Some in Hj as [(-> & -> & _)|[Hji Hj]].
    + rewrite Ec in Hs. apply list_lookup_insert_Some in Hs as [(_ & [= <-] & _)|[_ Hs]].
      * exists (Ctrl fd pid (Some j) [] 0 [] 0 0). split; [apply lookup_insert_eq|done].
      * destruct (Wr _ _ _ _ Hi Hs) as (ct & Hct & E). exists ct. rewrite lookup_insert_ne; [done|].
        intros <-. by apply (Hne k); [eexists|].
    + destruct (Wr _ _ _ _ Hj Hs) as (ct & Hct & E). exists ct. rewrite lookup_insert_ne; [done|].
      intros <-. by apply (Hne k); [eexists|].
  - intros k' ct j Hk' Hs. apply lookup_lt_is_Some. rewrite length_insert. apply lookup_lt_is_Some.
    apply lookup_insert_Some in Hk' as [[<- <-]|[_ Hk']]; [|by eapply Wo]. injection Hs as <-. by eexists.
Qed.

(** The controllers that are going to be spawned are allocated at fresh addresses. *)
Definition spawn_ptrs (sps : list spawn) : list ctrl_ptr := omap sp_calloc sps.
Definition spawns_fresh g (sps : list spawn) : Prop :=
  NoDup (spawn_ptrs sps) /\ Forall (fun k => g_ctrls g !! k = None) (spawn_ptrs sps).

(** What the supervisor keeps. *)
Record loop_ok (n : nat) (w : gateway tls * app db) : Prop := LoopOk {
  lo_world : world_ok w; lo_spawns : spawns_fresh (fst w) (a_spawns (snd w)); lo_services : length (g_services (fst w)) = n }.

Lemma app_ok_same g g' a : app_ok g a -> kept g g' -> app_ok g' a.
Proof. intros Ha K. eapply app_ok_kept; [done..|apply app_step_refl]. Qed.

(** Changing a service's counters. *)
Lemma loop_put_service n i svc svc' g a (Q : unit -> gateway tls * app db -> Prop) :
  loop_ok n (g, a) -> g_services g !! i = Some svc -> service_ok svc' -> s_conns svc' = s_conns svc ->
  (forall g', loop_ok n (g', a) -> Q tt (g', a)) -> wp (lift (put_service i svc')) Q (g, a).
Proof.
  intros [[W Ha] F L] Hi Hok Ec HQ. cbn [fst snd] in *. apply wp_lift.
  apply (wp_store _ (g <| g_services := <[i := svc']> (g_services g) |>)); [cbv beta; by rewrite Hi|].
  apply HQ. split; [split|done|cbn; by rewrite length_insert]; cbn [fst snd].
  - eapply wf_put_service; [done..|]. by rewrite Ec.
  - eapply app_ok_same; [exact Ha|]. split; [done|done|cbn; by rewrite length_insert].
Qed.

Lemma handshake_total sp : is_Some (handshake sp).
Proof.
  unfold handshake, read_full. destruct (Nat.ltb_spec (length (sp_hello sp)) NTC_WIRE_HEADER_LEN); [by eexists|].
  edestruct parse_header_total as [h ->]; [|bind; by eexists]. rewrite length_take. lia.
Qed.

Lemma installed_ok svc slot k t :
  service_ok svc -> (forall s, s_conns svc !! s <> Some (Some k)) ->
  service_ok (svc <| s_conns := <[slot := Some k]> (s_conns svc) |> <| s_spawned_at := <[slot := t]> (s_spawned_at svc) |>).
Proof.
  intros [(H1 & H2 & H3 & H4) Hr Hrr Hb Hu] Hk. split; unfold update; cbn; rewrite ?length_insert; try done.
  intros s1 s2 k' E1 E2. apply list_lookup_insert_Some in E1 as [(<- & [= <-] & _)|[N1 E1]].
  - apply list_lookup_insert_Some in E2 as [(<- & _ & _)|[_ E2]]; [done|]. by destruct (Hk s2).
  - apply list_lookup_insert_Some in E2 as [(<- & [= <-] & _)|[_ E2]]; [by destruct (Hk s1)|]. by eapply Hu.
Qed.

Lemma loop_install n i slot k fd pid svc g a sps (Q : Z -> gateway tls * app db -> Prop) :
  world_ok (g, a) -> a_spawns a = sps -> NoDup (k :: spawn_ptrs sps) -> Forall (fun k => g_ctrls g !! k = None) (k :: spawn_ptrs sps) ->
  length (g_services g) = n -> g_services g !! i = Some svc -> (slot < NTC_MAX_REPLICAS)%nat ->
  (forall r g', loop_ok n (g', a) -> Q r (g', a)) -> wp (lift (install_ctrl i slot k fd pid)) Q (g, a).
Proof.
  intros [W Ha] <- [Hk Hd]%NoDup_cons [Hn Hf]%Forall_cons_1 L Hi Hslot HQ. cbn [fst snd] in *.
  apply wp_lift. unfold install_ctrl, ntc_poller_add. apply wp_bnd.
  destruct (noise_ask_poll g) as (b0 & g0 & _ & _).
  eapply (wp_kept _ _ g g); [auto with keeps|apply kept_refl|].
  eapply wp_noise_core; [apply noise_poller_mod|]. intros ok g1 S1 K1. pose proof (same_core_wf _ _ S1 W) as W1.
  pose proof (sc_ctrls _ _ S1) as Ek. pose proof (sc_services _ _ S1) as Es.
  destruct ok; cbn [negb].
  2: { apply wp_ret, HQ. split; cbn [fst snd]; [split; [done|by eapply app_ok_same]| |by rewrite Es]. split; [done|].
       by rewrite Ek. }
  apply wp_bnd, wp_gets, wp_bnd, wp_modify, wp_bnd. cbv beta. eapply wp_load; [cbn; rewrite Es; exact Hi|].
  pose proof (Forall_lookup_1 _ _ _ _ (wf_services _ W) Hi) as Hok.
  assert (forall s, s_conns svc !! s <> Some (Some k)) as Hnk.
  { intros s Hs. destruct (wf_replicas _ W i svc s k Hi Hs) as (ct & Hct & _). congruence. }
  pose proof Hok as [(H1 & H2 & H3 & H4) _ _ _ _].
  destruct (lookup_lt_is_Some_2 (s_conns svc) slot) as [o Eo]; [congruence|].
  destruct (lookup_lt_is_Some_2 (s_spawned_at svc) slot) as [t Et]; [congruence|].
  apply wp_bnd. eapply wp_load; [exact Eo|]. apply wp_bnd. eapply wp_load; [exact Et|]. apply wp_bnd.
  set (svc' := svc <| s_conns := _ |> <| s_spawned_at := _ |>).
  assert (service_ok svc') as Hok' by (by apply installed_ok). assert (s_conns svc' = <[slot := Some k]> (s_conns svc)) as Ec by done.
  clearbody svc'.
  eapply wp_store; [cbn; rewrite Es, Hi; reflexivity|]. apply wp_ret, HQ. rewrite <- Es in Hi. rewrite <- Ek in Hn.
  pose proof (wf_install g1 i svc slot k fd pid svc' W1 Hn Hi Hok' Ec) as W2. rewrite Es in W2.
  split; cbn [fst snd]; [split|split; [done|]|].
  - refine (same_core_wf _ _ _ W2). by split.
  - cbn [fst snd]. eapply app_ok_same; [exact Ha|]. eapply kept_trans; [exact K1|]. split; [done|done|]. cbn.
    by rewrite length_insert, Es.
  - rewrite list.Forall_forall in *. intros k' Hk'. cbn. rewrite lookup_insert_ne by (by intros ->). rewrite Ek. by apply Hf.
  - cbn. rewrite length_insert. congruence.
Qed.

Lemma loop_spawn n i slot w (Q : Z -> gateway tls * app db -> Prop) :
  loop_ok n w -> (i < n)%nat -> (slot < NTC_MAX_REPLICAS)%nat ->
  (forall r w', loop_ok n w' -> Q r w') -> wp (spawn_service i slot) Q w.
Proof.
  destruct w as [g a]. intros [[W Ha] [Fd Ff] L] Hi Hslot HQ. cbn [fst snd] in *. unfold spawn_service.
  apply wp_bnd, wp_get_app. destruct (a_spawns a) as [|sp sps] eqn:Esp.
  { apply wp_ret, HQ. split; cbn; rewrite ?Esp; done. }
  apply wp_bnd, wp_set_app. set (a' := a <| a_spawns := sps |>).
  assert (app_ok g a') as Ha' by (eapply app_ok_kept; [exact Ha|apply kept_refl|by split]).
  assert (forall sps', spawns_fresh g (sp :: sps') -> spawns_fresh g sps') as Htl.
  { unfold spawns_fresh, spawn_ptrs. intros sps'. cbn. destruct (sp_calloc sp); [|done].
    intros [[_ ?]%NoDup_cons [_ ?]%Forall_cons_1]. done. }
  assert (loop_ok n (g, a')) as J by (split; [done|by apply (Htl sps)|done]).
  case_match; [by apply wp_ret, HQ|]. apply wp_bnd. destruct (handshake_total sp) as [ok Eok].
  eapply wp_load; [exact Eok|]. destruct (negb ok); [by apply wp_ret, HQ|].
  destruct (sp_calloc sp) as [k|] eqn:Ek; [|by apply wp_ret, HQ].
  destruct (lookup_lt_is_Some_2 (g_services g) i) as [svc Hsvc]; [lia|].
  unfold spawn_ptrs in Fd, Ff. cbn in Fd, Ff. rewrite Ek in Fd, Ff.
  eapply loop_install; [by split|reflexivity|done|done|done|exact Hsvc|done|]. intros r g' J'. by apply HQ.
Qed.

(** ** The supervisor *)

Lemma backoff_ok svc slot b r :
  service_ok svc -> b = 0 \/ NTC_BACKOFF_BASE <= b <= NTC_BACKOFF_MAX ->
  service_ok (svc <| s_backoff_ms := <[slot := b]> (s_backoff_ms svc) |> <| s_restart_at := <[slot := r]> (s_restart_at svc) |>) /\
  service_ok (svc <| s_backoff_ms := <[slot := b]> (s_backoff_ms svc) |>).
Proof.
  intros [(H1 & H2 & H3 & H4) Hr Hrr Hb Hu] Hn.
  split; split; unfold update; cbn; rewrite ?length_insert; try done; by apply Forall_insert.
Qed.

(** Every slot's counters are there. *)
Lemma slot_lookups svc s :
  service_ok svc -> (s < NTC_MAX_REPLICAS)%nat ->
  exists c r b t, s_conns svc !! s = Some c /\ s_restart_at svc !! s = Some r /\ s_backoff_ms svc !! s = Some b /\
    s_spawned_at svc !! s = Some t /\ (b = 0 \/ NTC_BACKOFF_BASE <= b <= NTC_BACKOFF_MAX).
Proof.
  intros [(H1 & H2 & H3 & H4) _ _ Hb _] Hs.
  destruct (lookup_lt_is_Some_2 (s_conns svc) s) as [c Ec]; [congruence|].
  destruct (lookup_lt_is_Some_2 (s_restart_at svc) s) as [r Er]; [congruence|].
  destruct (lookup_lt_is_Some_2 (s_backoff_ms svc) s) as [b Eb]; [congruence|].
  destruct (lookup_lt_is_Some_2 (s_spawned_at svc) s) as [t Et]; [congruence|].
  exists c, r, b, t. split_and!; try done. by apply (Forall_lookup_1 _ _ _ _ Hb Eb).
Qed.

Lemma loop_service n w i : loop_ok n w -> (i < n)%nat -> exists svc, g_services (fst w) !! i = Some svc /\ service_ok svc.
Proof.
  intros [[W _] _ L] Hi. destruct (lookup_lt_is_Some_2 (g_services (fst w)) i) as [svc H]; [lia|].
  exists svc. split; [done|]. apply (Forall_lookup_1 _ _ _ _ (wf_services _ W) H).
Qed.

Lemma wp_lift_service i svc g a (Q : service -> gateway tls * app db -> Prop) :
  g_services g !! i = Some svc -> Q svc (g, a) -> wp (lift (get_service i)) Q (g, a).
Proof. intros H HQ. apply wp_lift. by eapply wp_load. Qed.

Lemma loop_supervise_slot n t i s w :
  loop_ok n w -> (i < n)%nat -> (s < NTC_MAX_REPLICAS)%nat ->
  wp (supervise_slot t i s) (fun _ w' => loop_ok n w') w.
Proof.
  intros J Hi Hs. destruct w as [g a]. destruct (loop_service _ _ _ J Hi) as (svc & Hsvc & Hok). cbn [fst] in Hsvc.
  destruct (slot_lookups svc s Hok Hs) as (c & r & b & since & Ec & Er & Eb & Et & Hb). unfold supervise_slot.
  apply wp_bnd, (wp_lift_service i svc); [done|]. apply wp_bnd. eapply wp_load; [exact Ec|].
  apply wp_bnd. eapply wp_load; [exact Er|]. apply wp_bnd. eapply wp_load; [exact Eb|].
  apply wp_bnd. eapply wp_load; [exact Et|]. destruct c as [k|].
  - case_match; [|by apply wp_ret]. eapply loop_put_service; [done|exact Hsvc| |done|done].
    apply (backoff_ok svc s NTC_BACKOFF_BASE 0); [done|right; unfold NTC_BACKOFF_BASE, NTC_BACKOFF_MAX; lia].
  - case_match; [by apply wp_ret|]. apply wp_bnd. eapply loop_spawn; [done..|]. intros z [g' a'] J'.
    case_match; [by apply wp_ret|]. destruct (loop_service _ _ _ J' Hi) as (svc' & Hsvc' & Hok'). cbn [fst] in Hsvc'.
    apply wp_bnd, (wp_lift_service i svc'); [done|]. eapply loop_put_service; [done|exact Hsvc'| |done|done].
    apply backoff_ok; [done|]. right. by apply next_backoff_range.
Qed.

Lemma wp_for_each {S} (I : S -> Prop) l (f : nat -> St S unit) s :
  I s -> (forall x s, x ∈ l -> I s -> wp (f x) (fun _ s' => I s') s) -> wp (for_each l f) (fun _ s' => I s') s.
Proof.
  revert s. induction l as [|x l IH]; intros s Hs Hf; cbn [for_each]; [by apply wp_ret|].
  apply wp_bnd. eapply wp_mono; [apply Hf; [left|done]|]. intros [] s' Hs'. apply IH; [exact Hs'|].
  intros y s2 Hy. apply Hf. by right.
Qed.

Lemma loop_supervise n w : loop_ok n w -> wp supervise (fun _ w' => loop_ok n w') w.
Proof.
  intros J. destruct w as [g a]. unfold supervise. apply wp_bnd, wp_lift, wp_gets, wp_bnd, wp_lift, wp_gets.
  replace (length (g_services g)) with n by (symmetry; apply (lo_services _ _ J)). apply (wp_for_each (loop_ok n)); [done|]. intros i [g1 a1] Hi%elem_of_seq J1.
  destruct (loop_service _ _ i J1) as (svc & Hsvc & Hok); [lia|]. apply wp_bnd, (wp_lift_service i svc); [done|].
  case_match; [by apply wp_ret|]. apply (wp_for_each (loop_ok n)); [done|]. intros s w2 Hs%elem_of_seq J2.
  pose proof (svc_n_range svc Hok). apply loop_supervise_slot; [done|lia|]. change NTC_MAX_REPLICAS with 8%nat. lia.
Qed.

(** ** The watcher *)

Definition sized (n : nat) g : Prop := gw_wf g /\ length (g_services g) = n.

Lemma sized_service n g i : sized n g -> (i < n)%nat -> exists svc, g_services g !! i = Some svc /\ service_ok svc.
Proof.
  intros [W L] Hi. destruct (lookup_lt_is_Some_2 (g_services g) i) as [svc H]; [lia|].
  exists svc. split; [done|]. apply (Forall_lookup_1 _ _ _ _ (wf_services _ W) H).
Qed.

Lemma sized_put n i svc svc' g (Q : unit -> gateway tls -> Prop) :
  sized n g -> g_services g !! i = Some svc -> service_ok svc' -> s_conns svc' = s_conns svc ->
  (forall g', sized n g' -> g_services g' !! i = Some svc' -> Q tt g') -> wp (put_service i svc') Q g.
Proof.
  intros [W L] Hi Hok Ec HQ. apply (wp_store _ (g <| g_services := <[i := svc']> (g_services g) |>)); [cbv beta; by rewrite Hi|].
  apply HQ; [split; [|cbn; by rewrite length_insert]|].
  - eapply wf_put_service; [done..|]. by rewrite Ec.
  - cbn. apply list_lookup_insert_eq. by apply lookup_lt_Some in Hi.
Qed.

(** A slot that is emptied, and its controller gone. *)
Lemma emptied_ok svc s : service_ok svc -> service_ok (svc <| s_conns := <[s := None]> (s_conns svc) |>).
Proof.
  intros [(H1 & H2 & H3 & H4) Hr Hrr Hb Hu]. split; unfold update; cbn; rewrite ?length_insert; try done.
  intros s1 s2 k E1 E2. apply (Hu s1 s2 k).
  - apply list_lookup_insert_Some in E1 as [(? & [=] & _)|[_ E1]]; done.
  - apply list_lookup_insert_Some in E2 as [(? & [=] & _)|[_ E2]]; done.
Qed.

Lemma sized_teardown n i s g :
  sized n g -> (i < n)%nat -> (s < NTC_MAX_REPLICAS)%nat ->
  wp (dev_teardown_slot tdefl_compress mz_crc32 i s) (fun _ g' => sized n g') g.
Proof.
  intros Hn Hi Hs. destruct (sized_service _ _ _ Hn Hi) as (svc & Hsvc & Hok). pose proof Hn as [W L].
  destruct (slot_lookups svc s Hok Hs) as (c & _ & _ & _ & Ec & _). unfold dev_teardown_slot.
  apply wp_bnd. eapply wp_load; [exact Hsvc|]. apply wp_bnd. eapply wp_load; [exact Ec|].
  destruct c as [k|]; [|by apply wp_ret]. destruct (wf_replicas _ W i svc s k Hsvc Ec) as (ct & Hk & Ek).
  apply wp_bnd, (wp_get_ctrl k ct); [done|]. apply wp_bnd. eapply wp_noise_core; [apply noise_poller_del|].
  intros [] g1 S1. pose proof (same_core_wf _ _ S1 W) as W1. apply wp_bnd, wp_fail_inflight; [done| |].
  { apply Forall_forall. intros j Hj%elem_of_seq. lia. }
  intros g2 W2 (Fs & _ & Fk) Hf. destruct (Fk k ct) as (ct2 & Hk2 & _); [by rewrite (sc_ctrls _ _ S1)|].
  assert (g_services g2 = g_services g) as Es by (by rewrite Fs, (sc_services _ _ S1)).
  apply wp_bnd, wp_bnd, (wp_get_ctrl k ct2); [done|]. apply wp_modify, wp_bnd.
  eapply wp_load; [cbn; rewrite Es; exact Hsvc|].
  eapply wp_store; [cbn; rewrite Es, Hsvc; reflexivity|]. split; [|cbn; by rewrite length_insert].
  rewrite <- Es in Hsvc. set (svc' := svc <| s_conns := <[s := None]> (s_conns svc) |>).
  assert (forall s1 k1, s_conns svc' !! s1 = Some (Some k1) -> s_conns svc !! s1 = Some (Some k1) /\ s1 <> s) as Hsub.
  { intros s1 k1 [(? & [=] & _)|[? E1]]%list_lookup_insert_Some. done. }
  assert (gw_wf (g2 <| g_services := <[i := svc']> (g_services g2) |>)) as W3.
  { eapply wf_put_service; [done..|by apply emptied_ok|]. intros s1 k1 H1. by apply Hsub. }
  rewrite <- Es. refine (same_core_wf _ _ _ (wf_free_ctrl _ k W3 _ _)); [by split|..].
  - intros p c Hc Hfl. by eapply fate_no_waiter; [apply (Hf p)|..].
  - intros j sv s1 Hj E1. cbn in Hj. apply list_lookup_insert_Some in Hj as [(-> & <- & _)|[Hji Hj]].
    + apply Hsub in E1 as [E1 Hne]. apply Hne. by apply (ok_unique _ Hok s1 s k).
    + destruct (wf_replicas _ W2 j sv s1 k Hj E1) as (ct' & Hk' & Ej). destruct (Fk k ct) as (ct3 & Hk3 & S3); [by rewrite (sc_ctrls _ _ S1)|].
      assert (k_svc ct3 = k_svc ct) by apply S3. congruence.
Qed.

Lemma sized_reload n i s g :
  sized n g -> (i < n)%nat -> (s < NTC_MAX_REPLICAS)%nat ->
  wp (dev_reload_slot tdefl_compress mz_crc32 i s) (fun _ g' => sized n g') g.
Proof.
  intros Hn Hi Hs. unfold dev_reload_slot. apply wp_bnd. eapply wp_mono; [by apply sized_teardown|].
  intros [] g1 H1. destruct (sized_service _ _ _ H1 Hi) as (svc & Hsvc & Hok).
  destruct (slot_lookups svc s Hok Hs) as (c & r & b & t & Ec & Er & Eb & Et & Hb).
  apply wp_bnd. eapply wp_load; [exact Hsvc|]. apply wp_bnd. eapply wp_load; [exact Eb|].
  apply wp_bnd. eapply wp_load; [exact Er|]. apply wp_bnd, wp_gets.
  eapply sized_put; [done|exact Hsvc|apply backoff_ok; [done|by left]|done|done].
Qed.

Lemma sized_watch n m i g :
  sized n g -> (i < n)%nat -> wp (dev_watch_binary tdefl_compress mz_crc32 m i) (fun _ g' => sized n g') g.
Proof.
  intros Hn Hi. destruct (sized_service _ _ _ Hn Hi) as (svc & Hsvc & Hok). unfold dev_watch_binary.
  apply wp_bnd. eapply wp_load; [exact Hsvc|]. case_match; [by apply wp_ret|]. cbv zeta. case_match; [by apply wp_ret|].
  assert (forall x, service_ok (svc <| s_bin_mtime := x |>)) as Hok' by (intros x; destruct Hok; by split).
  case_match; [eapply sized_put; by try done|]. case_match; [|by apply wp_ret]. apply wp_bnd.
  eapply sized_put; [done|exact Hsvc|done|done|]. intros g1 J1 Hs1. unfold dev_reload_service.
  apply wp_bnd. eapply wp_load; [exact Hs1|]. apply (wp_for_each (sized n)); [done|]. intros s g2 Hs%elem_of_seq J2.
  pose proof (svc_n_range _ (Hok' (m (s_bin svc)))). apply sized_reload; [done|lia|]. change NTC_MAX_REPLICAS with 8%nat. lia.
Qed.

Lemma wp_dev_tick fs wa g : gw_wf g -> wp (dev_tick tdefl_compress mz_crc32 fs wa) (fun _ g' => gw_wf g') g.
Proof.
  intros W. unfold dev_tick. case_match; [by apply wp_ret|]. apply wp_bnd, wp_gets. case_match; [by apply wp_ret|].
  cbv zeta. apply wp_bnd, wp_gets, wp_bnd. eapply wp_mono; [apply (wp_for_each (sized (length (g_services g)))); [done|]|].
  - intros i g1 Hi%elem_of_seq J1. apply sized_watch; [done|lia].
  - intros [] g1 [W1 _]. by apply wp_ret.
Qed.

Lemma keeps_for_each l (f : nat -> St (gateway tls) unit) : (forall x, keeps (f x)) -> keeps (for_each l f).
Proof. intros Hf. induction l as [|x l IH]; cbn [for_each]; [apply keeps_ret|]. apply keeps_bnd; [done|by intros []]. Qed.

Lemma keeps_dev_tick fs wa : keeps (dev_tick tdefl_compress mz_crc32 fs wa : St (gateway tls) _).
Proof.
  assert (forall i s, keeps (dev_reload_slot tdefl_compress mz_crc32 i s : St (gateway tls) _)) as Hr.
  { intros i s. unfold dev_reload_slot, dev_teardown_slot. keeps_tac. }
  assert (forall m i, keeps (dev_watch_binary tdefl_compress mz_crc32 m i : St (gateway tls) _)) as Hw.
  { intros m i. unfold dev_watch_binary, dev_reload_service. keeps_tac. by apply keeps_for_each. }
  unfold dev_tick. cbv zeta. case_match; [apply keeps_ret|]. apply keeps_bnd; [apply keeps_gets|]. intros now.
  case_match; [apply keeps_ret|]. apply keeps_bnd; [apply keeps_gets|]. intros n.
  apply keeps_bnd; [by apply keeps_for_each|]. intros []. apply keeps_ret.
Qed.

(** ** The sweep *)

Lemma wp_sweep time (w : gateway tls * app db) : world_ok w -> wp (sweep_sessions time) (fun _ w' => world_ok w') w.
Proof.
  destruct w as [g a]. intros [W Ha]. unfold sweep_sessions. apply wp_bnd, wp_get_app.
  destruct (a_sessions a) as [ss|] eqn:Es; [|by apply wp_ret]. apply wp_bnd, wp_lift, wp_gets, wp_bnd, wp_get_app.
  case_match; [|by apply wp_ret]. apply wp_set_app. split; [done|]. cbn [fst snd] in *.
  eapply app_ok_kept; [exact Ha|apply kept_refl|]. split; [done|done|]. split; [intros _; by eexists|done].
Qed.
End supervise.
