(* ===== verification/Liveness.v ===== *)
(** * The supervisor makes progress (src/core/server.c)

    After a round of [supervise] no replica of an enabled service is simply down: it holds a
    controller, or it is to be tried again at a time that is at most the largest backoff away,
    and the poller's timeout does not sleep past that time. *)
From S2P Require Import Prelude Update Err Slice Http HttpRequest Wire Inflight ServerState ServerConn ServerRelay ServerInv.
From S2P Require Import ServerSafe ServerCtrlSafe ServerProps Keeps Router Builtin Registry App Services.
From S2P Require Import Double Json Schema Crypto Jwt Middleware Session Control Oauth Admin Dispatch DispatchTotal DispatchSafe.
From S2P Require Import ServerRelaySafe ServerEvents ServerForward RequestSafe RequestProps Events EventsSafe LoopSafe.
Open Scope Z_scope.

(** ** What a round promises of a service *)

Definition live (svc : service) (s : nat) : Prop := exists k, s_conns svc !! s = Some (Some k).
(** Slot [s] is empty and is not tried before [r]. *)
Definition down_until (svc : service) (s : nat) (r : Z) : Prop :=
  s_conns svc !! s = Some None /\ s_restart_at svc !! s = Some r.
Definition settled (t : Z) (svc : service) (s : nat) : Prop := live svc s \/ exists r, down_until svc s r /\ t < r.
(** No slot waits longer than the largest backoff. *)
Definition paced (t : Z) (svc : service) : Prop := Forall (fun r => r <= t + NTC_BACKOFF_MAX) (s_restart_at svc).

(** Visiting slot [s] at time [t] settles it, and leaves the others as they are. *)
Record slot_step (t : Z) (s : nat) (svc svc' : service) : Prop := SlotStep {
  st_disabled : s_disabled svc' = s_disabled svc;
  st_n : svc_n svc' = svc_n svc;
  st_other s' : s' <> s -> s_conns svc' !! s' = s_conns svc !! s' /\ s_restart_at svc' !! s' = s_restart_at svc !! s';
  st_paced : paced t svc -> paced t svc';
  st_settled : settled t svc' s }.

Lemma settled_other t s s' svc svc' : slot_step t s svc svc' -> s' <> s -> settled t svc s' -> settled t svc' s'.
Proof.
  intros S Hne. destruct (st_other _ _ _ _ S s' Hne) as [Ec Er]. unfold settled, live, down_until. by rewrite Ec, Er.
Qed.

Lemma retry_backoff_range b :
  b = 0 \/ NTC_BACKOFF_BASE <= b <= NTC_BACKOFF_MAX -> 0 < retry_backoff b <= NTC_BACKOFF_MAX.
Proof.
  unfold retry_backoff, NTC_BACKOFF_BASE, NTC_BACKOFF_MAX. intros Hb.
  destruct (Z.eqb_spec b 0); match goal with |- context [?a <? ?b] => destruct (Z.ltb_spec a b) end; lia.
Qed.

(** A failed attempt. *)
Lemma slot_step_failed t s svc b :
  service_ok svc -> s_conns svc !! s = Some None -> b = 0 \/ NTC_BACKOFF_BASE <= b <= NTC_BACKOFF_MAX ->
  slot_step t s svc (svc <| s_backoff_ms := <[s := retry_backoff b]> (s_backoff_ms svc) |>
                         <| s_restart_at := <[s := t + retry_backoff b]> (s_restart_at svc) |>).
Proof.
  intros Hok Hc Hb. pose proof (retry_backoff_range b Hb). destruct (ok_shape _ Hok) as (H1 & H2 & _).
  apply lookup_lt_Some in Hc as Hs. split; unfold update, paced; cbn; try done.
  - intros s' Hne. by rewrite list_lookup_insert_ne.
  - intros Hp. apply Forall_insert; [done|lia].
  - right. exists (t + retry_backoff b). split; [|lia]. split; [done|]. cbn. apply list_lookup_insert_eq. lia.
Qed.

(** A controller in the slot. *)
Lemma slot_step_live t s svc svc' k :
  s_disabled svc' = s_disabled svc -> svc_n svc' = svc_n svc -> s_restart_at svc' = s_restart_at svc ->
  (s < length (s_conns svc))%nat -> s_conns svc' = <[s := Some k]> (s_conns svc) -> slot_step t s svc svc'.
Proof.
  intros Hd Hn Hr Hs Hc. split; [done|done| | |].
  - intros s' Hne. by rewrite Hc, Hr, list_lookup_insert_ne.
  - unfold paced. by rewrite Hr.
  - left. exists k. rewrite Hc. by apply list_lookup_insert_eq.
Qed.

(** ** The round *)
Section round.
Context {tls : Type} {TE : TlsEngine tls} {TL : TlsLaws tls}.
Context {db : Type} `{SQ : Sqlite db}.
Local Abbreviation world := (gateway tls * app db)%type.
Implicit Types (g : gateway tls) (a : app db) (w : world).

Definition services_of w : list service := g_services (fst w).

(** What the run of an operation that cannot fail adds to what is known of its result. *)
Lemma wp_also {S A} (m : St S A) (P : A -> S -> Prop) (R : A -> S -> Prop) s :
  wp m P s -> (forall x s', m s = Some (x, s') -> P x s' -> R x s') -> wp m (fun x s' => P x s' /\ R x s') s.
Proof. intros (x & s' & E & HP) HR. exists x, s'. split_and!; auto. Qed.

Lemma ask_poll_services g b g' : ask_poll g = Some (b, g') -> g_services g' = g_services g.
Proof. intros E. destruct (noise_ask_poll g) as (b' & g1 & E' & S). rewrite E in E'. injection E' as <- <-. apply S. Qed.

Lemma poller_mod_services fd ev t g b g' : ntc_poller_mod fd ev t g = Some (b, g') -> g_services g' = g_services g.
Proof.
  intros E. destruct (noise_poller_mod fd ev t g) as (b' & g1 & E' & S). rewrite E in E'. injection E' as <- <-. apply S.
Qed.

(** Installing puts the controller into its slot or answers -1 and changes no service. *)
Lemma install_services i slot k fd pid g r g' :
  install_ctrl i slot k fd pid g = Some (r, g') ->
  (r = -1 /\ g_services g' = g_services g) \/
  (r = 0 /\ exists svc svc', g_services g !! i = Some svc /\ g_services g' = <[i := svc']> (g_services g) /\
     forall t, slot_step t slot svc svc').
Proof.
  unfold install_ctrl, ntc_poller_add, bnd at 1. destruct (ntc_poller_mod fd NTC_POLL_READ (PCtrl k) g) as [[ok g1]|] eqn:E; [|done].
  apply poller_mod_services in E. destruct ok; cbn [negb]; [|intros [= <- <-]; by left].
  unfold get_service, put_service, bnd, gets, modify, load, ret, store, update. cbn. rewrite E.
  destruct (g_services g !! i) as [svc|] eqn:Ei; [|done]. destruct (s_conns svc !! slot) eqn:Ec; [|done].
  destruct (s_spawned_at svc !! slot); [|done]. cbn. rewrite ?E, ?Ei. intros [= <- <-]. right. split; [done|].
  eexists _, _. split; [done|]. split; [reflexivity|]. intros t. apply lookup_lt_Some in Ec.
  by eapply slot_step_live.
Qed.

Lemma spawn_services i slot w r w' :
  spawn_service i slot w = Some (r, w') ->
  (r = -1 /\ services_of w' = services_of w) \/
  (r = 0 /\ exists svc svc', services_of w !! i = Some svc /\ services_of w' = <[i := svc']> (services_of w) /\
     forall t, slot_step t slot svc svc').
Proof.
  destruct w as [g a]. unfold spawn_service, bnd at 1, get_app, gets. cbn. destruct (a_spawns a) as [|sp sps].
  { intros [= <- <-]. by left. }
  unfold bnd at 1, set_app, modify. cbn. destruct (sp_made sp); cbn; [|intros [= <- <-]; by left].
  unfold bnd, load. destruct (handshake sp) as [[]|]; cbn; [|intros [= <- <-]; by left|done].
  destruct (sp_calloc sp) as [k|]; [|intros [= <- <-]; by left]. unfold lift.
  destruct (install_ctrl i slot k (sp_fd sp) (sp_pid sp) g) as [[x g1]|] eqn:E; [|done]. intros [= <- <-].
  by apply install_services in E.
Qed.

(** Visiting a slot changes its service only, and settles it. *)
Lemma supervise_slot_services t i s svc w x w' :
  service_ok svc -> services_of w !! i = Some svc -> supervise_slot t i s w = Some (x, w') ->
  exists svc', services_of w' = <[i := svc']> (services_of w) /\ slot_step t s svc svc'.
Proof.
  destruct w as [g a]. unfold services_of. intros Hok Hi. cbn in Hi. unfold supervise_slot, get_service, put_service, bnd, load.
  cbn -[spawn_service].
  rewrite Hi. destruct (s_conns svc !! s) as [c|] eqn:Ec; [|done]. destruct (s_restart_at svc !! s) as [r|] eqn:Er; [|done].
  destruct (s_backoff_ms svc !! s) as [b|] eqn:Eb; [|done]. destruct (s_spawned_at svc !! s) as [since|]; [|done].
  pose proof (Forall_lookup_1 _ _ _ _ (ok_backoff _ Hok) Eb) as Hb. cbv beta in Hb. destruct c as [k|].
  { assert (forall svc', s_conns svc' = s_conns svc -> s_restart_at svc' = s_restart_at svc -> s_disabled svc' = s_disabled svc ->
      svc_n svc' = svc_n svc -> slot_step t s svc svc') as Hs.
    { intros svc' Hc Hr Hd Hn. eapply (slot_step_live _ _ _ _ k); try done; [by apply lookup_lt_Some in Ec|].
      rewrite Hc. by rewrite list_insert_id. }
    destruct (_ && _).
    - unfold store. cbn. rewrite Hi. intros [= _ <-]. eexists. split; [reflexivity|]. by apply Hs.
    - intros [= _ <-]. exists svc. cbn. rewrite list_insert_id by done. split; [done|]. by apply Hs. }
  destruct (Z.ltb_spec t r) as [Hd|Hd].
  { intros [= _ <-]. exists svc. cbn. rewrite list_insert_id by done. split; [done|]. split; try done.
    right. exists r. done. }
  destruct (spawn_service i s (g, a)) as [[z [g1 a1]]|] eqn:Esp; [|done].
  destruct (spawn_services i s _ _ _ Esp) as [[-> E]|(-> & svc0 & svc' & E0 & E & Hs)]; unfold services_of in *; cbn in *.
  - rewrite E, Hi. unfold store. cbn. rewrite E, Hi. cbn. intros [= _ <-]. eexists. split; [cbn; reflexivity|].
    by apply slot_step_failed.
  - intros [= _ <-]. rewrite Hi in E0. injection E0 as <-. exists svc'. split; [done|]. apply Hs.
Qed.

(** A loop over the first numbers, with an invariant that counts. *)
Lemma wp_for_seq {S} (I : nat -> S -> Prop) n (f : nat -> St S unit) s :
  I 0%nat s -> (forall x s, (x < n)%nat -> I x s -> wp (f x) (fun _ s' => I (Datatypes.S x) s') s) ->
  wp (for_each (seq 0 n) f) (fun _ s' => I n s') s.
Proof.
  intros H0 Hf. enough (forall k m s, (m + k = n)%nat -> I m s -> wp (for_each (seq m k) f) (fun _ s' => I n s') s) as H by by apply H.
  induction k as [|k IH]; intros m s1 Hm HI; cbn [seq for_each]; [apply wp_ret; by replace n with m by lia|].
  apply wp_bnd. eapply wp_mono; [apply Hf; [lia|done]|]. intros [] s2 H2. apply IH; [lia|done].
Qed.

(** The services before the [m]th are settled, as are the first [ns] slots of it. *)
Definition done_with (t : Z) (svc : service) : Prop :=
  s_disabled svc = false -> forall s, (s < Z.to_nat (svc_n svc))%nat -> settled t svc s.
Record rounded (t : Z) (m : nat) (w0 w : world) : Prop := Rounded {
  rd_paced : Forall (paced t) (services_of w0) -> Forall (paced t) (services_of w);
  rd_done i svc : (i < m)%nat -> services_of w !! i = Some svc -> done_with t svc }.

Lemma supervise_service n t m w0 w svc :
  loop_ok n w -> (m < n)%nat -> rounded t m w0 w -> services_of w !! m = Some svc -> s_disabled svc = false ->
  wp (for_each (seq 0 (Z.to_nat (svc_n svc))) (supervise_slot t m)) (fun _ w' => loop_ok n w' /\ rounded t (S m) w0 w') w.
Proof.
  intros J Hm R Hsvc Hd.
  set (I ns w' := loop_ok n w' /\ exists svc', services_of w' = <[m := svc']> (services_of w) /\ s_disabled svc' = false /\
    svc_n svc' = svc_n svc /\ (paced t svc -> paced t svc') /\ forall s, (s < ns)%nat -> settled t svc' s).
  eapply wp_mono; [apply (wp_for_seq I)|].
  - split; [done|]. exists svc. split; [by rewrite list_insert_id|]. split_and!; try done. lia.
  - intros s w1 Hs (J1 & svc1 & E1 & D1 & N1 & P1 & S1). apply lookup_lt_Some in Hsvc as Hl.
    assert (services_of w1 !! m = Some svc1) as Hsvc1 by (rewrite E1; by apply list_lookup_insert_eq).
    destruct (loop_service _ _ m J1 Hm) as (svc2 & Hsvc2 & Hok). unfold services_of in Hsvc1 at 1. rewrite Hsvc1 in Hsvc2.
    injection Hsvc2 as <-. pose proof (svc_n_range svc1 Hok) as Hn.
    eapply wp_mono; [apply (wp_also _ (fun _ w' => loop_ok n w') (fun _ w' => exists svc', services_of w' = <[m := svc']> (services_of w1) /\ slot_step t s svc1 svc'));
      [apply (loop_supervise_slot n); [done|done|]|]|].
    + change NTC_MAX_REPLICAS with 8%nat. rewrite N1 in Hn. lia.
    + intros x w' E _. by eapply supervise_slot_services.
    + intros [] w' (J' & svc' & E' & SS). split; [done|]. exists svc'. rewrite E', E1, list_insert_insert_eq.
      pose proof SS as [D' N' O' P' S']. split; [done|]. split; [congruence|]. split; [congruence|]. split; [auto|].
      intros s' Hs'. destruct (decide (s' = s)) as [->|Hne]; [done|]. eapply settled_other; [exact SS|done|]. apply S1. lia.
  - intros [] w' (J' & svc' & E' & D' & N' & P' & S'). split; [done|]. destruct R as [Rp Rd]. split.
    + intros H0. specialize (Rp H0). rewrite E'. apply Forall_insert; [exact Rp|]. exact (P' (Forall_lookup_1 _ _ _ _ Rp Hsvc)).
    + intros i sv Hi. rewrite E'. intros [(-> & -> & _)|[Hne H]]%list_lookup_insert_Some.
      * intros _ s. rewrite N'. apply S'.
      * eapply Rd; [|exact H]. lia.
Qed.

Lemma supervise_rounds n w : loop_ok n w ->
  wp supervise (fun _ w' => loop_ok n w' /\ rounded (g_now (fst w)) n w w') w.
Proof.
  intros J. destruct w as [g a]. unfold supervise. apply wp_bnd, wp_lift, wp_gets, wp_bnd, wp_lift, wp_gets.
  replace (length (g_services g)) with n by (symmetry; apply (lo_services _ _ J)). cbn [fst].
  apply (wp_for_seq (fun m w' => loop_ok n w' /\ rounded (g_now g) m (g, a) w')).
  { split; [done|]. split; [done|]. lia. }
  intros m [g1 a1] Hm [J1 R1]. destruct (loop_service _ _ m J1 Hm) as (svc & Hsvc & Hok).
  apply wp_bnd, (wp_lift_service m svc); [done|]. destruct (s_disabled svc) eqn:Hd; [|by apply supervise_service].
  apply wp_ret. split; [done|]. destruct R1 as [Rp Rd]. split; [done|]. intros i sv Hi Hsv.
  destruct (decide (i = m)) as [->|Hne]; [|apply (Rd i); [lia|done]]. unfold services_of in Hsv. rewrite Hsvc in Hsv.
  injection Hsv as <-. intros Hf. congruence.
Qed.
End round.

(** ** The poller's timeout *)

(** A fold of operations that only lower a time-out, each for its own element. *)
Lemma foldl_lowers {A} (P : A -> Z -> Prop) (f : A -> Z -> option Z) l : forall to,
  (forall x b c, P x c -> b <= c -> P x b) ->
  (forall x to, x ∈ l -> 0 <= to -> exists to', f x to = Some to' /\ 0 <= to' <= to /\ P x to') -> 0 <= to ->
  exists to', foldl (fun o x => to ← o; f x to) (Some to) l = Some to' /\ 0 <= to' <= to /\ forall x, x ∈ l -> P x to'.
Proof.
  induction l as [|x l IH]; intros to HP Hf H0.
  { exists to. split_and!; [done|lia|lia|]. intros x H. by apply elem_of_nil in H. }
  destruct (Hf x to) as (t1 & E1 & R1 & P1); [left|done|]. cbn [foldl mbind option_bind]. rewrite E1.
  destruct (IH t1 HP) as (t2 & E2 & R2 & P2); [intros y z Hy; apply Hf; by right|lia|].
  exists t2. split_and!; [done|lia|lia|]. intros y [->|Hy]%elem_of_cons; [eapply HP; [exact P1|lia]|by apply P2].
Qed.

(** What a time-out of [to] at time [t] is to a slot and to a service: not longer than the
    slots that are down wait. *)
Definition wakes_for (t : Z) (svc : service) (s : nat) (to : Z) : Prop := forall r, down_until svc s r -> to <= Z.max 0 (r - t).
Definition wakes (t : Z) (svc : service) (to : Z) : Prop :=
  s_disabled svc = false -> forall s, (s < Z.to_nat (svc_n svc))%nat -> wakes_for t svc s to.

Lemma slot_timeout_lowers t svc s to : service_ok svc -> (s < NTC_MAX_REPLICAS)%nat -> 0 <= to ->
  exists to', slot_timeout t svc s to = Some to' /\ 0 <= to' <= to /\ wakes_for t svc s to'.
Proof.
  intros Hok Hs H0. destruct (slot_lookups svc s Hok Hs) as (c & r & _ & _ & Ec & Er & _).
  unfold slot_timeout, wakes_for, down_until. rewrite Ec. cbn [mbind option_bind]. destruct c as [k|].
  { exists to. split_and!; [done|lia|lia|]. intros r' [[=] _]. }
  rewrite Er. cbn [mbind option_bind]. cbv zeta.
  eexists. split; [reflexivity|]. split.
  - destruct (Z.ltb_spec (r - t) 0); match goal with |- context [?a <? ?b] => destruct (Z.ltb_spec a b) end; lia.
  - intros r' [_ [= <-]].
    destruct (Z.ltb_spec (r - t) 0); match goal with |- context [?a <? ?b] => destruct (Z.ltb_spec a b) end; lia.
Qed.

Lemma service_timeout_lowers t svc to : service_ok svc -> 0 <= to ->
  exists to', service_timeout t svc to = Some to' /\ 0 <= to' <= to /\ wakes t svc to'.
Proof.
  intros Hok H0. unfold service_timeout, wakes. destruct (s_disabled svc).
  { exists to. split_and!; [done|lia|lia|done]. }
  pose proof (svc_n_range svc Hok).
  destruct (foldl_lowers (wakes_for t svc) (slot_timeout t svc) (seq 0 (Z.to_nat (svc_n svc))) to) as (to' & E & R & P).
  - intros s b c Hc Hb r Hr. specialize (Hc r Hr). lia.
  - intros s to' Hs%elem_of_seq Hto. apply slot_timeout_lowers; [done| |done]. change NTC_MAX_REPLICAS with 8%nat. lia.
  - done.
  - exists to'. split_and!; [done|lia|lia|]. intros _ s Hs. apply P, elem_of_seq. lia.
Qed.

Lemma poll_timeout_wakes t services dev : Forall service_ok services ->
  exists to, poll_timeout t services dev = Some to /\ 0 <= to <= 1000 /\ forall svc, svc ∈ services -> wakes t svc to.
Proof.
  intros Hok. destruct (foldl_lowers (wakes t) (service_timeout t) services 1000) as (to & E & R & P).
  - intros svc b c Hc Hb Hd s Hs r Hr. specialize (Hc Hd s Hs r Hr). lia.
  - intros svc to Hs Hto. apply service_timeout_lowers; [|done]. rewrite list.Forall_forall in Hok. by apply Hok.
  - lia.
  - unfold poll_timeout. rewrite E. cbn [mbind option_bind]. eexists. split; [reflexivity|].
    assert (NTC_DEV_POLL_MS = 400) as -> by reflexivity.
    split; [destruct (dev && _); lia|]. intros svc Hs Hd s Hl r Hr. specialize (P svc Hs Hd s Hl r Hr).
    destruct dev; cbn [andb]; [|done]. destruct (Z.ltb_spec 400 to); lia.
Qed.

(** ** A round's promise *)
Section progress.
Context {tls : Type} {TE : TlsEngine tls} {TL : TlsLaws tls}.
Context {db : Type} `{SQ : Sqlite db}.
Implicit Types (w : gateway tls * app db).

(** Each replica of an enabled service runs, or is tried again within [NTC_BACKOFF_MAX]. *)
Definition in_service (now : Z) (services : list service) : Prop :=
  forall i svc s, services !! i = Some svc -> s_disabled svc = false -> (s < Z.to_nat (svc_n svc))%nat ->
    live svc s \/ exists r, down_until svc s r /\ now < r <= now + NTC_BACKOFF_MAX.

(** C40. Supervision makes progress.  A round of the supervisor finishes, whatever the children,
    the allocator and the poller do; after it each replica of an enabled service either holds a
    controller or has a time at which it is tried again, in the future and at most five seconds
    away; and the time the loop then sleeps in the poller, asked for at any later time, is
    between 0 and a second and never runs past the next of these times. *)
Theorem supervision_progress w :
  world_ok w -> spawns_fresh (fst w) (a_spawns (snd w)) -> Forall (paced (g_now (fst w))) (services_of w) ->
  exists w', supervise w = Some (tt, w') /\
    in_service (g_now (fst w)) (services_of w') /\ Forall (paced (g_now (fst w))) (services_of w') /\
    forall t dev, exists to, poll_timeout t (services_of w') dev = Some to /\ 0 <= to <= 1000 /\
      forall svc, svc ∈ services_of w' -> wakes t svc to.
Proof.
  intros Hw Hf Hp. destruct (supervise_rounds (length (services_of w)) w) as ([] & w' & E & J & R); [done|].
  destruct R as [Rp Rd]. specialize (Rp Hp). exists w'. split; [done|]. split_and!.
  - intros i svc s Hi Hd Hs. destruct (Rd i svc) with (s := s) as [Hl|(r & [Hc Hr] & Ht)]; [|done..|by left|].
    { apply lookup_lt_Some in Hi. pose proof (lo_services _ _ J) as El. unfold services_of in *. by rewrite <- El. }
    right. exists r. split; [done|]. split; [done|]. pose proof (Forall_lookup_1 _ _ _ _ Rp Hi) as Hpi.
    exact (Forall_lookup_1 _ _ _ _ Hpi Hr).
  - exact Rp.
  - intros t dev. apply poll_timeout_wakes. apply (wf_services _ (proj1 (lo_world _ _ J))).
Qed.
End progress.

(** Two replicas of which one is down; the children that are started say hello, or do not. *)
Definition hello : bytes := put_u32 NTC_WIRE_MAGIC ++ [NTC_WIRE_VERSION; NTC_MSG_HELLO; 0; 0] ++ put_u32 0 ++ put_u32 0.
Definition respawn (said : bytes) : gateway unit * app unit :=
  (demo_idle, demo_app <| a_spawns := [Spawn true 8 101 said true true (Some 11%nat)] |>).
Definition slot_after (said : bytes) : option (option ctrl_ptr * Z) :=
  w ← supervise (respawn said);
  svc ← services_of (snd w) !! 0%nat; c ← s_conns svc !! 1%nat; r ← s_restart_at svc !! 1%nat; Some (c, r).
Example respawned : slot_after hello = Some (Some 11%nat, 0).
Proof. vm_compute. reflexivity. Qed.
Example backed_off : slot_after [] = Some (None, 1200).
Proof. vm_compute. reflexivity. Qed.

Theorem supervision_progress_witness :
  let w := respawn [] in
  (world_ok w /\ spawns_fresh (fst w) (a_spawns (snd w)) /\ Forall (paced (g_now (fst w))) (services_of w)) /\
  exists w', supervise w = Some (tt, w') /\
    in_service (g_now (fst w)) (services_of w') /\ Forall (paced (g_now (fst w))) (services_of w') /\
    forall t dev, exists to, poll_timeout t (services_of w') dev = Some to /\ 0 <= to <= 1000 /\
      forall svc, svc ∈ services_of w' -> wakes t svc to.
Proof.
  intros w.
  assert (world_ok w /\ spawns_fresh (fst w) (a_spawns (snd w)) /\ Forall (paced (g_now (fst w))) (services_of w)) as (H1 & H2 & H3).
  { split_and!.
    - split; [apply demo_idle_wf|]. eapply (app_ok_kept (demo_sent [])); [apply demo_app_ok|by split|by split].
    - split; [apply (bool_decide_unpack _); vm_compute; exact I|]. constructor; [reflexivity|constructor].
    - constructor; [|constructor]. apply (bool_decide_unpack _). vm_compute. exact I. }
  split; [done|]. apply (supervision_progress w H1 H2 H3).
Defined.
