(* ===== verification/ControlClient.v ===== *)
(** * The control client and the colours (src/common/control_client.c, src/common/color.c)

    How a command of the command line or of an MCP client reaches the running core: the token,
    the socket, one line, and the reply up to the end of the stream.  The environment's
    variables are C strings. *)
From S2P Require Import Prelude Err Slice Posix Jwt Wire Sdk HttpsClient Mcp.
Open Scope Z_scope.

Definition environ : Type := bytes -> option bytes.

(** [fgets] from the start of a file: a line with its end, or what fits; [None] at the end. *)
Definition fgets (cap : nat) (content : bytes) : option bytes :=
  let line := match memchr 10 content with Some i => take (S i) content | None => content end in
  let line := take (cap - 1) line in
  if (length line =? 0)%nat then None else Some line.

(** control.h:14-14 [NTC_CONTROL_SOCK_DEFAULT] *)
Definition NTC_CONTROL_SOCK_DEFAULT : bytes := bs "./ntc.sock".
(** control.h:15-15 [NTC_CONTROL_TOKEN_DEFAULT] *)
Definition NTC_CONTROL_TOKEN_DEFAULT : bytes := bs "./ntc.token".

(** control_client.c:12-15 [ntc_control_sock_path] *)
Definition ntc_control_sock_path (env : environ) : bytes :=
  match env (bs "NTC_CONTROL_SOCK") with Some s => s | None => NTC_CONTROL_SOCK_DEFAULT end.

(** control_client.c:17-36 [ntc_control_read_token]. [files] are the contents of the files that
    can be read; what it leaves in [out]. *)
Definition ntc_control_read_token (env files : environ) (cap : nat) : ntc_err * bytes :=
  if (cap =? 0)%nat then (NTC_ERR_INVALID, []) else
  let from_file :=
    let tf := match env (bs "NTC_TOKEN_FILE") with Some tf => tf | None => NTC_CONTROL_TOKEN_DEFAULT end in
    match files tf with
    | None => (NTC_ERR_NOT_FOUND, [])
    | Some content =>
        match fgets cap content with
        | None => (NTC_ERR_NOT_FOUND, [])
        | Some line => (NTC_OK, chomp (cstr line))
        end
    end in
  match env (bs "NTC_TOKEN") with
  | Some e => if (length e =? 0)%nat then from_file else (NTC_OK, snprintf cap e)
  | None => from_file
  end.

(** What the socket's calls answer: [socket], [connect], and the writes and reads. *)
Record control_peer := ControlPeer { cp_socket : Z; cp_connect : bool; cp_wr : list wr_event; cp_rd : list rd_event }.

(** control_client.c:62-69 [ntc_control_call, reading]. [room] is what is left of [out] but for
    its last byte; [None] is a failed read. *)
Fixpoint read_reply (ins : list rd_event) (room : nat) : option bytes :=
  if (room =? 0)%nat then Some [] else
  match ins with
  | [] => Some []
  | RdData d :: ins =>
      if (length d =? 0)%nat then Some [] else
      let d := take room d in
      rest ← read_reply ins (room - length d); Some (d ++ rest)
  | RdIntr :: ins => read_reply ins room
  | RdFail :: _ => None
  end.

(** control_client.c:48-48 [ntc_control_call, line] *)
Definition CONTROL_LINE : nat := 2048.

(** control_client.c:38-73 [ntc_control_call]. The error, the C string it leaves in [out] when
    there is none, what was written to the socket, and the descriptors opened and closed. The
    writing loop is that of the SDK's [write_full]. *)
Definition ntc_control_call (p : control_peer) (token command : bytes) (out_cap : nat)
    : ntc_err * bytes * bytes * list fd_event :=
  if (out_cap =? 0)%nat then (NTC_ERR_INVALID, [], [], []) else
  let fd := cp_socket p in
  if fd <? 0 then (NTC_ERR_IO, [], [], []) else
  let log := [FdOpen fd] in
  if negb (cp_connect p) then (NTC_ERR_IO, [], [], log ++ [FdClose fd]) else
  let line := token ++ bs " " ++ command ++ [10] in
  if (CONTROL_LINE <=? length line)%nat then (NTC_ERR_OVERFLOW, [], [], log ++ [FdClose fd]) else
  let '(r, _, sent) := ctl_write_full (cp_wr p) line in
  if r <=? 0 then (NTC_ERR_IO, [], sent, log ++ [FdClose fd]) else
  match read_reply (cp_rd p) (out_cap - 1) with
  | None => (NTC_ERR_IO, [], sent, log ++ [FdClose fd])
  | Some out => (NTC_OK, cstr out, sent, log ++ [FdClose fd])
  end.

(** ** MCP over standard input *)

(** mcp.c:141-150 [stdio_exec]. What it leaves in [out], and what was written to the core. *)
Definition stdio_exec (env files : environ) (p : control_peer) (command : bytes) (cap : nat) : bytes * bytes :=
  match ntc_control_read_token env files 65 with
  | (NTC_OK, token) =>
      match ntc_control_call p token command cap with
      | (NTC_OK, out, sent, _) => (out, sent)
      | (_, _, sent, _) => (snprintf cap (bs "ERR cannot reach the core control socket"), sent)
      end
  | _ => (snprintf cap (bs "ERR no control token found (is the core running?)"), [])
  end.

(** ** Colours *)

(** color.h:10-13 [NTC_ANSI_RESET, NTC_ANSI_DIM, NTC_ANSI_RED, NTC_ANSI_GREEN] *)
Definition NTC_ANSI_RESET : bytes := 27 :: bs "[0m".
Definition NTC_ANSI_DIM : bytes := 27 :: bs "[90m".
Definition NTC_ANSI_RED : bytes := 27 :: bs "[1;31m".
Definition NTC_ANSI_GREEN : bytes := 27 :: bs "[1;32m".

(** color.c:10-24 [detect_fd]. What it found for descriptors 0, 1 and 2 before is kept. *)
Definition detect_fd (env : environ) (isatty : Z -> bool) (cache : list (option bool)) (fd : Z)
    : bool * list (option bool) :=
  let v := if bool_decide (is_Some (env (bs "NO_COLOR"))) then false
           else if bool_decide (is_Some (env (bs "CLICOLOR_FORCE"))) then true else isatty fd in
  if (0 <=? fd) && (fd <=? 2) then
    match cache !! Z.to_nat fd with
    | Some (Some v) => (v, cache)
    | _ => (v, <[Z.to_nat fd := Some v]> cache)
    end
  else (v, cache).

(** color.c:26-29 [ntc_color_enabled_fd]. [mode] is [g_mode]: -1, 0 or 1. *)
Definition ntc_color_enabled_fd (env : environ) (isatty : Z -> bool) (mode : Z) (cache : list (option bool)) (fd : Z)
    : bool * list (option bool) :=
  if 0 <=? mode then (negb (mode =? 0), cache) else detect_fd env isatty cache fd.

(** color.c:31-33 [ntc_colorize] *)
Definition ntc_colorize (env : environ) (isatty : Z -> bool) (mode : Z) (cache : list (option bool)) (fd : Z) (code : bytes)
    : bytes * list (option bool) :=
  let '(on, cache) := ntc_color_enabled_fd env isatty mode cache fd in (if on : bool then code else [], cache).
