(* ===== verification/Cli.v ===== *)
(** * The command line (src/core/main.c)

    [ntc]: starting the core and talking to a running one.  The process is a function of its
    arguments and of what the system answers; what it does is the trace it leaves - the text
    it prints, the line it writes to the core, the pid file, and [ntc_server_run]. *)
From S2P Require Import Prelude Update Err Slice Posix Double Json Http Wire ServerState App Control Mcp ControlClient.
Open Scope Z_scope.

(** server.h:11-11 [NTC_DEV_MAX_WATCH] *)
Definition NTC_DEV_MAX_WATCH : nat := 32.

(** server.h:17-22 [ntc_dev_opts] *)
Record ntc_dev_opts := DevOpts { do_build : option bytes; do_paths : list bytes }.

(** What the process does; [FoundPid] and [Asked] are what it learns of the pid file and of the
    process it names. *)
Inductive act :=
  | Out (t : bytes) | Err (t : bytes) | ToCore (t : bytes)
  | FoundPid (pid : Z) | Asked (pid : Z) (alive : bool)
  | WritePid (pid : Z) | UnlinkPid | Detach | Kill (pid : Z) | SleepMs (ms : Z)
  | Serve (port dash tls : Z) (dev : option ntc_dev_opts)
  | CreateFile (path text : bytes) | FollowLog.

(** What the system answers: variables, files that can be read, names that exist, terminals;
    [fork], [getpid], whether a file can be created, the text of [errno]; how the server
    ends; memory for the JSON reader; the standard input. *)
Record cli_env := CliEnv {
  l_env : environ; l_files : environ; l_exists : bytes -> bool; l_tty : Z -> bool;
  l_fork : Z; l_pid : Z; l_create : bytes -> bool; l_strerror : bytes; l_server : ntc_err;
  l_arena : bool; l_json : list bool; l_stdin : bytes }.

(** And what changes: the answers still to come - of the control socket, of reading the pid
    file, and of asking whether a process runs -, what is remembered of the terminals, and
    the trace. *)
Record cli := Cli {
  c_peers : list control_peer; c_pids : list (option bytes); c_alive : list bool;
  c_colors : list (option bool); c_acts : list act }.
#[export] Instance cli_settable : Settable cli := fun r =>
  Cli (c_peers r) (c_pids r) (c_alive r) (c_colors r) (c_acts r).

Section cli.
Variable e : cli_env.
Local Abbreviation M := (St cli).

Definition perform (a : act) : M unit := modify (fun s => s <| c_acts := c_acts s ++ [a] |>).
Definition colored (fd : Z) (code : bytes) : M bytes :=
  let* cache := gets c_colors in
  let '(t, cache) := ntc_colorize (l_env e) (l_tty e) (-1) cache fd code in
  modify (fun s => s <| c_colors := cache |>) ;;; ret t.
Definition ask_peer : M control_peer :=
  let* ps := gets c_peers in
  match ps with
  | [] => ret (ControlPeer (-1) false [] [])
  | p :: ps => modify (fun s => s <| c_peers := ps |>) ;;; ret p
  end.

(** main.c:30-30 [NTC_DASHBOARD_DEFAULT] *)
Definition NTC_DASHBOARD_DEFAULT : Z := 9090.

(** main.c:32-38 [cli_errorf] *)
Definition cli_errorf (text : bytes) : M unit :=
  let* red := colored 2 NTC_ANSI_RED in
  let* reset := colored 2 NTC_ANSI_RESET in
  perform (Err (red ++ bs "error:" ++ reset ++ bs " " ++ text ++ lf)).

(** main.c:40-57 [usage] *)
Definition usage_text (p : bytes) : bytes :=
  let row (t : bytes) := bs "  " ++ p ++ t ++ lf in
  NTC_NAME ++ bs " " ++ NTC_VERSION ++ bs " - microkernel web framework" ++ lf ++ lf ++ bs "usage:" ++ lf ++
  row (bs " start <port> [-d] [--dashboard <port>|--no-dashboard] [--tls <port>]") ++
  bs "                                                             start the core" ++ lf ++
  row (qs " dev <port> [--build '<cmd>'] [--watch <path>]... [--tls <port>]") ++
  bs "                                          foreground + mtime hot-reload" ++ lf ++
  row (bs " stop | restart <port>                                   stop / restart") ++
  row (bs " logs [-f]                                               tail the log") ++
  row (bs " status [--json]                                         core status") ++
  row (bs " service add <name> <bin> | list [--json] | rm <name> | scale <name> <n>") ++
  row (bs " route add <METHOD> <path> <svc> | list [--json]") ++
  row (bs " config set <key> <value> | get <key>") ++
  row (bs " mcp [tools|help]                                        MCP stdio server") ++
  row (bs " token | version | help").
Definition usage (p : bytes) : M unit := perform (Err (usage_text p)).

(** main.c:59-62 [has_flag] *)
Definition has_flag (argv : list bytes) (flag : bytes) : bool := existsb (fun a => memeq a flag) (drop 2 argv).

(** [strtol(s, &end, 10)]: the value and what is behind the digits; [None] when there are
    none. A value that does not fit is not brought into range here. *)
Definition strtol10 (s : bytes) : option (Z * bytes) :=
  let digits_of := fun s => let '(ds, r) := span_digits s in if (length ds =? 0)%nat then None else Some (digits_value ds 0, r) in
  match skip_white s with
  | [] => None
  | c :: s' =>
      if c =? 45 then (match digits_of s' with Some (v, r) => Some (- v, r) | None => None end)
      else if c =? 43 then digits_of s' else digits_of (c :: s')
  end.

(** main.c:64-69 [parse_port]. A value out of the range of a [long] is out of the range of
    ports too. *)
Definition parse_port (s : bytes) : option Z :=
  match strtol10 s with
  | Some (v, []) => if (v <? 1) || (65535 <? v) then None else Some v
  | _ => None
  end.

(** main.c:74-75 [pidfile_path, logfile_path] *)
Definition pidfile_path : bytes := default (bs "./ntc.pid") (l_env e (bs "NTC_PID_FILE")).
Definition logfile_path : bytes := default (bs "./ntc.log") (l_env e (bs "NTC_LOG_FILE")).

(** main.c:76-79 [read_pidfile]. The next answer of reading it. *)
Definition read_pidfile : M Z :=
  let* ps := gets c_pids in
  modify (fun s => s <| c_pids := tail ps |>) ;;;
  let pid := match head ps with
             | Some (Some content) => match strtol10 content with Some (v, _) => int_of v | None => -1 end
             | _ => -1
             end in
  perform (FoundPid pid) ;;; ret pid.

(** main.c:80-80 [write_pidfile] *)
Definition write_pidfile (pid : Z) : M unit :=
  if l_create e pidfile_path then perform (WritePid pid) else ret tt.

(** main.c:81-81 [pid_alive]. The next answer of [kill]. *)
Definition pid_alive (pid : Z) : M bool :=
  if negb (0 <? pid) then ret false else
  let* l := gets c_alive in
  modify (fun s => s <| c_alive := tail l |>) ;;;
  let alive := default false (head l) in
  perform (Asked pid alive) ;;; ret alive.

(** main.c:84-93 [do_control_raw]. *)
Definition do_control_raw (command : bytes) (cap : nat) : M (Z * bytes) :=
  match ntc_control_read_token (l_env e) (l_files e) 65 with
  | (NTC_OK, token) =>
      let* p := ask_peer in
      let '(r, out, sent, _) := ntc_control_call p token command cap in
      (if (length sent =? 0)%nat then ret tt else perform (ToCore sent)) ;;;
      match r with
      | NTC_OK => ret (if memeq (take 2 out) (bs "OK") then 0 else 1, out)
      | _ => cli_errorf (bs "cannot reach control socket '" ++ ntc_control_sock_path (l_env e) ++
                         bs "' (is the core running?)") ;;; ret (2, [])
      end
  | _ => cli_errorf (bs "no control token (is `" ++ NTC_NAME ++ bs " start` running? set NTC_TOKEN)") ;;; ret (2, [])
  end.

(** main.c:96-102 [do_control] *)
Definition do_control (command : bytes) : M Z :=
  let* r := do_control_raw command (Nat.mul 8 1024) in let '(rc, out) := r in
  if rc =? 2 then ret 2 else
  perform (Out out) ;;;
  (if (length out =? 0)%nat || negb (bool_decide (last out = Some 10)) then perform (Out lf) else ret tt) ;;;
  ret rc.

(** ** Formatted output *)

(** main.c:105-105 [ok_json] *)
Definition ok_json (out : bytes) : bytes := if memeq (take 3 out) (bs "OK ") then drop 3 out else out.

(** main.c:107-111 [fmt_uptime] *)
Definition fmt_uptime (s : Z) (cap : nat) : bytes :=
  snprintf cap (if s <? 60 then fmt_d s ++ bs "s"
                else if s <? 3600 then fmt_d (Z.quot s 60) ++ bs "m"
                else fmt_d (Z.quot s 3600) ++ bs "h" ++ fmt_d (Z.quot (Z.rem s 3600) 60) ++ bs "m").

(** The conversion of a double to [int]: [None] where it does not fit. *)
Definition d_int (d : double) : option Z :=
  match d with
  | SpecFloat.S754_infinity _ | SpecFloat.S754_nan => None
  | _ => let z := d_trunc d in if (- 2 ^ 31 <=? z) && (z <? 2 ^ 31) then Some z else None
  end.

(** main.c:113-141 [cmd_status]. A number that does not fit an [int] has no defined text. *)
Definition cmd_status (argv : list bytes) : M Z :=
  let* r := do_control_raw (bs "status") (Nat.mul 8 1024) in let '(rc, out) := r in
  if rc =? 2 then ret 2 else
  if has_flag argv (bs "--json") then perform (Out (ok_json out ++ lf)) ;;; ret rc else
  if negb (l_arena e) then ret 1 else
  let* v := load (fun _ => ntc_json_parse (l_json e) (ok_json out)) in
  match v with
  | None => perform (Out out) ;;; ret rc
  | Some _ =>
      let num key := ntc_json_num (ntc_json_get v key) in
      let int key := load (fun _ => fmt_d <$> d_int (num key)) in
      let up := fmt_uptime (d_long (num (bs "uptime_s"))) 32 in
      let* grn := colored 1 NTC_ANSI_GREEN in
      let* dim := colored 1 NTC_ANSI_DIM in
      let* rst := colored 1 NTC_ANSI_RESET in
      perform (Out (cstr (ntc_json_str (ntc_json_get v (bs "app"))) ++ bs "   " ++ grn ++ [226; 151; 143] ++ bs " running" ++ rst ++
                    bs "   up " ++ up ++ bs "   backend " ++ cstr (ntc_json_str (ntc_json_get v (bs "backend"))) ++ lf)) ;;;
      let* svcs := int (bs "services") in let* rts := int (bs "routes") in
      perform (Out (dim ++ bs "services" ++ rst ++ bs " " ++ svcs ++ bs "   " ++ dim ++ bs "routes" ++ rst ++ bs " " ++ rts ++ lf)) ;;;
      let* n := int (bs "requests") in let* n2 := int (bs "status_2xx") in let* n4 := int (bs "status_4xx") in
      let* n5 := int (bs "status_5xx") in let* nf := int (bs "forwarded") in let* nb := int (bs "builtin") in
      perform (Out (dim ++ bs "requests" ++ rst ++ bs " " ++ n ++ bs "   2xx " ++ n2 ++ bs "   4xx " ++ n4 ++ bs "   5xx " ++ n5 ++
                    bs "   (fwd " ++ nf ++ bs ", builtin " ++ nb ++ bs ")" ++ lf)) ;;;
      ret rc
  end.

(** [%-22s] *)
Definition pad22 (t : bytes) : bytes := t ++ replicate (22 - length t) 32.

(** main.c:159-163 [cmd_list, row] *)
Definition list_row (keys : list bytes) (item : ntc_json) : bytes :=
  mjoin ((fun key => pad22 (cstr (ntc_json_str (ntc_json_get (Some item) key)))) <$> keys) ++ lf.

(** main.c:143-167 [cmd_list] *)
Definition cmd_list (command : bytes) (cols keys : list bytes) (argv : list bytes) : M Z :=
  let* r := do_control_raw command (Nat.mul 16 1024) in let '(rc, out) := r in
  if rc =? 2 then ret 2 else
  if has_flag argv (bs "--json") then perform (Out (ok_json out ++ lf)) ;;; ret rc else
  if negb (l_arena e) then ret 1 else
  let* v := load (fun _ => ntc_json_parse (l_json e) (ok_json out)) in
  match v with
  | Some (JArr []) => perform (Out (bs "(none)" ++ lf)) ;;; ret rc
  | Some (JArr items) =>
      let* dim := colored 1 NTC_ANSI_DIM in
      let* rst := colored 1 NTC_ANSI_RESET in
      perform (Out (mjoin ((fun c => dim ++ pad22 c ++ rst) <$> cols) ++ lf)) ;;;
      perform (Out (mjoin (list_row keys <$> items))) ;;;
      ret rc
  | _ => perform (Out out) ;;; ret rc
  end.

(** ** Starting *)

(** main.c:216-220 [run_dev, options]; and those of [run_start], lines 175-177. *)
Record start_opts := StartOpts {
  so_dash : Z; so_tls : Z; so_detach : bool; so_build : option bytes; so_paths : list bytes }.

(** main.c:178-186 [run_start, argument loop]. The options, or the complaint. *)
Fixpoint start_args (args : list bytes) (o : start_opts) : start_opts + bytes :=
  match args with
  | [] => inl o
  | a :: rest =>
      let unknown := inr (bs "unknown argument '" ++ a ++ bs "'") in
      if memeq a (bs "-d") || memeq a (bs "--detach") then
        start_args rest (StartOpts (so_dash o) (so_tls o) true (so_build o) (so_paths o))
      else if memeq a (bs "--no-dashboard") then
        start_args rest (StartOpts 0 (so_tls o) (so_detach o) (so_build o) (so_paths o))
      else match rest with
      | v :: rest =>
          if memeq a (bs "--dashboard") || memeq a (bs "--admin") then
            match parse_port v with
            | Some p => start_args rest (StartOpts p (so_tls o) (so_detach o) (so_build o) (so_paths o))
            | None => inr (bs "invalid dashboard port '" ++ v ++ bs "'")
            end
          else if memeq a (bs "--tls") then
            match parse_port v with
            | Some p => start_args rest (StartOpts (so_dash o) p (so_detach o) (so_build o) (so_paths o))
            | None => inr (bs "invalid TLS port '" ++ v ++ bs "'")
            end
          else unknown
      | [] => unknown
      end
  end.

(** main.c:221-233 [run_dev, argument loop] *)
Fixpoint dev_args (args : list bytes) (o : start_opts) : start_opts + bytes :=
  match args with
  | [] => inl o
  | a :: rest =>
      let unknown := inr (bs "unknown argument '" ++ a ++ bs "'") in
      if memeq a (bs "--no-dashboard") then
        dev_args rest (StartOpts 0 (so_tls o) (so_detach o) (so_build o) (so_paths o))
      else match rest with
      | v :: rest =>
          if memeq a (bs "--dashboard") || memeq a (bs "--admin") then
            match parse_port v with
            | Some p => dev_args rest (StartOpts p (so_tls o) (so_detach o) (so_build o) (so_paths o))
            | None => inr (bs "invalid dashboard port '" ++ v ++ bs "'")
            end
          else if memeq a (bs "--tls") then
            match parse_port v with
            | Some p => dev_args rest (StartOpts (so_dash o) p (so_detach o) (so_build o) (so_paths o))
            | None => inr (bs "invalid TLS port '" ++ v ++ bs "'")
            end
          else if memeq a (bs "--build") then
            dev_args rest (StartOpts (so_dash o) (so_tls o) (so_detach o) (Some v) (so_paths o))
          else if memeq a (bs "--watch") then
            if (NTC_DEV_MAX_WATCH <=? length (so_paths o))%nat
            then inr (bs "too many --watch paths (max " ++ fmt_d (Z.of_nat NTC_DEV_MAX_WATCH) ++ bs ")")
            else dev_args rest (StartOpts (so_dash o) (so_tls o) (so_detach o) (so_build o) (so_paths o ++ [v]))
          else unknown
      | [] => unknown
      end
  end.

(** main.c:203-206 [run_start, serving]; lines 245-248 of [run_dev]. The server's end is logged
    on the standard error. *)
Definition serve (port dash tls : Z) (dev : option ntc_dev_opts) : M Z :=
  perform (Serve port dash tls dev) ;;;
  perform UnlinkPid ;;;
  match l_server e with NTC_OK => ret 0 | _ => ret 1 end.

Definition already_running (prog : bytes) (pid : Z) : M unit :=
  cli_errorf (bs "already running (pid " ++ fmt_d pid ++ bs ") - `" ++ prog ++ bs " stop` first").

(** main.c:170-207 [run_start] *)
Definition run_start (prog : bytes) (argv : list bytes) : M Z :=
  match argv !! 2%nat with
  | None => cli_errorf (bs "'start' needs a port, e.g. `" ++ prog ++ bs " start 3000`") ;;; ret 2
  | Some a =>
      match parse_port a with
      | None => cli_errorf (bs "invalid port '" ++ a ++ bs "' (1-65535)") ;;; ret 2
      | Some port =>
          match start_args (drop 3 argv) (StartOpts NTC_DASHBOARD_DEFAULT 0 false None []) with
          | inr msg => cli_errorf msg ;;; ret 2
          | inl o =>
              let* existing := read_pidfile in
              let* running := pid_alive existing in
              if running then already_running prog existing ;;; ret 1 else
              if so_detach o then
                if l_fork e <? 0 then cli_errorf (bs "fork failed: " ++ l_strerror e) ;;; ret 1 else
                if 0 <? l_fork e then
                  write_pidfile (l_fork e) ;;;
                  perform (Out (bs "started (pid " ++ fmt_d (l_fork e) ++ bs ") " ++ [194; 183] ++ bs " logs: " ++ logfile_path ++ lf)) ;;;
                  ret 0
                else perform Detach ;;; serve port (so_dash o) (so_tls o) None
              else write_pidfile (l_pid e) ;;; serve port (so_dash o) (so_tls o) None
          end
      end
  end.

(** main.c:235-238 [run_dev, usual source roots] *)
Definition default_paths (build : option bytes) (paths : list bytes) : list bytes :=
  if bool_decide (is_Some build) && (length paths =? 0)%nat
  then (if l_exists e (bs "controllers") then [bs "controllers"] else []) ++
       (if l_exists e (bs "src") then [bs "src"] else [])
  else paths.

(** main.c:211-249 [run_dev] *)
Definition run_dev (prog : bytes) (argv : list bytes) : M Z :=
  match argv !! 2%nat with
  | None => cli_errorf (bs "'dev' needs a port, e.g. `" ++ prog ++ bs " dev 3000`") ;;; ret 2
  | Some a =>
      match parse_port a with
      | None => cli_errorf (bs "invalid port '" ++ a ++ bs "' (1-65535)") ;;; ret 2
      | Some port =>
          match dev_args (drop 3 argv) (StartOpts NTC_DASHBOARD_DEFAULT 0 false None []) with
          | inr msg => cli_errorf msg ;;; ret 2
          | inl o =>
              let* existing := read_pidfile in
              let* running := pid_alive existing in
              if running then already_running prog existing ;;; ret 1 else
              write_pidfile (l_pid e) ;;;
              serve port (so_dash o) (so_tls o) (Some (DevOpts (so_build o) (default_paths (so_build o) (so_paths o))))
          end
      end
  end.

(** main.c:251-258 [cmd_stop] *)
Definition cmd_stop : M Z :=
  let* r := do_control_raw (bs "stop") 1024 in let '(rc, out) := r in
  if negb (rc =? 2) then perform (Out out) ;;; ret rc else
  let* pid := read_pidfile in
  let* running := pid_alive pid in
  if running then perform (Kill pid) ;;; perform (Out (bs "sent SIGTERM to pid " ++ fmt_d pid ++ lf)) ;;; ret 0
  else cli_errorf (bs "core does not appear to be running") ;;; ret 1.

(** main.c:260-274 [cmd_logs]. Following the log ends by a signal only. *)
Definition cmd_logs (argv : list bytes) : M Z :=
  match l_files e logfile_path with
  | None => cli_errorf (bs "no log file at " ++ logfile_path) ;;; ret 1
  | Some content =>
      perform (Out content) ;;;
      (if has_flag argv (bs "-f") || has_flag argv (bs "--follow") then perform FollowLog else ret tt) ;;;
      ret 0
  end.

Definition is_alnum (c : Z) : bool :=
  ((48 <=? c) && (c <=? 57)) || ((65 <=? c) && (c <=? 90)) || ((97 <=? c) && (c <=? 122)).

(** main.c:284-300 [cmd_new_controller, source] *)
Definition controller_source (name : bytes) : bytes :=
  bs "#define _GNU_SOURCE" ++ lf ++
  qs "#include 'ntc/controller.h'" ++ lf ++ lf ++
  bs "#include <unistd.h>" ++ lf ++ lf ++
  bs "static int handle(const ntc_request *req, ntc_response *res, ntc_arena *a, void *u) {" ++ lf ++
  bs "    (void)u;" ++ lf ++
  qs "    /* helpers: ntc_req_param(req,'id'), ntc_req_query(req,'page')," ++ lf ++
  qs "     *          ntc_http_header(req,'...'), req->body, req->auth_sub */" ++ lf ++
  bs "    return ntc_reply_json(res, a, 200," ++ lf ++
  qs "        '{\'controller\':\'" ++ name ++ qs "\',\'path\':\'%.*s\'}'," ++ lf ++
  bs "        (int)req->path.len, req->path.ptr);" ++ lf ++
  bs "}" ++ lf ++ lf ++
  bs "int main(void) {" ++ lf ++
  qs "    ntc_controller ctl = { .name = '" ++ name ++ qs "', .handle = handle, .udata = NULL };" ++ lf ++
  bs "    return ntc_controller_run(&ctl);" ++ lf ++
  bs "}" ++ lf.

(** main.c:302-307 [cmd_new_controller, hints] *)
Definition controller_hints (prog path name : bytes) : bytes :=
  bs "created " ++ path ++ lf ++ lf ++
  bs "build:" ++ lf ++ bs "  clang -std=c23 -Iinclude " ++ path ++ bs " \" ++ lf ++
  bs "    src/common/controller_sdk.c src/common/wire.c src/common/arena.c \" ++ lf ++
  bs "    src/common/slice.c src/common/http_request.c -o build/" ++ name ++ bs "_controller" ++ lf ++ lf ++
  bs "register (on a running core):" ++ lf ++
  bs "  " ++ prog ++ bs " service add " ++ name ++ bs " ./build/" ++ name ++ bs "_controller" ++ lf ++
  bs "  " ++ prog ++ bs " route add GET /api/" ++ name ++ bs " " ++ name ++ lf.

(** main.c:276-309 [cmd_new_controller] *)
Definition cmd_new_controller (prog name : bytes) : M Z :=
  if existsb (fun c => negb (is_alnum c || (c =? 95))) name
  then cli_errorf (bs "invalid name '" ++ name ++ bs "' (use a-z0-9_)") ;;; ret 1 else
  let path := snprintf 256 (bs "controllers/" ++ name ++ bs "_controller.c") in
  if l_exists e path then cli_errorf (path ++ bs " already exists") ;;; ret 1 else
  if negb (l_create e path) then cli_errorf (bs "cannot write " ++ path ++ bs ": " ++ l_strerror e) ;;; ret 1 else
  perform (CreateFile path (controller_source name)) ;;;
  perform (Out (controller_hints prog path name)) ;;;
  ret 0.

(** ** MCP *)

(** The core as the MCP handler reaches it: the next connection to it. *)
Definition mcp_exec (command : bytes) (cap : nat) : M bytes :=
  match ntc_control_read_token (l_env e) (l_files e) 65 with
  | (NTC_OK, _) =>
      let* p := ask_peer in
      let '(out, sent) := stdio_exec (l_env e) (l_files e) p command cap in
      (if (length sent =? 0)%nat then ret tt else perform (ToCore sent)) ;;; ret out
  | _ => ret (fst (stdio_exec (l_env e) (l_files e) (ControlPeer (-1) false [] []) command cap))
  end.

(** mcp.c:156-160 [ntc_mcp_run, line] *)
Definition mcp_line (line : bytes) : M unit :=
  let msg := cstr line in
  if (length msg =? 0)%nat then ret tt else
  let* out := ntc_mcp_handle mcp_exec (l_arena e) (l_json e) msg (Nat.mul 32 1024) in
  if (length out =? 0)%nat then ret tt else perform (Out out) ;;; perform (Out lf).

(** mcp.c:152-163 [ntc_mcp_run]. Each line takes at least a byte of the input, so that its length
    is fuel enough. *)
Fixpoint mcp_lines (fuel : nat) (input : bytes) : M unit :=
  match fuel with
  | O => ret tt
  | S fuel =>
      match fgets (Nat.mul 64 1024) input with
      | None => ret tt
      | Some line => mcp_line line ;;; mcp_lines fuel (drop (length line) input)
      end
  end.
Definition ntc_mcp_run : M Z :=
  perform (Err (bs "naitron-c MCP server on stdio (core: " ++ ntc_control_sock_path (l_env e) ++ bs ")" ++ lf)) ;;;
  mcp_lines (length (l_stdin e)) (l_stdin e) ;;;
  ret 0.

(** mcp.c:165-174 [ntc_mcp_print_tools] *)
Definition ntc_mcp_print_tools (json : bool) : M unit :=
  perform (Out (if json then TOOLS_JSON ++ lf else
    bs "naitron-c MCP tools:" ++ lf ++
    bs "  naitron_status            core status" ++ lf ++
    bs "  naitron_list_services     list services" ++ lf ++
    bs "  naitron_list_routes       list routes" ++ lf ++
    bs "  naitron_add_service       {name, bin}        register + spawn a controller (live)" ++ lf ++
    bs "  naitron_add_route         {method, pattern, service}   route to a service (live)" ++ lf ++
    bs "  naitron_remove_service    {name}             remove a service" ++ lf)).

(** ** The entry point *)

(** main.c:316-316 [main, buf] *)
Definition COMMAND_BUF : nat := 2048.
(** main.c:397-399 [main, config set]. The words behind the key. *)
Fixpoint config_words (args : list bytes) (b : bytes * Z) : bytes * Z :=
  match args with
  | [] => b
  | a :: args =>
      let '(t, off) := b in
      if off <? Z.of_nat COMMAND_BUF - 2
      then config_words args (t ++ snprintf (COMMAND_BUF - Z.to_nat off) (bs " " ++ a), off + Z.of_nat (length (bs " " ++ a)))
      else b
  end.

(** main.c:358-377 [main, service] *)
Definition main_service (prog : bytes) (argv : list bytes) : M Z :=
  let sub := default [] (argv !! 2%nat) in
  if memeq sub (bs "add") then
    match argv !! 3%nat, argv !! 4%nat with
    | Some name, Some bin => do_control (snprintf COMMAND_BUF (bs "service-add " ++ name ++ bs " " ++ bin))
    | _, _ => cli_errorf (bs "usage: " ++ prog ++ bs " service add <name> <bin>") ;;; ret 2
    end
  else if memeq sub (bs "list") then
    cmd_list (bs "service-list") [bs "NAME"; bs "BIN"] [bs "name"; bs "bin"] argv
  else if memeq sub (bs "rm") then
    match argv !! 3%nat with
    | Some name => do_control (snprintf COMMAND_BUF (bs "service-rm " ++ name))
    | None => cli_errorf (bs "usage: " ++ prog ++ bs " service rm <name>") ;;; ret 2
    end
  else if memeq sub (bs "scale") then
    match argv !! 3%nat, argv !! 4%nat with
    | Some name, Some n => do_control (snprintf COMMAND_BUF (bs "service-scale " ++ name ++ bs " " ++ n))
    | _, _ => cli_errorf (bs "usage: " ++ prog ++ bs " service scale <name> <replicas>") ;;; ret 2
    end
  else cli_errorf (bs "unknown service subcommand '" ++ sub ++ bs "'") ;;; ret 2.

(** main.c:379-390 [main, route] *)
Definition main_route (prog : bytes) (argv : list bytes) : M Z :=
  let sub := default [] (argv !! 2%nat) in
  if memeq sub (bs "add") then
    match argv !! 3%nat, argv !! 4%nat, argv !! 5%nat with
    | Some method, Some path, Some svc =>
        do_control (snprintf COMMAND_BUF (bs "route-add " ++ method ++ bs " " ++ path ++ bs " " ++ svc))
    | _, _, _ => cli_errorf (bs "usage: " ++ prog ++ bs " route add <METHOD> <path> <service>") ;;; ret 2
    end
  else if memeq sub (bs "list") then
    cmd_list (bs "route-list") [bs "METHOD"; bs "PATTERN"; bs "SERVICE"] [bs "method"; bs "pattern"; bs "service"] argv
  else cli_errorf (bs "unknown route subcommand '" ++ sub ++ bs "'") ;;; ret 2.

(** main.c:392-406 [main, config] *)
Definition main_config (prog : bytes) (argv : list bytes) : M Z :=
  let sub := default [] (argv !! 2%nat) in
  if memeq sub (bs "set") then
    match argv !! 3%nat with
    | Some key =>
        if (length argv <? 5)%nat then cli_errorf (bs "usage: " ++ prog ++ bs " config set <key> <value>") ;;; ret 2 else
        let first := bs "config-set " ++ key in
        do_control (fst (config_words (drop 4 argv) (snprintf COMMAND_BUF first, Z.of_nat (length first))))
    | None => cli_errorf (bs "usage: " ++ prog ++ bs " config set <key> <value>") ;;; ret 2
    end
  else if memeq sub (bs "get") then
    match argv !! 3%nat with
    | Some key => do_control (snprintf COMMAND_BUF (bs "config-get " ++ key))
    | None => cli_errorf (bs "usage: " ++ prog ++ bs " config get <key>") ;;; ret 2
    end
  else cli_errorf (bs "unknown config subcommand '" ++ sub ++ bs "'") ;;; ret 2.

(** main.c:334-334 [main, waiting for the core to end]. At most so many more times. *)
Fixpoint wait_gone (n : nat) (pid : Z) : M unit :=
  match n with
  | O => ret tt
  | S n =>
      let* running := pid_alive pid in
      if running then perform (SleepMs 100) ;;; wait_gone n pid else ret tt
  end.

(** main.c:330-337 [main, restart] *)
Definition main_restart (prog : bytes) (argv : list bytes) : M Z :=
  match argv !! 2%nat with
  | None => cli_errorf (bs "usage: " ++ prog ++ bs " restart <port>") ;;; ret 2
  | Some port =>
      let* _ := do_control_raw (bs "stop") 1024 in
      let* pid := read_pidfile in
      wait_gone 50 pid ;;;
      run_start prog [prog; bs "start"; port; bs "-d"]
  end.

(** main.c:339-349 [main, mcp] *)
Definition main_mcp (prog : bytes) (argv : list bytes) : M Z :=
  let sub := default [] (argv !! 2%nat) in
  if (length sub =? 0)%nat then ntc_mcp_run
  else if memeq sub (bs "tools") then ntc_mcp_print_tools (has_flag argv (bs "--json")) ;;; ret 0
  else if memeq sub (bs "help") then
    perform (Out (bs "naitron-c MCP server." ++ lf ++ bs "  " ++ prog ++ bs " mcp         run the stdio JSON-RPC server" ++ lf ++
                  bs "  " ++ prog ++ bs " mcp tools   list available tools" ++ lf)) ;;; ret 0
  else cli_errorf (bs "unknown mcp subcommand '" ++ sub ++ bs "'") ;;; ret 2.

(** main.c:351-356 [main, token] *)
Definition main_token : M Z :=
  match ntc_control_read_token (l_env e) (l_files e) 65 with
  | (NTC_OK, token) =>
      perform (Out (bs "token:  " ++ token ++ lf ++ bs "socket: " ++ ntc_control_sock_path (l_env e) ++ lf)) ;;; ret 0
  | _ => cli_errorf (bs "no token found") ;;; ret 1
  end.

(** main.c:311-412 [main]. The exit code. *)
Definition main (argv : list bytes) : M Z :=
  let prog := default NTC_NAME (argv !! 0%nat) in
  match argv !! 1%nat with
  | None => usage prog ;;; ret 2
  | Some cmd =>
      let named t := memeq cmd t in
      if named (bs "version") || named (bs "--version") then perform (Out (NTC_NAME ++ bs " " ++ NTC_VERSION ++ lf)) ;;; ret 0
      else if named (bs "help") || named (bs "--help") || named (bs "-h") then usage prog ;;; ret 0
      else if named (bs "start") then run_start prog argv
      else if named (bs "dev") then run_dev prog argv
      else if named (bs "stop") then cmd_stop
      else if named (bs "logs") then cmd_logs argv
      else if named (bs "status") then cmd_status argv
      else if named (bs "new") then
        match argv !! 2%nat, argv !! 3%nat with
        | Some sub, Some name =>
            if memeq sub (bs "controller") then cmd_new_controller prog name
            else cli_errorf (bs "usage: " ++ prog ++ bs " new controller <name>") ;;; ret 2
        | _, _ => cli_errorf (bs "usage: " ++ prog ++ bs " new controller <name>") ;;; ret 2
        end
      else if named (bs "restart") then main_restart prog argv
      else if named (bs "mcp") then main_mcp prog argv
      else if named (bs "token") then main_token
      else if named (bs "service") then main_service prog argv
      else if named (bs "route") then main_route prog argv
      else if named (bs "config") then main_config prog argv
      else cli_errorf (bs "unknown command '" ++ cmd ++ bs "'") ;;; perform (Err lf) ;;; usage prog ;;; ret 2
  end.
End cli.
