(* ===== verification/CliProps.v ===== *)
(** * From the command line to the core

    What the user asks for is what the core is told: a command is sent whole or not at all,
    and the core gets it word for word, however the socket cuts it up.  And [ntc start] hands
    the server the ports that were asked for, only when no server is running. *)
From S2P Require Import Prelude Update Err Slice Posix Double Json Crypto Jwt Http HttpRequest Middleware Session Wire Ws Sdk.
From S2P Require Import HttpsClient Inflight Gzip ServerState ServerConn ServerRelay Router Builtin Registry App Mcp Services Control.
From S2P Require Import Oauth Admin Dispatch Events ServerInv ServerProps Keeps DispatchTotal DispatchSafe RequestSafe RequestProps ControlClient Cli.
Open Scope Z_scope.

(** ** What the user asks for *)

Fixpoint unwords (ws : list bytes) : bytes :=
  match ws with [] => [] | [w] => w | w :: ws => w ++ bs " " ++ unwords ws end.

(** The arguments, and the words of the command they stand for. *)
Inductive asks : list bytes -> list bytes -> Prop :=
  | asks_service_add p name bin more :
      asks (p :: bs "service" :: bs "add" :: name :: bin :: more) [bs "service-add"; name; bin]
  | asks_service_rm p name more :
      asks (p :: bs "service" :: bs "rm" :: name :: more) [bs "service-rm"; name]
  | asks_service_scale p name n more :
      asks (p :: bs "service" :: bs "scale" :: name :: n :: more) [bs "service-scale"; name; n]
  | asks_route_add p method path svc more :
      asks (p :: bs "route" :: bs "add" :: method :: path :: svc :: more) [bs "route-add"; method; path; svc]
  | asks_config_set p key v vs :
      asks (p :: bs "config" :: bs "set" :: key :: v :: vs) (bs "config-set" :: key :: v :: vs)
  | asks_config_get p key more :
      asks (p :: bs "config" :: bs "get" :: key :: more) [bs "config-get"; key].

(** The text in [buf], when it is the whole command or fills the buffer. *)
Definition whole_or_full (t text : bytes) : Prop :=
  t = text \/ ((COMMAND_BUF - 2 <= length t)%nat /\ (COMMAND_BUF - 2 <= length text)%nat).

Lemma snprintf_whole text : whole_or_full (snprintf COMMAND_BUF text) text.
Proof.
  unfold whole_or_full, snprintf, COMMAND_BUF. destruct (Nat.lt_ge_cases (length text) 2047) as [H|H].
  - left. rewrite take_ge; [done|lia].
  - right. rewrite length_take. lia.
Qed.

Lemma unwords_cons w v vs : unwords (w :: v :: vs) = w ++ bs " " ++ unwords (v :: vs).
Proof. done. Qed.

Lemma config_words_whole args : forall t, (length t < COMMAND_BUF)%nat -> args <> [] ->
  whole_or_full (fst (config_words args (t, Z.of_nat (length t)))) (t ++ bs " " ++ unwords args).
Proof.
  induction args as [|a args IH]; intros t Ht Hne; [done|]. cbn [config_words].
  assert (Z.of_nat COMMAND_BUF = 2048) as Hb by reflexivity. assert (COMMAND_BUF = 2048%nat) as Hb' by reflexivity.
  destruct (Z.ltb_spec (Z.of_nat (length t)) (Z.of_nat COMMAND_BUF - 2)) as [H|H].
  - rewrite Nat2Z.id. rewrite <- Nat2Z.inj_add. set (w := bs " " ++ a).
    destruct (Nat.lt_ge_cases (length t + length w) COMMAND_BUF) as [Hf|Hf].
    + unfold snprintf. rewrite take_ge by lia. rewrite <- length_app. destruct args as [|b args].
      { left. cbn [config_words fst unwords]. unfold w. by rewrite app_assoc. }
      replace (t ++ bs " " ++ unwords (a :: b :: args)) with ((t ++ w) ++ bs " " ++ unwords (b :: args)).
      * apply IH; [rewrite length_app; lia|done].
      * rewrite unwords_cons. unfold w. by rewrite !app_assoc.
    + right. assert (COMMAND_BUF - 2 <= length (t ++ snprintf (COMMAND_BUF - length t) w))%nat as Hlen.
      { unfold snprintf. rewrite length_app, length_take. lia. }
      split.
      * destruct args as [|b args]; cbn [config_words fst]; [done|].
        destruct (Z.ltb_spec (Z.of_nat (length t + length w)) (Z.of_nat COMMAND_BUF - 2)); [lia|done].
      * assert (length w <= length (bs " " ++ unwords (a :: args)))%nat as Hw.
        { unfold w. destruct args; [done|]. rewrite unwords_cons, !length_app. lia. }
        rewrite length_app. lia.
  - right. cbn [fst]. rewrite length_app. lia.
Qed.

Lemma main_asks e argv ws : asks argv ws ->
  exists t, main e argv = do_control e t /\ whole_or_full t (unwords ws).
Proof.
  destruct 1 as [p name bin more|p name more|p name n more|p method path svc more|p key v vs|p key more].
  - eexists. split; [reflexivity|]. apply snprintf_whole.
  - eexists. split; [reflexivity|]. apply snprintf_whole.
  - eexists. split; [reflexivity|]. apply snprintf_whole.
  - eexists. split; [reflexivity|]. apply snprintf_whole.
  - set (first := bs "config-set " ++ key).
    exists (fst (config_words (v :: vs) (snprintf COMMAND_BUF first, Z.of_nat (length first)))). split; [reflexivity|].
    assert (unwords (bs "config-set" :: key :: v :: vs) = first ++ bs " " ++ unwords (v :: vs)) as ->.
    { rewrite !unwords_cons. unfold first. rewrite !app_assoc. reflexivity. }
    destruct (snprintf_whole first) as [E|[H1 H2]].
    + rewrite E. apply config_words_whole; [|done].
      rewrite <- E. unfold snprintf. rewrite length_take. change COMMAND_BUF with 2048%nat. lia.
    + right. assert (Z.of_nat COMMAND_BUF = 2048) as Hb by reflexivity. assert (COMMAND_BUF = 2048%nat) as Hb' by reflexivity.
      cbn [config_words]. destruct (Z.ltb_spec (Z.of_nat (length first)) (Z.of_nat COMMAND_BUF - 2)); [lia|].
      cbn [fst]. rewrite length_app. lia.
  - eexists. split; [reflexivity|]. apply snprintf_whole.
Qed.

(** ** Over the socket *)

(** A reply that arrives whole: nothing fails. *)
Lemma read_reply_calm ins : Forall rd_calm ins -> forall room, exists out, read_reply ins room = Some out.
Proof.
  induction 1 as [|[d| |] ins Hc _ IH]; intros room; cbn [read_reply]; [| | |by destruct Hc];
    (destruct (room =? 0)%nat; [by exists []|]).
  - by exists [].
  - destruct (length d =? 0)%nat; [by exists []|]. destruct (IH (room - length (take room d))%nat) as (out & ->).
    bind. by eexists.
  - apply IH.
Qed.

(** The calls of the client go through: the socket is made, the core is there, and nothing
    fails. *)
Definition reachable (p : control_peer) : Prop :=
  0 <= cp_socket p /\ cp_connect p = true /\ Forall wr_calm (cp_wr p) /\ Forall rd_calm (cp_rd p).

Definition core_line (token text : bytes) : bytes := token ++ bs " " ++ text ++ [10].

Lemma control_call_fits p token text cap :
  reachable p -> (0 < cap)%nat -> (length (core_line token text) < CONTROL_LINE)%nat ->
  exists out log, ntc_control_call p token text cap = (NTC_OK, out, core_line token text, log).
Proof.
  intros (Hs & Hc & Hw & Hr) Hcap Hl. unfold ntc_control_call. rewrite (proj2 (Nat.eqb_neq cap 0)) by lia.
  rewrite (proj2 (Z.ltb_ge _ _)) by lia. rewrite Hc. cbn [negb]. fold (core_line token text).
  rewrite (proj2 (Nat.leb_gt _ _)) by lia. destruct (ctl_write_full_calm (cp_wr p) (core_line token text) Hw) as (o & -> & _).
  change (1 <=? 0) with false. cbn match. destruct (read_reply_calm _ Hr (cap - 1)%nat) as (out & ->). by do 2 eexists.
Qed.

(** A line that does not fit is not sent, whatever the core does. *)
Lemma control_call_long p token text cap :
  (0 < cap)%nat -> (CONTROL_LINE <= length (core_line token text))%nat ->
  exists err out log, ntc_control_call p token text cap = (err, out, [], log) /\ err <> NTC_OK.
Proof.
  intros Hcap Hl. unfold ntc_control_call. rewrite (proj2 (Nat.eqb_neq cap 0)) by lia.
  destruct (cp_socket p <? 0); [by do 3 eexists|]. destruct (cp_connect p); cbn [negb]; [|by do 3 eexists].
  fold (core_line token text). rewrite (proj2 (Nat.leb_le _ _)) by lia. by do 3 eexists.
Qed.

(** What the core gets of a client: pieces, between two rounds of its loop or within one. *)
Definition piece (o : recv_outcome) : Prop :=
  match o with RecvData d => d <> [] | RecvEINTR => True | _ => False end.
Fixpoint pieces_text (ins : list recv_outcome) : bytes :=
  match ins with [] => [] | RecvData d :: ins => d ++ pieces_text ins | _ :: ins => pieces_text ins end.
Fixpoint control_rounds (rounds : list (list recv_outcome)) (buf : bytes) : control_read :=
  match rounds with
  | [] => ControlMore buf
  | ins :: rounds =>
      match fst (on_control_readable ins buf) with
      | ControlMore buf => control_rounds rounds buf
      | r => r
      end
  end.


Lemma line_prefix line x y :
  line ++ [10] = x ++ y -> (10 ∉ line) ->
  ((10 ∉ x) /\ (length x <= length line)%nat /\ y <> []) \/ (x = line ++ [10] /\ y = []).
Proof.
  intros E Hn. destruct (Nat.lt_ge_cases (length line) (length x)) as [H|H].
  - right. assert (length (line ++ [10]) = S (length line)) as HL by (rewrite length_app; cbn; lia).
    pose proof (f_equal length E) as HE. rewrite HL, length_app in HE. assert (y = []) as -> by (apply nil_length_inv; lia).
    by rewrite app_nil_r in E.
  - left. assert (x = take (length x) line) as Ex.
    { apply (f_equal (take (length x))) in E. rewrite take_app_le in E by lia. by rewrite take_app_length in E. }
    split_and!; [|done|].
    + rewrite Ex. intros Hin. apply Hn. rewrite <- (take_drop (length x) line). apply elem_of_app. by left.
    + intros ->. rewrite app_nil_r in E. apply (f_equal length) in E. rewrite length_app in E. cbn in E. lia.
Qed.

(** Up to the end of the line nothing is processed; with it, all of it is. *)
Lemma control_readable_pieces line ins : Forall piece ins -> (10 ∉ line) -> (length line < 4095)%nat -> forall buf rest,
  line ++ [10] = buf ++ pieces_text ins ++ rest -> (10 ∉ buf) ->
  (fst (on_control_readable ins buf) = ControlMore (buf ++ pieces_text ins) /\ (10 ∉ buf ++ pieces_text ins) /\ rest <> []) \/
  (fst (on_control_readable ins buf) = ControlLine (line ++ [10]) /\ rest = []).
Proof.
  intros Hp Hn Hl. induction Hp as [|o ins Ho Hp IH]; intros buf rest E Hb; destruct (line_prefix _ _ _ E Hn) as [(_ & Hle & Hy)|[-> _]].
  2, 4: exfalso; apply Hb, elem_of_app; right; by left.
  all: cbn [on_control_readable]; rewrite (proj2 (Nat.leb_gt _ _)) by lia.
  - cbn [pieces_text] in *. left. rewrite app_nil_r. done.
  - destruct o as [d| | |]; cbn [piece pieces_text] in *; try done; [|by apply IH].
    rewrite <- app_assoc, app_assoc in E. assert (length buf + length d <= S (length line))%nat as Hd.
    { apply (f_equal length) in E. rewrite !length_app in E. cbn in E. lia. }
    rewrite (take_ge d) by lia. rewrite (proj2 (Nat.eqb_neq _ _)) by (by destruct d). rewrite app_assoc.
    destruct (line_prefix _ _ _ E Hn) as [(Hnd & _ & _)|[Ed Er]].
    + rewrite bool_decide_eq_false_2; [by apply IH|]. apply memchr_None in Hnd. rewrite Hnd. by intros [].
    + apply app_eq_nil in Er as [_ ->]. right. split; [|done]. rewrite bool_decide_eq_true_2; [cbn [fst]; by rewrite Ed|].
      rewrite Ed. rewrite memchr_app by done. by eexists.
Qed.

Lemma control_rounds_pieces line rounds : (10 ∉ line) -> (length line < 4095)%nat -> forall buf,
  Forall (Forall piece) rounds -> line ++ [10] = buf ++ pieces_text (concat rounds) -> (10 ∉ buf) ->
  control_rounds rounds buf = ControlLine (line ++ [10]).
Proof.
  intros Hn Hl. induction rounds as [|ins rounds IH]; intros buf Hp E Hb.
  - cbn in E. rewrite app_nil_r in E. subst buf. exfalso. apply Hb, elem_of_app. right. by left.
  - apply Forall_cons_1 in Hp as [Hi Hp]. cbn [concat] in E.
    assert (pieces_text (ins ++ concat rounds) = pieces_text ins ++ pieces_text (concat rounds)) as Ec.
    { clear. induction ins as [|[] ins IH]; cbn [pieces_text]; simpl; [done| |done..]. by rewrite IH, app_assoc. }
    rewrite Ec in E. cbn [control_rounds].
    destruct (control_readable_pieces line ins Hi Hn Hl buf _ E Hb) as [(-> & Hb' & _)|[-> _]]; [|done].
    apply IH; [done| |done]. by rewrite <- app_assoc.
Qed.

(** ** At the core *)
Section core.
Context {tls : Type} {TE : TlsEngine tls}.
Context {db : Type} `{SQ : Sqlite db}.
Implicit Types (w : gateway tls * app db).

(** A token is one word, and a command one line. *)
Definition one_word (token : bytes) : Prop := (32 ∉ token) /\ (10 ∉ token) /\ (0 ∉ token).
Definition one_line (text : bytes) : Prop := (10 ∉ text) /\ (0 ∉ text).

Lemma process_control_line s token text w : one_word token -> one_line text ->
  process_control s (core_line token text) w =
  if decide (token = a_token (snd w)) then exec_control_command s text (Nat.mul 8 1024) w
  else Some (bs "ERR unauthorized" ++ lf, w).
Proof.
  intros (Hb & Hn & H0) (Hn' & H0'). unfold Control.process_control.
  assert (control_line (core_line token text) = token ++ 32 :: text) as ->.
  { unfold control_line, core_line. replace (token ++ bs " " ++ text ++ [10]) with ((token ++ 32 :: text) ++ 10 :: []).
    - rewrite memchr_app; [rewrite take_app_length; apply cstr_id|].
      all: intros [H|[H|H]%elem_of_cons]%elem_of_app; [by apply Hn || by apply H0|lia|by apply Hn' || by apply H0'].
    - rewrite <- app_assoc. reflexivity. }
  rewrite memchr_app by done. rewrite take_app_length. replace (drop (S (length token)) (token ++ 32 :: text)) with text.
  2: { replace (token ++ 32 :: text) with ((token ++ [32]) ++ text) by (by rewrite <- app_assoc).
       rewrite drop_app_length'; [done|]. rewrite length_app. cbn. lia. }
  unfold bnd, get_app, gets. cbn [fst snd]. unfold memeq. case_decide as Hd.
  - rewrite bool_decide_eq_true_2 by done. done.
  - rewrite bool_decide_eq_false_2 by done. done.
Qed.

Lemma cli_errorf_acts e text c : exists c', cli_errorf e text c = Some (tt, c') /\ exists t, c_acts c' = c_acts c ++ [Err t].
Proof.
  unfold cli_errorf, colored, perform, bnd, gets, modify, ret. cbn.
  destruct (ntc_colorize (l_env e) (l_tty e) (-1) (c_colors c) 2 NTC_ANSI_RED) as [red k1]. cbn.
  destruct (ntc_colorize (l_env e) (l_tty e) (-1) k1 2 NTC_ANSI_RESET) as [reset k2]. cbn.
  eexists. split; [done|]. by eexists.
Qed.

(** The command is sent: the exit code is 0 when the reply begins with OK. *)
Lemma do_control_sent e token text p ps c :
  ntc_control_read_token (l_env e) (l_files e) 65 = (NTC_OK, token) -> c_peers c = p :: ps -> reachable p ->
  (length (core_line token text) < CONTROL_LINE)%nat ->
  exists rc c' outs, do_control e text c = Some (rc, c') /\ (rc = 0 \/ rc = 1) /\
    c_acts c' = c_acts c ++ ToCore (core_line token text) :: (Out <$> outs).
Proof.
  intros Ht Hp Hr Hl. destruct (control_call_fits p token text (Nat.mul 8 1024) Hr) as (out & log & E); [cbn; lia|done|].
  unfold do_control, do_control_raw, ask_peer, bnd, gets, modify, ret, perform. rewrite Ht, Hp. cbn -[Nat.mul].
  rewrite E. rewrite (proj2 (Nat.eqb_neq _ _)) by (unfold core_line; rewrite !length_app; cbn; lia). cbn -[Nat.mul].
  destruct (memeq (take 2 out) _); cbn -[Nat.mul].
  all: destruct ((length out =? 0)%nat || _); cbn; eexists _, _; [exists [out; lf]|exists [out]].
  all: split; [reflexivity|]; split; [auto|]; cbn; by rewrite <- ?app_assoc.
Qed.

(** Or it is not, and the user is told. *)
Lemma do_control_long e token text p ps c :
  ntc_control_read_token (l_env e) (l_files e) 65 = (NTC_OK, token) -> c_peers c = p :: ps ->
  (CONTROL_LINE <= length (core_line token text))%nat ->
  exists c' t, do_control e text c = Some (2, c') /\ c_acts c' = c_acts c ++ [Err t].
Proof.
  intros Ht Hp Hl. destruct (control_call_long p token text (Nat.mul 8 1024)) as (err & out & log & E & He); [cbn; lia|done|].
  set (msg := bs "cannot reach control socket '" ++ ntc_control_sock_path (l_env e) ++ bs "' (is the core running?)").
  destruct (cli_errorf_acts e msg (c <| c_peers := ps |>)) as (c' & Ec & t & Ea).
  exists c', t. split; [|exact Ea].
  unfold do_control, do_control_raw, ask_peer. unfold bnd at 1 2 3 4, gets, modify. rewrite Ht, Hp. cbn -[Nat.mul cli_errorf].
  unfold update in Ec. cbn in Ec. rewrite E. cbn -[Nat.mul cli_errorf].
  destruct err; [done|..]; unfold bnd at 1 2; cbn -[Nat.mul cli_errorf]; fold msg; unfold update; cbn -[Nat.mul cli_errorf];
    rewrite Ec; reflexivity.
Qed.

End core.

Definition demo_core : control_peer := ControlPeer 4 true [WrTakes 7; WrIntr] [RdData (bs "OK "); RdIntr; RdData (bs "done" ++ lf)].
Definition demo_cli_env : cli_env :=
  CliEnv (fun _ => None) (fun f => if memeq f (bs "./ntc.token") then Some (bs "s3cret" ++ lf) else None)
    (fun _ => false) (fun _ => false) 0 42 (fun _ => true) [] NTC_OK true [] [].
Definition demo_cli : cli := Cli [demo_core] [] [] [None; None; None] [].
Definition demo_argv : list bytes := [bs "ntc"; bs "service"; bs "add"; bs "hello"; bs "./hello"].
Example service_add_line : option_map (fun '(rc, c) => (rc, c_acts c)) (main demo_cli_env demo_argv demo_cli) =
  Some (0, [ToCore (bs "s3cret service-add hello ./hello" ++ lf); Out (bs "OK done" ++ lf)]).
Proof. vm_compute. reflexivity. Qed.


(** ** Starting *)

Definition is_serve (a : act) : bool := match a with Serve _ _ _ _ => true | _ => false end.
Definition is_pid (a : act) : bool := match a with WritePid _ => true | _ => false end.

(** An operation that only adds to the trace, and neither serves nor writes the pid file. *)
Definition quiet {A} (m : St cli A) : Prop := forall c a c', m c = Some (a, c') ->
  exists new, c_acts c' = c_acts c ++ new /\ Forall (fun a => is_serve a || is_pid a = false) new.

Lemma quiet_ret {A} (a : A) : quiet (ret a).
Proof. intros c b c' [= <- <-]. exists []. by rewrite app_nil_r. Qed.

Lemma quiet_bnd {A B} (m : St cli A) (k : A -> St cli B) : quiet m -> (forall a, quiet (k a)) -> quiet (bnd m k).
Proof.
  intros Hm Hk c b c'. unfold bnd. destruct (m c) as [[a c1]|] eqn:E; [|done]. intros E'.
  destruct (Hm _ _ _ E) as (n1 & E1 & F1), (Hk _ _ _ _ E') as (n2 & E2 & F2).
  exists (n1 ++ n2). split; [by rewrite E2, E1, app_assoc|]. by apply Forall_app_2.
Qed.

Lemma quiet_perform a : is_serve a || is_pid a = false -> quiet (perform a).
Proof. intros H c b c' [= _ <-]. exists [a]. split; [done|]. by constructor. Qed.

Lemma quiet_gets {A} (f : cli -> A) : quiet (gets f).
Proof. intros c b c' [= _ <-]. exists []. by rewrite app_nil_r. Qed.

Lemma quiet_load {A} (f : cli -> option A) : quiet (load f).
Proof. intros c b c'. unfold load. destruct (f c); [|done]. intros [= _ <-]. exists []. by rewrite app_nil_r. Qed.

Lemma quiet_modify (f : cli -> cli) : (forall c, c_acts (f c) = c_acts c) -> quiet (modify f).
Proof. intros H c b c' [= _ <-]. exists []. by rewrite H, app_nil_r. Qed.

Create HintDb quiet.
#[export] Hint Resolve quiet_ret quiet_gets quiet_load : quiet.

(** Through binds, conditions and matches. *)
Ltac quiet_tac :=
  repeat (first
    [ solve [auto with quiet]
    | apply quiet_bnd; [|intro]
    | apply quiet_perform; reflexivity
    | apply quiet_modify; intro; reflexivity
    | match goal with
      | |- quiet (let '(_, _) := ?x in _) => destruct x
      | |- quiet (match ?x with _ => _ end) => destruct x
      | |- quiet (let _ := _ in _) => cbv zeta
      end ]).

Lemma quiet_colored e fd code : quiet (colored e fd code).
Proof. unfold colored. quiet_tac. Qed.
#[export] Hint Resolve quiet_colored : quiet.
Lemma quiet_errorf e t : quiet (cli_errorf e t).
Proof. unfold cli_errorf. quiet_tac. Qed.
Lemma quiet_usage p : quiet (usage p).
Proof. unfold usage. quiet_tac. Qed.
Lemma quiet_ask_peer : quiet ask_peer.
Proof. unfold ask_peer. quiet_tac. Qed.
Lemma quiet_read_pidfile : quiet read_pidfile.
Proof. unfold read_pidfile. quiet_tac. Qed.
Lemma quiet_pid_alive pid : quiet (pid_alive pid).
Proof. unfold pid_alive. quiet_tac. Qed.
#[export] Hint Resolve quiet_errorf quiet_usage quiet_ask_peer quiet_read_pidfile quiet_pid_alive : quiet.
Lemma quiet_control_raw e t cap : quiet (do_control_raw e t cap).
Proof. unfold do_control_raw. quiet_tac. Qed.
#[export] Hint Resolve quiet_control_raw : quiet.
Lemma quiet_control e t : quiet (do_control e t).
Proof. unfold do_control. quiet_tac. Qed.
Lemma quiet_list e t cols keys argv : quiet (cmd_list e t cols keys argv).
Proof. unfold cmd_list. quiet_tac. Qed.
Lemma quiet_status e argv : quiet (cmd_status e argv).
Proof. unfold cmd_status. quiet_tac. Qed.
Lemma quiet_wait n pid : quiet (wait_gone n pid).
Proof. induction n; cbn [wait_gone]; quiet_tac. Qed.
Lemma quiet_mcp_exec e t cap : quiet (mcp_exec e t cap).
Proof. unfold mcp_exec. quiet_tac. Qed.
#[export] Hint Resolve quiet_control quiet_list quiet_status quiet_wait quiet_mcp_exec : quiet.
Lemma quiet_mcp_line e line : quiet (mcp_line e line).
Proof. unfold mcp_line, ntc_mcp_handle, mcp_dispatch, handle_tool_call. quiet_tac. Qed.
Lemma quiet_mcp_lines e n input : quiet (mcp_lines e n input).
Proof. revert input. induction n; intros input; cbn [mcp_lines]; [quiet_tac|]. pose proof (quiet_mcp_line e). quiet_tac. Qed.
#[export] Hint Resolve quiet_mcp_lines : quiet.

(** Looking for a running core: the pid the file names, and that no such process runs. *)
Definition nobody_runs (pid : Z) : list act := FoundPid pid :: (if 0 <? pid then [Asked pid false] else []).

(** What starting adds to the trace: complaints, or the look for a running core followed by the
    pid file or the detachment, the server, and the end of the pid file. *)
Definition served (new : list act) (port dash tls : Z) (dev : option ntc_dev_opts) : Prop :=
  exists pid how, new = nobody_runs pid ++ how ++ [Serve port dash tls dev; UnlinkPid] /\
    (how = [] \/ how = [Detach] \/ exists me, how = [WritePid me]).
Definition start_acts (o : option (Z * start_opts)) (new : list act) : Prop :=
  Forall (fun a => is_serve a = false) new \/
  exists port o' dev, o = Some (port, o') /\ served new port (so_dash o') (so_tls o') dev.


Lemma free_pid c : exists pid c1 running c2 new, read_pidfile c = Some (pid, c1) /\ pid_alive pid c1 = Some (running, c2) /\
  c_acts c2 = c_acts c ++ new /\ Forall (fun a => is_serve a || is_pid a = false) new /\ (running = false -> new = nobody_runs pid).
Proof.
  unfold read_pidfile, pid_alive, bnd, gets, modify, perform, ret, update. cbn.
  set (pid := match head (c_pids c) with Some (Some content) => _ | _ => _ end).
  eexists pid, _. destruct (0 <? pid) eqn:E; cbn.
  - eexists (default false (head (c_alive c))), _, _. split; [done|]. split; [done|]. cbn. rewrite <- app_assoc.
    split; [done|]. split; [by repeat constructor|]. intros H. unfold nobody_runs. by rewrite E, H.
  - eexists false, _, _. split; [done|]. split; [done|]. cbn. split; [done|]. split; [by repeat constructor|].
    intros _. unfold nobody_runs. by rewrite E.
Qed.

Lemma quiet_start {A} (m : St cli A) o c a c' : quiet m -> m c = Some (a, c') ->
  exists new, c_acts c' = c_acts c ++ new /\ start_acts o new.
Proof.
  intros Hm E. destruct (Hm _ _ _ E) as (new & Ea & F). exists new. split; [done|]. left.
  eapply Forall_impl; [exact F|]. intros x [H _]%orb_false_iff. done.
Qed.

(** Behind the look for a running core. *)
Lemma start_with (A : Type) (K : Z -> bool -> St cli A) o c a c' :
  (let* existing := read_pidfile in let* running := pid_alive existing in K existing running) c = Some (a, c') ->
  (forall pid, quiet (K pid true)) ->
  (forall pid c1 a c', K pid false c1 = Some (a, c') -> exists new, c_acts c' = c_acts c1 ++ new /\ start_acts o (nobody_runs pid ++ new)) ->
  exists new, c_acts c' = c_acts c ++ new /\ start_acts o new.
Proof.
  intros E Hq Hk. destruct (free_pid c) as (pid & c1 & running & c2 & new & E1 & E2 & Ea & F & Hn).
  unfold bnd in E. rewrite E1, E2 in E. destruct running.
  - destruct (Hq pid _ _ _ E) as (n2 & E3 & F2). exists (new ++ n2). split; [by rewrite E3, Ea, app_assoc|]. left.
    apply Forall_app_2; (eapply Forall_impl; [eassumption|]; intros x [H _]%orb_false_iff; done).
  - destruct (Hk _ _ _ _ E) as (n2 & E3 & F2). exists (new ++ n2). rewrite (Hn eq_refl) in *. split; [|done].
    by rewrite E3, Ea, app_assoc.
Qed.

Lemma serve_acts e port dash tls dev c a c' : serve e port dash tls dev c = Some (a, c') ->
  c_acts c' = c_acts c ++ [Serve port dash tls dev; UnlinkPid].
Proof.
  unfold serve, bnd, perform, modify, ret. cbn. destruct (l_server e); intros [= _ <-]; cbn; by rewrite <- app_assoc.
Qed.

Lemma pidfile_serve_acts e pid port dash tls dev c a c' :
  (write_pidfile e pid ;;; serve e port dash tls dev) c = Some (a, c') ->
  exists how, c_acts c' = c_acts c ++ how ++ [Serve port dash tls dev; UnlinkPid] /\ (how = [] \/ exists me, how = [WritePid me]).
Proof.
  unfold write_pidfile, bnd. destruct (l_create e _); cbn; intros H%serve_acts; rewrite H.
  - exists [WritePid pid]. split; [cbn; by rewrite <- app_assoc|]. right. by eexists.
  - exists []. auto.
Qed.

Lemma run_start_acts e prog argv c rc c' : run_start e prog argv c = Some (rc, c') ->
  exists new, c_acts c' = c_acts c ++ new /\
    start_acts (a ← argv !! 2%nat; port ← parse_port a;
                match start_args (drop 3 argv) (StartOpts NTC_DASHBOARD_DEFAULT 0 false None []) with
                | inl o => Some (port, o) | inr _ => None end) new.
Proof.
  unfold run_start. destruct (argv !! 2%nat) as [a|]; [|apply quiet_start; quiet_tac]. bind.
  destruct (parse_port a) as [port|]; [|apply quiet_start; quiet_tac]. bind.
  destruct (start_args _ _) as [o|msg]; [|apply quiet_start; quiet_tac]. intros E.
  eapply start_with; [exact E| |]; cbv beta iota.
  { intros pid. unfold already_running. quiet_tac. }
  clear E. intros pid c1 x c2. destruct (so_detach o).
  2: { intros (how & Ea & Hh)%pidfile_serve_acts. eexists. split; [exact Ea|]. right. eexists _, _, _. split; [done|].
       exists pid, how. split; [done|]. tauto. }
  destruct (l_fork e <? 0).
  { intros E. assert (quiet (cli_errorf e (bs "fork failed: " ++ l_strerror e) ;;; ret 1)) as Q by quiet_tac.
    destruct (Q _ _ _ E) as (new & Ea & F). exists new. split; [done|]. left.
    apply Forall_app_2; [unfold nobody_runs; destruct (0 <? pid); by repeat constructor|].
    eapply Forall_impl; [exact F|]. intros y [H _]%orb_false_iff. done. }
  destruct (0 <? l_fork e).
  - unfold write_pidfile, bnd, perform, modify, ret. destruct (l_create e _); cbn; intros [= _ <-]; cbn; rewrite <- ?app_assoc;
      (eexists; split; [reflexivity|]; left; unfold nobody_runs; destruct (0 <? pid); by repeat constructor).
  - unfold bnd, perform, modify. cbn. intros H%serve_acts. cbn in H. rewrite <- app_assoc in H.
    eexists. split; [exact H|]. right. eexists _, _, _. split; [done|]. exists pid, [Detach]. split; [done|]. auto.
Qed.

Lemma run_dev_acts e prog argv c rc c' : run_dev e prog argv c = Some (rc, c') ->
  exists new, c_acts c' = c_acts c ++ new /\
    start_acts (a ← argv !! 2%nat; port ← parse_port a;
                match dev_args (drop 3 argv) (StartOpts NTC_DASHBOARD_DEFAULT 0 false None []) with
                | inl o => Some (port, o) | inr _ => None end) new.
Proof.
  unfold run_dev. destruct (argv !! 2%nat) as [a|]; [|apply quiet_start; quiet_tac]. bind.
  destruct (parse_port a) as [port|]; [|apply quiet_start; quiet_tac]. bind.
  destruct (dev_args _ _) as [o|msg]; [|apply quiet_start; quiet_tac]. intros E.
  eapply start_with; [exact E| |]; cbv beta iota.
  { intros pid. unfold already_running. quiet_tac. }
  clear E. intros pid c1 x c2 (how & Ea & Hh)%pidfile_serve_acts. eexists. split; [exact Ea|]. right. eexists _, _, _.
  split; [done|]. exists pid, how. split; [done|]. tauto.
Qed.

(** The options keep the ports in range. *)
Definition opts_ok (o : start_opts) : Prop := 0 <= so_dash o <= 65535 /\ 0 <= so_tls o <= 65535.

Lemma parse_port_range a p : parse_port a = Some p -> 1 <= p <= 65535.
Proof.
  unfold parse_port. destruct (strtol10 a) as [[v []]|]; [|done..].
  destruct (Z.ltb_spec v 1), (Z.ltb_spec 65535 v); cbn; [done..|]. intros [= <-]. lia.
Qed.

Lemma start_args_ok n : forall args o o', (length args <= n)%nat -> opts_ok o -> start_args args o = inl o' -> opts_ok o'.
Proof.
  induction n as [|n IH]; intros [|a args] o o' Hl Ho; cbn [start_args length] in *; try (by intros [= <-]); [lia|].
  destruct (_ || _); [apply IH; [lia|done]|]. destruct (memeq a (bs "--no-dashboard")); [apply IH; [lia|destruct Ho; split; cbn; lia]|].
  destruct args as [|v args]; [done|]. cbn [length] in Hl.
  destruct (_ || _); [|destruct (memeq a (bs "--tls")); [|done]].
  all: destruct (parse_port v) as [p|] eqn:Ep; [|done]; apply parse_port_range in Ep; apply IH; [lia|destruct Ho; split; cbn; lia].
Qed.

Lemma dev_args_ok n : forall args o o', (length args <= n)%nat -> opts_ok o -> dev_args args o = inl o' -> opts_ok o'.
Proof.
  induction n as [|n IH]; intros [|a args] o o' Hl Ho; cbn [dev_args length] in *; try (by intros [= <-]); [lia|].
  destruct (memeq a (bs "--no-dashboard")); [apply IH; [lia|destruct Ho; split; cbn; lia]|].
  destruct args as [|v args]; [done|]. cbn [length] in Hl.
  destruct (_ || _); [|destruct (memeq a (bs "--tls"))].
  1, 2: destruct (parse_port v) as [p|] eqn:Ep; [|done]; apply parse_port_range in Ep; apply IH; [lia|destruct Ho; split; cbn; lia].
  destruct (memeq a (bs "--build")); [apply IH; [lia|done]|]. destruct (memeq a (bs "--watch")); [|done].
  destruct (_ <=? _)%nat; [done|]. apply IH; [lia|done].
Qed.

(** What [main] adds to the trace in all. *)
Definition main_acts (argv : list bytes) (new : list act) : Prop :=
  Forall (fun a => is_serve a = false) new \/
  exists a port dash tls dev pre post, argv !! 2%nat = Some a /\ parse_port a = Some port /\ 1 <= port <= 65535 /\
    0 <= dash <= 65535 /\ 0 <= tls <= 65535 /\ new = pre ++ post /\ Forall (fun a => is_serve a = false) pre /\
    served post port dash tls dev.

Lemma start_main argv argv2 (args_of : list bytes -> start_opts -> start_opts + bytes) pre new :
  (forall args o, args_of args (StartOpts NTC_DASHBOARD_DEFAULT 0 false None []) = inl o -> opts_ok o) ->
  argv2 !! 2%nat = argv !! 2%nat -> Forall (fun a => is_serve a = false) pre ->
  start_acts (a ← argv2 !! 2%nat; port ← parse_port a;
              match args_of (drop 3 argv2) (StartOpts NTC_DASHBOARD_DEFAULT 0 false None []) with
              | inl o => Some (port, o) | inr _ => None end) new ->
  main_acts argv (pre ++ new).
Proof.
  intros Hok E2 Hpre [F|(port & o & dev & E & S)]; [left; by apply Forall_app_2|]. right. rewrite E2 in E.
  destruct (argv !! 2%nat) as [a|] eqn:Ea; [|done]. cbn in E. destruct (parse_port a) as [p|] eqn:Ep; [|done]. cbn in E.
  destruct (args_of (drop 3 argv2) _) as [o'|] eqn:Eo; [|done]. injection E as -> ->. apply Hok in Eo as [H1 H2].
  exists a, port, (so_dash o), (so_tls o), dev, pre, new. pose proof (parse_port_range _ _ Ep). split_and!; try done; lia.
Qed.

Lemma default_opts_ok : opts_ok (StartOpts NTC_DASHBOARD_DEFAULT 0 false None []).
Proof. split; cbn; unfold NTC_DASHBOARD_DEFAULT; lia. Qed.

Lemma quiet_main {A} (m : St cli A) argv c a c' : quiet m -> m c = Some (a, c') ->
  exists new, c_acts c' = c_acts c ++ new /\ main_acts argv new.
Proof.
  intros Hm E. destruct (Hm _ _ _ E) as (new & Ea & F). exists new. split; [done|]. left.
  eapply Forall_impl; [exact F|]. intros x [H _]%orb_false_iff. done.
Qed.

Lemma main_restart_acts e prog argv c rc c' : main_restart e prog argv c = Some (rc, c') ->
  exists new, c_acts c' = c_acts c ++ new /\ main_acts argv new.
Proof.
  unfold main_restart. destruct (argv !! 2%nat) as [port|] eqn:Ep; [|apply quiet_main; quiet_tac].
  set (m := do_control_raw e (bs "stop") 1024). intros E.
  assert (quiet (let* _ := m in let* pid := read_pidfile in wait_gone 50 pid)) as Q by (unfold m; quiet_tac).
  unfold bnd at 1 in E. destruct (m c) as [[x1 c1]|] eqn:E1; [|done]. unfold bnd at 1 in E.
  destruct (read_pidfile c1) as [[pid c2]|] eqn:E2; [|done]. unfold bnd at 1 in E.
  destruct (wait_gone 50 pid c2) as [[x3 c3]|] eqn:E3; [|done].
  destruct (Q c x3 c3) as (pre & Ea & F). { unfold bnd. by rewrite E1, E2. }
  destruct (run_start_acts _ _ _ _ _ _ E) as (new & Ea' & S). exists (pre ++ new). split; [by rewrite Ea', Ea, app_assoc|].
  eapply (start_main argv [prog; bs "start"; port; bs "-d"] start_args); [|done| |exact S].
  - intros args o. by apply (start_args_ok (length args)), default_opts_ok.
  - eapply Forall_impl; [exact F|]. intros y [H _]%orb_false_iff. done.
Qed.

(** What [ntc start <port> <options>] adds. *)
Definition start_trace (pid : Z) (port : Z) (o : start_opts) : list act :=
  [FoundPid (-1); WritePid pid; Serve port (so_dash o) (so_tls o) None; UnlinkPid].


