(* ===== verification/Setup.v ===== *)
(** * Starting and ending the gateway (src/core/server.c, [ntc_server_run])

    Before the loop: the registry and the environment give the configuration, the registry's
    services and routes are loaded, the sockets are made, and the controllers are started.
    After it, or when something that is needed cannot be had: everything is released.  The
    system's answers are arguments, and what is acquired and released is a trace. *)
From S2P Require Import Prelude Posix Update Err Slice Double Json Schema Crypto Jwt Http HttpRequest Middleware Session Wire.
From S2P Require Import Inflight Pem ServerState ServerConn ServerRelay Router Builtin Registry App Services Control ControlClient.
Open Scope Z_scope.

(** ** Settings *)
Section config.
Context {db : Type} `{SQ : Sqlite db}.
Variable env : environ.

(** A key of the registry, as the set-up asks for it: a call that fails finds nothing. *)
Definition conf (r : db) (key : bytes) (cap : nat) : option bytes :=
  match ntc_registry_get_config r key cap with (NTC_OK, v) => v | _ => None end.

(** A text of at most [cap - 1] bytes: the registry's, and over it the variable's. *)
Definition setting (r : db) (key name : bytes) (cap : nat) (old : bytes) : bytes :=
  let t := match conf r key 256 with Some v => snprintf cap v | None => old end in
  match env name with Some e => snprintf cap e | None => t end.
Definition int_setting (r : db) (key name : bytes) : Z :=
  let n := match conf r key 256 with Some v => atoi v | None => 0 end in
  match env name with Some e => atoi e | None => n end.

(** server.c:1903-1914 [gen_token]. [urandom] is what reading 16 bytes gives, [None] when the
    device cannot be opened; the array has 65 bytes. *)
Definition gen_token (urandom : option bytes) : bytes :=
  match urandom with
  | Some b => if (length b =? 16)%nat then mjoin (fmt_02x <$> b) else snprintf 65 (bs "ntc-insecure-token")
  | None => snprintf 65 (bs "ntc-insecure-token")
  end.

(** server.c:1916-1934 [load_token]. The token, the registry, and what is written to the token
    file when it can be opened: its path and text. *)
Definition load_token (r : db) (urandom : option bytes) : bytes * db * (bytes * bytes) :=
  let '(token, r) :=
    match conf r (bs "control_token") 65 with
    | Some buf => (snprintf 65 buf, r)
    | None => let t := gen_token urandom in (t, snd (ntc_registry_set_config r (bs "control_token") t))
    end in
  (token, r, (default NTC_CONTROL_TOKEN_DEFAULT (env (bs "NTC_TOKEN_FILE")), token ++ [10])).

(** server.c:2178-2184 [ntc_server_run, app.name] *)
Definition load_app_name (r : db) : bytes :=
  match conf r (bs "app.name") 128 with
  | Some an => snprintf 128 an
  | None => snprintf 128 (default (bs "naitron-c app") (env (bs "NTC_APP_NAME")))
  end.

(** server.c:2185-2189 [ntc_server_run, static.dir] *)
Definition load_static_dir (r : db) : bytes := setting r (bs "static.dir") (bs "NTC_STATIC_DIR") 256 [].

(** server.c:2192-2227 [ntc_server_run, middleware settings] *)
Definition load_mw_config (r : db) : ntc_mw_config :=
  MwConfig true
    (match conf r (bs "accesslog") 256 with Some v => negb (atoi v =? 0) | None => true end)
    (setting r (bs "cors.origin") (bs "NTC_CORS_ORIGIN") 128 [])
    (int_setting r (bs "ratelimit.per_sec") (bs "NTC_RATELIMIT_PER_SEC"))
    (int_setting r (bs "ratelimit.burst") (bs "NTC_RATELIMIT_BURST"))
    (setting r (bs "auth.mode") (bs "NTC_AUTH_MODE") 16 [])
    (setting r (bs "auth.secret") (bs "NTC_AUTH_SECRET") 256 [])
    (setting r (bs "auth.protect") (bs "NTC_AUTH_PROTECT") 128 [])
    (setting r (bs "auth.jwks_file") (bs "NTC_AUTH_JWKS_FILE") 256 [])
    (setting r (bs "auth.jwks_url") (bs "NTC_AUTH_JWKS_URL") 256 [])
    (setting r (bs "auth.jwks_ca") (bs "NTC_AUTH_JWKS_CA") 256 []).

(** server.c:2233-2248 [ntc_server_run, OAuth settings] *)
Definition load_oauth (r : db) : oauth_config :=
  OauthConfig
    (setting r (bs "oauth.authorize_url") (bs "NTC_OAUTH_AUTHORIZE_URL") 256 [])
    (setting r (bs "oauth.token_url") (bs "NTC_OAUTH_TOKEN_URL") 256 [])
    (setting r (bs "oauth.client_id") (bs "NTC_OAUTH_CLIENT_ID") 160 [])
    (setting r (bs "oauth.client_secret") (bs "NTC_OAUTH_CLIENT_SECRET") 256 [])
    (setting r (bs "oauth.redirect_uri") (bs "NTC_OAUTH_REDIRECT_URI") 256 [])
    (setting r (bs "oauth.scopes") (bs "NTC_OAUTH_SCOPES") 160 [])
    (setting r (bs "oauth.success") (bs "NTC_OAUTH_SUCCESS") 128 [])
    false.

(** server.c:2165-2166 [ntc_server_run, dbpath] *)
Definition db_path : bytes := default (bs "ntc.db") (env (bs "NTC_DB")).

(** server.c:2253-2264 [ntc_server_run, sessions path] *)
Definition sessions_path (r : db) : bytes :=
  let sdb := default [] (conf r (bs "sessions.db") 300) in
  let sdb := match env (bs "NTC_SESSIONS_DB") with Some e => snprintf 300 e | None => sdb end in
  if (0 <? length sdb)%nat then sdb else
  let mdb := db_path in
  let ml := length mdb in
  if (3 <? ml)%nat && memeq (drop (ml - 3) mdb) (bs ".db")
  then snprintf 300 (take (ml - 3) mdb ++ bs ".sessions.db")
  else snprintf 300 (mdb ++ bs ".sessions.db").

(** server.c:2268-2270 [ntc_server_run, trust anchors]. The path, empty for the default. *)
Definition ca_path (r : db) : bytes :=
  let ca := default [] (conf r (bs "oauth.ca") 256) in
  match env (bs "NTC_OAUTH_CA") with Some e => snprintf 256 e | None => ca end.

(** server.c:2283-2289 [ntc_server_run, max_body] *)
Definition load_max_body (r : db) : Z :=
  let mb := default [] (conf r (bs "max_body") 32) in
  let mb := match env (bs "NTC_MAX_BODY") with Some e => snprintf 32 e | None => mb end in
  if (length mb =? 0)%nat then Z.of_nat NTC_CONN_RBUF else
  let v := atol mb in
  if (0 <? v) && (v <? Z.of_nat NTC_CONN_RBUF) then v else Z.of_nat NTC_CONN_RBUF.

(** server.c:2292-2320 [ntc_server_run, schemas]. [files] are the files that can be read, with
    all their bytes; [got] and [arena] say whether the buffer and the arena are had. *)
Definition load_schemas (r : db) (files : environ) (got arena : bool) (m : list bool) : option (option ntc_json) :=
  let sf := default [] (conf r (bs "schema.file") 256) in
  let sf := match env (bs "NTC_SCHEMA_FILE") with Some e => snprintf 256 e | None => sf end in
  if (length sf =? 0)%nat then Some None else
  match files sf with
  | None => Some None
  | Some buf =>
      let sz := Z.of_nat (length buf) in
      if negb ((0 <? sz) && (sz <? 256 * 1024) && got && arena) then Some None else
      v ← ntc_json_parse m buf;
      Some (match v with Some (JObj ms) => Some (JObj ms) | _ => None end)
  end.

(** server.c:2383-2395 [ntc_server_run, TLS settings]. The port, the certificate's path and the
    key's. *)
Definition load_tls_settings (r : db) (tls_port : Z) : Z * bytes * bytes :=
  let tport := if tls_port =? 0 then match conf r (bs "tls.port") 256 with Some v => u16 (atoi v) | None => tls_port end
               else tls_port in
  let tport := match env (bs "NTC_TLS_PORT") with Some e => u16 (atoi e) | None => tport end in
  (tport, setting r (bs "tls.cert") (bs "NTC_TLS_CERT") 256 [], setting r (bs "tls.key") (bs "NTC_TLS_KEY") 256 []).

(** ** The registry's services and routes *)

Definition seed_service : bytes := bs "hello".

(** [sscanf(tok, "%7s %255s", method, path)]: the words, [None] for one that is not there. *)
Definition scan_word (n : nat) (s : bytes) : bytes * bytes :=
  let s := skip_white s in
  let w := (fix word (n : nat) (s : bytes) : bytes :=
    match n, s with S n, c :: s => if is_space c then [] else c :: word n s | _, _ => [] end) n s in
  (w, drop (length w) s).

(** server.c:1858-1860 [load_registry, seeded route] *)
Definition seed_route (r : db) (tok : bytes) : db :=
  let '(method, rest) := scan_word 7 tok in
  let '(path, _) := scan_word 255 rest in
  if (0 <? length method)%nat && (0 <? length path)%nat then snd (ntc_registry_add_route r method path seed_service) else r.

(** server.c:1852-1865 [load_registry, seeded routes]. [strtok_r] skips empty entries. *)
Definition seed_routes (r : db) : db :=
  match env (bs "NTC_CONTROLLER_ROUTE") with
  | Some ((_ :: _) as routes) =>
      foldl seed_route r (List.filter (fun t => (0 <? length t)%nat) (split_on 59 (snprintf 1024 routes)))
  | _ =>
      let r := snd (ntc_registry_add_route r (bs "GET") (bs "/api/hello") seed_service) in
      snd (ntc_registry_add_route r (bs "GET") (bs "/api/hello/:name") seed_service)
  end.

(** server.c:1842-1869 [load_registry, services]. The error, the rows, and the registry. *)
Definition registry_services (r : db) : ntc_err * list ntc_service_row * db :=
  let '(e, rows) := ntc_registry_list_services r 64 in
  if bool_decide (e <> NTC_OK) then (e, [], r) else
  if negb (length rows =? 0)%nat then (NTC_OK, rows, r) else
  match env (bs "NTC_CONTROLLER_BIN") with
  | None => (NTC_OK, rows, r)
  | Some bin =>
      let '(e, r) := ntc_registry_add_service r seed_service bin in
      if bool_decide (e <> NTC_OK) then (NTC_OK, rows, r) else
      let r := seed_routes r in
      let '(e, rows) := ntc_registry_list_services r 64 in
      if bool_decide (e <> NTC_OK) then (e, [], r) else (NTC_OK, rows, r)
  end.

(** server.c:1878-1886 [load_registry, replicas] *)
Definition replicas_of (r : db) (name : bytes) : Z :=
  let within (n old : Z) := if (1 <=? n) && (n <=? Z.of_nat NTC_MAX_REPLICAS) then n else old in
  let n := match conf r (snprintf 160 (bs "replicas:" ++ name)) 16 with Some v => within (atoi v) 1 | None => 1 end in
  match env (bs "NTC_REPLICAS") with Some re => within (atoi re) n | None => n end.

(** server.c:1874-1887 [load_registry, service] *)
Definition load_service (r : db) (row : ntc_service_row) : service :=
  Service (sr_name row) (sr_bin row) (replicate NTC_MAX_REPLICAS None) (replicas_of r (sr_name row)) 0 false 0
    (replicate NTC_MAX_REPLICAS 0) (replicate NTC_MAX_REPLICAS 0) (replicate NTC_MAX_REPLICAS 0) 0.

(** server.c:1892-1898 [load_registry, routes]. A route whose service is not there, or that the
    router does not take, is left out. *)
Fixpoint load_routes (services : list service) (mem : list (bool * bool)) (rows : list ntc_route_row)
    (rt : ntc_router ntc_handler (option nat)) : option (ntc_router ntc_handler (option nat)) :=
  match rows with
  | [] => Some rt
  | row :: rows =>
      match find_service services (rr_service row) with
      | None => load_routes services mem rows rt
      | Some i =>
          let '(a, b) := default (true, true) (head mem) in
          '(_, rt) ← ntc_router_add a b rt (rr_method row) (rr_pattern row) (Some forward_marker) (Some i);
          load_routes services (tail mem) rows rt
      end
  end.

(** server.c:1840-1900 [load_registry]. The error, the services, the router and the registry;
    the names are taken to be copied. *)
Definition load_registry (r : db) (mem : list (bool * bool)) (rt : ntc_router ntc_handler (option nat))
    : option (ntc_err * list service * ntc_router ntc_handler (option nat) * db) :=
  let '(e, rows, r) := registry_services r in
  if bool_decide (e <> NTC_OK) then Some (e, [], rt, r) else
  if (length rows =? 0)%nat then Some (NTC_OK, [], rt, r) else
  let services := load_service r <$> take NTC_MAX_SERVICES rows in
  let '(e, routes) := ntc_registry_list_routes r 256 in
  if bool_decide (e <> NTC_OK) then Some (e, services, rt, r) else
  rt ← load_routes services mem routes rt;
  Some (NTC_OK, services, rt, r).
End config.

(** ** What is acquired and released *)

Inductive resource :=
  | RRouter | RRegistry | RServices | RMw | RSessions | RPending | RCa | RSchemas | RTlsConf | RPoller
  | RListen | RControl | RControlPath | RAdmin | RTls | RChild (k : ctrl_ptr).
Inductive res_event := Got (r : resource) | Freed (r : resource).

(** [if (p) free(p)], and a [free] that takes NULL. *)
Definition free_opt (has : bool) (r : resource) : list res_event := if has then [Freed r] else [].

(** What the calls for a listening socket answer. *)
Record sock_try := SockTry { sk_fd : Z; sk_bind : bool; sk_listen : bool; sk_nonblock : bool }.

(** server.c:1936-1948 [make_control_socket]. The descriptor, and the trace: binding makes the
    name of the socket. *)
Definition make_control_socket (s : sock_try) : Z * list res_event :=
  if sk_fd s <? 0 then (-1, []) else
  if negb (sk_bind s) then (-1, [Got RControl; Freed RControl]) else
  if negb (sk_listen s) || negb (sk_nonblock s) then (-1, [Got RControl; Got RControlPath; Freed RControl]) else
  (sk_fd s, [Got RControl; Got RControlPath]).

(** server.c:1540-1557 [make_admin_socket] *)
Definition make_admin_socket (s : sock_try) : Z * list res_event :=
  if sk_fd s <? 0 then (-1, []) else
  if negb (sk_bind s) || negb (sk_listen s) || negb (sk_nonblock s) then (-1, [Got RAdmin; Freed RAdmin]) else
  (sk_fd s, [Got RAdmin]).

(** server.c:1561-1578 [make_tls_socket] *)
Definition make_tls_socket (s : sock_try) : Z * list res_event :=
  if sk_fd s <? 0 then (-1, []) else
  if negb (sk_bind s) || negb (sk_listen s) || negb (sk_nonblock s) then (-1, [Got RTls; Freed RTls]) else
  (sk_fd s, [Got RTls]).

(** What the system answers while the gateway starts. *)
Record boot_env := BootEnv {
  be_env : environ; be_files : environ; be_now : Z; be_urandom : option bytes;
  be_router : bool; be_builtin : list (bool * bool); be_registry : bool; be_services : bool;
  be_mw : bool; be_mw_env : mw_env; be_sessions : bool; be_kv : bool * bool; be_ca : bool;
  be_schema : bool * bool; be_json : list bool; be_conf : bool;
  be_listen : sock_try; be_poller : bool; be_control : sock_try; be_admin : sock_try; be_tls : sock_try;
  be_polls : list bool; be_routes : list (bool * bool); be_spawns : list spawn }.

(** The gateway when its loop begins: its descriptors, -1 for none, and whether there is a TLS
    configuration. *)
Record started {tls db : Type} := Started {
  st_gw : gateway tls; st_app : app db; st_control : Z; st_admin : Z; st_tls : Z; st_conf : bool }.
Arguments started : clear implicits.

Section boot.
Context {tls : Type} {TE : TlsEngine tls} {SE : SigEngine}.
Context {db : Type} `{SQ : Sqlite db}.
Context {P : Type} {PD : PemDecoder P} (alloc : Z -> bool) (anchor_size : Z).
Context (x509 : bytes -> x509_answer) (skey : list bytes -> skey_answer).

(** server.c:2271-2271 [ntc_server_run, trust anchors]; and middleware.c:95-96. An empty path
    asks for the default. *)
Definition load_ca (e : boot_env) (path : bytes) : option bool :=
  ca ← match path with
       | [] => ntc_ca_default alloc anchor_size x509 (be_files e) (be_ca e) (be_env e (bs "NTC_CA_BUNDLE"))
       | p => ntc_ca_load_pem alloc anchor_size x509 (be_files e) (be_ca e) (Some p)
       end;
  Some (bool_decide (is_Some ca)).

(** server.c:2228-2228 [ntc_server_run, middleware] *)
Definition load_mw (e : boot_env) (r : db) : option (option ntc_mw) :=
  let cfg := load_mw_config (be_env e) r in
  if negb (be_mw e) then Some None else
  ca ← (if negb (length (cf_auth_jwks_url cfg) =? 0)%nat then load_ca e (cf_auth_jwks_ca cfg) else Some false);
  m ← ntc_mw_new (be_mw_env e) (be_files e (cf_auth_jwks_file cfg)) ca cfg;
  Some (Some m).

(** server.c:2232-2279 [ntc_server_run, OAuth]. Whether login is enabled, its settings, the
    stores, and whether there are trust anchors. *)
Definition load_login (e : boot_env) (r : db) : option (bool * oauth_config * option db * option ntc_kvstore) :=
  let o := load_oauth (be_env e) r in
  if (length (o_token_url o) =? 0)%nat || (length (o_authorize_url o) =? 0)%nat || (length (o_client_id o) =? 0)%nat
  then Some (false, o, None, None) else
  let sessions := ntc_session_store_open (be_sessions e) (sessions_path (be_env e) r) in
  let pending := ntc_kv_new (fst (be_kv e)) (snd (be_kv e)) 1024 in
  ca ← load_ca e (ca_path (be_env e) r);
  Some (bool_decide (is_Some sessions) && bool_decide (is_Some pending),
        OauthConfig (o_authorize_url o) (o_token_url o) (o_client_id o) (o_client_secret o) (o_redirect_uri o)
          (o_scopes o) (o_success o) ca, sessions, pending).

(** server.c:2176-2320 [ntc_server_run, configuration]. With the services' array there, the
    application's part of the gateway; the token file is written too. *)
Definition configure (e : boot_env) (router : ntc_router ntc_handler (option nat)) (r : db) : option (app db) :=
  let env := be_env e in
  let '(token, r, _) := load_token env r (be_urandom e) in
  mw ← load_mw e r;
  '(enabled, oauth, sessions, pending) ← load_login e r;
  schemas ← load_schemas env r (be_files e) (fst (be_schema e)) (snd (be_schema e)) (be_json e);
  Some (App router mw r token (load_app_name env r) (load_static_dir env r) enabled oauth sessions pending
          schemas (load_max_body env r) false 0 (be_spawns e)).

(** What the configuration holds. *)
Definition app_resources (a : app db) : list resource :=
  (if bool_decide (is_Some (a_mw a)) then [RMw] else []) ++
  (if bool_decide (is_Some (a_sessions a)) then [RSessions] else []) ++
  (if bool_decide (is_Some (a_pending a)) then [RPending] else []) ++
  (if o_ca (a_oauth a) then [RCa] else []) ++
  (if bool_decide (is_Some (a_schemas a)) then [RSchemas] else []).

(** server.c:2499-2503 [ntc_server_run, releasing the configuration]; lines 2509-2513 too. *)
Definition free_config (a : app db) : list res_event :=
  (Freed <$> app_resources a) ++ [Freed RRegistry; Freed RRouter].

(** server.c:2506-2514 [ntc_server_run, fail_pre_poll]. There is no TLS configuration yet. *)
Definition fail_pre_poll (a : app db) : list res_event := Freed RServices :: free_config a.

(** server.c:2322-2355 [ntc_server_run, listener and poller]. Whether they are there, with the
    answers of the poller that are left, and the trace. *)
Definition open_listener (e : boot_env) : bool * list bool * list res_event :=
  let s := be_listen e in
  if sk_fd s <? 0 then (false, be_polls e, []) else
  if negb (sk_nonblock s) || negb (sk_bind s) || negb (sk_listen s) then (false, be_polls e, [Got RListen; Freed RListen]) else
  if negb (be_poller e) then (false, be_polls e, [Got RListen; Freed RListen]) else
  if negb (default true (head (be_polls e)))
  then (false, tail (be_polls e), [Got RListen; Got RPoller; Freed RPoller; Freed RListen])
  else (true, tail (be_polls e), [Got RListen; Got RPoller]).

(** server.c:2357-2365 [ntc_server_run, control socket] *)
Definition open_control (e : boot_env) (polls : list bool) : Z * list bool * list res_event :=
  let '(fd, t) := make_control_socket (be_control e) in
  if fd <? 0 then (-1, polls, t) else
  if default true (head polls) then (fd, tail polls, t)
  else (-1, tail polls, t ++ [Freed RControl; Freed RControlPath]).

(** server.c:2367-2378 [ntc_server_run, dashboard] *)
Definition open_admin (e : boot_env) (admin_port : Z) (polls : list bool) : Z * list bool * list res_event :=
  if admin_port <=? 0 then (-1, polls, []) else
  let '(fd, t) := make_admin_socket (be_admin e) in
  if fd <? 0 then (-1, polls, t) else
  if default true (head polls) then (fd, tail polls, t) else (-1, tail polls, t ++ [Freed RAdmin]).

(** server.c:2397-2410 [ntc_server_run, TLS listener] *)
Definition open_tls (e : boot_env) (r : db) (tls_port : Z) (polls : list bool)
    : option (Z * bool * list bool * list res_event) :=
  let '(tport, cert, key) := load_tls_settings (be_env e) r tls_port in
  if tport <=? 0 then Some (-1, false, polls, []) else
  if (length cert =? 0)%nat || (length key =? 0)%nat then Some (-1, false, polls, []) else
  if negb (be_conf e) then Some (-1, false, polls, []) else
  conf ← ntc_tls_conf_new alloc skey (be_files e cert) (be_files e key);
  match conf with
  | None => Some (-1, false, polls, [])
  | Some _ =>
      let '(fd, t) := make_tls_socket (be_tls e) in
      if fd <? 0 then Some (-1, false, polls, Got RTlsConf :: t ++ [Freed RTlsConf]) else
      Some (if default true (head polls) then (fd, true, tail polls, Got RTlsConf :: t)
            else (-1, false, tail polls, Got RTlsConf :: t ++ [Freed RTls; Freed RTlsConf]))
  end.

(** server.c:2414-2417 [ntc_server_run, first controllers] *)
Definition spawn_all (services : list service) : St (gateway tls * app db) unit :=
  for_each (seq 0 (length services)) (fun i =>
    let* svc := lift (get_service i) in
    for_each (seq 0 (Z.to_nat (svc_n svc))) (fun s => let* _ := spawn_service i s in ret tt)).

(** The gateway before its first controllers: nothing in flight, nobody connected. *)
Definition first_gateway (e : boot_env) (services : list service) (a : app db) (polls : list bool) : gateway tls :=
  Gateway gw_slots_init ∅ ∅ services (Metrics (be_now e) 0 0 0 0 0 0)
    ((fun m => cf_access_log (w_cfg m)) <$> a_mw a) ∅ [] ∅ ∅ (be_now e) [] [] [] polls.

(** server.c:2357-2417 [ntc_server_run, sockets and services]. With the listener there. *)
Definition open_doors (e : boot_env) (admin_port tls_port : Z) (a : app db) (polls : list bool)
    : option (started tls db * list res_event) :=
  let '(control, polls, t1) := open_control e polls in
  let '(admin, polls, t2) := open_admin e admin_port polls in
  '(tfd, tconf, polls, t3) ← open_tls e (a_reg a) tls_port polls;
  '(_, services, router, r) ← load_registry (be_env e) (a_reg a) (be_routes e) (a_router a);
  let a := a <| a_router := router |> <| a_reg := r |> in
  '(_, (g, a)) ← spawn_all services (first_gateway e services a polls, a);
  Some (Started tls db g a control admin tfd tconf, t1 ++ t2 ++ t3).

(** server.c:2148-2417 [ntc_server_run, set-up]. The trace, and the error or the gateway the loop
    begins with. *)
Definition server_setup (e : boot_env) (admin_port tls_port : Z) : option (list res_event * (ntc_err + started tls db)) :=
  match ntc_router_create (be_router e) with
  | (_, None) => Some ([], inl NTC_ERR_OOM)
  | (_, Some router) =>
      '(err, router) ← ntc_builtin_register (be_builtin e) None router;
      if bool_decide (err <> NTC_OK) then Some ([Got RRouter; Freed RRouter], inl NTC_ERR_INTERNAL) else
      match ntc_registry_open (be_registry e) (db_path (be_env e)) with
      | (_, None) => Some ([Got RRouter; Freed RRouter], inl NTC_ERR_IO)
      | (_, Some r) =>
          let t := [Got RRouter; Got RRegistry] in
          if negb (be_services e) then Some (t ++ [Freed RRegistry; Freed RRouter], inl NTC_ERR_OOM) else
          a ← configure e router r;
          let t := t ++ Got RServices :: (Got <$> app_resources a) in
          let '(ok, polls, tl) := open_listener e in
          if negb ok then Some (t ++ tl ++ fail_pre_poll a, inl NTC_ERR_IO) else
          '(s, td) ← open_doors e admin_port tls_port a polls;
          Some (t ++ tl ++ td, inr s)
      end
  end.

(** server.c:2480-2491 [ntc_server_run, stopping controllers]. Each is sent SIGTERM, waited for
    and freed. *)
Definition live_ctrls (services : list service) : list ctrl_ptr := mjoin ((fun svc => omap id (s_conns svc)) <$> services).
Definition stop_ctrls (services : list service) : list res_event := (fun k => Freed (RChild k)) <$> live_ctrls services.

(** server.c:2479-2504 [ntc_server_run, tear-down]. The clients that are still connected end with
    the process. *)
Definition server_teardown (s : started tls db) : list res_event :=
  stop_ctrls (g_services (st_gw s)) ++ [Freed RServices; Freed RPoller; Freed RListen] ++
  free_opt (0 <=? st_admin s) RAdmin ++ free_opt (0 <=? st_tls s) RTls ++ free_opt (st_conf s) RTlsConf ++
  free_opt (0 <=? st_control s) RControl ++ free_opt (0 <=? st_control s) RControlPath ++ free_config (st_app s).
End boot.
