(* ===== verification/SetupProps.v ===== *)
(** * The set-up establishes the invariant, and everything is released

    The gateway the loop begins with is well formed, whatever the registry, the environment
    and the files say; and a set-up that fails releases what it acquired, as the tear-down
    does. *)
From S2P Require Import Prelude Posix Update Err Slice Double Json Schema Crypto Jwt Http HttpRequest Middleware Session Wire Ws.
From S2P Require Import Inflight Gzip HttpsClient Pem ServerState ServerConn ServerRelay ServerInv ServerSafe ServerRelaySafe ServerEvents.
From S2P Require Import ServerForward ServerCtrlSafe ServerProps Keeps Router Builtin Registry App Services Control Oauth Admin Dispatch.
From S2P Require Import DispatchTotal DispatchSafe RequestSafe RequestProps Events EventsSafe LoopSafe Liveness ControlClient Setup.
Open Scope Z_scope.

(** ** The parts *)
Section parts.
Context {db : Type} `{SQ : Sqlite db}.
Variable env : environ.

(** Routes of a gateway with so many services: one that forwards has its service. *)
Definition routes_ok (n : nat) (r : ntc_router ntc_handler (option nat)) : Prop :=
  Forall (fun rt => rt_handler rt = HForward -> exists i, rt_udata rt = Some i /\ (i < n)%nat) (routes r).

Lemma register_all_ok mem rs : Forall (fun x => snd x <> HForward) rs -> forall r,
  router_wf r -> routes_ok 0 r ->
  exists e r', register_all mem None rs r = Some (e, r') /\ router_wf r' /\ routes_ok 0 r'.
Proof.
  intros Hrs. revert mem. induction Hrs as [|[[m p] h] rs Hh _ IH]; intros mem r Hw Hr; cbn [register_all].
  { by exists NTC_OK, r. }
  destruct (default (true, true) (head mem)) as [a b].
  destruct (router_add_spec a b r m p (Some h) None Hw) as (e & r' & -> & Hw' & He). bind.
  assert (routes_ok 0 r') as Hr'.
  { unfold routes_ok in *. destruct e; try done.
    - destruct He as (h' & segs & [= <-] & _ & ->). apply Forall_app_2; [done|]. constructor; [|constructor]. cbn. by intros ->.
    - by destruct He as [-> _].
    - by destruct He as [-> _]. }
  case_bool_decide; [by apply IH|by exists e, r'].
Qed.

Lemma find_service_lt services name i : find_service services name = Some i -> (i < length services)%nat.
Proof.
  revert i. induction services as [|svc services IH]; intros i; cbn [find_service]; [done|].
  destruct (memeq _ _); [intros [= <-]; cbn; lia|]. destruct (find_service services name) as [j|]; [|done].
  cbn. intros [= <-]. specialize (IH j eq_refl). lia.
Qed.

Lemma load_routes_ok services rows : forall mem r, router_wf r -> routes_ok (length services) r ->
  exists r', load_routes services mem rows r = Some r' /\ router_wf r' /\ routes_ok (length services) r'.
Proof.
  induction rows as [|row rows IH]; intros mem r Hw Hr; cbn [load_routes]; [by exists r|].
  destruct (find_service services (rr_service row)) as [i|] eqn:Ei; [|by apply IH]. apply find_service_lt in Ei.
  destruct (default (true, true) (head mem)) as [a b].
  destruct (router_add_spec a b r (rr_method row) (rr_pattern row) (Some forward_marker) (Some i) Hw) as (e & r' & -> & Hw' & He).
  bind. apply IH; [done|]. unfold routes_ok in *. destruct e; try done.
  - destruct He as (h' & segs & _ & _ & ->). apply Forall_app_2; [done|]. constructor; [|constructor]. cbn. intros _. by exists i.
  - by destruct He as [-> _].
  - by destruct He as [-> _].
Qed.

Lemma routes_ok_more n m r : (n <= m)%nat -> routes_ok n r -> routes_ok m r.
Proof.
  intros Hn H. eapply Forall_impl; [exact H|]. intros rt Hrt E. destruct (Hrt E) as (i & ? & ?). exists i. split; [done|lia].
Qed.

Lemma replicas_range r name : 1 <= replicas_of env r name <= Z.of_nat NTC_MAX_REPLICAS.
Proof.
  assert (Z.of_nat NTC_MAX_REPLICAS = 8) as HR by reflexivity. unfold replicas_of. rewrite HR.
  assert (forall n old, 1 <= old <= 8 -> 1 <= (if (1 <=? n) && (n <=? 8) then n else old) <= 8) as Hw.
  { intros n old Ho. destruct (Z.leb_spec 1 n), (Z.leb_spec n 8); cbn; lia. }
  destruct (env (bs "NTC_REPLICAS")); [apply Hw|]; destruct (conf r _ 16); try (by apply Hw); lia.
Qed.

Lemma load_service_ok r row : service_ok (load_service env r row).
Proof.
  assert (Z.of_nat NTC_MAX_REPLICAS = 8) as HR by reflexivity.
  split; cbn [load_service s_conns s_restart_at s_spawned_at s_backoff_ms s_replicas s_rr]; try done.
  - apply replicas_range.
  - apply Forall_replicate. by left.
  - intros s s' k Hs. exfalso. apply lookup_replicate in Hs as [[=] _].
Qed.

Lemma load_service_empty r row s k : s_conns (load_service env r row) !! s <> Some (Some k).
Proof. cbn [load_service s_conns]. intros H. apply lookup_replicate in H as [[=] _]. Qed.

(** What loading the registry gives. *)
Lemma load_registry_ok r mem rt : router_wf rt -> routes_ok 0 rt ->
  exists e services rt' r', load_registry env r mem rt = Some (e, services, rt', r') /\
    router_wf rt' /\ routes_ok (length services) rt' /\ Forall service_ok services /\
    forall i svc s k, services !! i = Some svc -> s_conns svc !! s <> Some (Some k).
Proof.
  intros Hw Hr. unfold load_registry. destruct (registry_services env r) as [[e rows] r1].
  case_bool_decide. { exists e, [], rt, r1. by split_and!. }
  destruct (length rows =? 0)%nat. { exists NTC_OK, [], rt, r1. by split_and!. }
  set (services := load_service env r1 <$> take NTC_MAX_SERVICES rows).
  assert (Forall service_ok services) as Hs.
  { unfold services. apply Forall_fmap, Forall_true. intros row. apply load_service_ok. }
  assert (forall i svc s k, services !! i = Some svc -> s_conns svc !! s <> Some (Some k)) as He.
  { intros i svc s k Hsvc. unfold services in Hsvc. apply list_lookup_fmap_Some in Hsvc as (row & -> & _). apply load_service_empty. }
  assert (routes_ok (length services) rt) as Hr' by (eapply routes_ok_more; [|exact Hr]; lia). clearbody services.
  destruct (ntc_registry_list_routes r1 256) as [e2 rts]. case_bool_decide. { by exists e2, services, rt, r1. }
  destruct (load_routes_ok services rts mem rt Hw Hr') as (rt' & -> & Hw' & Hr''). bind. by exists NTC_OK, services, rt', r1.
Qed.

(** The texts of the registry and the environment are bytes. *)
Definition bytes_env : Prop := forall name v, env name = Some v -> bytes_ok v.
Definition bytes_db : Prop := forall (r : db) key cap v, conf r key cap = Some v -> bytes_ok v.

Lemma setting_ok r key name cap : bytes_env -> bytes_db -> (0 < cap)%nat ->
  (length (setting env r key name cap []) < cap)%nat /\ bytes_ok (setting env r key name cap []).
Proof.
  intros He Hd Hc. unfold setting.
  assert (forall v, (length (snprintf cap v) < cap)%nat) as Hl by (intros v; unfold snprintf; rewrite length_take; lia).
  assert (forall v, bytes_ok v -> bytes_ok (snprintf cap v)) as Hb by (intros v Hv; by apply Forall_take).
  destruct (env name) as [e|] eqn:Ee; [split; [done|]; apply Hb, (He _ _ Ee)|].
  destruct (conf r key 256) as [v|] eqn:Ev; [split; [done|]; apply Hb, (Hd _ _ _ _ Ev)|]. split; [cbn; lia|constructor].
Qed.
End parts.

(** ** The configuration *)
Section boots.
Context {tls : Type} {TE : TlsEngine tls} {TL : TlsLaws tls} {SE : SigEngine} {SO : SigEngineOk}.
Context {db : Type} `{SQ : Sqlite db}.
Context {P : Type} {PD : PemDecoder P} {PL : PemLaws P} (alloc : Z -> bool) (anchor_size : Z).
Context (x509 : bytes -> x509_answer) (skey : list bytes -> skey_answer).
Hypothesis x509_bounded : forall der, Z.of_nat (length (concat (x5_dn (x509 der)))) <= 2 ^ 60.
Local Abbreviation load_ca := (load_ca alloc anchor_size x509).
Local Abbreviation load_mw := (load_mw alloc anchor_size x509).
Local Abbreviation load_login := (load_login alloc anchor_size x509).
Local Abbreviation configure := (configure alloc anchor_size x509).
Implicit Types (e : boot_env) (a : app db).

Lemma load_ca_total e path : exists b, load_ca e path = Some b.
Proof.
  unfold Setup.load_ca, ntc_ca_default.
  assert (forall p, exists r, ntc_ca_load_pem alloc anchor_size x509 (be_files e) (be_ca e) p = Some r) as H.
  { intros p. destruct (ca_load_pem_total alloc anchor_size x509 (be_files e) (be_ca e) p x509_bounded) as (r & E & _). by exists r. }
  destruct path as [|x p]; [destruct (be_env e (bs "NTC_CA_BUNDLE")) as [[|c q]|]|].
  all: match goal with |- context [ntc_ca_load_pem _ _ _ _ _ ?p] => destruct (H p) as (r & ->) end; bind; by eexists.
Qed.

Lemma load_mw_ok e (r : db) : bytes_env (be_env e) -> bytes_db ->
  exists o, load_mw e r = Some o /\ forall m, o = Some m -> mw_ok m.
Proof.
  intros He Hd. unfold Setup.load_mw. destruct (be_mw e); cbn [negb]; [|by exists None]. set (cfg := load_mw_config (be_env e) r).
  assert ((length (cf_cors_origin cfg) < 128)%nat) as Hc by (apply setting_ok; [done|done|lia]).
  assert (bytes_ok (cf_auth_secret cfg)) as Hs by (apply setting_ok; [done|done|lia]). clearbody cfg.
  assert (exists ca, (if negb (length (cf_auth_jwks_url cfg) =? 0)%nat then load_ca e (cf_auth_jwks_ca cfg) else Some false) = Some ca)
    as (ca & ->) by (destruct (negb _); [apply load_ca_total|by eexists]). bind.
  set (file := be_files e (cf_auth_jwks_file cfg)). clearbody file.
  assert (exists m, ntc_mw_new (be_mw_env e) file ca cfg = Some m /\ w_cfg m = cfg /\ length (w_buckets m) = Z.to_nat NTC_RL_BUCKETS)
    as (m & -> & Hm & Hb).
  { unfold ntc_mw_new. set (m := Mw cfg [] false 0 (replicate (Z.to_nat NTC_RL_BUCKETS) (Bucket d_zero 0))).
    assert (length (w_buckets m) = Z.to_nat NTC_RL_BUCKETS) as Hb by apply length_replicate.
    destruct (negb (length (cf_auth_jwks_file cfg) =? 0)%nat).
    { destruct (slurp_file file 16384) as [[|x doc]|]; [by exists m| |by exists m].
      destruct (ntc_jwks_parse_some (e_jwks (be_mw_env e)) (x :: doc)) as [keys ->]. bind. by eexists. }
    destruct (negb (length (cf_auth_jwks_url cfg) =? 0)%nat); [|by exists m].
    destruct (mw_fetch_some (be_mw_env e) (m <| w_jwks_ca := ca |>)) as (b & m' & -> & E1 & E2). bind.
    exists m'. split; [done|]. rewrite E1, E2. done. }
  bind. eexists. split; [done|]. intros m' [= <-]. split; [done|by rewrite Hm|by rewrite Hm].
Qed.

Lemma load_login_ok e (r : db) : exists enabled o sessions pending,
  load_login e r = Some (enabled, o, sessions, pending) /\ (enabled = true -> is_Some sessions /\ is_Some pending).
Proof.
  unfold Setup.load_login. destruct (_ || _); [by do 4 eexists|]. destruct (load_ca_total e (ca_path (be_env e) r)) as (ca & ->). bind.
  do 4 eexists. split; [done|]. intros [H1%bool_decide_eq_true H2%bool_decide_eq_true]%andb_true_iff. done.
Qed.

Lemma shaped_members n ms : shaped (S n) (JObj ms) -> Forall (fun m => shaped (S n) (snd m)) ms.
Proof. intros [_ H]. eapply Forall_impl; [exact H|]. intros m. apply shaped_S. Qed.

Lemma load_schemas_ok env (r : db) files got arena m :
  exists o, load_schemas env r files got arena m = Some o /\
    forall v, o = Some v -> exists ms, v = JObj ms /\ Forall (fun m => shaped 32 (snd m)) ms.
Proof.
  unfold load_schemas. destruct (length _ =? 0)%nat; [by exists None|]. destruct (files _) as [buf|]; [|by exists None].
  destruct (negb _); [by exists None|]. destruct (json_parse_shaped m buf) as (o & -> & Ho). bind.
  destruct o as [[| | | | |ms]|]; try by exists None. eexists. split; [done|]. intros v [= <-]. exists ms. split; [done|].
  exact (shaped_members 31 ms (Ho _ eq_refl)).
Qed.

(** What is asked of the answers: texts are bytes, and the schemas' messages fit. *)
Record answers_ok (e : boot_env) : Prop := AnswersOk {
  bo_env : bytes_env (be_env e); bo_db : bytes_db (db := db);
  bo_schemas (r : db) ms : load_schemas (be_env e) r (be_files e) (fst (be_schema e)) (snd (be_schema e)) (be_json e) = Some (Some (JObj ms)) ->
    Forall (fun m => quiet (snd m)) ms;
  bo_spawns : NoDup (spawn_ptrs (be_spawns e)) }.

Record configured (e : boot_env) (a : app db) : Prop := Configured {
  cd_mw : forall m, a_mw a = Some m -> mw_ok m;
  cd_oauth : a_oauth_enabled a = true -> is_Some (a_sessions a) /\ is_Some (a_pending a);
  cd_schemas : forall ms, a_schemas a = Some (JObj ms) -> Forall (fun m => shaped 32 (snd m) /\ quiet (snd m)) ms;
  cd_name : (length (a_app_name a) <= 127)%nat;
  cd_spawns : a_spawns a = be_spawns e }.

Lemma configure_ok e router (r : db) : answers_ok e ->
  exists a, configure e router r = Some a /\ a_router a = router /\ configured e a.
Proof.
  intros [He Hd Hq _]. unfold Setup.configure. destruct (load_token (be_env e) r (be_urandom e)) as [[token r1] w].
  destruct (load_mw_ok e r1 He Hd) as (mw & -> & Hmw). bind.
  destruct (load_login_ok e r1) as (en & o & ss & pe & -> & Ho). bind.
  destruct (load_schemas_ok (be_env e) r1 (be_files e) (fst (be_schema e)) (snd (be_schema e)) (be_json e)) as (sch & Es & Hs).
  rewrite Es. bind. eexists. split; [reflexivity|]. split; [reflexivity|].
  split; cbn [a_mw a_oauth_enabled a_sessions a_pending a_schemas a_app_name a_spawns]; [exact Hmw|exact Ho| | |reflexivity].
  - intros ms ->. destruct (Hs _ eq_refl) as (ms' & [= <-] & Hsh). specialize (Hq _ _ Es).
    clear -Hsh Hq. rewrite list.Forall_forall in Hsh, Hq |- *. intros m Hm. split; [by apply Hsh|by apply Hq].
  - unfold load_app_name. destruct (conf r1 _ 128); unfold snprintf; rewrite length_take; lia.
Qed.

(** ** The first gateway *)

Lemma first_gateway_wf e services a polls :
  Forall service_ok services -> (forall i svc s k, services !! i = Some svc -> s_conns svc !! s <> Some (Some k)) ->
  gw_wf (first_gateway e services a polls : gateway tls).
Proof.
  intros Hs He. split; cbn [first_gateway g_slots g_conns g_ctrls g_services g_recvs].
  - apply slots_init_wf.
  - intros s p. split.
    + change (pending gw_slots_init) with (replicate NTC_MAX_INFLIGHT (@None conn_ptr)). rewrite lookup_replicate. intros [[=] _].
    + intros (c & Hc & _). by rewrite lookup_empty in Hc.
  - apply map_Forall_empty.
  - apply map_Forall_empty.
  - apply map_Forall_empty.
  - exact Hs.
  - intros i svc s k Hi Hk. by destruct (He i svc s k Hi).
  - intros k ct i Hk. by rewrite lookup_empty in Hk.
  - constructor.
Qed.

Lemma open_tls_total e (r : db) tls_port polls : exists fd conf polls' t, open_tls alloc skey e r tls_port polls = Some (fd, conf, polls', t).
Proof.
  unfold open_tls. destruct (load_tls_settings (be_env e) r tls_port) as [[tport cert] key].
  destruct (tport <=? 0); [by do 4 eexists|]. destruct (_ || _); [by do 4 eexists|]. destruct (negb (be_conf e)); [by do 4 eexists|].
  destruct (tls_conf_new_total alloc skey (be_files e cert) (be_files e key)) as (o & -> & _). bind.
  destruct o; [|by do 4 eexists]. destruct (make_tls_socket (be_tls e)) as [fd t].
  destruct (fd <? 0); [by do 4 eexists|]. destruct (default true (head polls)); by do 4 eexists.
Qed.


Lemma install_app i slot k fd pid (g : gateway tls) a r g' a' :
  lift (install_ctrl i slot k fd pid) (g, a) = Some (r, (g', a')) -> a' = a.
Proof. unfold lift. destruct (install_ctrl i slot k fd pid g) as [[x g1]|]; [|done]. by intros [= _ _ <-]. Qed.

(** Spawning uses up an answer and changes nothing else of the application. *)
Lemma spawn_app i slot (w : gateway tls * app db) r w' :
  spawn_service i slot w = Some (r, w') -> app_resources (snd w') = app_resources (snd w).
Proof.
  destruct w as [g a]. unfold spawn_service, bnd at 1, get_app, gets. cbn. destruct (a_spawns a) as [|sp sps].
  { by intros [= <- <-]. }
  unfold bnd at 1, set_app, modify. cbn. destruct (sp_made sp); cbn; [|by intros [= <- <-]].
  unfold bnd, load. destruct (handshake sp) as [[]|]; cbn; [|by intros [= <- <-]|done].
  destruct (sp_calloc sp) as [k|]; [|by intros [= <- <-]]. destruct w' as [g' a']. intros E%install_app. by rewrite E.
Qed.

Lemma spawn_all_keeps n services (w : gateway tls * app db) : loop_ok n w -> length services = n ->
  wp (spawn_all services) (fun _ w' => loop_ok n w' /\ app_resources (snd w') = app_resources (snd w)) w.
Proof.
  intros J Hn. unfold spawn_all. set (I (w' : gateway tls * app db) := loop_ok n w' /\ app_resources (snd w') = app_resources (snd w)).
  apply (wp_for_each I); [done|]. rewrite Hn. clear J.
  intros i [g1 a1] Hi%elem_of_seq [J1 E1]. destruct (loop_service _ _ i J1) as (svc & Hsvc & Hok); [lia|].
  apply wp_bnd, (wp_lift_service i svc); [done|]. apply (wp_for_each I); [done|].
  intros s w2 Hs%elem_of_seq [J2 E2]. pose proof (svc_n_range svc Hok). apply wp_bnd.
  eapply wp_mono; [apply (wp_also _ (fun _ w' => loop_ok n w') (fun _ w' => app_resources (snd w') = app_resources (snd w2)))|].
  - eapply loop_spawn; [exact J2|lia|change NTC_MAX_REPLICAS with 8%nat; lia|done].
  - intros r w3 E _. by eapply spawn_app.
  - intros r w3 [J3 E3]. apply wp_ret. split; [done|]. by rewrite E3.
Qed.

(** The doors and the services: the world is well formed when the loop begins. *)
Lemma open_doors_ok e ap tp a polls : answers_ok e -> configured e a -> router_wf (a_router a) -> routes_ok 0 (a_router a) ->
  exists control polls1 t1 admin polls2 t2 tfd conf polls3 t3 (s : started tls db),
    open_control e polls = (control, polls1, t1) /\ open_admin e ap polls1 = (admin, polls2, t2) /\
    open_tls alloc skey e (a_reg a) tp polls2 = Some (tfd, conf, polls3, t3) /\
    open_doors alloc skey e ap tp a polls = Some (s, t1 ++ t2 ++ t3) /\
    world_ok (st_gw s, st_app s) /\ app_resources (st_app s) = app_resources a /\
    st_control s = control /\ st_admin s = admin /\ st_tls s = tfd /\ st_conf s = conf.
Proof.
  intros [_ _ _ Hnd] [Hmw Ho Hsch Hname Hsp] Hw Hr. unfold open_doors.
  destruct (open_control e polls) as [[control polls1] t1] eqn:Eo. destruct (open_admin e ap polls1) as [[admin polls2] t2] eqn:Ea.
  destruct (open_tls_total e (a_reg a) tp polls2) as (tfd & conf & polls3 & t3 & Et). rewrite Et. bind.
  destruct (load_registry_ok (be_env e) (a_reg a) (be_routes e) (a_router a) Hw Hr) as (err & services & rt & r & -> & Hrw & Hrr & Hsv & Hem).
  bind. set (a1 := a <| a_router := rt |> <| a_reg := r |>). set (g1 := first_gateway e services a1 polls3).
  assert (loop_ok (length services) (g1, a1)) as J.
  { split; [split| |done]; cbn [fst snd].
    - by apply first_gateway_wf.
    - split; [exact Hrw|exact Hrr|exact Hmw|exact Ho|exact Hsch|exact Hname|]. cbn. rewrite Z.sub_diag. vm_compute. split; [discriminate|reflexivity].
    - split; [unfold a1; cbn; by rewrite Hsp|]. apply Forall_true. intros k. apply lookup_empty. }
  destruct (spawn_all_keeps _ services _ J eq_refl) as ([] & [g a'] & Es & J' & Er). rewrite Es. bind.
  eexists control, polls1, t1, admin, polls2, t2, tfd, conf, polls3, t3, _. do 3 (split; [reflexivity || assumption|]).
  split; [reflexivity|]. split; [exact (lo_world _ _ J')|]. split; [exact Er|done].
Qed.
End boots.

(** ** Acquiring and releasing *)

#[export] Instance resource_eq_dec : EqDecision resource.
Proof. solve_decision. Defined.

(** The resources held after a trace, from those held before: nothing is acquired twice, and
    nothing released that is not held. *)
Fixpoint settle (held : list resource) (log : list res_event) : option (list resource) :=
  match log with
  | [] => Some held
  | Got r :: log => if decide (r ∈ held) then None else settle (r :: held) log
  | Freed r :: log => if decide (r ∈ held) then settle (filter (fun x => x <> r) held) log else None
  end.

(** From [h], a trace is in order and leaves the resources [P]. *)
Definition settles (h : list resource) (log : list res_event) (P : resource -> Prop) : Prop :=
  exists h', settle h log = Some h' /\ forall x, x ∈ h' <-> P x.

Lemma settles_app h l1 l2 P Q :
  settles h l1 P -> (forall h', (forall x, x ∈ h' <-> P x) -> settles h' l2 Q) -> settles h (l1 ++ l2) Q.
Proof.
  intros (h1 & E & H1) H2. destruct (H2 h1 H1) as (h2 & E2 & HQ). exists h2. split; [|done]. rewrite <- E2. clear -E.
  revert h E. induction l1 as [|[r|r] l1 IH]; intros h; simpl; [by intros [= ->]| |]; case_decide; by auto.
Qed.

Lemma settles_mono h l P Q : settles h l P -> (forall x, P x <-> Q x) -> settles h l Q.
Proof. intros (h' & E & H) HPQ. exists h'. split; [done|]. intros x. by rewrite H. Qed.

Lemma settles_got rs : NoDup rs -> forall h, (forall r, r ∈ rs -> r ∉ h) -> settles h (Got <$> rs) (fun x => x ∈ h \/ x ∈ rs).
Proof.
  induction 1 as [|r rs Hr _ IH]; intros h Hd.
  - exists h. split; [done|]. intros x. split; [by left|]. intros [?|H]; [done|by apply elem_of_nil in H].
  - destruct (IH (r :: h)) as (h' & E & H).
    { intros x Hx Hin. apply elem_of_cons in Hin as [->|Hin]; [done|]. apply (Hd x); [by right|done]. }
    exists h'. split. { simpl. rewrite decide_False; [done|]. apply Hd. by left. }
    intros x. rewrite H, !elem_of_cons. tauto.
Qed.

Lemma settles_freed rs : NoDup rs -> forall h, (forall r, r ∈ rs -> r ∈ h) ->
  settles h (Freed <$> rs) (fun x => x ∈ h /\ (x ∉ rs)).
Proof.
  induction 1 as [|r rs Hr _ IH]; intros h Hd.
  - exists h. split; [done|]. intros x. split; [|by intros []]. intros ?. split; [done|]. by intros ?%elem_of_nil.
  - destruct (IH (filter (fun x => x <> r) h)) as (h' & E & H).
    { intros x Hx. apply list_elem_of_filter. split; [by intros ->|]. apply Hd. by right. }
    exists h'. split. { simpl. rewrite decide_True; [done|]. apply Hd. by left. }
    intros x. rewrite H, list_elem_of_filter, elem_of_cons. tauto.
Qed.

Definition ev_res (ev : res_event) : resource := match ev with Got r | Freed r => r end.

(** A part of the trace among other resources. *)
Lemma settles_frame l : forall (k0 k h0 h : list resource), settle k0 l = Some k -> (forall x, x ∈ h <-> x ∈ k0 \/ x ∈ h0) ->
  Forall (fun ev => ev_res ev ∉ h0) l -> settles h l (fun x => x ∈ k \/ x ∈ h0).
Proof.
  induction l as [|[r|r] l IH]; intros k0 k h0 h E H Hd; simpl in E; [|apply Forall_cons_1 in Hd as [Hr Hd]; cbn in Hr..].
  - injection E as ->. by exists h.
  - destruct (decide (r ∈ k0)) as [|Hk]; [done|]. destruct (IH (r :: k0) k h0 (r :: h) E) as (h' & E' & H'); [|done|].
    + intros x. rewrite !elem_of_cons, H. tauto.
    + exists h'. split; [|done]. simpl. rewrite decide_False; [done|]. rewrite H. tauto.
  - destruct (decide (r ∈ k0)) as [Hk|]; [|done].
    destruct (IH (filter (fun x => x <> r) k0) k h0 (filter (fun x => x <> r) h) E) as (h' & E' & H'); [|done|].
    + intros x. rewrite !list_elem_of_filter, H. split; [tauto|]. intros [?|Hx]; [tauto|]. split; [|tauto]. by intros ->.
    + exists h'. split; [|done]. simpl. rewrite decide_True; [done|]. rewrite H. by left.
Qed.

(** ** No controller is freed twice *)

Lemma NoDup_omap_id {A} (l : list (option A)) :
  (forall i j x, l !! i = Some (Some x) -> l !! j = Some (Some x) -> i = j) -> NoDup (omap id l).
Proof.
  induction l as [|[x|] l IH]; intros H; cbn; [constructor| |].
  - constructor.
    + intros (o & Ho & Hid)%list_elem_of_omap. cbn in Hid. subst o. apply list_elem_of_lookup in Ho as (j & Hj).
      by specialize (H 0%nat (S j) x eq_refl Hj).
    + apply IH. intros i j y Hi Hj. by injection (H (S i) (S j) y Hi Hj).
  - apply IH. intros i j y Hi Hj. by injection (H (S i) (S j) y Hi Hj).
Qed.

Lemma NoDup_mjoin {A} (ll : list (list A)) : Forall NoDup ll ->
  (forall i j x li lj, ll !! i = Some li -> ll !! j = Some lj -> x ∈ li -> x ∈ lj -> i = j) -> NoDup (mjoin ll).
Proof.
  induction 1 as [|l ll Hl _ IH]; intros H; cbn; [constructor|]. apply NoDup_app. split_and!; [done| |].
  - intros x Hx (l' & Hx' & Hl')%list_elem_of_join. apply list_elem_of_lookup in Hl' as (j & Hj).
    by specialize (H 0%nat (S j) x l l' eq_refl Hj Hx Hx').
  - apply IH. intros i j x li lj Hi Hj Hx Hx'. by injection (H (S i) (S j) x li lj Hi Hj Hx Hx').
Qed.

Lemma live_ctrls_nodup {tls} {TE : TlsEngine tls} (g : gateway tls) : gw_wf g -> NoDup (live_ctrls (g_services g)).
Proof.
  intros W. apply NoDup_mjoin.
  - apply Forall_fmap. eapply Forall_impl; [exact (wf_services _ W)|]. intros svc Hok. apply NoDup_omap_id.
    intros i j k. apply (ok_unique _ Hok).
  - intros i j k li lj Hi Hj Hki Hkj. apply list_lookup_fmap_Some in Hi as (si & -> & Hi), Hj as (sj & -> & Hj).
    apply list_elem_of_omap in Hki as (oi & Hki & Ei), Hkj as (oj & Hkj & Ej). cbn in Ei, Ej. subst oi oj.
    apply list_elem_of_lookup in Hki as (s1 & Hki), Hkj as (s2 & Hkj).
    destruct (wf_replicas _ W i si s1 k Hi Hki) as (c1 & Hc1 & E1), (wf_replicas _ W j sj s2 k Hj Hkj) as (c2 & Hc2 & E2).
    congruence.
Qed.

(** ** The doors *)

Ltac each_event := repeat (apply list.Forall_cons; split; [cbn; by auto|]); apply list.Forall_nil; exact I.

Definition when (b : bool) (rs : list resource) : list resource := if b then rs else [].

(** The name of a control socket that is bound but not listened on stays behind. *)
Definition leftover (e : boot_env) : list resource :=
  let s := be_control e in when ((0 <=? sk_fd s) && sk_bind s && negb (sk_listen s && sk_nonblock s)) [RControlPath].

Lemma open_control_settles e polls fd polls' t : open_control e polls = (fd, polls', t) ->
  exists k, settle [] t = Some k /\ (forall x, x ∈ k <-> x ∈ when (0 <=? fd) [RControl; RControlPath] ++ leftover e) /\
  Forall (fun ev => ev_res ev = RControl \/ ev_res ev = RControlPath) t /\ (0 <= fd -> leftover e = []).
Proof.
  unfold open_control, make_control_socket, leftover.
  destruct (Z.ltb_spec (sk_fd (be_control e)) 0) as [H|H].
  { intros [= <- <- <-]. rewrite (proj2 (Z.leb_gt 0 (sk_fd (be_control e)))) by lia. exists [].
    split_and!; [done|done|constructor|lia]. }
  rewrite (proj2 (Z.leb_le 0 (sk_fd (be_control e)))) by lia.
  destruct (sk_bind _), (sk_listen _), (sk_nonblock _); cbn [negb orb andb when].
  2-8: change (-1 <? 0) with true; cbn match; intros [= <- <- <-]; eexists; (split; [reflexivity|]);
    (split; [intros x; reflexivity|]); (split; [each_event|lia]).
  rewrite (proj2 (Z.ltb_ge _ _) H). destruct (default true (head polls)); intros [= <- <- <-].
  - rewrite (proj2 (Z.leb_le _ _)) by lia. eexists. split; [reflexivity|]. split; [intros x; cbn; rewrite !elem_of_cons; tauto|].
    split; [each_event|done].
  - eexists. split; [reflexivity|]. split; [intros x; reflexivity|]. split; [each_event|lia].
Qed.

Lemma open_admin_settles e ap polls fd polls' t : open_admin e ap polls = (fd, polls', t) ->
  exists k, settle [] t = Some k /\ (forall x, x ∈ k <-> x ∈ when (0 <=? fd) [RAdmin]) /\ Forall (fun ev => ev_res ev = RAdmin) t.
Proof.
  unfold open_admin, make_admin_socket. destruct (ap <=? 0).
  { intros [= <- <- <-]. exists []. split_and!; [done|done|constructor]. }
  destruct (Z.ltb_spec (sk_fd (be_admin e)) 0) as [H|H].
  { intros [= <- <- <-]. exists []. split_and!; [done|done|constructor]. }
  destruct (_ || _).
  { intros [= <- <- <-]. exists []. split_and!; [done|done|]. each_event. }
  rewrite (proj2 (Z.ltb_ge _ _) H). destruct (default true (head polls)); intros [= <- <- <-].
  - rewrite (proj2 (Z.leb_le _ _) H). exists [RAdmin]. split_and!; [done|done|]. each_event.
  - exists []. split_and!; [done|done|]. each_event.
Qed.

Lemma open_tls_settles {db} `{SQ : Sqlite db} {P : Type} {PD : PemDecoder P} alloc skey e (r : db) tp polls fd conf polls' t :
  open_tls alloc skey e r tp polls = Some (fd, conf, polls', t) ->
  exists k, settle [] t = Some k /\ (forall x, x ∈ k <-> x ∈ when (0 <=? fd) [RTls] ++ when conf [RTlsConf]) /\
  Forall (fun ev => ev_res ev = RTls \/ ev_res ev = RTlsConf) t.
Proof.
  unfold open_tls, make_tls_socket. destruct (load_tls_settings (be_env e) r tp) as [[tport cert] key].
  destruct (tport <=? 0).
  { intros [= <- <- <- <-]. exists []. split_and!; [done|done|constructor]. }
  destruct (_ || _).
  { intros [= <- <- <- <-]. exists []. split_and!; [done|done|constructor]. }
  destruct (negb (be_conf e)).
  { intros [= <- <- <- <-]. exists []. split_and!; [done|done|constructor]. }
  destruct (ntc_tls_conf_new alloc skey _ _) as [[x|]|]; cbn [mbind option_bind]; [| |done].
  2: { intros [= <- <- <- <-]. exists []. split_and!; [done|done|constructor]. }
  destruct (Z.ltb_spec (sk_fd (be_tls e)) 0) as [H|H].
  { intros [= <- <- <- <-]. exists []. split_and!; [done|done|]. each_event. }
  destruct (_ || _).
  { intros [= <- <- <- <-]. exists []. split_and!; [done|done|]. each_event. }
  rewrite (proj2 (Z.ltb_ge _ _) H). destruct (default true (head polls)); intros [= <- <- <- <-].
  - rewrite (proj2 (Z.leb_le _ _) H). eexists. split_and!; [reflexivity|done|]. each_event.
  - exists []. split_and!; [done|done|]. each_event.
Qed.

Lemma open_listener_settles e ok polls t : open_listener e = (ok, polls, t) ->
  settle [] t = Some (when ok [RPoller; RListen]) /\ Forall (fun ev => ev_res ev = RListen \/ ev_res ev = RPoller) t.
Proof.
  unfold open_listener. destruct (sk_fd (be_listen e) <? 0); [intros [= <- <- <-]; split; [done|constructor]|].
  destruct (_ || _); [intros [= <- <- <-]; split; [done|each_event]|].
  destruct (negb (be_poller e)); [intros [= <- <- <-]; split; [done|each_event]|].
  destruct (negb _); intros [= <- <- <-]; (split; [done|each_event]).
Qed.

(** ** The whole *)

Definition config_resources : list resource := [RMw; RSessions; RPending; RCa; RSchemas].
(** What the gateway holds besides its controllers, in the order in which it is released. *)
Definition all_resources : list resource :=
  [RServices; RPoller; RListen; RAdmin; RTls; RTlsConf; RControl; RControlPath] ++ config_resources ++ [RRegistry; RRouter].

Lemma all_resources_nodup : NoDup all_resources.
Proof. apply (bool_decide_unpack _). vm_compute. exact I. Qed.

Lemma when_sublist (b : bool) (rs : list resource) : when b rs `sublist_of` rs.
Proof. destruct b; [done|apply sublist_nil_l]. Qed.

Lemma when_in b (rs : list resource) x : x ∈ when b rs -> x ∈ rs.
Proof. destruct b; [done|by intros ?%elem_of_nil]. Qed.

Lemma app_resources_sublist {db} (a : app db) : app_resources a `sublist_of` config_resources.
Proof. change config_resources with ([RMw] ++ [RSessions] ++ [RPending] ++ [RCa] ++ [RSchemas]). repeat apply sublist_app; apply when_sublist. Qed.

Section whole.
Context {tls : Type} {TE : TlsEngine tls}.
Context {db : Type} `{SQ : Sqlite db}.
Implicit Types (s : started tls db) (a : app db).

Definition held_by s : list resource :=
  [RServices; RPoller; RListen] ++ when (0 <=? st_admin s) [RAdmin] ++ when (0 <=? st_tls s) [RTls] ++ when (st_conf s) [RTlsConf] ++
  when (0 <=? st_control s) [RControl; RControlPath] ++ app_resources (st_app s) ++ [RRegistry; RRouter].

Lemma held_by_sublist s : held_by s `sublist_of` all_resources.
Proof.
  change all_resources with ([RServices; RPoller; RListen] ++ [RAdmin] ++ [RTls] ++ [RTlsConf] ++ [RControl; RControlPath] ++
    config_resources ++ [RRegistry; RRouter]).
  repeat apply sublist_app; done || apply when_sublist || apply app_resources_sublist.
Qed.

Lemma held_by_nodup s : NoDup (held_by s).
Proof. eapply sublist_NoDup; [apply all_resources_nodup|apply held_by_sublist]. Qed.

Lemma teardown_list s : server_teardown s = Freed <$> ((RChild <$> live_ctrls (g_services (st_gw s))) ++ held_by s).
Proof.
  unfold server_teardown, held_by, stop_ctrls, free_config, free_opt, when. rewrite !fmap_app, <- list_fmap_compose.
  f_equal. destruct (0 <=? st_admin s), (0 <=? st_tls s), (st_conf s), (0 <=? st_control s); reflexivity.
Qed.

Lemma held_no_child s k : RChild k ∉ held_by s.
Proof.
  intros H. assert (RChild k ∈ all_resources) as Hin by (eapply elem_of_submseteq; [exact H|by apply sublist_submseteq, held_by_sublist]).
  repeat (apply elem_of_cons in Hin as [[=]|Hin]). by apply elem_of_nil in Hin.
Qed.
End whole.

Lemma lists_apart (l k : list resource) x : bool_decide (Forall (fun x => x ∉ k) l) = true -> x ∈ l -> x ∉ k.
Proof. intros H%bool_decide_eq_true Hx. rewrite list.Forall_forall in H. by apply H. Qed.

(** A part of the trace that acquires and releases resources of its own. *)
Lemma settles_part (rs : list resource) l k h : settle [] l = Some k -> Forall (fun ev => ev_res ev ∈ rs) l -> (forall r, r ∈ rs -> r ∉ h) ->
  settles h l (fun x => x ∈ k \/ x ∈ h).
Proof.
  intros E Hl Hd. eapply settles_frame; [exact E| |].
  - intros x. split; [by right|]. intros [H|]; [by apply elem_of_nil in H|done].
  - eapply Forall_impl; [exact Hl|]. intros ev. apply Hd.
Qed.

Lemma settles_then (rs : list resource) h l1 l2 k P : settles h l1 P -> settle [] l2 = Some k ->
  Forall (fun ev => ev_res ev ∈ rs) l2 -> (forall x, x ∈ rs -> ~ P x) -> settles h (l1 ++ l2) (fun x => x ∈ k \/ P x).
Proof.
  intros H1 E Hl Hd. eapply settles_app; [exact H1|]. intros h' Hh'. eapply settles_mono.
  - apply (settles_part rs); [exact E|exact Hl|]. intros x Hx. rewrite Hh'. by apply Hd.
  - intros x. cbn beta. by rewrite Hh'.
Qed.

Section setup.
Context {tls : Type} {TE : TlsEngine tls} {TL : TlsLaws tls} {SE : SigEngine} {SO : SigEngineOk}.
Context {db : Type} `{SQ : Sqlite db}.
Context {P : Type} {PD : PemDecoder P} {PL : PemLaws P} (alloc : Z -> bool) (anchor_size : Z).
Context (x509 : bytes -> x509_answer) (skey : list bytes -> skey_answer).
Implicit Types (e : boot_env) (a : app db) (s : started tls db).

(** What is held when the configuration is there. *)
Definition base_resources a : list resource := RServices :: app_resources a ++ [RRegistry; RRouter].
Definition base_log a : list res_event := [Got RRouter; Got RRegistry] ++ Got RServices :: (Got <$> app_resources a).

Definition door_resources : list resource := [RPoller; RListen; RAdmin; RTls; RTlsConf; RControl; RControlPath].

Lemma app_resources_in a x : x ∈ app_resources a -> x ∈ config_resources.
Proof. intros H. eapply elem_of_submseteq; [exact H|apply sublist_submseteq, app_resources_sublist]. Qed.

Lemma app_resources_nodup a : NoDup (app_resources a).
Proof.
  eapply sublist_NoDup; [|apply app_resources_sublist]. apply (bool_decide_unpack _). vm_compute. exact I.
Qed.

Lemma base_apart a x : x ∈ door_resources -> x ∉ base_resources a.
Proof.
  intros Hx H. assert (x ∈ RServices :: config_resources ++ [RRegistry; RRouter]) as H'.
  { unfold base_resources in H. rewrite elem_of_cons, elem_of_app in H |- *. pose proof (app_resources_in a x). tauto. }
  revert H'. by apply (lists_apart door_resources).
Qed.

Lemma base_settles a : settles [] (base_log a) (fun x => x ∈ base_resources a).
Proof.
  change (base_log a) with (Got <$> ([RRouter; RRegistry; RServices] ++ app_resources a)).
  eapply settles_mono; [apply settles_got|].
  - apply NoDup_app. split_and!; [apply (bool_decide_unpack _); vm_compute; exact I| |apply app_resources_nodup].
    intros x Hx H%app_resources_in. revert H. by apply (lists_apart [RRouter; RRegistry; RServices]).
  - intros r _. apply not_elem_of_nil.
  - intros x. unfold base_resources. rewrite !elem_of_cons, !elem_of_app, !elem_of_cons, elem_of_nil. tauto.
Qed.

Lemma base_nodup a : NoDup (base_resources a).
Proof.
  assert (base_resources a `sublist_of` RServices :: config_resources ++ [RRegistry; RRouter]) as H.
  { apply sublist_skip, sublist_app; [apply app_resources_sublist|done]. }
  eapply sublist_NoDup; [|exact H]. apply (bool_decide_unpack _). vm_compute. exact I.
Qed.

Lemma listener_settles e a ok polls tl : open_listener e = (ok, polls, tl) ->
  settles [] (base_log a ++ tl) (fun x => x ∈ when ok [RPoller; RListen] \/ x ∈ base_resources a).
Proof.
  intros (E & Hl)%open_listener_settles. eapply settles_app; [apply base_settles|]. intros h Hh. eapply settles_mono.
  - apply (settles_part door_resources); [exact E| |].
    + eapply Forall_impl; [exact Hl|]. intros ev [-> | ->]; unfold door_resources; rewrite !elem_of_cons; tauto.
    + intros r Hr. rewrite Hh. by apply base_apart.
  - intros x. cbn beta. by rewrite Hh.
Qed.

Lemma failed_settles e a polls tl : open_listener e = (false, polls, tl) ->
  settles [] (base_log a ++ tl ++ fail_pre_poll a) (fun _ => False).
Proof.
  intros Hl. rewrite app_assoc. eapply settles_app; [by eapply listener_settles|]. intros h Hh.
  change (fail_pre_poll a) with (Freed RServices :: (Freed <$> app_resources a) ++ (Freed <$> [RRegistry; RRouter])).
  rewrite <- fmap_app. change (Freed RServices :: (Freed <$> ?l)) with (Freed <$> (RServices :: l)).
  eapply settles_mono; [apply settles_freed; [apply base_nodup|]|].
  - intros r Hr. rewrite Hh. by right.
  - intros x. cbn beta. rewrite Hh. cbn [when]. rewrite elem_of_nil. unfold base_resources. tauto.
Qed.

Lemma opened_settles e ap a polls tl s polls1 t1 polls2 t2 polls3 t3 tp :
  open_listener e = (true, polls, tl) -> open_control e polls = (st_control s, polls1, t1) ->
  open_admin e ap polls1 = (st_admin s, polls2, t2) ->
  open_tls alloc skey e (a_reg a) tp polls2 = Some (st_tls s, st_conf s, polls3, t3) ->
  app_resources (st_app s) = app_resources a ->
  settles [] (base_log a ++ tl ++ t1 ++ t2 ++ t3) (fun x => x ∈ held_by s ++ leftover e).
Proof.
  intros Hl (k1 & E1 & H1 & F1 & _)%open_control_settles (k2 & E2 & H2 & F2)%open_admin_settles
    (k3 & E3 & H3 & F3)%open_tls_settles Ea.
  rewrite !app_assoc.
  assert (forall x, x ∈ leftover e -> x = RControlPath) as Hlo.
  { intros x. unfold leftover, when. destruct (_ && _); [by intros ->%list_elem_of_singleton|by intros ?%elem_of_nil]. }
  assert (forall x, x ∈ [RAdmin; RTls; RTlsConf; RControl; RControlPath] -> ~ (x ∈ when true [RPoller; RListen] \/ x ∈ base_resources a)) as Hd.
  { intros x Hx [H|H]; revert H; [by apply (lists_apart [RAdmin; RTls; RTlsConf; RControl; RControlPath])|].
    apply base_apart. unfold door_resources. do 2 right. exact Hx. }
  assert (forall x, x ∈ k1 -> x ∈ [RControl; RControlPath]) as H1'.
  { intros x [Hx|Hx]%H1%elem_of_app; [by apply when_in in Hx|rewrite (Hlo x Hx); right; left]. }
  eapply settles_mono; [eapply (settles_then [RTls; RTlsConf]); [eapply (settles_then [RAdmin]); [eapply (settles_then [RControl; RControlPath]);
    [by eapply listener_settles|exact E1| |]|exact E2| |]|exact E3| |]|].
  - eapply Forall_impl; [exact F1|]. intros ev. rewrite !elem_of_cons. tauto.
  - intros x Hx. apply Hd. by do 3 right.
  - eapply Forall_impl; [exact F2|]. intros ev. rewrite !elem_of_cons. tauto.
  - intros x Hx [Hk|Hb]; [|revert Hb; apply Hd; by apply list_elem_of_singleton in Hx as ->; left].
    apply H1' in Hk. revert Hk. by apply (lists_apart [RAdmin]).
  - eapply Forall_impl; [exact F3|]. intros ev. rewrite !elem_of_cons. tauto.
  - intros x Hx [Hk|[Hk|Hb]]; [..|revert Hb; apply Hd; apply elem_of_cons in Hx as [-> | ->%list_elem_of_singleton]; right; [left|right; left]].
    + apply H2, when_in in Hk. revert Hk. by apply (lists_apart [RTls; RTlsConf]).
    + apply H1' in Hk. revert Hk. by apply (lists_apart [RTls; RTlsConf]).
  - intros x. cbn beta. rewrite H1, H2, H3. unfold held_by, base_resources. rewrite Ea, !elem_of_app, !elem_of_cons, !elem_of_app.
    cbn [when]. rewrite !elem_of_cons. tauto.
Qed.

(** The gateway as it stands when its loop ends. *)
Definition run_to (g : gateway tls) a s : started tls db := Started tls db g a (st_control s) (st_admin s) (st_tls s) (st_conf s).

Lemma ended_settles e s g a h : gw_wf g -> app_resources a = app_resources (st_app s) ->
  (0 <= st_control s -> leftover e = []) -> (forall x, x ∈ h <-> x ∈ held_by s ++ leftover e) ->
  settles h ((Got <$> (RChild <$> live_ctrls (g_services g))) ++ server_teardown (run_to g a s)) (fun x => x ∈ leftover e).
Proof.
  intros W Ea Hlo Hh. set (cs := RChild <$> live_ctrls (g_services g)).
  assert (held_by (run_to g a s) = held_by s) as Eh by (unfold held_by; cbn [run_to st_admin st_tls st_conf st_control st_app]; by rewrite Ea).
  assert (NoDup cs) as Hcs by (apply NoDup_fmap_2; [congruence|by apply live_ctrls_nodup]).
  assert (forall x, x ∈ leftover e -> (x ∉ held_by s) /\ (x ∉ cs)) as Hl.
  { intros x Hx. assert (x = RControlPath) as ->.
    { revert Hx. unfold leftover. intros Hx%when_in. by apply list_elem_of_singleton in Hx. }
    split; [|by intros (k & [=] & _)%list_elem_of_fmap]. intros H.
    destruct (Z.leb_spec 0 (st_control s)) as [Hc|Hc]; [rewrite (Hlo Hc) in Hx; by apply elem_of_nil in Hx|].
    revert H. unfold held_by. rewrite (proj2 (Z.leb_gt _ _) Hc). cbn [when]. rewrite !elem_of_app.
    intros [H|[H|[H|[H|[H|[H|H]]]]]]; try apply when_in in H; try apply app_resources_in in H; revert H.
    all: match goal with |- _ ∈ ?l -> _ => refine (lists_apart [RControlPath] l _ eq_refl _); left end. }
  eapply settles_app; [apply settles_got; [exact Hcs|]|].
  { intros r (k & -> & _)%list_elem_of_fmap. rewrite Hh, elem_of_app. intros [H|H]; [by eapply held_no_child|].
    revert H. unfold leftover. by intros [=]%when_in%list_elem_of_singleton. }
  intros h1 Hh1. rewrite teardown_list, Eh. fold cs. eapply settles_mono; [apply settles_freed|].
  - apply NoDup_app. split_and!; [done| |apply held_by_nodup]. intros x (k & -> & _)%list_elem_of_fmap. apply held_no_child.
  - intros r. rewrite Hh1, Hh, !elem_of_app. tauto.
  - intros x. cbn beta. rewrite Hh1, Hh, !elem_of_app. pose proof (Hl x). tauto.
Qed.

Lemma settles_none log : settle [] log = Some [] -> settles [] log (fun _ => False).
Proof. intros E. exists []. split; [done|]. intros x. by rewrite elem_of_nil. Qed.

Lemma builtin_register_ok mem : exists err router,
  ntc_builtin_register mem None (Router [] 0) = Some (err, router) /\ router_wf router /\ routes_ok 0 router.
Proof. apply register_all_ok; [apply Forall_cons; split; [done|]; apply Forall_cons; split; [done|]; apply Forall_singleton; done|split; [apply le_n|constructor]|constructor]. Qed.

Hypothesis x509_bounded : forall der, Z.of_nat (length (concat (x5_dn (x509 der)))) <= 2 ^ 60.

(** Starting the gateway. Whatever the registry, the environment, the files and the system
    answer, the set-up does not fault. When it fails its error is not success and everything it
    acquired is released, once; when it succeeds the gateway and its application are well
    formed, the invariant on which the loop's safety rests. And from whatever well-formed
    gateway the loop then ends with, the tear-down releases each controller that is alive and
    every resource of the set-up exactly once, and leaves nothing but the name of a control
    socket that was bound and could not be listened on. *)
Theorem setup_safe e ap tp : answers_ok (db := db) e ->
  exists log r, server_setup (tls := tls) alloc anchor_size x509 skey e ap tp = Some (log, r) /\
    match r with
    | inl err => err <> NTC_OK /\ settles [] log (fun _ => False)
    | inr s => world_ok (st_gw s, st_app s) /\
        forall g a, gw_wf g -> app_resources a = app_resources (st_app s) ->
          settles [] (log ++ (Got <$> (RChild <$> live_ctrls (g_services g))) ++ server_teardown (run_to g a s))
            (fun x => x ∈ leftover e)
    end.
Proof.
  intros He. unfold server_setup, ntc_router_create. destruct (be_router e).
  2: { do 2 eexists. split; [done|]. split; [done|by apply settles_none]. }
  destruct (builtin_register_ok (be_builtin e)) as (err & router & -> & Hw & Hr). bind.
  case_bool_decide. { do 2 eexists. split; [done|]. split; [done|by apply settles_none]. }
  destruct (ntc_registry_open (be_registry e) (db_path (be_env e))) as [err2 [r|]].
  2: { do 2 eexists. split; [done|]. split; [done|by apply settles_none]. }
  destruct (be_services e); cbn [negb]. 2: { do 2 eexists. split; [done|]. split; [done|by apply settles_none]. }
  destruct (configure_ok alloc anchor_size x509 x509_bounded e router r He) as (a & -> & Ea & Hcd). bind.
  destruct (open_listener e) as [[ok polls] tl] eqn:El. destruct ok; cbn [negb].
  2: { do 2 eexists. split; [done|]. split; [done|]. by eapply failed_settles. }
  rewrite <- Ea in Hw, Hr.
  destruct (open_doors_ok (tls := tls) alloc anchor_size skey e ap tp a polls He Hcd Hw Hr)
    as (c & p1 & t1 & ad & p2 & t2 & tfd & conf & p3 & t3 & s & E1 & E2 & E3 & -> & Hok & Er & <- & <- & <- & <-). bind.
  do 2 eexists. split; [done|]. split; [exact Hok|]. intros g b W Eb.
  eapply settles_app; [by eapply opened_settles|]. intros h Hh. apply ended_settles; [done|done| |done].
  by destruct (open_control_settles _ _ _ _ _ E1) as (_ & _ & _ & _ & ?).
Qed.
End setup.

(** ** A gateway that starts *)

(** A registry with one service and one route, and no configuration. *)
Definition one_service : Sqlite unit := {|
  sq_open _ := Some tt; sq_exec d _ := (true, d); sq_prepare _ _ := true;
  sq_run d sql _ :=
    (SqResult (if memeq sql LIST_SERVICES then [[SqText (bs "hello"); SqText (bs "/bin/hello"); SqInt 1]]
               else if memeq sql LIST_ROUTES then [[SqText (bs "GET"); SqText (bs "/api/hello"); SqText (bs "hello")]] else []) true 1, d) |}.

Lemma one_service_bytes : @bytes_db unit one_service.
Proof. by intros [] key cap v. Qed.

(** Port 8080 is bound, the dashboard's is taken, and the child greets. *)
Definition demo_boot : boot_env :=
  BootEnv (fun name => if memeq name (bs "NTC_TLS_PORT") then Some (bs "8443") else None) (fun _ => None) 5 None
    true [] true true true demo_env true (true, true) true (true, true) [] true
    (SockTry 3 true true true) true (SockTry 4 true false true) (SockTry 5 false true true) (SockTry 6 true true true)
    [] [] [Spawn true 8 101 hello true true (Some 11%nat)].

Lemma demo_boot_ok : answers_ok (db := unit) (SQ := one_service) demo_boot.
Proof.
  split.
  - intros name v. cbn. destruct (memeq name _); intros [= <-]. by repeat constructor.
  - exact one_service_bytes.
  - intros [] ms [=].
  - apply NoDup_singleton.
Qed.

(** The gateway starts with its one controller, without the dashboard, and the name of the
    control socket, which could not be listened on, is left behind. *)
Lemma setup_safe_witness :
  let setup := server_setup (tls := unit) (SQ := one_service) (PD := letters) (fun _ => true) 1
    (fun _ => X509Answer None 0 [] false) (fun _ => SkeyAnswer 0 true None) demo_boot 9090 0 in
  (match setup with
   | Some (log, inr s) => Some (log, live_ctrls (g_services (st_gw s)), length (routes (a_router (st_app s))))
   | _ => None
   end) = Some ((Got <$> [RRouter; RRegistry; RServices; RMw; RListen; RPoller; RControl; RControlPath]) ++
                [Freed RControl; Got RAdmin; Freed RAdmin], [11%nat], 4%nat) /\
  leftover demo_boot = [RControlPath] /\
  exists log r, setup = Some (log, r) /\
    match r with
    | inl err => err <> NTC_OK /\ settles [] log (fun _ => False)
    | inr s => world_ok (st_gw s, st_app s) /\
        forall g a, gw_wf g -> app_resources a = app_resources (st_app s) ->
          settles [] (log ++ (Got <$> (RChild <$> live_ctrls (g_services g))) ++ server_teardown (run_to g a s))
            (fun x => x ∈ leftover demo_boot)
    end.
Proof.
  split; [vm_compute; reflexivity|]. split; [reflexivity|].
  apply (setup_safe (SQ := one_service) (PD := letters)); [intros der; vm_compute; discriminate|exact demo_boot_ok].
Defined.

(** The port of [NTC_TLS_PORT] stands over that of [--tls], and a port is its text's number
    modulo 65536: "65536" is no port at all, and TLS is off. *)
Example tls_port_of_env :
  let port v := fst (fst (load_tls_settings (SQ := one_service) (fun name => if memeq name (bs "NTC_TLS_PORT") then Some v else None) tt 443)) in
  port (bs "8443") = 8443 /\ port (bs "65536") = 0.
Proof. split; vm_compute; reflexivity. Qed.
