(* ===== verification/Poller.v ===== *)
(** * The poller (src/core/poller_epoll.c, src/core/poller_kqueue.c)

    The two backends of poller.h over interfaces of the kernel's calls: an array of the user's
    data indexed by descriptor, and the kernel's own set.  Both refine one contract: a map from
    a descriptor to its interest and its data. *)
From S2P Require Import Prelude Err.
From stdpp Require Import gmap.
Open Scope Z_scope.

(** poller.h:21-24 [NTC_POLL_READ, NTC_POLL_WRITE] *)
Definition POLL_READ : Z := 1.
Definition POLL_WRITE : Z := 2.

(** poller.h:28-32 [ntc_poll_event]. A NULL [udata] is [None]. *)
Record ntc_poll_event {U : Type} := PollEvent { pe_fd : Z; pe_events : Z; pe_udata : option U }.
Arguments ntc_poll_event : clear implicits.

(** poller_epoll.c:9-13 [ntc_poller]; poller_kqueue.c:10-14. The kernel's object, and the data
    by descriptor. *)
Record ntc_poller {K U : Type} := Poller { pl_kernel : K; pl_udata : list (option U); pl_cap : Z }.
Arguments ntc_poller : clear implicits.
Arguments Poller {K U}.

Definition INT_MAX : Z := 2 ^ 31 - 1.

Section array.
Context {K U : Type}.
Implicit Types p : ntc_poller K U.

(** poller_epoll.c:18-18 [ensure_cap, doubling]. [None] when the [int] overflows. *)
Fixpoint grow (fuel : nat) (ncap fd : Z) : option Z :=
  match fuel with
  | O => None
  | S fuel =>
      if ncap <=? fd then (if INT_MAX <? ncap * 2 then None else grow fuel (ncap * 2) fd) else Some ncap
  end.

(** poller_epoll.c:15-25 [ensure_cap]; the one of poller_kqueue.c is the same. [got] says
    whether the array could be had. *)
Definition ensure_cap (got : bool) p (fd : Z) : option (ntc_err * ntc_poller K U) :=
  if fd <? pl_cap p then Some (NTC_OK, p) else
  ncap ← grow 32 (if pl_cap p =? 0 then 16 else pl_cap p) fd;
  if negb got then Some (NTC_ERR_OOM, p) else
  Some (NTC_OK, Poller (pl_kernel p) (pl_udata p ++ replicate (Z.to_nat (ncap - pl_cap p)) None) ncap).

(** poller_epoll.c:54-54 [ntc_poller_add, udata]; also in [ntc_poller_mod] and [ntc_poller_del],
    and in poller_kqueue.c. *)
Definition set_udata p (fd : Z) (u : option U) : option (ntc_poller K U) :=
  _ ← pl_udata p !! Z.to_nat fd;
  Some (Poller (pl_kernel p) (<[Z.to_nat fd := u]> (pl_udata p)) (pl_cap p)).

(** poller_epoll.c:88-88 [ntc_poller_wait, udata]; and poller_kqueue.c:107. *)
Definition udata_of p (fd : Z) : option (option U) :=
  if (0 <=? fd) && (fd <? pl_cap p) then pl_udata p !! Z.to_nat fd else Some None.

Definition with_kernel p (k : K) : ntc_poller K U := Poller k (pl_udata p) (pl_cap p).
End array.

(** ** epoll *)

Inductive ep_op := EpAdd | EpMod | EpDel.

(** The calls of <sys/epoll.h>. A wait answers whether it was interrupted, or its events. *)
Class Epoll (K : Type) := {
  epoll_ctl : K -> ep_op -> Z -> Z -> bool * K;
  epoll_wait : K -> Z -> Z -> (bool + list (Z * Z)) * K }.

Definition EPOLLIN : Z := 1.
Definition EPOLLOUT : Z := 4.
Definition EPOLLERR : Z := 8.
Definition EPOLLHUP : Z := 16.

(** poller_epoll.c:27-32 [to_epoll] *)
Definition to_epoll (events : Z) : Z :=
  let e := 0 in
  let e := if negb (Z.land events POLL_READ =? 0) then Z.lor e EPOLLIN else e in
  if negb (Z.land events POLL_WRITE =? 0) then Z.lor e EPOLLOUT else e.

(** poller_epoll.c:82-85 [ntc_poller_wait, events] *)
Definition from_epoll (events : Z) : Z :=
  let ev := 0 in
  let ev := if negb (Z.land events EPOLLIN =? 0) then Z.lor ev POLL_READ else ev in
  let ev := if negb (Z.land events EPOLLOUT =? 0) then Z.lor ev POLL_WRITE else ev in
  if negb (Z.land events (Z.lor EPOLLHUP EPOLLERR) =? 0) then Z.lor ev (Z.lor POLL_READ POLL_WRITE) else ev.

Section epoll.
Context {K U : Type} `{EP : Epoll K}.
Implicit Types p : ntc_poller K U.

(** poller_epoll.c:34-42 [ntc_poller_create]. [k] is the new epoll object, [None] when there is
    none. *)
Definition epoll_create (calloc : bool) (k : option K) : ntc_err * option (ntc_poller K U) :=
  if negb calloc then (NTC_ERR_OOM, None) else
  match k with None => (NTC_ERR_IO, None) | Some k => (NTC_OK, Some (Poller k [] 0)) end.

(** [epoll_ctl], and the error of its answer. *)
Definition epoll_do p (op : ep_op) (fd events : Z) : ntc_err * ntc_poller K U :=
  let '(ok, k) := epoll_ctl (pl_kernel p) op fd events in
  (if ok : bool then NTC_OK else NTC_ERR_IO, with_kernel p k).

(** poller_epoll.c:51-57 [ntc_poller_add] *)
Definition epoll_add (got : bool) p (fd events : Z) (u : option U) : option (ntc_err * ntc_poller K U) :=
  if fd <? 0 then Some (NTC_ERR_INVALID, p) else
  '(e, p) ← ensure_cap got p fd;
  if bool_decide (e <> NTC_OK) then Some (e, p) else
  p ← set_udata p fd u;
  Some (epoll_do p EpAdd fd (to_epoll events)).

(** poller_epoll.c:59-64 [ntc_poller_mod] *)
Definition epoll_mod p (fd events : Z) (u : option U) : option (ntc_err * ntc_poller K U) :=
  if (fd <? 0) || (pl_cap p <=? fd) then Some (NTC_ERR_INVALID, p) else
  p ← set_udata p fd u;
  Some (epoll_do p EpMod fd (to_epoll events)).

(** poller_epoll.c:66-70 [ntc_poller_del] *)
Definition epoll_del p (fd : Z) : option (ntc_err * ntc_poller K U) :=
  if (fd <? 0) || (pl_cap p <=? fd) then Some (NTC_ERR_INVALID, p) else
  p ← set_udata p fd None;
  Some (epoll_do p EpDel fd 0).

(** poller_epoll.c:80-89 [ntc_poller_wait, events] *)
Definition epoll_events p (evs : list (Z * Z)) : option (list (ntc_poll_event U)) :=
  mapM (fun ev => u ← udata_of p (fst ev); Some (PollEvent U (fst ev) (from_epoll (snd ev)) u)) evs.

(** poller_epoll.c:72-91 [ntc_poller_wait]. The count, and the events. *)
Definition epoll_wait_for p (max timeout_ms : Z) : option (Z * list (ntc_poll_event U) * ntc_poller K U) :=
  if max <=? 0 then Some (-1, [], p) else
  let max := if 256 <? max then 256 else max in
  let '(r, k) := epoll_wait (pl_kernel p) max timeout_ms in
  let p := with_kernel p k in
  match r with
  | inl eintr => Some (if eintr : bool then 0 else -1, [], p)
  | inr evs => out ← epoll_events p evs; Some (Z.of_nat (length out), out, p)
  end.
End epoll.

(** ** kqueue *)

Inductive kq_filter := EvfiltRead | EvfiltWrite.
#[export] Instance kq_filter_eq_dec : EqDecision kq_filter.
Proof. solve_decision. Defined.
#[export] Instance kq_filter_countable : Countable kq_filter.
Proof.
  by refine (inj_countable' (fun f => if f is EvfiltRead then true else false) (fun b => if b : bool then EvfiltRead else EvfiltWrite) _);
    intros [].
Defined.

(** What is asked of a filter: [EV_ADD | EV_ENABLE], or [EV_DELETE]. *)
Record kq_change := KqChange { kc_fd : Z; kc_filter : kq_filter; kc_add : bool }.
Definition kc_key (c : kq_change) : Z * kq_filter := (kc_fd c, kc_filter c).

(** An event: its descriptor and filter, and whether it reports an error. *)
Record kq_event := KqEvent { ke_fd : Z; ke_filter : kq_filter; ke_error : bool }.

(** The call of <sys/event.h>, for changes with receipts and for a wait. A receipt is the error
    number of its change, 0 when there is none. *)
Class Kqueue (K : Type) := {
  kevent_change : K -> list kq_change -> option (list Z) * K;
  kevent_wait : K -> Z -> option (Z * Z) -> (bool + list kq_event) * K }.

Definition ENOENT : Z := 2.

Section kqueue.
Context {K U : Type} `{KQ : Kqueue K}.
Implicit Types p : ntc_poller K U.

(** poller_kqueue.c:28-36 [ntc_poller_create] *)
Definition kqueue_create (calloc : bool) (k : option K) : ntc_err * option (ntc_poller K U) :=
  if negb calloc then (NTC_ERR_OOM, None) else
  match k with None => (NTC_ERR_IO, None) | Some k => (NTC_OK, Some (Poller k [] 0)) end.

(** poller_kqueue.c:47-49 [apply, READ change] *)
Definition read_change (fd events : Z) : kq_change := KqChange fd EvfiltRead (negb (Z.land events POLL_READ =? 0)).
(** poller_kqueue.c:50-52 [apply, WRITE change] *)
Definition write_change (fd events : Z) : kq_change := KqChange fd EvfiltWrite (negb (Z.land events POLL_WRITE =? 0)).

(** poller_kqueue.c:45-62 [apply] *)
Definition apply p (fd events : Z) : ntc_err * ntc_poller K U :=
  let '(r, k) := kevent_change (pl_kernel p) [read_change fd events; write_change fd events] in
  let p := with_kernel p k in
  match r with
  | None => (NTC_ERR_IO, p)
  | Some out => (if existsb (fun d => negb (d =? 0) && negb (d =? ENOENT)) out then NTC_ERR_IO else NTC_OK, p)
  end.

(** poller_kqueue.c:64-69 [ntc_poller_add] *)
Definition kqueue_add (got : bool) p (fd events : Z) (u : option U) : option (ntc_err * ntc_poller K U) :=
  if fd <? 0 then Some (NTC_ERR_INVALID, p) else
  '(e, p) ← ensure_cap got p fd;
  if bool_decide (e <> NTC_OK) then Some (e, p) else
  p ← set_udata p fd u;
  Some (apply p fd events).

(** poller_kqueue.c:71-75 [ntc_poller_mod] *)
Definition kqueue_mod p (fd events : Z) (u : option U) : option (ntc_err * ntc_poller K U) :=
  if (fd <? 0) || (pl_cap p <=? fd) then Some (NTC_ERR_INVALID, p) else
  p ← set_udata p fd u;
  Some (apply p fd events).

(** poller_kqueue.c:77-81 [ntc_poller_del] *)
Definition kqueue_del p (fd : Z) : option (ntc_err * ntc_poller K U) :=
  if (fd <? 0) || (pl_cap p <=? fd) then Some (NTC_ERR_INVALID, p) else
  p ← set_udata p fd None;
  Some (apply p fd 0).

(** poller_kqueue.c:98-109 [ntc_poller_wait, events]. An event that reports an error is left
    out. *)
Definition kqueue_events p (evs : list kq_event) : option (list (ntc_poll_event U)) :=
  mapM (fun ev => u ← udata_of p (ke_fd ev);
    Some (PollEvent U (ke_fd ev) (match ke_filter ev with EvfiltRead => POLL_READ | EvfiltWrite => POLL_WRITE end) u))
    (List.filter (fun ev => negb (ke_error ev)) evs).

(** poller_kqueue.c:88-93 [ntc_poller_wait, timeout]. Seconds and nanoseconds; none waits for
    ever. *)
Definition kqueue_timeout (timeout_ms : Z) : option (Z * Z) :=
  if 0 <=? timeout_ms then Some (timeout_ms ÷ 1000, Z.rem timeout_ms 1000 * 1000000) else None.

(** poller_kqueue.c:83-111 [ntc_poller_wait] *)
Definition kqueue_wait_for p (max timeout_ms : Z) : option (Z * list (ntc_poll_event U) * ntc_poller K U) :=
  if max <=? 0 then Some (-1, [], p) else
  let max := if 256 <? max then 256 else max in
  let '(r, k) := kevent_wait (pl_kernel p) max (kqueue_timeout timeout_ms) in
  let p := with_kernel p k in
  match r with
  | inl eintr => Some (if eintr : bool then 0 else -1, [], p)
  | inr evs => out ← kqueue_events p evs; Some (Z.of_nat (length out), out, p)
  end.
End kqueue.

(** ** The contract *)

(** A poller's operations, as the gateway calls them. *)
Class PollerOps (P U : Type) := {
  po_add : bool -> P -> Z -> Z -> option U -> option (ntc_err * P);
  po_mod : P -> Z -> Z -> option U -> option (ntc_err * P);
  po_del : P -> Z -> option (ntc_err * P);
  po_wait : P -> Z -> Z -> option (Z * list (ntc_poll_event U) * P) }.
#[export] Instance epoll_ops {K U} `{Epoll K} : PollerOps (ntc_poller K U) U | 10 :=
  {| po_add := epoll_add; po_mod := epoll_mod; po_del := epoll_del; po_wait := epoll_wait_for |}.
Definition kqueue_ops {K U} `{Kqueue K} : PollerOps (ntc_poller K U) U :=
  {| po_add := kqueue_add; po_mod := kqueue_mod; po_del := kqueue_del; po_wait := kqueue_wait_for |}.

(** What is registered: the interest and the data of a descriptor. *)
Definition interest (U : Type) : Type := Z -> option (Z * option U).
Definition changed {U} (m m' : interest U) (fd : Z) (v : option (Z * option U)) : Prop :=
  forall x, m' x = if decide (x = fd) then v else m x.

Inductive poll_op (U : Type) :=
  | PAdd (got : bool) (fd events : Z) (u : option U) | PMod (fd events : Z) (u : option U)
  | PDel (fd : Z) | PWait (max timeout_ms : Z).
Arguments PAdd {U}. Arguments PMod {U}. Arguments PDel {U}. Arguments PWait {U}.
Inductive poll_ans (U : Type) := AErr (e : ntc_err) | AEvents (r : Z) (evs : list (ntc_poll_event U)).
Arguments AErr {U}. Arguments AEvents {U}.

(** The operations whose descriptor is below 2^30 and whose interest is not empty. *)
Definition op_ok {U} (op : poll_op U) : Prop :=
  match op with
  | PAdd _ fd ev _ | PMod fd ev _ => fd < 2 ^ 30 /\ Z.land ev 3 <> 0
  | PDel fd => fd < 2 ^ 30
  | PWait _ _ => True
  end.

Definition poll_run {P U} `{PollerOps P U} (op : poll_op U) (p : P) : option (poll_ans U * P) :=
  match op with
  | PAdd got fd ev u => '(e, p) ← po_add got p fd ev u; Some (AErr e, p)
  | PMod fd ev u => '(e, p) ← po_mod p fd ev u; Some (AErr e, p)
  | PDel fd => '(e, p) ← po_del p fd; Some (AErr e, p)
  | PWait max t => '(r, evs, p) ← po_wait p max t; Some (AEvents r evs, p)
  end.

(** An event is of a registered descriptor, carries its data, and tells what was asked for; or
    everything, after a hang-up or an error. *)
Definition event_of {U} (m : interest U) (e : ntc_poll_event U) : Prop :=
  exists ev, m (pe_fd e) = Some (ev, pe_udata e) /\ 1 <= pe_events e <= 3 /\
    (Z.land (pe_events e) ev = pe_events e \/ pe_events e = 3).

(** One operation, its answer, and what is registered after it: a change that succeeds is made;
    one that fails leaves the other descriptors alone. *)
Definition poll_step {U} (m : interest U) (op : poll_op U) (a : poll_ans U) (m' : interest U) : Prop :=
  match op, a with
  | PAdd _ fd ev u, AErr NTC_OK | PMod fd ev u, AErr NTC_OK => changed m m' fd (Some (Z.land ev 3, u))
  | PDel fd, AErr NTC_OK => changed m m' fd None
  | PAdd _ fd _ _, AErr _ | PMod fd _ _, AErr _ | PDel fd, AErr _ => forall x, x <> fd -> m' x = m x
  | PWait max _, AEvents r evs =>
      (forall x, m' x = m x) /\ -1 <= r <= Z.max 0 (Z.min max 256) /\ (evs = [] \/ r = Z.of_nat (length evs)) /\ Forall (event_of m) evs
  | _, _ => False
  end.

(** What a backend promises: its operations do not fault and are steps of the contract. *)
Class PollerLaws (P U : Type) {PO : PollerOps P U} := {
  po_wf : P -> Prop;
  po_reg : P -> interest U;
  po_refines p op : po_wf p -> op_ok op ->
    exists a p', poll_run op p = Some (a, p') /\ po_wf p' /\ poll_step (po_reg p) op a (po_reg p') }.

(** ** The array *)

Section array_laws.
Context {K U : Type}.
Implicit Types p : ntc_poller K U.

Definition array_ok p : Prop := Z.of_nat (length (pl_udata p)) = pl_cap p.
(** The data of a descriptor, NULL beyond the array. *)
Definition data_at p (fd : Z) : option U := if 0 <=? fd then default None (pl_udata p !! Z.to_nat fd) else None.

Lemma grow_total fuel : forall ncap fd, 0 < ncap -> 0 <= fd < 2 ^ 30 -> fd < ncap * 2 ^ (Z.of_nat fuel - 1) -> (0 < fuel)%nat ->
  exists n, grow fuel ncap fd = Some n /\ fd < n /\ ncap <= n /\ (n = ncap \/ n <= 2 * fd).
Proof.
  induction fuel as [|fuel IH]; intros ncap fd Hn Hfd Hlt Hf; [lia|]. cbn [grow].
  destruct (Z.leb_spec ncap fd) as [Hle|Hgt]; [|exists ncap; split_and!; [done|lia|lia|by left]].
  rewrite (proj2 (Z.ltb_ge INT_MAX (ncap * 2))) by (unfold INT_MAX; lia).
  destruct fuel as [|fuel]; [replace (Z.of_nat 1 - 1) with 0 in Hlt by lia; lia|].
  destruct (IH (ncap * 2) fd) as (n & -> & H1 & H2 & H3); [lia|lia| |lia|].
  - replace (Z.of_nat (S (S fuel)) - 1) with (Z.succ (Z.of_nat (S fuel) - 1)) in Hlt by lia.
    rewrite Z.pow_succ_r in Hlt by lia. lia.
  - exists n. split_and!; [done|lia|lia|right]. destruct H3 as [->|]; lia.
Qed.

(** Growing keeps the data and makes room; without memory nothing changes. *)
Lemma ensure_cap_spec got p fd : array_ok p -> 0 <= fd < 2 ^ 30 ->
  exists e p', ensure_cap got p fd = Some (e, p') /\ array_ok p' /\ pl_kernel p' = pl_kernel p /\
    pl_cap p <= pl_cap p' /\ (forall x, data_at p' x = data_at p x) /\ (e = NTC_OK -> fd < pl_cap p' <= Z.max (Z.max 16 (pl_cap p)) (2 * fd)).
Proof.
  intros Hok Hfd. unfold ensure_cap. destruct (Z.ltb_spec fd (pl_cap p)) as [H|H].
  { exists NTC_OK, p. split_and!; try done; lia. }
  unfold array_ok in *. set (c := if pl_cap p =? 0 then 16 else pl_cap p).
  assert (0 < c /\ pl_cap p <= c /\ c <= Z.max 16 (pl_cap p)) as (Hc & Hc1 & Hc2) by (unfold c; destruct (Z.eqb_spec (pl_cap p) 0); lia).
  destruct (grow_total 32 c fd) as (n & -> & H1 & H2 & H3); [done|done| |lia|].
  { change (2 ^ (Z.of_nat 32 - 1)) with (2 ^ 31). nia. }
  bind. destruct got; cbn [negb]; [|by exists NTC_ERR_OOM, p; split_and!].
  eexists NTC_OK, _. split; [done|]. cbn [pl_kernel pl_udata pl_cap]. split_and!; [|done|lia| |intros _; lia].
  - rewrite length_app, length_replicate. lia.
  - intros x. unfold data_at. cbn [pl_udata]. destruct (Z.leb_spec 0 x) as [Hx|]; [|done].
    destruct (decide (Z.to_nat x < length (pl_udata p))%nat) as [Hl|Hl]; [by rewrite lookup_app_l by done|].
    rewrite lookup_app_r, (lookup_ge_None_2 (pl_udata p)) by lia.
    destruct (replicate _ None !! _) as [o|] eqn:E; [|done]. by apply lookup_replicate in E as [-> _].
Qed.

Lemma set_udata_spec p fd u : array_ok p -> 0 <= fd < pl_cap p ->
  exists p', set_udata p fd u = Some p' /\ array_ok p' /\ pl_kernel p' = pl_kernel p /\ pl_cap p' = pl_cap p /\
    forall x, data_at p' x = if decide (x = fd) then u else data_at p x.
Proof.
  intros Hok Hfd. unfold set_udata, array_ok in *. destruct (lookup_lt_is_Some_2 (pl_udata p) (Z.to_nat fd)) as [o E]; [lia|].
  rewrite E. bind. eexists. split; [done|]. cbn [pl_kernel pl_udata pl_cap]. rewrite length_insert. split_and!; try done.
  intros x. unfold data_at. cbn [pl_udata]. destruct (decide (x = fd)) as [->|Hx].
  - rewrite (proj2 (Z.leb_le 0 fd)) by lia. by rewrite list_lookup_insert_eq by lia.
  - destruct (Z.leb_spec 0 x); [|done]. by rewrite list_lookup_insert_ne by lia.
Qed.

Lemma udata_of_spec p fd : array_ok p -> udata_of p fd = Some (data_at p fd).
Proof.
  intros Hok. unfold udata_of, data_at, array_ok in *. destruct (Z.leb_spec 0 fd); cbn [andb]; [|done].
  destruct (Z.ltb_spec fd (pl_cap p)).
  - destruct (lookup_lt_is_Some_2 (pl_udata p) (Z.to_nat fd)) as [o E]; [lia|]. by rewrite E.
  - by rewrite (lookup_ge_None_2 (pl_udata p)) by lia.
Qed.
End array_laws.

(** The two low bits of a mask. *)
Lemma low_bits ev : exists r, (r = 0 \/ r = 1 \/ r = 2 \/ r = 3) /\ Z.land ev 3 = r /\ Z.land ev 1 = Z.land r 1 /\ Z.land ev 2 = Z.land r 2.
Proof.
  exists (Z.land ev 3). split_and!; [|done|by rewrite <- Z.land_assoc..].
  change 3 with (Z.ones 2) at 1 2 3 4. rewrite Z.land_ones by lia. pose proof (Z.mod_pos_bound ev (2 ^ 2)). lia.
Qed.

Lemma to_from_epoll ev : from_epoll (to_epoll ev) = Z.land ev 3.
Proof.
  destruct (low_bits ev) as (r & Hr & E3 & E1 & E2). unfold to_epoll, POLL_READ, POLL_WRITE. rewrite E3, E1, E2.
  by destruct Hr as [-> | [-> | [-> | ->]]].
Qed.

(** What epoll may report of an interest, as the poller tells it. *)
Lemma from_epoll_reported ev e : Z.land ev 3 <> 0 -> e <> 0 -> Z.land e (Z.lor (to_epoll ev) (Z.lor EPOLLHUP EPOLLERR)) = e ->
  1 <= from_epoll e <= 3 /\ (Z.land (from_epoll e) (Z.land ev 3) = from_epoll e \/ from_epoll e = 3).
Proof.
  destruct (low_bits ev) as (r & Hr & E3 & E1 & E2). unfold to_epoll, POLL_READ, POLL_WRITE. rewrite E3, E1, E2. clear E1 E2 E3.
  intros Hr0 He Hm.
  assert (0 <= e < 32) as Hb.
  { rewrite <- Hm. set (m := Z.lor _ _). assert (m = Z.land m (Z.ones 5)) as -> by (subst m; by destruct Hr as [-> | [-> | [-> | ->]]]).
    rewrite Z.land_assoc, Z.land_ones by lia. apply Z.mod_pos_bound. lia. }
  assert (Z.of_nat (Z.to_nat e) = e) as En by lia. revert He Hm. rewrite <- En. assert (Z.to_nat e < 32)%nat as Hn by lia.
  destruct Hr as [-> | [-> | [-> | ->]]]; [done|..]; clear -Hn; revert Hn; generalize (Z.to_nat e); intros n Hn;
    do 32 (destruct n as [|n]; [vm_compute; intuition congruence|]); lia.
Qed.

(** ** epoll keeps the contract *)

(** What is documented of <sys/epoll.h>: the interest list, a descriptor being added once and
    changed or removed when it is there; a wait reports descriptors of the list, with the events
    asked for, a hang-up or an error. *)
Class EpollLaws (K : Type) {EP : Epoll K} := {
  ep_set : K -> Z -> option Z;
  ep_ctl_ok k op fd ev k' : epoll_ctl k op fd ev = (true, k') ->
    (if op is EpAdd then ep_set k fd = None else is_Some (ep_set k fd)) /\
    forall x, ep_set k' x = if decide (x = fd) then (if op is EpDel then None else Some ev) else ep_set k x;
  ep_ctl_fail k op fd ev k' : epoll_ctl k op fd ev = (false, k') -> forall x, ep_set k' x = ep_set k x;
  ep_wait_set k max t r k' : epoll_wait k max t = (r, k') -> forall x, ep_set k' x = ep_set k x;
  ep_wait_evs k max t evs k' : 0 < max -> epoll_wait k max t = (inr evs, k') -> Z.of_nat (length evs) <= max /\
    Forall (fun ev => exists a, ep_set k (fst ev) = Some a /\ snd ev <> 0 /\ Z.land (snd ev) (Z.lor a (Z.lor EPOLLHUP EPOLLERR)) = snd ev) evs }.

Section epoll_laws.
Context {K U : Type} {EP : Epoll K} {EL : EpollLaws K}.
Implicit Types p : ntc_poller K U.

Definition epoll_wf p : Prop :=
  array_ok p /\ 0 <= pl_cap p /\
  forall fd a, ep_set (pl_kernel p) fd = Some a -> 0 <= fd < pl_cap p /\ exists ev, a = to_epoll ev /\ Z.land ev 3 <> 0.
Definition epoll_reg p : interest U := fun fd => a ← ep_set (pl_kernel p) fd; Some (from_epoll a, data_at p fd).

(** A change of the kernel's list, the data of the descriptor being set. *)
Lemma epoll_do_step p p1 fd op events u :
  epoll_wf p -> array_ok p1 -> pl_kernel p1 = pl_kernel p -> pl_cap p <= pl_cap p1 -> 0 <= fd < pl_cap p1 ->
  (forall x, data_at p1 x = if decide (x = fd) then u else data_at p x) ->
  (op <> EpDel -> Z.land events 3 <> 0) ->
  exists e p', epoll_do p1 op fd (to_epoll events) = (e, p') /\ epoll_wf p' /\
    match e with
    | NTC_OK => changed (epoll_reg p) (epoll_reg p') fd (if op is EpDel then None else Some (Z.land events 3, u))
    | _ => forall x, x <> fd -> epoll_reg p' x = epoll_reg p x
    end.
Proof.
  intros (Hok & Hc & Hset) Hok1 Ek Hcap Hfd Hd Hev. unfold epoll_do. rewrite Ek.
  destruct (epoll_ctl (pl_kernel p) op fd (to_epoll events)) as [ok k'] eqn:E. do 2 eexists. split; [done|].
  assert (forall x, data_at (with_kernel p1 k') x = data_at p1 x) as Hdk by done. destruct ok.
  - destruct (ep_ctl_ok _ _ _ _ _ E) as [_ Hk]. split.
    + split_and!; [done|cbn; lia|]. cbn [with_kernel pl_kernel pl_cap]. intros x a. rewrite Hk. destruct (decide (x = fd)) as [->|].
      * destruct op; try done; intros [= <-]; (split; [lia|]); exists events; split; try done; by apply Hev.
      * intros Hx. destruct (Hset x a Hx) as [? ?]. split; [lia|done].
    + intros x. unfold epoll_reg. cbn [with_kernel pl_kernel]. rewrite Hk, Hdk, Hd. destruct (decide (x = fd)) as [->|]; [|done].
      destruct op; try done; cbn; by rewrite to_from_epoll.
  - pose proof (ep_ctl_fail _ _ _ _ _ E) as Hk. split.
    + split_and!; [done|cbn; lia|]. cbn [with_kernel pl_kernel pl_cap]. intros x a. rewrite Hk. intros Hx.
      destruct (Hset x a Hx) as [? ?]. split; [lia|done].
    + intros x Hx. unfold epoll_reg. cbn [with_kernel pl_kernel]. rewrite Hk, Hdk, Hd. by rewrite decide_False.
Qed.

Lemma epoll_events_spec p evs : array_ok p ->
  epoll_events p evs = Some ((fun ev => PollEvent U (fst ev) (from_epoll (snd ev)) (data_at p (fst ev))) <$> evs).
Proof.
  intros Hok. unfold epoll_events. induction evs as [|ev evs IH]; [done|]. cbn. rewrite udata_of_spec by done. cbn. by rewrite IH.
Qed.

Lemma epoll_refines p op : epoll_wf p -> op_ok op ->
  exists a p', poll_run op p = Some (a, p') /\ epoll_wf p' /\ poll_step (epoll_reg p) op a (epoll_reg p').
Proof.
  intros Hwf Hop. pose proof Hwf as (Hok & Hc & Hset). destruct op as [got fd ev u|fd ev u|fd|max t]; cbn in Hop |- *.
  - unfold epoll_add. destruct (Z.ltb_spec fd 0); [by do 2 eexists|]. destruct Hop as [Hfd Hev].
    destruct (ensure_cap_spec got p fd Hok) as (e & p1 & -> & Hok1 & Ek & Hcap & Hd & Hroom); [lia|]. bind.
    case_bool_decide as He.
    + exists (AErr e), p1. split; [done|]. split.
      * split_and!; [done|lia|]. rewrite Ek. intros x a Hx. destruct (Hset x a Hx). split; [lia|done].
      * destruct e; try done; intros x Hx; unfold epoll_reg; by rewrite Ek, Hd.
    + specialize (Hroom He).
      destruct (set_udata_spec p1 fd u Hok1) as (p2 & -> & Hok2 & Ek2 & Hc2 & Hd2); [lia|]. bind.
      destruct (epoll_do_step p p2 fd EpAdd ev u) as (e2 & p3 & -> & Hwf3 & H3); try done; try congruence; try lia.
      { intros x. rewrite Hd2, Hd. done. }
      bind. do 2 eexists. split; [done|]. split; [done|]. by destruct e2.
  - unfold epoll_mod. destruct (_ || _) eqn:Er; [by do 2 eexists|]. apply orb_false_iff in Er as [?%Z.ltb_ge ?%Z.leb_gt].
    destruct (set_udata_spec p fd u Hok) as (p2 & -> & Hok2 & Ek2 & Hc2 & Hd2); [lia|]. bind.
    destruct (epoll_do_step p p2 fd EpMod ev u) as (e2 & p3 & -> & Hwf3 & H3); try done; try lia.
    bind. do 2 eexists. split; [done|]. split; [done|]. by destruct e2.
  - unfold epoll_del. destruct (_ || _) eqn:Er; [by do 2 eexists|]. apply orb_false_iff in Er as [?%Z.ltb_ge ?%Z.leb_gt].
    destruct (set_udata_spec p fd None Hok) as (p2 & -> & Hok2 & Ek2 & Hc2 & Hd2); [lia|]. bind.
    destruct (epoll_do_step p p2 fd EpDel 0 None) as (e2 & p3 & E & Hwf3 & H3); try done; try lia.
    change (to_epoll 0) with 0 in E. rewrite E. bind. do 2 eexists. split; [done|]. split; [done|]. by destruct e2.
  - unfold epoll_wait_for. destruct (Z.leb_spec max 0). { do 2 eexists. split; [done|]. split; [done|]. split_and!; [done|lia|lia|by left|constructor]. }
    set (mx := if 256 <? max then 256 else max). assert (mx = Z.min max 256) as Emx by (unfold mx; destruct (Z.ltb_spec 256 max); lia).
    destruct (epoll_wait (pl_kernel p) mx t) as [r k'] eqn:E. pose proof (ep_wait_set _ _ _ _ _ E) as Hk.
    assert (epoll_wf (with_kernel p k')) as Hwf'.
    { split_and!; [done|done|]. cbn [with_kernel pl_kernel pl_cap]. intros x a. rewrite Hk. apply Hset. }
    assert (forall x, epoll_reg (with_kernel p k') x = epoll_reg p x) as Hreg.
    { intros x. unfold epoll_reg. cbn [with_kernel pl_kernel]. by rewrite Hk. }
    destruct r as [b|evs].
    { do 2 eexists. split; [done|]. split; [done|]. split_and!; [done|destruct b; lia|destruct b; lia|by left|constructor]. }
    rewrite epoll_events_spec by done. bind. assert (0 < mx) as Hmx by lia. destruct (ep_wait_evs _ _ _ _ _ Hmx E) as [Hl Hevs].
    do 2 eexists. split; [done|]. split; [done|]. rewrite length_fmap. split_and!; [done|lia|lia|by right|].
    apply Forall_fmap. eapply Forall_impl; [exact Hevs|]. intros [x e] (a & Ha & He & Hm). cbn in Ha, He, Hm |- *.
    destruct (Hset x a Ha) as (_ & ev & -> & Hev). exists (Z.land ev 3). unfold epoll_reg. cbn. rewrite Ha. cbn.
    rewrite to_from_epoll. split; [done|]. by apply from_epoll_reported.
Qed.
End epoll_laws.

(** ** kqueue keeps the contract *)

(** What is documented of <sys/event.h>: the filters that are registered; a change of distinct
    filters leaves the others alone; a receipt of 0 is a change made, and of ENOENT the removal
    of a filter that was not there; a wait reports registered filters. *)
Class KqueueLaws (K : Type) {KQ : Kqueue K} := {
  kq_set : K -> Z * kq_filter -> bool;
  kq_others k cs r k' x : kevent_change k cs = (r, k') -> x ∉ (kc_key <$> cs) -> kq_set k' x = kq_set k x;
  kq_receipts k cs rs k' : kevent_change k cs = (Some rs, k') -> NoDup (kc_key <$> cs) ->
    Forall2 (fun c d => (d = 0 -> kq_set k' (kc_key c) = kc_add c) /\
                        (d = ENOENT -> kc_add c = false /\ kq_set k' (kc_key c) = false)) cs rs;
  kq_wait_set k max t r k' x : kevent_wait k max t = (r, k') -> kq_set k' x = kq_set k x;
  kq_wait_evs k max t evs k' : 0 < max -> kevent_wait k max t = (inr evs, k') -> Z.of_nat (length evs) <= max /\
    Forall (fun ev => ke_error ev = false -> kq_set k (ke_fd ev, ke_filter ev) = true) evs }.

Section kqueue_laws.
Context {K U : Type} {KQ : Kqueue K} {KL : KqueueLaws K}.
Implicit Types p : ntc_poller K U.

Definition kqueue_wf p : Prop :=
  array_ok p /\ 0 <= pl_cap p /\ forall fd f, kq_set (pl_kernel p) (fd, f) = true -> 0 <= fd < pl_cap p.
Definition filters (k : K) (fd : Z) : Z :=
  (if kq_set k (fd, EvfiltRead) then POLL_READ else 0) + (if kq_set k (fd, EvfiltWrite) then POLL_WRITE else 0).
Definition kqueue_reg p : interest U := fun fd =>
  if filters (pl_kernel p) fd =? 0 then None else Some (filters (pl_kernel p) fd, data_at p fd).

Lemma filters_eq k k' fd : (forall f, kq_set k' (fd, f) = kq_set k (fd, f)) -> filters k' fd = filters k fd.
Proof. intros H. unfold filters. by rewrite !H. Qed.

(** The two bits of a mask, as filters. *)
Lemma bits_sum ev :
  (if negb (Z.land ev POLL_READ =? 0) then POLL_READ else 0) + (if negb (Z.land ev POLL_WRITE =? 0) then POLL_WRITE else 0) = Z.land ev 3.
Proof.
  destruct (low_bits ev) as (r & Hr & E3 & E1 & E2). unfold POLL_READ, POLL_WRITE. rewrite E3, E1, E2.
  by destruct Hr as [-> | [-> | [-> | ->]]].
Qed.

(** A receipt that is accepted means that the filter is as asked. *)
Lemma receipt_done (b s : bool) d : negb (d =? 0) && negb (d =? ENOENT) = false -> (d = 0 -> s = b) -> (d = ENOENT -> b = false /\ s = false) -> s = b.
Proof.
  intros H H0 H1. destruct (Z.eqb_spec d 0); [by apply H0|]. destruct (Z.eqb_spec d ENOENT); [|done]. by destruct (H1 e) as [-> ->].
Qed.

Lemma apply_step p p1 fd events u :
  kqueue_wf p -> array_ok p1 -> pl_kernel p1 = pl_kernel p -> pl_cap p <= pl_cap p1 -> 0 <= fd < pl_cap p1 ->
  (forall x, data_at p1 x = if decide (x = fd) then u else data_at p x) ->
  exists e p', apply p1 fd events = (e, p') /\ kqueue_wf p' /\
    match e with
    | NTC_OK => changed (kqueue_reg p) (kqueue_reg p') fd (if Z.land events 3 =? 0 then None else Some (Z.land events 3, u))
    | _ => forall x, x <> fd -> kqueue_reg p' x = kqueue_reg p x
    end.
Proof.
  intros (Hok & Hc & Hset) Hok1 Ek Hcap Hfd Hd. unfold apply. rewrite Ek. set (cs := [read_change fd events; write_change fd events]).
  destruct (kevent_change (pl_kernel p) cs) as [r k'] eqn:E.
  assert (forall x f, x <> fd -> kq_set k' (x, f) = kq_set (pl_kernel p) (x, f)) as Ho.
  { intros x f Hx. eapply kq_others; [exact E|]. intros H. apply Hx. unfold cs in H. cbn in H.
    apply elem_of_cons in H as [[=]|[[=]|H]%elem_of_cons]; [done|done|by apply elem_of_nil in H]. }
  assert (kqueue_wf (with_kernel p1 k')) as Hwf'.
  { split_and!; [done|cbn; lia|]. cbn [with_kernel pl_kernel pl_cap]. intros x f Hx. destruct (decide (x = fd)) as [->|Hne]; [lia|].
    rewrite Ho in Hx by done. specialize (Hset x f Hx). lia. }
  assert (forall x, x <> fd -> kqueue_reg (with_kernel p1 k') x = kqueue_reg p x) as Hreg.
  { intros x Hx. unfold kqueue_reg. cbn [with_kernel pl_kernel]. rewrite (filters_eq (pl_kernel p) k' x) by (intros f; by apply Ho).
    change (data_at (with_kernel p1 k') x) with (data_at p1 x). by rewrite Hd, decide_False. }
  destruct r as [out|]; [|by do 2 eexists]. do 2 eexists. split; [done|]. split; [done|].
  destruct (existsb _ out) eqn:Eb; [done|]. intros x. destruct (decide (x = fd)) as [->|Hx]; [|by apply Hreg].
  assert (NoDup (kc_key <$> cs)) as Hnd by (unfold cs; cbn; apply NoDup_cons; split; [by intros [=]%list_elem_of_singleton|apply NoDup_singleton]).
  pose proof (kq_receipts _ _ _ _ E Hnd) as Hr. unfold cs in Hr.
  apply Forall2_cons_inv_l in Hr as (d1 & l1 & [A1 B1] & Hr & ->). apply Forall2_cons_inv_l in Hr as (d2 & l2 & [A2 B2] & Hr & ->).
  cbn in Eb. apply orb_false_iff in Eb as [Eb1 [Eb2 _]%orb_false_iff].
  pose proof (receipt_done _ _ _ Eb1 A1 B1) as R1. pose proof (receipt_done _ _ _ Eb2 A2 B2) as R2.
  cbn [kc_key read_change write_change kc_fd kc_filter kc_add] in R1, R2.
  unfold kqueue_reg, filters. cbn [with_kernel pl_kernel]. unfold kc_key in R1, R2. cbn in R1, R2. rewrite R1, R2, bits_sum.
  change (data_at (with_kernel p1 k') fd) with (data_at p1 fd). by rewrite Hd, decide_True.
Qed.

Lemma kqueue_events_spec p evs : array_ok p ->
  kqueue_events p evs = Some ((fun ev => PollEvent U (ke_fd ev) (match ke_filter ev with EvfiltRead => POLL_READ | EvfiltWrite => POLL_WRITE end)
    (data_at p (ke_fd ev))) <$> List.filter (fun ev => negb (ke_error ev)) evs).
Proof.
  intros Hok. unfold kqueue_events. induction (List.filter _ evs) as [|ev l IH]; [done|]. cbn. rewrite udata_of_spec by done.
  cbn. by rewrite IH.
Qed.

Lemma kqueue_refines p op : kqueue_wf p -> op_ok op ->
  exists a p', poll_run (H := kqueue_ops) op p = Some (a, p') /\ kqueue_wf p' /\ poll_step (kqueue_reg p) op a (kqueue_reg p').
Proof.
  intros Hwf Hop. pose proof Hwf as (Hok & Hc & Hset). destruct op as [got fd ev u|fd ev u|fd|max t]; cbn in Hop |- *.
  - unfold kqueue_add. destruct (Z.ltb_spec fd 0); [by do 2 eexists|]. destruct Hop as [Hfd Hev].
    destruct (ensure_cap_spec got p fd Hok) as (e & p1 & -> & Hok1 & Ek & Hcap & Hd & Hroom); [lia|]. bind.
    case_bool_decide as He.
    + exists (AErr e), p1. split; [done|]. split.
      * split_and!; [done|lia|]. rewrite Ek. intros x f Hx. specialize (Hset x f Hx). lia.
      * destruct e; try done; intros x Hx; unfold kqueue_reg; by rewrite Ek, Hd.
    + specialize (Hroom He).
      destruct (set_udata_spec p1 fd u Hok1) as (p2 & -> & Hok2 & Ek2 & Hc2 & Hd2); [lia|]. bind.
      destruct (apply_step p p2 fd ev u) as (e2 & p3 & -> & Hwf3 & H3); try done; try congruence; try lia.
      { intros x. by rewrite Hd2, Hd. }
      bind. do 2 eexists. split; [done|]. split; [done|]. rewrite (proj2 (Z.eqb_neq _ _) Hev) in H3. by destruct e2.
  - unfold kqueue_mod. destruct (_ || _) eqn:Er; [by do 2 eexists|]. apply orb_false_iff in Er as [?%Z.ltb_ge ?%Z.leb_gt].
    destruct (set_udata_spec p fd u Hok) as (p2 & -> & Hok2 & Ek2 & Hc2 & Hd2); [lia|]. bind.
    destruct (apply_step p p2 fd ev u) as (e2 & p3 & -> & Hwf3 & H3); try done; try lia.
    bind. do 2 eexists. split; [done|]. split; [done|]. rewrite (proj2 (Z.eqb_neq _ _) (proj2 Hop)) in H3. by destruct e2.
  - unfold kqueue_del. destruct (_ || _) eqn:Er; [by do 2 eexists|]. apply orb_false_iff in Er as [?%Z.ltb_ge ?%Z.leb_gt].
    destruct (set_udata_spec p fd None Hok) as (p2 & -> & Hok2 & Ek2 & Hc2 & Hd2); [lia|]. bind.
    destruct (apply_step p p2 fd 0 None) as (e2 & p3 & -> & Hwf3 & H3); try done; try lia.
    bind. do 2 eexists. split; [done|]. split; [done|]. by destruct e2.
  - unfold kqueue_wait_for. destruct (Z.leb_spec max 0).
    { do 2 eexists. split; [done|]. split; [done|]. split_and!; [done|lia|lia|by left|constructor]. }
    set (mx := if 256 <? max then 256 else max). assert (mx = Z.min max 256) as Emx by (unfold mx; destruct (Z.ltb_spec 256 max); lia).
    destruct (kevent_wait (pl_kernel p) mx (kqueue_timeout t)) as [r k'] eqn:E.
    assert (forall x, kq_set k' x = kq_set (pl_kernel p) x) as Hk by (intros x; by eapply kq_wait_set).
    assert (kqueue_wf (with_kernel p k')) as Hwf'.
    { split_and!; [done|done|]. cbn [with_kernel pl_kernel pl_cap]. intros x f. rewrite Hk. apply Hset. }
    assert (forall x, kqueue_reg (with_kernel p k') x = kqueue_reg p x) as Hreg.
    { intros x. unfold kqueue_reg. cbn [with_kernel pl_kernel]. by rewrite (filters_eq (pl_kernel p) k' x) by (intros f; apply Hk). }
    destruct r as [b|evs].
    { do 2 eexists. split; [done|]. split; [done|]. split_and!; [done|destruct b; lia|destruct b; lia|by left|constructor]. }
    rewrite kqueue_events_spec by done. bind. assert (0 < mx) as Hmx by lia. destruct (kq_wait_evs _ _ _ _ _ Hmx E) as [Hl Hevs].
    do 2 eexists. split; [done|]. split; [done|]. rewrite length_fmap.
    pose proof (List.filter_length_le (fun ev => negb (ke_error ev)) evs). split_and!; [done|lia|lia|by right|].
    apply Forall_fmap, list.Forall_forall. intros ev Hin. apply list_elem_of_In, List.filter_In in Hin as [Hin He%negb_true_iff].
    rewrite list.Forall_forall in Hevs. specialize (Hevs ev ltac:(by apply list_elem_of_In) He). cbn.
    exists (filters (pl_kernel p) (ke_fd ev)). unfold kqueue_reg. cbn. unfold filters.
    destruct ev as [x [] b]; cbn in Hevs |- *; rewrite Hevs; [destruct (kq_set _ (x, EvfiltWrite))|destruct (kq_set _ (x, EvfiltRead))];
      (split; [done|]); (split; [by vm_compute|by left]).
Qed.
End kqueue_laws.

(** ** Runs *)

Fixpoint poll_runs {P U} `{PollerOps P U} (ops : list (poll_op U)) (p : P) : option (list (poll_ans U) * P) :=
  match ops with
  | [] => Some ([], p)
  | op :: ops => '(a, p) ← poll_run op p; '(l, p) ← poll_runs ops p; Some (a :: l, p)
  end.

Inductive poll_trace {U} : interest U -> list (poll_op U) -> list (poll_ans U) -> interest U -> Prop :=
  | trace_done m : poll_trace m [] [] m
  | trace_step m op a m1 ops l m2 : poll_step m op a m1 -> poll_trace m1 ops l m2 -> poll_trace m (op :: ops) (a :: l) m2.

#[export] Instance epoll_poller {K U} {EP : Epoll K} {EL : EpollLaws K} : @PollerLaws (ntc_poller K U) U epoll_ops :=
  {| po_wf := epoll_wf; po_reg := epoll_reg; po_refines := epoll_refines |}.
Definition kqueue_poller {K U} {KQ : Kqueue K} {KL : KqueueLaws K} : @PollerLaws (ntc_poller K U) U kqueue_ops :=
  {| po_wf := kqueue_wf; po_reg := kqueue_reg; po_refines := kqueue_refines |}.

(** A run of any backend is a trace of the contract. *)
Lemma runs_refine {P U} {PO : PollerOps P U} {PL : PollerLaws P U} ops : forall p, po_wf p -> Forall op_ok ops ->
  exists l p', poll_runs ops p = Some (l, p') /\ po_wf p' /\ poll_trace (po_reg p) ops l (po_reg p').
Proof.
  induction ops as [|op ops IH]; intros p Hp Hops; cbn [poll_runs].
  { exists [], p. split_and!; [done|done|constructor]. }
  apply Forall_cons_1 in Hops as [Hop Hops]. destruct (po_refines p op Hp Hop) as (a & p1 & -> & Hp1 & H1). bind.
  destruct (IH p1 Hp1 Hops) as (l & p2 & -> & Hp2 & H2). bind. do 2 eexists. split_and!; [done|done|by econstructor].
Qed.

(** C19. The two backends keep one contract. On an epoll object, and on a kqueue, that hold
    nothing yet, a new poller runs any sequence of add, modify, delete and wait without a fault
    when the descriptors are below 2^30 and each interest asks for something; and the answers
    are those of one map from a descriptor to its interest and its data: a change that
    succeeds is made, one that fails touches no other descriptor, and a wait gives at most
    [max] and at most 256 events, each of a descriptor that is registered, with the data it was
    last registered with. *)
Theorem pollers_refine (U : Type) (ops : list (poll_op U)) : Forall op_ok ops ->
  (forall K (EP : Epoll K) (EL : EpollLaws K) k, (forall x, ep_set k x = None) ->
    exists p l p', epoll_create true (Some k) = (NTC_OK, Some p) /\ poll_runs ops p = Some (l, p') /\
      poll_trace (epoll_reg p) ops l (epoll_reg p') /\ forall x, epoll_reg p x = None) /\
  (forall K (KQ : Kqueue K) (KL : KqueueLaws K) k, (forall x, kq_set k x = false) ->
    exists p l p', kqueue_create true (Some k) = (NTC_OK, Some p) /\ poll_runs (H := kqueue_ops) ops p = Some (l, p') /\
      poll_trace (kqueue_reg p) ops l (kqueue_reg p') /\ forall x, kqueue_reg p x = None).
Proof.
  intros Hops. split.
  - intros K EP EL k Hk. set (p := Poller k [] 0 : ntc_poller K U).
    assert (epoll_wf p) as Hp by (split_and!; [done|done|]; intros fd a; cbn; by rewrite Hk).
    destruct (runs_refine (PL := epoll_poller) ops p Hp Hops) as (l & p' & E & _ & H). exists p, l, p'. split_and!; [done|done|done|].
    intros x. unfold epoll_reg. cbn. by rewrite Hk.
  - intros K KQ KL k Hk. set (p := Poller k [] 0 : ntc_poller K U).
    assert (kqueue_wf p) as Hp by (split_and!; [done|done|]; intros fd f; cbn; by rewrite Hk).
    destruct (runs_refine (PL := kqueue_poller) ops p Hp Hops) as (l & p' & E & _ & H). exists p, l, p'. split_and!; [done|done|done|].
    intros x. unfold kqueue_reg, filters. cbn. by rewrite !Hk.
Qed.

Lemma grow_overflows fd : 2 ^ 30 <= fd -> grow 32 16 fd = None.
Proof.
  intros H. do 27 (cbn [grow]; rewrite (proj2 (Z.leb_le _ fd)) by lia; match goal with |- context [INT_MAX <? ?n] => change (INT_MAX <? n) with false || change (INT_MAX <? n) with true end; cbn match).
  reflexivity.
Qed.

(** C20. The bounds of the poller's array. For a descriptor below 2^30 the doubling ends without
    overflowing an [int]; the array then has room for the descriptor and at most twice as many
    entries as it needs (or 16, or those it had), it never shrinks, and no data moves. Without
    memory the error is returned and the data is as it was. A new poller asked for a descriptor
    of 2^30 or more overflows the [int]. *)
Theorem ensure_cap_bounds {K U} (got : bool) (p : ntc_poller K U) fd : array_ok p -> 0 <= fd ->
  (fd < 2 ^ 30 -> exists e p', ensure_cap got p fd = Some (e, p') /\ array_ok p' /\ pl_kernel p' = pl_kernel p /\
    pl_cap p <= pl_cap p' /\ (forall x, data_at p' x = data_at p x) /\
    (e = NTC_OK -> fd < pl_cap p' <= Z.max (Z.max 16 (pl_cap p)) (2 * fd))) /\
  (2 ^ 30 <= fd -> pl_cap p = 0 -> ensure_cap got p fd = None).
Proof.
  intros Hok Hfd. split.
  - intros H. by apply ensure_cap_spec.
  - intros H Hc. unfold ensure_cap. rewrite Hc. rewrite (proj2 (Z.ltb_ge fd 0)) by lia. change (0 =? 0) with true. cbn match.
    by rewrite grow_overflows.
Qed.

Lemma ensure_cap_bounds_witness :
  let p := Poller tt (replicate 16 (@None nat)) 16 in
  (pl_cap <$> (snd <$> ensure_cap true p 70)) = Some 128 /\
  ((70 < 2 ^ 30 -> exists e p', ensure_cap true p 70 = Some (e, p') /\ array_ok p' /\ pl_kernel p' = pl_kernel p /\
    pl_cap p <= pl_cap p' /\ (forall x, data_at p' x = data_at p x) /\
    (e = NTC_OK -> 70 < pl_cap p' <= Z.max (Z.max 16 (pl_cap p)) (2 * 70))) /\
  (2 ^ 30 <= 70 -> pl_cap p = 0 -> ensure_cap true p 70 = None)).
Proof. split; [vm_compute; reflexivity|]. apply (ensure_cap_bounds true (Poller tt (replicate 16 (@None nat)) 16) 70); [reflexivity|lia]. Defined.

(** ** Kernels that do as documented *)

(** Every registered descriptor is ready, for all that it asks for. *)
#[export] Instance ready_epoll : Epoll (gmap Z Z) := {
  epoll_ctl k op fd ev :=
    match op, k !! fd with
    | EpAdd, None | EpMod, Some _ => (true, <[fd := ev]> k)
    | EpDel, Some _ => (true, delete fd k)
    | _, _ => (false, k)
    end;
  epoll_wait k max t := (inr (take (Z.to_nat max) (filter (fun x => snd x <> 0) (map_to_list k))), k) }.

#[export] Instance ready_epoll_laws : EpollLaws (gmap Z Z).
Proof.
  refine {| ep_set k x := k !! x |}.
  - intros k op fd ev k'. cbn. destruct op, (k !! fd) as [a|] eqn:E; intros [= <-]; (split; [done|]); intros x;
      (destruct (decide (x = fd)) as [->|]; [by rewrite ?lookup_insert_eq, ?lookup_delete_eq|by rewrite ?lookup_insert_ne, ?lookup_delete_ne by done]).
  - intros k op fd ev k'. cbn. by destruct op, (k !! fd); intros [= <-].
  - intros k max t r k'. cbn. by intros [= _ <-].
  - intros k max t evs k' Hm. cbn. intros [= <- <-]. split; [rewrite length_take; lia|].
    apply Forall_take, list.Forall_forall. intros [x a] [Ha Hin]%list_elem_of_filter. exists a. apply elem_of_map_to_list in Hin.
    split; [done|]. split; [done|]. cbn. apply Z.bits_inj'. intros i _. rewrite Z.land_spec, Z.lor_spec. by destruct (Z.testbit a i).
Defined.

Fixpoint kq_do (cs : list kq_change) (k : gset (Z * kq_filter)) : list Z * gset (Z * kq_filter) :=
  match cs with
  | [] => ([], k)
  | c :: cs =>
      let '(d, k) := if kc_add c then (0, {[ kc_key c ]} ∪ k)
                     else if decide (kc_key c ∈ k) then (0, k ∖ {[ kc_key c ]}) else (ENOENT, k) in
      let '(ds, k) := kq_do cs k in (d :: ds, k)
  end.
#[export] Instance ready_kqueue : Kqueue (gset (Z * kq_filter)) := {
  kevent_change k cs := let '(ds, k) := kq_do cs k in (Some ds, k);
  kevent_wait k max t := (inr (take (Z.to_nat max) ((fun x => KqEvent (fst x) (snd x) false) <$> elements k)), k) }.

Lemma kq_do_others cs : forall k x, x ∉ (kc_key <$> cs) -> (x ∈ snd (kq_do cs k) <-> x ∈ k).
Proof.
  induction cs as [|c cs IH]; intros k x Hx; cbn [kq_do]; [done|].
  rewrite fmap_cons, not_elem_of_cons in Hx. destruct Hx as [Hc Hx].
  match goal with |- context [let '(_, _) := ?y in _] => destruct y as [d k1] eqn:E end.
  specialize (IH k1 x Hx). destruct (kq_do cs k1) as [ds k2]. cbn in IH |- *. rewrite IH.
  destruct (kc_add c); [|destruct (decide _)]; injection E as <- <-; set_solver.
Qed.

Lemma kq_do_receipts cs : forall k, NoDup (kc_key <$> cs) ->
  Forall2 (fun c d => (d = 0 -> bool_decide (kc_key c ∈ snd (kq_do cs k)) = kc_add c) /\
    (d = ENOENT -> kc_add c = false /\ bool_decide (kc_key c ∈ snd (kq_do cs k)) = false)) cs (fst (kq_do cs k)).
Proof.
  induction cs as [|c cs IH]; intros k Hn; cbn [kq_do]; [constructor|]. rewrite fmap_cons, NoDup_cons in Hn. destruct Hn as [Hc Hn].
  match goal with |- context [let '(_, _) := ?y in _] => destruct y as [d k1] eqn:E end.
  specialize (IH k1 Hn). pose proof (kq_do_others cs k1 _ Hc) as Ho. destruct (kq_do cs k1) as [ds k2]. cbn [fst snd] in *.
  constructor; [|exact IH]. rewrite (bool_decide_ext _ _ Ho).
  destruct (kc_add c); [|destruct (decide _)]; injection E as <- <-; (split; [intros H|intros [=]]); try done.
  - apply bool_decide_eq_true. set_solver.
  - apply bool_decide_eq_false. set_solver.
  - split; [done|]. by apply bool_decide_eq_false.
Qed.

#[export] Instance ready_kqueue_laws : KqueueLaws (gset (Z * kq_filter)).
Proof.
  refine {| kq_set k x := bool_decide (x ∈ k) |}.
  - intros k cs r k' x. cbn. destruct (kq_do cs k) as [ds k1] eqn:E. intros [= _ <-] Hx. apply bool_decide_ext.
    pose proof (kq_do_others cs k x Hx) as H. by rewrite E in H.
  - intros k cs rs k'. cbn. destruct (kq_do cs k) as [ds k1] eqn:E. intros [= <- <-] Hn.
    pose proof (kq_do_receipts cs k Hn) as H. by rewrite E in H.
  - intros k max t r k' x. cbn. by intros [= _ <-].
  - intros k max t evs k' Hm. cbn. intros [= <- <-]. split; [rewrite length_take; lia|].
    apply Forall_take, Forall_fmap, list.Forall_forall. intros [x f] Hin _. cbn. apply bool_decide_eq_true. by apply elem_of_elements.
Defined.

(** Two descriptors, one of which changes its interest and leaves: what both backends answer. *)
Definition demo_ops : list (poll_op nat) :=
  [PAdd true 5 POLL_READ (Some 50%nat); PAdd true 20 (Z.lor POLL_READ POLL_WRITE) None; PMod 5 POLL_WRITE (Some 51%nat);
   PDel 20; PDel 300; PWait 8 (-1)].
Definition demo_answers : list (poll_ans nat) :=
  [AErr NTC_OK; AErr NTC_OK; AErr NTC_OK; AErr NTC_OK; AErr NTC_ERR_INVALID; AEvents 1 [PollEvent nat 5 POLL_WRITE (Some 51%nat)]].

Lemma pollers_refine_witness :
  (fst <$> poll_runs demo_ops (Poller (∅ : gmap Z Z) [] 0)) = Some demo_answers /\
  (fst <$> poll_runs (H := kqueue_ops) demo_ops (Poller (∅ : gset (Z * kq_filter)) [] 0)) = Some demo_answers /\
  exists p l p', epoll_create true (Some (∅ : gmap Z Z)) = (NTC_OK, Some p) /\ poll_runs demo_ops p = Some (l, p') /\
    poll_trace (epoll_reg p) demo_ops l (epoll_reg p') /\ forall x, epoll_reg p x = None.
Proof.
  split; [vm_compute; reflexivity|]. split; [vm_compute; reflexivity|].
  refine (proj1 (pollers_refine nat demo_ops _) (gmap Z Z) ready_epoll ready_epoll_laws ∅ _); [|intros x; apply lookup_empty].
  repeat constructor; discriminate.
Defined.
