(* ===== verification/Controllers.v ===== *)
(** * The example controllers (controllers/)

    Five programs on the SDK: a one-shot handler, a token endpoint, an event stream, an upload
    summary and a WebSocket echo.  Sleeping between events and the process id are the system's. *)
From S2P Require Import Prelude Update Slice Posix Double Json Crypto Jwt Arena Http HttpRequest Wire Multipart Sdk.
Open Scope Z_scope.

(** [%.*s] of a slice: its bytes up to a NUL. [%.*s] of NULL with 0 is empty. *)
Definition slice_fmt (s : ntc_slice) : bytes := cstr s.
Definition query_of (req : ntc_request) (name : bytes) : ntc_slice := default [] (default None (ntc_req_query req name)).

Section replies.
Context {U : Type} (malloc : Z -> option Z).

(** controller_sdk.c:12-27 [ntc_reply_json, buffer]. The text's buffer is taken from the
    arena. *)
Definition reply_json (res : ntc_response) (a : ntc_arena) (status : Z) (text : bytes) : Z * ntc_response * ntc_arena :=
  let '(p, a) := ntc_arena_alloc malloc a (Z.of_nat (length text) + 1) in
  let '(r, res) := ntc_reply_json res (bool_decide (is_Some p)) status text in (r, res, a).

(** ** hello *)

(** hello_controller.c:21-30 [handle, body] *)
Definition hello_text (pid : Z) (req : ntc_request) : bytes :=
  qs "{'controller':'hello','pid':" ++ fmt_d pid ++ qs ",'method':'" ++ slice_fmt (method req) ++
  qs "','path':'" ++ slice_fmt (path req) ++ qs "','name':'" ++ slice_fmt (default [] (ntc_req_param req (bs "name"))) ++
  qs "','sub':'" ++ slice_fmt (auth_sub req) ++ qs "'}".

(** hello_controller.c:11-31 [handle] *)
Definition hello_handle (pid : Z) (req : ntc_request) (res : ntc_response) (a : ntc_arena) (u : U)
    : Z * ntc_response * ntc_arena * U :=
  let rd := query_of req (bs "redirect") in
  if (0 <? length rd)%nat && (length rd <? 240)%nat then
    let loc := to_cstr 256 rd in
    let '(_, res) := ntc_res_header res (bs "X-Test") (bs "hello") in
    let '(r, res) := ntc_redirect res 302 loc in (r, res, a, u)
  else
    let '(r, res, a) := reply_json res a 200 (hello_text pid req) in (r, res, a, u).

(** hello_controller.c:33-36 [main] *)
Definition hello_controller (pid : Z) : ntc_controller U :=
  Controller (Some (bs "hello")) (Some (hello_handle pid)) None None None None.

(** ** The token endpoint *)

(** oauth_mock.c:11-14 [ID_TOKEN] *)
Definition ID_TOKEN : bytes :=
  bs "eyJhbGciOiJIUzI1NiIsInR5cCI6IkpXVCJ9." ++
  bs "eyJzdWIiOiJhbGljZSIsInNjb3BlIjoib3BlbmlkIHByb2ZpbGUiLCJpYXQiOjE3MDAwMDAwMDAsImV4cCI6NDEwMjQ0NDgwMH0." ++
  bs "EE7TRu9qSUNN4nXFLWy3e3eTCEm8K6iAM-rKriEdmK4".

(** oauth_mock.c:18-20 [handle, body] *)
Definition mock_text : bytes :=
  qs "{'access_token':'mock-access','token_type':'Bearer','expires_in':3600,'id_token':'" ++ ID_TOKEN ++ qs "'}".

(** oauth_mock.c:16-21 [handle] *)
Definition mock_handle (req : ntc_request) (res : ntc_response) (a : ntc_arena) (u : U) : Z * ntc_response * ntc_arena * U :=
  let '(r, res, a) := reply_json res a 200 mock_text in (r, res, a, u).

(** oauth_mock.c:23-26 [main] *)
Definition mock_controller : ntc_controller U :=
  Controller (Some (bs "oauthmock")) (Some mock_handle) None None None None.

(** ** The event stream *)

(** sse_controller.c:18-25 [qint] *)
Definition qint (req : ntc_request) (key : bytes) (dflt : Z) : Z :=
  let s := query_of req key in
  if (length s =? 0)%nat || (15 <? length s)%nat then dflt else atoi (cstr s).

(** sse_controller.c:29-31 [stream, count] *)
Definition sse_count (req : ntc_request) : Z :=
  let n := qint req (bs "n") 3 in
  let n := if n <? 1 then 1 else n in
  if 1000 <? n then 1000 else n.

(** sse_controller.c:37-42 [stream, chunks]. [k] events are left, of which [i] is the next. *)
Fixpoint chunk_loop (k : nat) (i : Z) (u : U) : stream_prog U :=
  match k with
  | O => SDone 0 u
  | S k => SWrite (snprintf 64 (bs "chunk " ++ fmt_d i ++ [10])) (fun r => if r =? 0 then chunk_loop k (i + 1) u else SDone 0 u)
  end.

(** sse_controller.c:45-50 [stream, events]. [got i] says whether the SDK has memory for
    event [i]. *)
Fixpoint tick_loop (got : Z -> bool) (k : nat) (i : Z) (u : U) : stream_prog U :=
  match k with
  | O => SDone 0 u
  | S k => SSse (got i) (Some (bs "message")) (Some (snprintf 32 (bs "tick " ++ fmt_d i)))
             (fun r => if r =? 0 then tick_loop got k (i + 1) u else SDone 0 u)
  end.

(** sse_controller.c:27-53 [stream] *)
Definition sse_stream (got : Z -> bool) (req : ntc_request) (a : ntc_arena) (u : U) : stream_prog U * ntc_arena :=
  let n := Z.to_nat (sse_count req) in
  (if ntc_slice_eq_cstr (query_of req (bs "mode")) (bs "chunked")
   then SBegin 200 (bs "text/plain") (fun r => if r =? 0 then chunk_loop n 0 u else SDone (-1) u)
   else SSseBegin (fun r => if r =? 0 then tick_loop got n 0 u else SDone (-1) u), a).

(** sse_controller.c:55-58 [main] *)
Definition sse_controller (got : Z -> bool) : ntc_controller U :=
  Controller (Some (bs "sse")) None (Some (sse_stream got)) None None None.

(** ** The upload summary *)

(** upload_echo.c:24-29 [handle, fields]. The field's text, the file's name and its size; of
    several parts of a name, the last counts. *)
Definition pick_part (acc : ntc_slice * ntc_slice * Z) (p : ntc_multipart_part) : ntc_slice * ntc_slice * Z :=
  let '(field, fname, fsize) := acc in
  let field := if ntc_slice_eq_cstr (p_name p) (bs "field") then p_data p else field in
  if ntc_slice_eq_cstr (p_name p) (bs "file") then (field, p_filename p, Z.of_nat (length (p_data p))) else (field, fname, fsize).

(** upload_echo.c:30-32 [handle, body] *)
Definition upload_text (parts : list ntc_multipart_part) : bytes :=
  let '(field, fname, fsize) := foldl pick_part ([], [], 0) parts in
  qs "{'parts':" ++ fmt_d (Z.of_nat (length parts)) ++ qs ",'field':'" ++ slice_fmt field ++
  qs "','filename':'" ++ slice_fmt fname ++ qs "','filesize':" ++ fmt_d fsize ++ bs "}".

(** upload_echo.c:14-33 [handle] *)
Definition upload_handle (req : ntc_request) (res : ntc_response) (a : ntc_arena) (u : U) : Z * ntc_response * ntc_arena * U :=
  let '(status, text) :=
    match ntc_multipart_boundary (default [] (ntc_http_header req (bs "content-type"))) 128 with
    | None => (400, qs "{'error':'not multipart/form-data'}")
    | Some boundary =>
        match ntc_multipart_parse (body req) boundary 16 with
        | None => (400, qs "{'error':'malformed multipart'}")
        | Some parts => (200, upload_text parts)
        end
    end in
  let '(r, res, a) := reply_json res a status text in (r, res, a, u).

(** upload_echo.c:35-38 [main] *)
Definition upload_controller : ntc_controller U :=
  Controller (Some (bs "upload")) (Some upload_handle) None None None None.

(** ** The WebSocket echo *)

(** ws_echo.c:13-16 [on_open]. [got] says whether the SDK has memory for the message. *)
Definition ws_on_open (got : bool) (req : ntc_request) (u : U) : ws_prog U :=
  WText got (Some (bs "welcome")) (fun _ => WDone u).

(** ws_echo.c:18-24 [on_message]. The text stops at the first NUL of the message, or after
    1024 bytes. *)
Definition echo_text (data : bytes) : bytes := bs "echo: " ++ cstr (take 1024 data).
Definition ws_on_message (got : bool) (opcode : Z) (data : bytes) (u : U) : ws_prog U :=
  WSend got opcode (snprintf 1100 (echo_text data)) (fun _ => WDone u).

(** ws_echo.c:26-36 [main]; the message of a closed connection does nothing. *)
Definition ws_echo (got : bool) : ntc_controller U :=
  Controller (Some (bs "wsecho")) None None (Some (ws_on_open got)) (Some (ws_on_message got)) (Some (fun u => WDone u)).
End replies.

(** ** The stream that is sent *)

Section streams.
Context {U : Type} (malloc : Z -> option Z).
Implicit Types (s : stream_fd) (u : U).

Lemma short_decimal i : 0 <= i < 1000 -> (length (fmt_d i) <= 3)%nat.
Proof.
  intros Hi. assert (Forall (fun i => (length (fmt_d i) <= 3)%nat) (seqZ 0 1000)) as H
    by (apply (bool_decide_unpack _); vm_compute; exact I).
  rewrite list.Forall_forall in H. apply H, elem_of_seqZ. lia.
Qed.

Lemma chunk_line i : 0 <= i < 1000 -> snprintf 64 (bs "chunk " ++ fmt_d i ++ [10]) = bs "chunk " ++ fmt_d i ++ [10].
Proof. intros Hi. pose proof (short_decimal i Hi). apply take_ge. rewrite !length_app. change (length (bs "chunk ")) with 6%nat. simpl. lia. Qed.
Lemma tick_data i : 0 <= i < 1000 -> snprintf 32 (bs "tick " ++ fmt_d i) = bs "tick " ++ fmt_d i.
Proof. intros Hi. pose proof (short_decimal i Hi). apply take_ge. rewrite !length_app. change (length (bs "tick ")) with 5%nat. lia. Qed.

(** The frames of the events [i], [i + 1], and so on to [i + k - 1]. *)
Definition event_frames (rid : Z) (text : Z -> bytes) (i : Z) (k : nat) : list ctl_frame :=
  (fun i => (NTC_MSG_RESPONSE_CHUNK, rid, enc32 (text i))) <$> seqZ i (Z.of_nat k).

Lemma event_frames_S rid text i k :
  event_frames rid text i (S k) = (NTC_MSG_RESPONSE_CHUNK, rid, enc32 (text i)) :: event_frames rid text (i + 1) k.
Proof.
  unfold event_frames. rewrite seqZ_cons by lia. cbn. unfold Z.succ. by replace (Z.pred (Z.of_nat (S k))) with (Z.of_nat k) by lia.
Qed.

Definition chunk_text (i : Z) : bytes := bs "chunk " ++ fmt_d i ++ [10].
Definition tick_text (i : Z) : bytes := sse_text (Some (bs "message")) (Some (bs "tick " ++ fmt_d i)).

(** An open stream, to which a text of a small size is written. *)
Lemma write_event s rid data : fd_calm s -> data <> [] -> (length data <= 100)%nat ->
  exists s', ntc_stream_write s (Stream rid true false) data = (0, s') /\
    sent_more s s' (wire_frame (NTC_MSG_RESPONSE_CHUNK, rid, enc32 data)).
Proof. intros Hs Hd Hl. apply stream_write_open; [done|done|lia]. Qed.

Lemma chunk_loop_sends rid u k : forall s i, fd_calm s -> 0 <= i -> i + Z.of_nat k <= 1000 ->
  exists s', run_stream (chunk_loop k i u) s (Stream rid true false) = Some (0, u, s', Stream rid true false) /\
    sent_more s s' (wire_frames (event_frames rid chunk_text i k)).
Proof.
  induction k as [|k IH]; intros s i Hs Hi Hk; cbn [chunk_loop run_stream].
  { exists s. split; [done|by apply sent_more_nil]. }
  rewrite chunk_line by lia. pose proof (short_decimal i ltac:(lia)) as Hl.
  destruct (write_event s rid (chunk_text i) Hs) as (s1 & E & M); [done|unfold chunk_text; rewrite !length_app; simpl; lia|].
  fold (chunk_text i). rewrite E. change (0 =? 0) with true. cbn match.
  destruct (IH s1 (i + 1)) as (s2 & -> & M2); [apply M|lia|lia|]. exists s2. split; [done|].
  rewrite event_frames_S. exact (sent_more_trans _ _ _ [_] _ (sent_more_one _ _ _ M) M2).
Qed.

Lemma tick_loop_sends got rid u k : (forall i, got i = true) -> forall s i, fd_calm s -> 0 <= i -> i + Z.of_nat k <= 1000 ->
  exists s', run_stream (tick_loop got k i u) s (Stream rid true false) = Some (0, u, s', Stream rid true false) /\
    sent_more s s' (wire_frames (event_frames rid tick_text i k)).
Proof.
  intros Hgot. induction k as [|k IH]; intros s i Hs Hi Hk; cbn [tick_loop run_stream].
  { exists s. split; [done|by apply sent_more_nil]. }
  rewrite tick_data, sse_send_eq, Hgot by lia. cbn [st_begun st_ended negb orb]. bind. pose proof (short_decimal i ltac:(lia)) as Hl.
  destruct (write_event s rid (tick_text i) Hs) as (s1 & E & M);
    [done|unfold tick_text, sse_text; cbn [default length Nat.eqb]; rewrite !length_app; simpl; rewrite ?length_app; simpl; lia|].
  fold (tick_text i). rewrite E. change (0 =? 0) with true. cbn match.
  destruct (IH s1 (i + 1)) as (s2 & -> & M2); [apply M|lia|lia|]. exists s2. split; [done|].
  rewrite event_frames_S. exact (sent_more_trans _ _ _ [_] _ (sent_more_one _ _ _ M) M2).
Qed.

Lemma sse_count_range req : 1 <= sse_count req <= 1000.
Proof. unfold sse_count. repeat case_match; rewrite ?Z.ltb_lt, ?Z.ltb_ge in *; lia. Qed.

(** The stream a request asks for. *)
Definition stream_frames (rid : Z) (req : ntc_request) : list ctl_frame :=
  let n := Z.to_nat (sse_count req) in
  (if ntc_slice_eq_cstr (query_of req (bs "mode")) (bs "chunked")
   then (NTC_MSG_RESPONSE_BEGIN, rid, put_u16 200 ++ NTC_STREAM_FLAG_CHUNKED :: enc16 (bs "text/plain")) :: event_frames rid chunk_text 0 n
   else (NTC_MSG_RESPONSE_BEGIN, rid, put_u16 200 ++ NTC_STREAM_FLAG_SSE :: enc16 (bs "text/event-stream")) :: event_frames rid tick_text 0 n) ++
  [(NTC_MSG_RESPONSE_END, rid, [])].

(** The event-stream controller, over the SDK and the wire. For a request the gateway encoded,
    with memory and a descriptor that accepts what is written, it sends one BEGIN (of SSE, or of
    chunked text when [mode] is "chunked"), the [n] events the query asks for, numbered from 0 in
    order, each in a CHUNK of its own and in full, and one END, which the SDK adds; [n] is 3
    unless it is given, and from 1 to 1000. The controller's state is as it was. *)
Theorem sse_streams got rid req a s u :
  fd_calm s -> (forall i, got i = true) -> wire_request req = true ->
  1 <= sse_count (received req) <= 1000 /\
  exists s', serve_stream malloc (sse_stream got) rid (request_spec req) a s u = Some (s', u) /\
    fd_in s' = fd_in s /\ fd_sent s' = fd_sent s ++ wire_frames (stream_frames rid (received req)).
Proof.
  intros Hs Hgot Hw. split; [apply sse_count_range|]. pose proof (sse_count_range (received req)) as Hn.
  unfold serve_stream. rewrite <- (app_nil_r (request_spec req)), decode_request_spec by done. bind. unfold sse_stream, stream_frames.
  assert (forall s1 st, st = Stream rid true false -> fd_calm s1 -> exists s2, ntc_stream_end s1 st = (0, s2, Stream rid true true) /\
    sent_more s1 s2 (wire_frame (NTC_MSG_RESPONSE_END, rid, []))) as Hend.
  { intros s1 st -> H1. destruct (send_frame_calm s1 NTC_MSG_RESPONSE_END rid [] H1 eq_refl) as (s2 & E & M).
    unfold ntc_stream_end. cbn [st_ended st_begun st_rid]. change (Z.of_nat (length [])) with 0 in E. rewrite E. by exists s2. }
  destruct (ntc_slice_eq_cstr _ _); cbn [run_stream].
  - unfold ntc_stream_begin.
    destruct (stream_begin_fresh s rid 200 NTC_STREAM_FLAG_CHUNKED (bs "text/plain") Hs ltac:(done) eq_refl) as (s1 & -> & M1). bind. change (0 =? 0) with true. cbn match.
    destruct (chunk_loop_sends rid u (Z.to_nat (sse_count (received req))) s1 0) as (s2 & -> & M2); [apply M1|lia|lia|]. bind.
    cbn [st_begun st_ended]. destruct (Hend s2 _ eq_refl) as (s3 & -> & M3); [apply M2|]. exists s3. split; [done|].
    destruct (sent_more_trans _ _ _ [_] _ (sent_more_one _ _ _ M1) (sent_more_trans _ _ _ _ [_] M2 (sent_more_one _ _ _ M3))) as (_ & I & D).
    split; [done|exact D].
  - unfold ntc_sse_begin.
    destruct (stream_begin_fresh s rid 200 NTC_STREAM_FLAG_SSE (bs "text/event-stream") Hs ltac:(done) eq_refl) as (s1 & -> & M1). bind. change (0 =? 0) with true. cbn match.
    destruct (tick_loop_sends got rid u (Z.to_nat (sse_count (received req))) Hgot s1 0) as (s2 & -> & M2); [apply M1|lia|lia|]. bind.
    cbn [st_begun st_ended]. destruct (Hend s2 _ eq_refl) as (s3 & -> & M3); [apply M2|]. exists s3. split; [done|].
    destruct (sent_more_trans _ _ _ [_] _ (sent_more_one _ _ _ M1) (sent_more_trans _ _ _ _ [_] M2 (sent_more_one _ _ _ M3))) as (_ & I & D).
    split; [done|exact D].
Qed.
End streams.

(** A request for two events, over a descriptor that takes a few bytes at a time. *)
Definition two_ticks : ntc_request :=
  Request (bs "GET") (bs "/s") (bs "/s") (bs "n=2") 1 [] [] [] [] false 0 [].

Lemma sse_streams_witness :
  let s := StreamFd [] [WrTakes 3; WrIntr; WrTakes 20] [] in
  stream_frames 9 (received two_ticks) =
    [(NTC_MSG_RESPONSE_BEGIN, 9, put_u16 200 ++ NTC_STREAM_FLAG_SSE :: enc16 (bs "text/event-stream"));
     (NTC_MSG_RESPONSE_CHUNK, 9, enc32 (bs "event: message" ++ [10] ++ bs "data: tick 0" ++ [10; 10]));
     (NTC_MSG_RESPONSE_CHUNK, 9, enc32 (bs "event: message" ++ [10] ++ bs "data: tick 1" ++ [10; 10]));
     (NTC_MSG_RESPONSE_END, 9, [])] /\
  1 <= sse_count (received two_ticks) <= 1000 /\
  exists s', serve_stream some_malloc (sse_stream (fun _ => true)) 9 (request_spec two_ticks) (Arena [] 0 0) s 0%nat = Some (s', 0%nat) /\
    fd_in s' = fd_in s /\ fd_sent s' = fd_sent s ++ wire_frames (stream_frames 9 (received two_ticks)).
Proof.
  intros s. split; [vm_compute; reflexivity|].
  apply (sse_streams some_malloc (fun _ => true) 9 two_ticks (Arena [] 0 0) s 0%nat); [split; repeat constructor|done|reflexivity].
Defined.

(** ** The other controllers *)

(** The upload controller tells an upload of at most 16 parts what it holds: the number of
    parts, the text of the last part named [field], the file name and size of the last named
    [file]. *)
Lemma upload_summarised {U} malloc boundary preamble ps epilogue req a (u : U) :
  ntc_http_header req (bs "content-type") = Some (bs "multipart/form-data; boundary=" ++ boundary) ->
  body req = multipart_text boundary preamble ps epilogue ->
  boundary <> [] -> 13 ∉ boundary -> 59 ∉ boundary -> head boundary <> Some 34 -> (length boundary < 128)%nat -> 45 ∉ preamble ->
  Forall (part_ok boundary) ps -> (length ps <= 16)%nat -> has_room malloc a -> Z.of_nat (length (upload_text ps)) < 2 ^ 32 ->
  exists a', upload_handle malloc req fresh_response a u = (0, Response 200 (bs "application/json") (upload_text ps) [], a', u).
Proof.
  intros Hh Hb Hne Hcr Hs Hq Hl Hpre Hps Hn Ha Ht. unfold upload_handle. rewrite Hh. unfold default, id.
  destruct (multipart_read_back boundary 128 preamble ps epilogue 16) as [-> E]; try done; [lia|].
  rewrite Hb, E, take_ge by (change (Z.to_nat 16) with 16%nat; lia). unfold reply_json.
  destruct (Ha (Z.of_nat (length (upload_text ps)) + 1)) as [p Ep]; [lia|].
  destruct (ntc_arena_alloc _ _ _) as [p' a'] eqn:Ea. cbn in Ep. subst p'. rewrite bool_decide_true by by eexists.
  by exists a'.
Qed.

Example upload_demo :
  upload_text upload = qs "{'parts':2,'field':'hello world','filename':'a.txt','filesize':10}".
Proof. vm_compute. reflexivity. Qed.

(** The token of the mock endpoint passes the gateway's check with the client's secret: it is a
    token of alice until the year 2100, and of nobody after it. *)
Example mock_token_verifies :
  let check now : option (option bytes) :=
    v ← ntc_json_parse [] mock_text; c ← ntc_jwt_verify_hs256 am_ok (ntc_json_str (ntc_json_get v (bs "id_token"))) (bs "oauth-test-secret") now;
    Some (option_map cl_sub c) in
  check 1800000000 = Some (Some (bs "alice")) /\ check 4102444801 = Some None.
Proof. vm_compute. split; reflexivity. Qed.

(** Values are put into the answer as they are: a [name] with quotation marks adds members, and
    the first [sub] that a reader finds is the client's. *)
Example hello_members_injected :
  let req := Request (bs "GET") (bs "/api/hello/x") (bs "/api/hello/x") [] 1 [] [Header (bs "name") (qs "x','sub':'admin")]
               (bs "bob") [] false 0 [] in
  (v ← ntc_json_parse [] (hello_text 7 req); Some (ntc_json_str (ntc_json_get v (bs "sub")))) = Some (bs "admin").
Proof. vm_compute. reflexivity. Qed.

(** A short message without a NUL is echoed in full; a NUL cuts it. *)
Lemma echo_in_full data : (length data <= 1024)%nat -> 0 ∉ data -> snprintf 1100 (echo_text data) = bs "echo: " ++ data.
Proof.
  intros Hl H0. unfold echo_text. rewrite (take_ge data) by lia. rewrite cstr_id by done. apply take_ge.
  rewrite length_app. change (length (bs "echo: ")) with 6%nat. lia.
Qed.
Example echo_cut : snprintf 1100 (echo_text [1; 0; 2]) = bs "echo: " ++ [1].
Proof. vm_compute. reflexivity. Qed.
