(* ===== verification/Process.v ===== *)
(** * Logging and signals (src/common/log.c, src/common/signal.c)

    The line that a message becomes, and what a process that installed the handlers does with
    a signal. *)
From S2P Require Import Prelude Posix ControlClient.
Open Scope Z_scope.

(** ** Logging *)

(** color.h:14-16 [NTC_ANSI_YELLOW, NTC_ANSI_BLUE, NTC_ANSI_CYAN] *)
Definition NTC_ANSI_YELLOW : bytes := 27 :: bs "[1;33m".
Definition NTC_ANSI_BLUE : bytes := 27 :: bs "[1;34m".
Definition NTC_ANSI_CYAN : bytes := 27 :: bs "[1;36m".

(** log.c:12-12 [names] *)
Definition log_names : list bytes := [bs "DEBUG"; bs "INFO"; bs "OK"; bs "WARN"; bs "ERROR"].
(** log.c:13-19 [codes] *)
Definition log_codes : list bytes := [NTC_ANSI_CYAN; NTC_ANSI_BLUE; NTC_ANSI_GREEN; NTC_ANSI_YELLOW; NTC_ANSI_RED].

(** log.c:21-22 [ntc_log, idx]; log.h:10-16 numbers the levels. *)
Definition log_index (lvl : Z) : Z := if (lvl <? 0) || (4 <? lvl) then 4 else lvl.

(** [%03ld] of a number below 1000, and [%-5s]. *)
Definition fmt_03d (z : Z) : bytes := replicate (3 - length (fmt_d z)) 48 ++ fmt_d z.
Definition fmt_5s (s : bytes) : bytes := s ++ replicate (5 - length s) 32.

Section log.
Context (env : environ) (isatty : Z -> bool) (mode : Z).

(** log.c:11-46 [ntc_log]. The line; [tbuf] is the local time as text, [nsec] its nanoseconds,
    [text] the formatted message, and [cache] what is remembered of the terminals. *)
Definition ntc_log (lvl : Z) (tbuf : bytes) (nsec : Z) (text : bytes) (cache : list (option bool))
    : option (bytes * list (option bool)) :=
  let idx := Z.to_nat (log_index lvl) in
  name ← log_names !! idx;
  code ← log_codes !! idx;
  let ms := nsec ÷ 1000000 in
  let '(dim, cache) := ntc_colorize env isatty mode cache 2 NTC_ANSI_DIM in
  let '(reset, cache) := ntc_colorize env isatty mode cache 2 NTC_ANSI_RESET in
  let '(clvl, cache) := ntc_colorize env isatty mode cache 2 code in
  Some (dim ++ tbuf ++ bs "." ++ fmt_03d ms ++ reset ++ bs " " ++ clvl ++ bs "[" ++ fmt_5s name ++ bs "]" ++ reset ++ bs " " ++
        text ++ [10], cache).

(** What is remembered of the standard error is what would be found now. *)
Definition cache_ok (cache : list (option bool)) : Prop :=
  length cache = 3%nat /\ forall v, cache !! 2%nat = Some (Some v) -> fst (ntc_color_enabled_fd env isatty (-1) [None; None; None] 2) = v.

(** The decision for the standard error. *)
Definition stderr_colored : bool := fst (ntc_color_enabled_fd env isatty mode [None; None; None] 2).

Lemma colorize_decides cache code : cache_ok cache ->
  exists cache', ntc_colorize env isatty mode cache 2 code = (if stderr_colored then code else [], cache') /\ cache_ok cache'.
Proof.
  intros [Hl Hc]. unfold ntc_colorize, stderr_colored, ntc_color_enabled_fd in *. cbn match in Hc.
  destruct (0 <=? mode); [by exists cache|]. unfold detect_fd in *. cbn in Hc |- *.
  destruct cache as [|x [|y [|z [|]]]]; try done. cbn. destruct z as [v|].
  - specialize (Hc v eq_refl). eexists. split; [cbn in Hc; rewrite Hc; reflexivity|]. split; [done|]. by intros v' [= <-].
  - eexists. split; [reflexivity|]. split; [done|]. by intros v [= <-].
Qed.

(** One message is one line: the time, the level, the text and a line end, whatever the level's
    number. Without colour it has no escape code that the text does not bring. *)
Lemma log_line lvl tbuf nsec text cache : cache_ok cache ->
  exists line cache', ntc_log lvl tbuf nsec text cache = Some (line, cache') /\ cache_ok cache' /\
    (stderr_colored = false -> exists name, log_names !! Z.to_nat (log_index lvl) = Some name /\
      line = tbuf ++ bs "." ++ fmt_03d (nsec ÷ 1000000) ++ bs " [" ++ fmt_5s name ++ bs "] " ++ text ++ [10]).
Proof.
  intros Hc. unfold ntc_log.
  assert (0 <= log_index lvl <= 4) as Hi by (unfold log_index; destruct (_ || _) eqn:E; [lia|]; apply orb_false_iff in E as [?%Z.ltb_ge ?%Z.ltb_ge]; lia).
  destruct (lookup_lt_is_Some_2 log_names (Z.to_nat (log_index lvl))) as [name En]; [cbn; lia|].
  destruct (lookup_lt_is_Some_2 log_codes (Z.to_nat (log_index lvl))) as [code Ec]; [cbn; lia|].
  rewrite En, Ec. bind.
  destruct (colorize_decides cache NTC_ANSI_DIM Hc) as (c1 & -> & H1). destruct (colorize_decides c1 NTC_ANSI_RESET H1) as (c2 & -> & H2).
  destruct (colorize_decides c2 code H2) as (c3 & -> & H3). do 2 eexists. split; [done|]. split; [done|].
  intros ->. exists name. split; [done|]. done.
Qed.
End log.

Example log_error_line :
  fst <$> ntc_log (fun _ => None) (fun _ => false) (-1) 9 (bs "2026-01-02T03:04:05") 7000000 (bs "no listener") [None; None; None] =
  Some (bs "2026-01-02T03:04:05.007 [ERROR] no listener" ++ [10]).
Proof. vm_compute. reflexivity. Qed.

(** ** Signals *)

Inductive signal := SIGPIPE | SIGSEGV | SIGBUS | SIGFPE | SIGILL | SIGABRT | SigOther (n : Z).
#[export] Instance signal_eq_dec : EqDecision signal.
Proof. solve_decision. Defined.

(** What is set for a signal; [DoCrash] is [crash_handler], reset before it runs. *)
Inductive disposition := DoDefault | DoIgnore | DoCrash.
Definition dispositions : Type := signal -> disposition.
Definition set_signal (d : dispositions) (s : signal) (x : disposition) : dispositions :=
  fun t => if decide (t = s) then x else d t.

(** signal.c:35-50 [ntc_install_signal_handlers] *)
Definition ntc_install_signal_handlers (d : dispositions) : dispositions :=
  let d := set_signal d SIGPIPE DoIgnore in
  let d := set_signal d SIGSEGV DoCrash in
  let d := set_signal d SIGBUS DoCrash in
  let d := set_signal d SIGFPE DoCrash in
  let d := set_signal d SIGILL DoCrash in
  set_signal d SIGABRT DoCrash.

(** signal.c:16-23 [crash_handler, name] *)
Definition crash_name (s : signal) : bytes :=
  match s with
  | SIGSEGV => bs "SIGSEGV" | SIGBUS => bs "SIGBUS" | SIGFPE => bs "SIGFPE" | SIGILL => bs "SIGILL" | SIGABRT => bs "SIGABRT"
  | _ => bs "signal"
  end.

(** A process that runs, with what it wrote to the standard error; or one that a signal ended. *)
Inductive process := Runs (d : dispositions) (err : bytes) | Ended (s : signal) (err : bytes).

(** What the default action of a signal does. *)
Definition default_action (ends : signal -> bool) (s : signal) (d : dispositions) (err : bytes) : process :=
  if ends s then Ended s err else Runs d err.

(** signal.c:14-33 [crash_handler]. [frames] is the text of the backtrace. The signal that is
    raised waits until the handler returns. *)
Definition crash_handler (ends : signal -> bool) (frames : bytes) (s : signal) (d : dispositions) (err : bytes) : process :=
  let err := err ++ [10] ++ bs "[naitron-c] FATAL: caught " ++ crash_name s ++ bs " - backtrace:" ++ [10] ++ frames in
  let d := set_signal d s DoDefault in
  default_action ends s d err.

(** A signal that is delivered; [SA_RESETHAND] resets its handler first. *)
Definition deliver (ends : signal -> bool) (frames : bytes) (s : signal) (p : process) : process :=
  match p with
  | Ended _ _ => p
  | Runs d err =>
      match d s with
      | DoIgnore => p
      | DoDefault => default_action ends s d err
      | DoCrash => crash_handler ends frames s (set_signal d s DoDefault) err
      end
  end.

(** With the handlers installed a closed peer does not end the process; a crash is reported by
    name and ends it by its own signal; and every other signal does what it did. *)
Lemma signals_handled ends frames d err :
  let p := Runs (ntc_install_signal_handlers d) err in
  deliver ends frames SIGPIPE p = p /\
  (forall s, s ∈ [SIGSEGV; SIGBUS; SIGFPE; SIGILL; SIGABRT] -> ends s = true ->
    deliver ends frames s p =
      Ended s (err ++ [10] ++ bs "[naitron-c] FATAL: caught " ++ crash_name s ++ bs " - backtrace:" ++ [10] ++ frames)) /\
  (forall n, ntc_install_signal_handlers d (SigOther n) = d (SigOther n)).
Proof.
  split; [done|]. split; [|done]. intros s Hs He.
  repeat (apply elem_of_cons in Hs as [->|Hs]; [cbn; unfold crash_handler, default_action; by rewrite He|]).
  by apply elem_of_nil in Hs.
Qed.
