(* ===== verification/LoopProps.v ===== *)
(** * The event loop's theorem

    The gateway as a transition system: an event the poller can report, a tick of the
    watcher, a round of the supervisor, a sweep of the sessions, or new answers of the system.
    No reachable world faults. *)
From stdpp Require Import relations.
From S2P Require Import Prelude Update Err Slice Double Json Schema Crypto Jwt Http HttpRequest Middleware Session Wire Ws.
From S2P Require Import Inflight Gzip ServerState ServerConn ServerRelay ServerInv ServerProps Keeps Router Builtin Registry.
From S2P Require Import App Services Control Oauth Admin Dispatch DispatchTotal DispatchSafe RequestSafe RequestProps.
From S2P Require Import Events EventsSafe LoopSafe.
Open Scope Z_scope.

Section system.
Context {tls : Type} {TE : TlsEngine tls} {TL : TlsLaws tls} {SE : SigEngine} {SO : SigEngineOk}.
Context {db : Type} `{SQ : Sqlite db}.
Variable tdefl_compress : bytes -> option bytes.
Variable mz_crc32 : bytes -> Z.
Variable br_sha1 : bytes -> bytes.
Variable dashboard_html : bytes.
Local Abbreviation world := (gateway tls * app db)%type.
Implicit Types (w : world).

(** What the system is going to answer: the clock, the sockets, the allocator, the poller and
    the children. *)
Record answers := Answers {
  an_now : Z; an_sends : list send_outcome; an_recvs : list recv_outcome; an_allocs : list bool; an_polls : list bool;
  an_spawns : list spawn }.
Definition answers_ok (x : answers) (w : world) : Prop :=
  Forall recv_ok (an_recvs x) /\ - 2 ^ 63 <= Z.quot (an_now x - m_start_ms (g_m (fst w))) 1000 < 2 ^ 63.
Definition refresh (x : answers) (w : world) : world :=
  ((fst w) <| g_now := an_now x |> <| g_sends := an_sends x |> <| g_recvs := an_recvs x |> <| g_allocs := an_allocs x |>
         <| g_polls := an_polls x |>, (snd w) <| a_spawns := an_spawns x |>).

(** The events of the public ports and of the controllers: the poller reports descriptors that
    are open, and [calloc] answers addresses that are free. *)
Inductive enabled : world -> sys -> event tls -> Prop :=
  | en_accept g a e is_admin is_tls l :
      NoDup (arrivals l) -> Forall (fun p => g_conns g !! p = None) (arrivals l) ->
      enabled (g, a) e (EvAccept is_admin is_tls l)
  | en_ctrl g a e k ct ev : g_ctrls g !! k = Some ct -> enabled (g, a) e (EvCtrl k ev)
  | en_client g a e p c ev :
      g_conns g !! p = Some c -> c_is_admin c = false -> env_ok (y_mw e) -> enabled (g, a) e (EvClient p ev).

Local Abbreviation handle_event e fuel ev := (on_event tdefl_compress mz_crc32 br_sha1 dashboard_html e fuel ev).
Local Abbreviation watch fs wa := (lift (dev_tick tdefl_compress mz_crc32 fs wa)).

Inductive step : world -> world -> Prop :=
  | step_event e fuel ev w w' : enabled w e ev -> handle_event e fuel ev w = Some (tt, w') -> step w w'
  | step_watch fs wa wa' w w' : watch fs wa w = Some (wa', w') -> step w w'
  | step_supervise w w' : spawns_fresh (fst w) (a_spawns (snd w)) -> supervise w = Some (tt, w') -> step w w'
  | step_sweep time w w' : sweep_sessions time w = Some (tt, w') -> step w w'
  | step_answers x w : answers_ok x w -> step w (refresh x w).

(** Everything the loop can do next is done without a fault. *)
Record never_stuck (w : world) : Prop := NeverStuck {
  ns_event e fuel ev : enabled w e ev -> is_Some (handle_event e fuel ev w);
  ns_watch fs wa : is_Some (watch fs wa w);
  ns_supervise : spawns_fresh (fst w) (a_spawns (snd w)) -> is_Some (supervise w);
  ns_sweep time : is_Some (sweep_sessions time w) }.

(** ** Every step keeps the world *)

Lemma wp_event e fuel ev w : world_ok w -> enabled w e ev -> wp (handle_event e fuel ev) (fun _ w' => world_ok w') w.
Proof.
  intros [W Ha] En. destruct En as [g a e is_admin is_tls l Hd Hf|g a e k ct ev Hk|g a e p c ev Hc Had He]; cbn [fst snd on_event] in *.
  - eapply wp_mono; [apply (world_lift _ g a (fun _ _ => True)); [apply keeps_accept_conns|done|]|by intros [] w []].
    eapply wp_mono; [by apply wp_accept_conns|done].
  - eapply wp_mono; [apply (world_lift _ g a (fun _ _ => True)); [apply keeps_on_ctrl_event|done|]|by intros [] w []].
    eapply wp_mono; [by eapply wp_on_ctrl_event|done].
  - by eapply wp_on_client_event.
Qed.

Lemma wp_watch fs wa w : world_ok w -> wp (watch fs wa) (fun _ w' => world_ok w') w.
Proof.
  destruct w as [g a]. intros [W Ha]. cbn [fst snd] in *.
  eapply wp_mono; [apply (world_lift _ g a (fun _ _ => True)); [apply keeps_dev_tick|done|]|by intros x w []].
  eapply wp_mono; [by apply wp_dev_tick|done].
Qed.

Lemma wp_supervise w : world_ok w -> spawns_fresh (fst w) (a_spawns (snd w)) -> wp supervise (fun _ w' => world_ok w') w.
Proof. intros Hw Hf. eapply wp_mono; [by apply (loop_supervise (length (g_services (fst w))))|]. by intros _ w' []. Qed.

Lemma world_refresh x w : world_ok w -> answers_ok x w -> world_ok (refresh x w).
Proof.
  destruct w as [g a]. intros [W Ha] [Hr Ht]. cbn [fst snd] in *. split; cbn [fst snd refresh].
  - refine (same_core_wf g _ _ W). by split.
  - destruct Ha. by split.
Qed.

Lemma wp_run {A} (m : St world A) (P : world -> Prop) x w w' : wp m (fun _ w => P w) w -> m w = Some (x, w') -> P w'.
Proof. intros (y & w2 & E & H) E'. congruence. Qed.

Lemma step_world w w' : world_ok w -> step w w' -> world_ok w'.
Proof.
  intros Hw S. destruct S as [e fuel ev w w' En E|fs wa wa' w w' E|w w' F E|time w w' E|x w Hx].
  - eapply wp_run; [by eapply wp_event|exact E].
  - eapply wp_run; [by apply wp_watch|exact E].
  - eapply wp_run; [by apply wp_supervise|exact E].
  - eapply wp_run; [by apply wp_sweep|exact E].
  - by apply world_refresh.
Qed.

Lemma wp_some {A} (m : St world A) Q w : wp m Q w -> is_Some (m w).
Proof. intros (x & w' & E & _). by exists (x, w'). Qed.

Lemma world_never_stuck w : world_ok w -> never_stuck w.
Proof.
  intros Hw. split.
  - intros e fuel ev En. by eapply wp_some, wp_event.
  - intros fs wa. by eapply wp_some, wp_watch.
  - intros F. by eapply wp_some, wp_supervise.
  - intros time. by eapply wp_some, wp_sweep.
Qed.

End system.

